(* ===== verification/_CoqProject ===== *)
-Q . S2P
Prelude.v
Decimal.v
Json.v
JsonText.v
BigInteger.v
DubboJson.v
HessianToJson.v
DubboEcho.v
DubboContext.v
DubboResponse.v
Effects.v
DubboUpstream.v
DubboPool.v
Http.v
CacheBase.v
HttpCacheEntry.v
LruCache.v
LocalCache.v
RedisCache.v
CacheSender.v
CircuitBreaker.v
CacheConfig.v
SuperCache.v
CacheService.v
Factories.v
Regex.v
IpRestriction.v
ProxyMatcher.v
HeaderRestriction.v
LocalLimit.v
TrafficMark.v
StaticDowngrade.v
Downgrade.v
ServiceDowngrade.v
DynamicDowngrade.v
HeaderRewrite.v
MetadataHub.v
EscapeFilter.v
DetailedStats.v
Waf.v
RiderContext.v
RiderFilter.v
RiderProofs.v
RiderSafety.v
RiderVm.v
LuaState.v
Clients.v
