(* ===== verification/Prelude.v ===== *)
(** * Verification of the Hango gateway data plane extensions

    The repository (source/) extends the Envoy proxy with filters, an upstream
    that speaks Dubbo, and libraries they share.  This library translates the parts
    that carry logic of their own into executable definitions and proves what they
    promise.  Envoy, rapidjson, the Hessian codec, hiredis, librdkafka, RE2, OpenSSL,
    LuaJIT, ModSecurity and the clock are not part of the repository: they are
    parameters of the definitions, type classes with laws, or events of a machine.

    ** The parts

    - The Dubbo bridge turns an HTTP request into a Dubbo request and a Dubbo
      response into an HTTP response.
      DubboJson: JSON arguments as Hessian values, converters per Java type, generic
      type annotations (common/dubbo/utility.cc 72-274, 656-663, 694-748).
      BigInteger, HessianToJson: the way back, over an object graph with references
      (utility.cc 276-642).  A graph is a store of objects, the history set is
      threaded as the code mutates it, and the output is the list of calls on the
      JSON writer.  DubboEcho composes both directions: a document sent and returned.
      DubboContext: configuration, argument getters, bytes of a request
      (utility.cc, bridge/dubbo/simple/config.cc).
      DubboResponse: framing, heartbeats and the kinds of responses (utility.cc).
      DubboUpstream: the upstream request itself
      (upstreams/http/dubbo/upstream_request.{h,cc}), in a monad of state, calls on
      its neighbours and exceptions, as a machine whose events are the callbacks of
      the connection pool, the connection, the router and the dispatcher.
      DubboPool: the pool that finds its connection, and its calls for flow control.
    - The response caches.  CacheBase states the interfaces of cache_base.h as
      classes; HttpCacheEntry, LruCache and LocalCache implement them; RedisCache has
      the asynchronous Redis client (common/redis/async_client.{h,cc}) and the cache
      on it; CacheSender (common/sender/cache_request_sender.{h,cc}) asks several
      caches in turn and fills them, written against the interface only;
      SuperCache (filters/http/super_cache) is the filter on top and its
      administration handler; CacheConfig makes the caches a configuration lists
      (common/cache/cache_config.cc).  CacheService composes them: many streams with
      a filter and a sender each on the same caches, through the interface only.
    - CircuitBreaker: rolling numbers (common/stats/rolling_number.cc), breakers,
      their manager and the filter (filters/http/circuit_breaker).
    - The filters that replace responses.  StaticDowngrade answers from its
      configuration (filters/http/static_downgrade).  Downgrade has the helpers and
      the request sender of common/http and common/sender, the interface of a filter
      that asks another service first, and the theorems about every such filter;
      ServiceDowngrade and DynamicDowngrade are its two instances
      (filters/http/service_downgrade, dynamic_downgrade); the dynamic one also asks
      CacheSender and stores responses there.
    - The filters that refuse or change requests.  IpRestriction and its regular
      expressions (Regex); ProxyMatcher (common/http/proxy_matcher), used by
      HeaderRestriction and most others; LocalLimit with the token buckets of
      common/common; HeaderRewrite with extractors, templates and the URL;
      TrafficMark; MetadataHub with typed metadata (common/metadata) and plain
      states (common/filter_state).
    - The filters that observe.  EscapeFilter (filters/access_log/escape_filter);
      DetailedStats (filters/http/detailed_stats), in Module Scopes the cache of
      shared scopes, in Module Detailed the filter.
    - Waf, Module Firewall: the application firewall (filters/http/waf) with its two
      transactions of ModSecurity.
    - Rider, the Lua filter (filters/http/rider).  RiderContext: the functions a
      script calls on its stream, in both versions of the interface; RiderFilter:
      wrappers, coroutines and callbacks, and the threads that many filters share;
      RiderProofs and RiderSafety: a rule per operation, a lemma per event, the
      invariant of a thread; RiderVm: loading of plugins and machines of a thread;
      LuaState: the utilities that set up a Lua state (rider/common.h), its threads
      and the sandboxes of its coroutines, over the calls of the C API.
    - Factories: the factories of the filters (config.h, config.cc, *_factory.h of
      each), their messages and classes, and how a route's configuration is found.
    - Clients: the Kafka producer and the blocking Redis client (common/kafka,
      common/redis/client), which nothing else of the repository uses.
    - Decimal, Json, JsonText and Http hold what all of them use of C++ and of the
      proxy: decimal text, JSON values and writer calls, header maps and replies.
      JsonText states what the code relies on of writing and parsing documents and has
      a writer and a reader that satisfy it.  In Http a header map keeps one value of a
      header the proxy predefines, to which adding another appends it behind a
      separator, and a list of values of any other; an executable map with such
      headers satisfies the laws, so that every law can hold.
      Effects is the monad of programs with state, calls and exceptions that
      DubboUpstream and RiderFilter are written in, with its rules of reasoning.

    ** State and operations

    A class of the source is a record with the names of its members; a method is a
    definition that takes and returns the record, together with the calls it makes
    on other objects as a list of effects.  Exceptions and undefined behaviour are
    values of [outcome]; a pointer that may be null is an option; uint32_t and
    uint64_t are integers with [u32] and [u64] where the code computes.  An object
    that callbacks reach later (the upstream, the sender, the Redis client) has an
    event type and a step function, and its theorems are about all sequences of
    events its environment allows; the environment's promises are the guards of the
    steps and are named there.  No filter of the repository handles trailers: for those
    whose theorems depend on it (Rider, Downgrade and its instances, Waf) trailers are
    events that pass as the inherited callbacks let them.

    ** What the theorems show

    - Exactly once: the upstream answers the router at most once and is silent after
      its end, the request is written once; a cache lookup is answered at most once,
      by the first cache that has the key; the cache filter answers a request or
      lets it pass, never both; no Redis lookup is lost or answered twice, whatever
      happens to the connection, as long as its replies can be loaded; an open breaker
      answers a request once.  A client whose response may be replaced sees the
      original or the replacement, and the body of one only, but loses the body when
      the original ends with trailers; scripts answer a request at most once; the
      firewall answers at most once, and without trailers nothing of a request
      passes that rules in force have not let through; the pool's stream is told
      once, unless it cancels, and no request is leaked.
    - Composition: in every interleaving of streams on common caches what is served
      came whole from upstream for a request with the same key, and no event fails;
      a document that a Dubbo service returns as it got it reaches the client as it
      was sent, less what [kept] lists; the configuration of a route reaches the filter it
      is for, except that of the traffic mark filter, which always throws.
    - Liveness: a response that is held back is resumed by every outcome of the
      request it waits for; no stream waits for the caches longer than there are
      caches; a limited entry recovers; a request with scripts has been
      passed on or answered, or its script waits for a call the host can end.
    - Refinement: the LRU cache with its node list, dictionary and byte count behaves
      like a most-recently-used-first list with eviction; framing of Dubbo messages
      does not depend on the pieces in which bytes arrive; what the filter stores
      does not depend on the pieces of a body; the firewall handles a request as a
      reference monitor does that shows the rules every part once and in order; the
      sandboxes of a plugin behave like environments of machine, plugin and coroutine.
    - What filters change: IP addresses pass exactly as the list says, in terms of
      numbers, where none of its entries is a range the filter drops; a rewriter
      changes its target only, by its operation, and a request is what its rewriters
      leave one after another; marks, metadata
      and filter state hold exactly what the configuration names; scopes are shared
      exactly by equal metadata, in every order of construction and destruction, and
      every stream is counted once with the tags of its response; handles of plugins
      find their functions in the machine they belong to.
    - Types and invariants: arguments are the values of the request, or defaults where
      it gives none, and have the kind their Java type admits; writer
      calls form one JSON value; the connection is reused only after a clean
      response; handlers of the administration port belong to live configurations.
    - Round trips: cache entries through their text, filling and looking up, BigInteger text, escaped
      header values, header maps of scripts, nodes of a Redis configuration.
    - Bounds and termination: depth of converted JSON, bytes held by the caches,
      eviction, requests that pass a limit in any period, periods sent to Redis, retries of the
      Redis client, conversion of acyclic object graphs.
    - Errors: no exception of a script leaves the Lua filter.  Where the
      code does not do what it means to, a theorem says what it does
      ([hessian_json_cycle_diverges], [dubbo_double_response],
      [dubbo_bare_end_ignored], [cache_key_collisions], [super_cache_fill_marks],
      [redis_insert_ttl], [redis_lost_while_authenticating], [redis_lookup_lost],
      [v2_answers_after_passing], [v1_answers_after_trailers], [waf_response_leaks],
      [waf_trailers_pass], [replaced_before_trailers], [dropped_entry_passes],
      [deep_cut], [versioned_plugin_leaks], [traffic_mark_route_throws]).

    ** Fuel

    Loops that are not structural take a bound and give [OutOfFuel] beyond it.
    Theorems show that the bounds suffice: [skipHeartbeats] and [Lru.recall_loop]
    run on the length of their buffer or list, [decimal] and [collect_groups] on
    bounds of the size of the number, and the Hessian conversion on the depth of the
    unfolded graph, which exists when the graph is acyclic; for a cyclic graph no
    fuel suffices, which is the point of that theorem.

    ** Not modelled

    The base classes and the registry that the factories plug into belong to the
    proxy; Factories states how it calls them.  What a configuration message contains
    is a record here: its protobuf text and validation are generated.  The text that
    LuaJIT, ModSecurity, RE2 and the template engine work on is theirs: a script is
    the tree of calls it makes, a rule what it answers, and a Lua state is seen
    through the stacks, tables and tables of globals that the manual describes.  The
    header files that only declare an interface (rider/context_interfaces.h) have no
    definitions of their own; what implements them is modelled.  Logging and
    statistics are left out, except counters that are part of what a theorem says.
    Messages with trailers are outside of the other filters' models; there a response
    that ends with trailers is not recorded (SuperCache) or has no new body
    (StaticDowngrade).
    CacheSender takes its regular expressions as a parameter, so that its theorems
    hold for any. *)

From Stdlib Require Import Ascii.
From stdpp Require Import base gmap strings numbers list.

(** ** Outcomes of C++ code *)

(** A C++ call returns a value, throws an exception (with its [what()] text),
    or has no defined result: a null pointer is dereferenced, an element out
    of range is read.  The third case is kept apart from the second, because
    the callers' [catch] clauses do not see it.  [OutOfFuel] is the result of a
    bounded run of a loop or of a recursion that did not end within the bound. *)
Inductive outcome (A : Type) : Type :=
| Ok (a : A)
| Throw (what : string)
| Undefined (why : string)
| OutOfFuel.
Arguments Ok {A} a.
Arguments Throw {A} what.
Arguments Undefined {A} why.
Arguments OutOfFuel {A}.

Definition obind {A B} (o : outcome A) (f : A -> outcome B) : outcome B :=
  match o with
  | Ok a => f a
  | Throw w => Throw w
  | Undefined w => Undefined w
  | OutOfFuel => OutOfFuel
  end.

Declare Scope proxy_scope.
Delimit Scope proxy_scope with proxy.
Notation "'let*' x ':=' c 'in' k" := (obind c (fun x => k))
  (at level 10, x binder, c at level 200, k at level 200) : proxy_scope.

Lemma Ok_inj {A} (a b : A) : Ok a = Ok b -> a = b.
Proof. by intros [= ->]. Qed.

(** A sequence succeeds when its parts do: [H : obind c k = Ok r] gives [c]'s value. *)
Ltac invert_bind H :=
  match type of H with
  | obind ?r _ = Ok _ => let x := fresh "r" in let E := fresh "E" in
      destruct r as [x|?|?|] eqn:E; cbn [obind] in H; [|done..]
  end.

Definition is_ok {A} (o : outcome A) : bool :=
  match o with Ok _ => true | _ => false end.

(** ** Machine integers *)

Definition u8 (z : Z) : Z := (z mod 2 ^ 8)%Z.
Definition u32 (z : Z) : Z := (z mod 2 ^ 32)%Z.
Definition u64 (z : Z) : Z := (z mod 2 ^ 64)%Z.

Lemma u32_small z : (0 <= z < 2 ^ 32)%Z -> u32 z = z.
Proof. apply Z.mod_small. Qed.
Lemma u64_small z : (0 <= z < 2 ^ 64)%Z -> u64 z = z.
Proof. apply Z.mod_small. Qed.
Lemma u32_range z : (0 <= u32 z < 2 ^ 32)%Z.
Proof. by apply Z.mod_pos_bound. Qed.
Lemma u64_range z : (0 <= u64 z < 2 ^ 64)%Z.
Proof. by apply Z.mod_pos_bound. Qed.

(** Arithmetic that does not wrap: [autorewrite with width], side conditions by [lia]. *)
Create HintDb width.
Create Rewrite HintDb width.
#[export] Hint Rewrite u32_small u64_small using lia : width.
#[export] Hint Resolve u32_range u64_range : width.

(** ** Strings *)

(** The [const char*] view of a string: up to the first NUL character. *)
Fixpoint c_str (s : string) : string :=
  match s with
  | EmptyString => EmptyString
  | String a s' => if decide (a = Ascii.zero) then EmptyString else String a (c_str s')
  end.

Fixpoint string_forallb (P : ascii -> bool) (s : string) : bool :=
  match s with EmptyString => true | String a s' => P a && string_forallb P s' end.

(** [absl::AsciiStrToLower] *)
Definition lower_ascii (a : ascii) : ascii :=
  let n := nat_of_ascii a in
  if (65 <=? n)%nat && (n <=? 90)%nat then ascii_of_nat (n + 32) else a.
Fixpoint to_lower (s : string) : string :=
  match s with EmptyString => EmptyString | String a s' => String (lower_ascii a) (to_lower s') end.

(** [absl::StrSplit(s, c)], and with [SkipEmpty]. *)
Fixpoint split_from (c : ascii) (acc : string) (s : string) : list string :=
  match s with
  | EmptyString => [acc]
  | String a s' =>
      if decide (a = c) then acc :: split_from c "" s'
      else split_from c (acc +:+ String a EmptyString) s'
  end.
Definition split (c : ascii) (s : string) : list string := split_from c "" s.
Definition split_skip_empty (c : ascii) (s : string) : list string :=
  filter (fun t => t ≠ "") (split c s).

(** [absl::StartsWith] *)
Fixpoint starts_with (s p : string) {struct p} : bool :=
  match p, s with
  | EmptyString, _ => true
  | String a p', String b s' => bool_decide (a = b) && starts_with s' p'
  | String _ _, EmptyString => false
  end.

Lemma starts_with_spec s p : starts_with s p = true <-> exists t, s = p +:+ t.
Proof.
  revert s. induction p as [|a p IH]; intros s; cbn [starts_with].
  - split; [intros _; by exists s|done].
  - destruct s as [|b s]; [split; [done|]; by intros [t [=]]|].
    rewrite andb_true_iff, bool_decide_eq_true, IH. split.
    + intros [-> [t ->]]. by exists t.
    + intros [t [= -> ->]]. split; [done|]. by exists t.
Qed.

Lemma c_str_id s : string_forallb (fun a => bool_decide (a ≠ Ascii.zero)) s = true -> c_str s = s.
Proof.
  induction s as [|a s IH]; [done|]. cbn [string_forallb c_str].
  intros [Ha Hs]%andb_prop. apply bool_decide_eq_true in Ha.
  rewrite decide_False by done. f_equal. auto.
Qed.

Lemma string_app_assoc s t u : (s +:+ t) +:+ u = s +:+ (t +:+ u).
Proof. induction s as [|a s IH]; [done|]. exact (f_equal (String a) IH). Qed.

Lemma string_app_nil s : s +:+ "" = s.
Proof. induction s as [|a s IH]; [done|]. exact (f_equal (String a) IH). Qed.

Lemma string_forallb_app P s t : string_forallb P (s +:+ t) = string_forallb P s && string_forallb P t.
Proof.
  induction s as [|a s IH]; [done|].
  change (P a && string_forallb P (s +:+ t) = P a && string_forallb P s && string_forallb P t).
  by rewrite IH, andb_assoc.
Qed.

(** ** Lists *)

Lemma filter_all {A} (P : A -> Prop) `{!forall x, Decision (P x)} (l : list A) :
  Forall P l -> filter P l = l.
Proof.
  induction 1 as [|x l Hx _ IH]; [done|]. by rewrite filter_cons, decide_True, IH.
Qed.

Lemma Forall_filter {A} (P Q : A -> Prop) `{!forall x, Decision (Q x)} (l : list A) :
  Forall P l -> Forall P (filter Q l).
Proof.
  rewrite !Forall_forall. intros HP x Hx. apply list_elem_of_filter in Hx as [_ Hx]. by apply HP.
Qed.

Lemma prefix_fmap {A B} (f : A -> B) (l k : list A) : l `prefix_of` k -> f <$> l `prefix_of` f <$> k.
Proof. intros [l' ->]. exists (f <$> l'). apply fmap_app. Qed.
