(* ===== verification/Decimal.v ===== *)
(** * Decimal rendering of integers

    [std::to_string] and [fmt::format("{:0>9}")], with the value of a string of
    digits as their specification. *)

From S2P Require Import Prelude.
From Stdlib Require Import Ascii.
From stdpp Require Import base gmap strings numbers list.
From Stdlib Require Import ZArith.
#[local] Open Scope Z_scope.

Definition digit (d : Z) : Ascii.ascii := Ascii.ascii_of_nat (48 + Z.to_nat d).
Definition digit_value (a : Ascii.ascii) : Z := Z.of_nat (Ascii.nat_of_ascii a) - 48.
Definition is_digit (a : Ascii.ascii) : bool :=
  let z := digit_value a in (0 <=? z) && (z <=? 9).

Fixpoint decimal (fuel : nat) (n : Z) (acc : string) : string :=
  let acc' := String (digit (n mod 10)) acc in
  match fuel with
  | O => acc'
  | S f => if n <? 10 then acc' else decimal f (n / 10) acc'
  end.

(** [std::to_string] of a non negative integer. *)
Definition to_string_nonneg (n : Z) : string := decimal (Z.to_nat (Z.log2 n)) n "".
Definition to_string (n : Z) : string :=
  if n <? 0 then String "-"%char (to_string_nonneg (- n)) else to_string_nonneg n.

Fixpoint zeros (n : nat) (s : string) : string :=
  match n with O => s | S n' => String "0"%char (zeros n' s) end.

(** [fmt::format("{:0>w}", s)]: fill with zeros on the left up to width [w]. *)
Definition pad_left (w : nat) (s : string) : string := zeros (w - String.length s) s.

(** The number a string of digits denotes, most significant digit first. *)
Fixpoint dec_value_from (acc : Z) (s : string) : Z :=
  match s with
  | EmptyString => acc
  | String a s' => dec_value_from (10 * acc + digit_value a) s'
  end.
Definition dec_value (s : string) : Z := dec_value_from 0 s.

Fixpoint all_digits (s : string) : bool :=
  match s with EmptyString => true | String a s' => is_digit a && all_digits s' end.

(** The usual notation of a non negative number: digits only, not empty, no
    superfluous zero in front. *)
Definition canonical_decimal (s : string) : Prop :=
  all_digits s = true /\ s ≠ "" /\ (forall s', s = String "0"%char s' -> s' = "").

Lemma digit_value_digit d : 0 <= d < 10 -> digit_value (digit d) = d.
Proof.
  intros Hd. unfold digit_value, digit. rewrite Ascii.nat_ascii_embedding; lia.
Qed.

Lemma is_digit_digit d : 0 <= d < 10 -> is_digit (digit d) = true.
Proof. intros Hd. unfold is_digit. rewrite digit_value_digit by done. lia. Qed.

Lemma dec_value_from_acc s acc :
  dec_value_from acc s = acc * 10 ^ Z.of_nat (String.length s) + dec_value s.
Proof.
  unfold dec_value. revert acc. induction s as [|a s IH]; intros acc.
  - cbn [dec_value_from String.length]. lia.
  - cbn [dec_value_from String.length]. rewrite IH, (IH (10 * 0 + _)).
    rewrite Nat2Z.inj_succ, Z.pow_succ_r by lia. ring.
Qed.

Lemma dec_value_app s t :
  dec_value (s +:+ t) = dec_value s * 10 ^ Z.of_nat (String.length t) + dec_value t.
Proof.
  enough (forall acc, dec_value_from acc (s +:+ t) =
    dec_value_from acc s * 10 ^ Z.of_nat (String.length t) + dec_value t) as H by apply H.
  induction s as [|a s IH]; intros acc; cbn [String.append dec_value_from].
  - apply dec_value_from_acc.
  - apply IH.
Qed.

Lemma decimal_value fuel n acc :
  0 <= n < 10 ^ (Z.of_nat fuel + 1) ->
  dec_value (decimal fuel n acc) = n * 10 ^ Z.of_nat (String.length acc) + dec_value acc.
Proof.
  revert n acc. induction fuel as [|f IH]; intros n acc Hn; cbn [decimal].
  - change (10 ^ (Z.of_nat 0 + 1)) with 10 in Hn. rewrite Z.mod_small by lia.
    unfold dec_value at 1. cbn [dec_value_from]. rewrite digit_value_digit by lia.
    by rewrite dec_value_from_acc.
  - pose proof (Z.mod_pos_bound n 10 ltac:(lia)).
    destruct (Z.ltb_spec n 10) as [Hlt|Hge].
    + unfold dec_value at 1. cbn [dec_value_from].
      rewrite Z.mod_small, digit_value_digit by lia. by rewrite dec_value_from_acc.
    + rewrite IH.
      * cbn [String.length]. unfold dec_value at 1. cbn [dec_value_from].
        rewrite digit_value_digit, dec_value_from_acc by lia.
        rewrite Nat2Z.inj_succ, Z.pow_succ_r by lia.
        pose proof (Z.div_mod n 10 ltac:(lia)). nia.
      * split; [apply Z.div_pos; lia|]. apply Z.div_lt_upper_bound; [lia|].
        rewrite Nat2Z.inj_succ in Hn. replace (Z.succ (Z.of_nat f) + 1) with (Z.succ (Z.of_nat f + 1)) in Hn by lia.
        rewrite Z.pow_succ_r in Hn by lia. lia.
Qed.

Lemma fuel_enough n : 0 <= n -> 0 <= n < 10 ^ (Z.of_nat (Z.to_nat (Z.log2 n)) + 1).
Proof.
  intros Hn. split; [done|]. pose proof (Z.log2_nonneg n).
  rewrite Z2Nat.id by lia. destruct (decide (n = 0)) as [->|Hn0]; [done|].
  pose proof (Z.log2_spec n ltac:(lia)) as [_ Hlt].
  eapply Z.lt_le_trans; [exact Hlt|]. replace (Z.log2 n + 1) with (Z.succ (Z.log2 n)) by lia.
  apply Z.pow_le_mono_l. lia.
Qed.

Lemma to_string_nonneg_value n : 0 <= n -> dec_value (to_string_nonneg n) = n.
Proof.
  intros Hn. unfold to_string_nonneg. rewrite decimal_value by by apply fuel_enough.
  cbn [String.length dec_value dec_value_from]. lia.
Qed.

Lemma decimal_digits fuel n acc :
  all_digits acc = true -> all_digits (decimal fuel n acc) = true.
Proof.
  revert n acc. induction fuel as [|f IH]; intros n acc Ha; cbn [decimal];
    pose proof (Z.mod_pos_bound n 10 ltac:(lia)).
  - cbn [all_digits]. by rewrite is_digit_digit, Ha.
  - destruct (_ <? _); [|apply IH]; cbn [all_digits]; by rewrite is_digit_digit, Ha.
Qed.

Lemma to_string_nonneg_digits n : all_digits (to_string_nonneg n) = true.
Proof. by apply decimal_digits. Qed.

Lemma decimal_head fuel n acc :
  0 < n < 10 ^ (Z.of_nat fuel + 1) ->
  exists a s, decimal fuel n acc = String a s /\ a ≠ "0"%char.
Proof.
  assert (Hd : forall d, 0 < d < 10 -> digit d ≠ "0"%char).
  { intros d Hd Heq. apply (f_equal digit_value) in Heq.
    rewrite digit_value_digit in Heq by lia. change (digit_value "0"%char) with 0 in Heq. lia. }
  revert n acc. induction fuel as [|f IH]; intros n acc Hn; cbn [decimal].
  - change (10 ^ (Z.of_nat 0 + 1)) with 10 in Hn. rewrite Z.mod_small by lia. eauto.
  - destruct (Z.ltb_spec n 10) as [Hlt|Hge].
    + rewrite Z.mod_small by lia. eauto with lia.
    + apply IH. split; [apply Z.div_str_pos; lia|]. apply Z.div_lt_upper_bound; [lia|].
      rewrite Nat2Z.inj_succ in Hn. replace (Z.succ (Z.of_nat f) + 1) with (Z.succ (Z.of_nat f + 1)) in Hn by lia.
      rewrite Z.pow_succ_r in Hn by lia. lia.
Qed.

Lemma decimal_length fuel n acc w :
  0 <= n < 10 ^ Z.of_nat (S w) -> (String.length (decimal fuel n acc) <= S w + String.length acc)%nat.
Proof.
  revert n acc w. induction fuel as [|f IH]; intros n acc w Hn; cbn [decimal].
  - cbn [String.length]. lia.
  - destruct (Z.ltb_spec n 10) as [Hlt|Hge]; [cbn [String.length]; lia|].
    destruct w as [|w]; [change (10 ^ Z.of_nat 1) with 10 in Hn; lia|].
    etrans; [apply (IH _ _ w)|cbn [String.length]; lia].
    split; [apply Z.div_pos; lia|]. apply Z.div_lt_upper_bound; [lia|].
    rewrite Nat2Z.inj_succ, Z.pow_succ_r in Hn by lia. lia.
Qed.

Lemma to_string_nonneg_length n w :
  0 <= n < 10 ^ Z.of_nat (S w) -> (String.length (to_string_nonneg n) <= S w)%nat.
Proof.
  intros Hn. unfold to_string_nonneg. etrans; [by apply (decimal_length _ _ _ w)|].
  cbn [String.length]. lia.
Qed.

Lemma zeros_length n s : String.length (zeros n s) = (n + String.length s)%nat.
Proof. induction n; simpl; lia. Qed.

Lemma pad_left_length w s :
  (String.length s <= w)%nat -> String.length (pad_left w s) = w.
Proof. intros Hs. unfold pad_left. rewrite zeros_length. lia. Qed.

Lemma pad_left_value w s : dec_value (pad_left w s) = dec_value s.
Proof.
  unfold pad_left, dec_value. induction (w - String.length s)%nat as [|n IH]; [done|].
  cbn [zeros dec_value_from]. exact IH.
Qed.

Lemma pad_left_digits w s : all_digits (pad_left w s) = all_digits s.
Proof. unfold pad_left. induction (w - String.length s)%nat as [|n IH]; [done|]. exact IH. Qed.

Lemma all_digits_app s t : all_digits (s +:+ t) = all_digits s && all_digits t.
Proof.
  induction s as [|a s IH]; [done|].
  change (is_digit a && all_digits (s +:+ t) = is_digit a && all_digits s && all_digits t).
  by rewrite IH, andb_assoc.
Qed.

Lemma to_string_nonneg_canonical n : 0 <= n -> canonical_decimal (to_string_nonneg n).
Proof.
  intros Hn. split; [apply to_string_nonneg_digits|].
  destruct (decide (n = 0)) as [->|Hn0].
  - split; [done|]. intros s' [= <-]. done.
  - unfold to_string_nonneg.
    destruct (decimal_head (Z.to_nat (Z.log2 n)) n "") as (a & s & -> & Ha).
    { pose proof (fuel_enough n Hn). lia. }
    split; [done|]. congruence.
Qed.
