(* ===== verification/Json.v ===== *)
(** * JSON documents and the calls of a JSON writer

    The JSON library is not part of the code base.  [json] is the tagged union
    its [Value::GetType()] distinguishes, [wevent] the calls the code makes on
    a [Writer]; the text a sequence of calls produces and the parser are
    parameters of the definitions that use them. *)

From S2P Require Import Prelude.
From Stdlib Require Import Ascii SpecFloat.
From stdpp Require Import base gmap strings numbers list.

(** An IEEE 754 binary64 number. *)
Abbreviation double := spec_float (only parsing).

(** A number token: stored as an integer when it fits one of the 64 bit integer
    types, as a double otherwise. *)
Inductive jnumber :=
| NInt (z : Z)
| NDouble (d : double).

Inductive json :=
| JNull
| JBool (b : bool)
| JNumber (n : jnumber)
| JString (s : string)
| JArray (l : list json)
| JObject (l : list (string * json)).

Section json_ind.
Variable P : json -> Prop.
Hypothesis Hnull : P JNull.
Hypothesis Hbool : forall b, P (JBool b).
Hypothesis Hnum : forall n, P (JNumber n).
Hypothesis Hstr : forall s, P (JString s).
Hypothesis Harr : forall l, Forall P l -> P (JArray l).
Hypothesis Hobj : forall l, Forall (fun p => P p.2) l -> P (JObject l).

Fixpoint json_nested_ind (j : json) : P j :=
  match j with
  | JNull => Hnull
  | JBool b => Hbool b
  | JNumber n => Hnum n
  | JString s => Hstr s
  | JArray l =>
      Harr l ((fix go (l : list json) : Forall P l :=
        match l with
        | [] => Forall_nil_2 P
        | x :: l' => Forall_cons_2 P x l' (json_nested_ind x) (go l')
        end) l)
  | JObject l =>
      Hobj l ((fix go (l : list (string * json)) : Forall (fun p => P p.2) l :=
        match l with
        | [] => Forall_nil_2 _
        | x :: l' => Forall_cons_2 _ x l' (json_nested_ind x.2) (go l')
        end) l)
  end.
End json_ind.

(** Nesting depth: a scalar has depth 0. *)
Fixpoint json_depth (j : json) : nat :=
  match j with
  | JArray l => S (list_max (map json_depth l))
  | JObject l => S (list_max (map (fun p => json_depth p.2) l))
  | _ => 0
  end.

(** The type predicates of [Value]. *)
Definition in_int32 (z : Z) : bool := (- 2 ^ 31 <=? z)%Z && (z <? 2 ^ 31)%Z.
Definition in_int64 (z : Z) : bool := (- 2 ^ 63 <=? z)%Z && (z <? 2 ^ 63)%Z.

Definition IsNull (v : json) : bool := match v with JNull => true | _ => false end.
Definition IsBool (v : json) : bool := match v with JBool _ => true | _ => false end.
Definition IsNumber (v : json) : bool := match v with JNumber _ => true | _ => false end.
Definition IsInt (v : json) : bool :=
  match v with JNumber (NInt z) => in_int32 z | _ => false end.
Definition IsInt64 (v : json) : bool :=
  match v with JNumber (NInt z) => in_int64 z | _ => false end.
Definition IsString (v : json) : bool := match v with JString _ => true | _ => false end.
Definition IsArray (v : json) : bool := match v with JArray _ => true | _ => false end.
Definition IsObject (v : json) : bool := match v with JObject _ => true | _ => false end.
Definition GetStringLength (v : json) : nat :=
  match v with JString s => String.length s | _ => 0 end.

(** [GetDouble]: an integer is converted, rounding to nearest. *)
Definition double_of_Z (z : Z) : double := binary_normalize 53 1024 z 0 false.
Definition GetDouble (n : jnumber) : double :=
  match n with NInt z => double_of_Z z | NDouble d => d end.

(** [FindMember]: the first member with that name. *)
Definition find_member (name : string) (l : list (string * json)) : option json :=
  snd <$> head (filter (fun p => p.1 = name) l).

(** ** Writer calls *)

Inductive wevent :=
| WNull
| WBool (b : bool)
| WInt (z : Z)
| WInt64 (z : Z)
| WDouble (d : double)
| WString (s : string)
| WRawValue (s : string)
| WKey (s : string)
| WStartObject
| WEndObject
| WStartArray
| WEndArray.

(** The calls that write exactly one value.  [String] may stand for [Key] at
    the name of a member, as it does in the code. *)
Inductive wf_value : list wevent -> Prop :=
| wf_null : wf_value [WNull]
| wf_bool b : wf_value [WBool b]
| wf_int z : wf_value [WInt z]
| wf_int64 z : wf_value [WInt64 z]
| wf_double d : wf_value [WDouble d]
| wf_string s : wf_value [WString s]
| wf_raw s : wf_value [WRawValue s]
| wf_array es : wf_values es -> wf_value ([WStartArray] ++ es ++ [WEndArray])
| wf_object es : wf_members es -> wf_value ([WStartObject] ++ es ++ [WEndObject])
with wf_values : list wevent -> Prop :=
| wf_values_nil : wf_values []
| wf_values_cons e es : wf_value e -> wf_values es -> wf_values (e ++ es)
with wf_members : list wevent -> Prop :=
| wf_members_nil : wf_members []
| wf_members_string k e es :
    wf_value e -> wf_members es -> wf_members ([WString k] ++ e ++ es)
| wf_members_key k e es :
    wf_value e -> wf_members es -> wf_members ([WKey k] ++ e ++ es).

Create HintDb json.
#[export] Hint Constructors wf_value wf_values wf_members : json.

Lemma wf_values_app es es' : wf_values es -> wf_values es' -> wf_values (es ++ es').
Proof.
  intros H. induction H as [|e es He Hes IH]; [done|]. intros Hes'.
  rewrite <-app_assoc. by constructor; auto.
Qed.

Lemma wf_members_app es es' : wf_members es -> wf_members es' -> wf_members (es ++ es').
Proof.
  intros H. induction H as [|k e es He Hes IH|k e es He Hes IH]; [done|..]; intros Hes';
    rewrite <-!app_assoc; constructor; auto.
Qed.
#[export] Hint Resolve wf_values_app wf_members_app : json.
