(* ===== verification/JsonText.v ===== *)
(** * Text of JSON documents

    The code writes documents with the calls of a [Writer] and reads them with [Document::Parse].  What it relies on
    is a law, [JsonTextLaws]: the parser reads a document back from the text of the calls that write it.  Here is also
    a compact writer and a reader that satisfy it, so that the law can hold. *)

From S2P Require Import Prelude Decimal Json.
From Stdlib Require Import Ascii.
From stdpp Require Import base strings numbers list.

(** ** What the code relies on *)

(** The calls that write a document of objects, arrays, strings and constants, and which documents these are. *)
Fixpoint json_calls (v : json) : list wevent :=
  match v with
  | JNull => [WNull]
  | JBool b => [WBool b]
  | JNumber (NInt z) => [WInt64 z]
  | JNumber (NDouble d) => [WDouble d]
  | JString s => [WString s]
  | JArray l => [WStartArray] ++ flat_map json_calls l ++ [WEndArray]
  | JObject l => [WStartObject] ++ flat_map (fun p => WKey p.1 :: json_calls p.2) l ++ [WEndObject]
  end.

Fixpoint numberless (v : json) : bool :=
  match v with
  | JNumber _ => false
  | JArray l => forallb numberless l
  | JObject l => forallb (fun p => numberless p.2) l
  | _ => true
  end.

Class JsonTextLaws (write : list wevent -> string) (parse : string -> option json) := {
  parse_written : forall v, numberless v = true -> parse (write (json_calls v)) = Some v;
  parse_empty : parse "" = None;
}.

(** ** A writer *)

Definition char (n : nat) : ascii := ascii_of_nat n.
Definition hex_char (n : nat) : ascii := char (if (n <? 10)%nat then 48 + n else 55 + n).
Definition quote_char (c : ascii) (rest : string) : string :=
  let n := nat_of_ascii c in
  if ((n =? 34) || (n =? 92))%nat then String (char 92) (String c rest)
  else if (n <? 32)%nat then
    String (char 92) (String "u" (String "0" (String "0" (String (hex_char (n / 16)) (String (hex_char (n mod 16)) rest)))))
  else String c rest.
Fixpoint quote_chars (s rest : string) : string :=
  match s with EmptyString => String (char 34) rest | String c s' => quote_char c (quote_chars s' rest) end.
Definition quoted (s rest : string) : string := String (char 34) (quote_chars s rest).

(** Each open object or array, with the number of values in it; names of members count.  Doubles have no text here. *)
Definition levels : Type := list (bool * nat).
Definition separator (st : levels) : string :=
  match st with
  | (in_array, S n) :: _ => if in_array || Nat.even (S n) then "," else ":"
  | _ => ""
  end.
Definition counted (st : levels) : levels :=
  match st with (in_array, n) :: st' => (in_array, S n) :: st' | [] => [] end.

Fixpoint write_from (st : levels) (es : list wevent) : string :=
  match es with
  | [] => ""
  | e :: es' =>
      let value (text : string -> string) := separator st +:+ text (write_from (counted st) es') in
      match e with
      | WNull => value (String.append "null")
      | WBool b => value (String.append (if b then "true" else "false"))
      | WInt z | WInt64 z => value (String.append (to_string z))
      | WDouble _ => value (String.append "null")
      | WRawValue s => value (String.append s)
      | WString s | WKey s => value (quoted s)
      | WStartObject => separator st +:+ String "{" (write_from ((false, 0%nat) :: counted st) es')
      | WStartArray => separator st +:+ String "[" (write_from ((true, 0%nat) :: counted st) es')
      | WEndObject => String "}" (write_from (tail st) es')
      | WEndArray => String "]" (write_from (tail st) es')
      end
  end.
Definition compact_write : list wevent -> string := write_from [].

(** ** A reader *)

Definition hex_value (a : ascii) : nat :=
  let n := nat_of_ascii a in if (n <? 58)%nat then n - 48 else n - 55.

(** The text up to a quote, and what follows it. *)
Fixpoint read_chars (s : string) : option (string * string) :=
  match s with
  | EmptyString => None
  | String a rest =>
      let add c r := match r with Some (t, rest) => Some (String c t, rest) | None => None end in
      if (nat_of_ascii a =? 34)%nat then Some ("", rest)
      else if (nat_of_ascii a =? 92)%nat then
        match rest with
        | String b rest1 =>
            if (nat_of_ascii b =? 117)%nat then
              match rest1 with
              | String _ (String _ (String x (String y rest'))) =>
                  add (char (16 * hex_value x + hex_value y)) (read_chars rest')
              | _ => None
              end
            else add b (read_chars rest1)
        | EmptyString => None
        end
      else add a (read_chars rest)
  end.

(** The rest of [s] behind [p]. *)
Fixpoint behind (p s : string) : option string :=
  match p, s with
  | EmptyString, _ => Some s
  | String a p', String b s' => if decide (a = b) then behind p' s' else None
  | String _ _, EmptyString => None
  end.

Fixpoint read_value (fuel : nat) (s : string) : option (json * string) :=
  match fuel with
  | O => None
  | S n =>
      match s with
      | EmptyString => None
      | String a rest =>
          match nat_of_ascii a with
          | 34 => r ← read_chars rest; Some (JString r.1, r.2)
          | 110 => r ← behind "ull" rest; Some (JNull, r)
          | 116 => r ← behind "rue" rest; Some (JBool true, r)
          | 102 => r ← behind "alse" rest; Some (JBool false, r)
          | 91 =>
              match behind "]" rest with
              | Some r => Some (JArray [], r)
              | None => r ← read_items n rest; Some (JArray r.1, r.2)
              end
          | 123 =>
              match behind "}" rest with
              | Some r => Some (JObject [], r)
              | None => r ← read_members n rest; Some (JObject r.1, r.2)
              end
          | _ => None
          end
      end
  end
with read_items (fuel : nat) (s : string) : option (list json * string) :=
  match fuel with
  | O => None
  | S n =>
      v ← read_value n s;
      match behind "," v.2 with
      | Some rest => r ← read_items n rest; Some (v.1 :: r.1, r.2)
      | None => rest ← behind "]" v.2; Some ([v.1], rest)
      end
  end
with read_members (fuel : nat) (s : string) : option (list (string * json) * string) :=
  match fuel with
  | O => None
  | S n =>
      s ← behind (String (char 34) "") s;
      k ← read_chars s;
      s ← behind ":" k.2;
      v ← read_value n s;
      match behind "," v.2 with
      | Some rest => r ← read_members n rest; Some ((k.1, v.1) :: r.1, r.2)
      | None => rest ← behind "}" v.2; Some ([(k.1, v.1)], rest)
      end
  end.

Definition compact_parse (s : string) : option json :=
  match read_value (String.length s) s with Some (v, EmptyString) => Some v | _ => None end.

(** ** The law *)

(** The text of a document, followed by [rest]. *)
Section text.
Variable text : json -> string -> string.
Fixpoint items_text (l : list json) (rest : string) : string :=
  match l with [] => String "]" rest | x :: l' => String "," (text x (items_text l' rest)) end.
Fixpoint members_text (l : list (string * json)) (rest : string) : string :=
  match l with
  | [] => String "}" rest
  | p :: l' => String "," (quoted p.1 (String ":" (text p.2 (members_text l' rest))))
  end.
End text.
Fixpoint json_text (v : json) (rest : string) : string :=
  match v with
  | JNull => "null" +:+ rest
  | JBool b => (if b then "true" else "false") +:+ rest
  | JNumber (NInt z) => to_string z +:+ rest
  | JNumber (NDouble _) => "null" +:+ rest
  | JString s => quoted s rest
  | JArray [] => String "[" (String "]" rest)
  | JArray (x :: l) => String "[" (json_text x (items_text json_text l rest))
  | JObject [] => String "{" (String "}" rest)
  | JObject (p :: l) => String "{" (quoted p.1 (String ":" (json_text p.2 (members_text json_text l rest))))
  end.

Definition writes_as (v : json) : Prop :=
  forall st es, write_from st (json_calls v ++ es) = separator st +:+ json_text v (write_from (counted st) es).

Lemma even_double n : Nat.even (2 * n) = true.
Proof. by rewrite Nat.even_mul. Qed.
Lemma even_next n : Nat.even (S (2 * n)) = false.
Proof. rewrite Nat.even_succ, <- Nat.negb_even. by rewrite even_double. Qed.

Lemma items_written l n st es : Forall writes_as l ->
  write_from ((true, S n) :: st) (flat_map json_calls l ++ WEndArray :: es) = items_text json_text l (write_from st es).
Proof.
  intros Hl. revert n. induction Hl as [|x l Hx _ IH]; intros n; [done|].
  cbn [flat_map items_text]. rewrite <- app_assoc, Hx. cbn [separator counted orb]. by rewrite IH.
Qed.

Lemma members_written l n st es : Forall (fun p => writes_as p.2) l ->
  write_from ((false, 2 * S n)%nat :: st) (flat_map (fun p => WKey p.1 :: json_calls p.2) l ++ WEndObject :: es) =
    members_text json_text l (write_from st es).
Proof.
  intros Hl. revert n. induction Hl as [|p l Hp _ IH]; intros n; [done|].
  cbn [flat_map members_text]. rewrite <- !app_comm_cons, <- app_assoc. cbn [write_from].
  rewrite Hp. cbn [counted]. replace (S (S (2 * S n))) with (2 * S (S n))%nat by lia. rewrite IH.
  replace (separator ((false, 2 * S n)%nat :: st)) with ",".
  - replace (separator ((false, S (2 * S n)) :: st)) with ":"; [done|].
    cbn [separator orb]. by rewrite even_next.
  - change (2 * S n)%nat with (S (n + S (n + 0))). cbn [separator orb].
    change (S (n + S (n + 0))) with (2 * S n)%nat. by rewrite even_double.
Qed.

Lemma calls_written v : writes_as v.
Proof.
  induction v as [| |[]| |l Hl|l Hl] using json_nested_ind; intros st es; try done.
  - destruct l as [|x l]; [done|]. apply Forall_cons in Hl as [Hx Hl].
    cbn [json_calls json_text flat_map app write_from]. rewrite <- app_assoc, <- app_assoc, Hx. cbn [separator counted].
    cbn [app]. by rewrite items_written.
  - destruct l as [|p l]; [done|]. apply Forall_cons in Hl as [Hp Hl].
    cbn [json_calls json_text flat_map app write_from]. rewrite <- app_assoc, <- app_assoc, Hp. cbn [separator counted].
    cbn [app]. by rewrite (members_written l 0).
Qed.

(** Reading strings. *)
Lemma read_quote_char c s : read_chars (quote_char c s) =
  match read_chars s with Some (t, rest) => Some (String c t, rest) | None => None end.
Proof. destruct c as [[] [] [] [] [] [] [] []]; reflexivity. Qed.

Lemma read_quoted s rest : read_chars (quote_chars s rest) = Some (s, rest).
Proof. induction s as [|c s IH]; [done|]. cbn [quote_chars]. by rewrite read_quote_char, IH. Qed.

(** How deep the reader calls itself. *)
Fixpoint weight (v : json) : nat :=
  match v with
  | JArray l => S (list_sum (map (fun x => S (weight x)) l))
  | JObject l => S (list_sum (map (fun p => S (weight p.2)) l))
  | _ => 1
  end.

Definition reads_back (v : json) : Prop :=
  forall fuel rest, numberless v = true -> (weight v <= fuel)%nat -> read_value fuel (json_text v rest) = Some (v, rest).

Lemma read_items_text l x fuel rest : Forall reads_back (x :: l) -> forallb numberless (x :: l) = true ->
  (list_sum (map (fun x => S (weight x)) (x :: l)) <= fuel)%nat ->
  read_items fuel (json_text x (items_text json_text l rest)) = Some (x :: l, rest).
Proof.
  revert x fuel. induction l as [|y l IH]; intros x [|fuel]; cbn [map list_sum fold_right forallb]; intros Hall Hn Hf; try lia.
  all: apply Forall_cons in Hall as [Hx Hall]; apply andb_prop in Hn as [Hnx Hn].
  all: cbn [read_items items_text]; rewrite Hx by (done || lia); cbn [mbind option_bind fst snd].
  - done.
  - change (behind "," (String "," ?r)) with (Some r). cbv beta iota.
    rewrite IH; [done|done|done|]. cbn [map list_sum fold_right]. lia.
Qed.

Lemma read_members_text l p fuel rest : Forall (fun p => reads_back p.2) (p :: l) ->
  forallb (fun p => numberless p.2) (p :: l) = true ->
  (list_sum (map (fun p => S (weight p.2)) (p :: l)) <= fuel)%nat ->
  read_members fuel (quoted p.1 (String ":" (json_text p.2 (members_text json_text l rest)))) = Some (p :: l, rest).
Proof.
  revert p fuel. induction l as [|q l IH]; intros [k v] [|fuel]; cbn [map list_sum fold_right forallb fst snd]; intros Hall Hn Hf; try lia.
  all: apply Forall_cons in Hall as [Hx Hall]; apply andb_prop in Hn as [Hnx Hn]; cbn [fst snd] in *.
  all: unfold quoted at 1; cbn [read_members];
    change (behind (String (char 34) "") (String (char 34) ?r)) with (Some r); cbn [mbind option_bind];
    rewrite read_quoted; cbn [mbind option_bind fst snd];
    change (behind ":" (String ":" ?r)) with (Some r); cbn [mbind option_bind];
    rewrite Hx by (done || lia); cbn [mbind option_bind fst snd members_text].
  - done.
  - change (behind "," (String "," ?r)) with (Some r). cbv beta iota.
    rewrite IH; [done|done|done|]. cbn [map list_sum fold_right]. lia.
Qed.

Lemma text_read v : reads_back v.
Proof.
  induction v as [|b| |s|l Hl|l Hl] using json_nested_ind; intros [|fuel] rest Hn Hf; cbn [weight] in Hf; try lia.
  - done.
  - by destruct b.
  - done.
  - unfold json_text, quoted. cbn [read_value]. change (nat_of_ascii (char 34)) with 34%nat. cbv beta iota. by rewrite read_quoted.
  - destruct l as [|x l]; [done|]. cbn [json_text read_value]. change (nat_of_ascii "[") with 91%nat. cbv beta iota.
    assert (Hb : behind "]" (json_text x (items_text json_text l rest)) = None).
    { destruct x as [|[]|[]| |[]|[]]; try done. }
    rewrite Hb, read_items_text by (done || lia). done.
  - destruct l as [|p l]; [done|]. cbn [json_text read_value]. change (nat_of_ascii "{") with 123%nat. cbv beta iota.
    change (behind "}" (quoted ?a ?b)) with (@None string). cbv beta iota. by rewrite read_members_text by (done || lia).
Qed.

(** The length of the text bounds the depth. *)
Lemma quoted_length s rest : (2 + String.length rest <= String.length (quoted s rest))%nat.
Proof.
  unfold quoted. cbn [String.length]. induction s as [|c s IH]; cbn [quote_chars]; [cbn [String.length]; lia|].
  unfold quote_char. repeat case_match; cbn [String.length]; lia.
Qed.

Definition long_enough (v : json) : Prop := forall rest, (weight v + String.length rest <= String.length (json_text v rest))%nat.

Lemma items_length l rest : Forall long_enough l ->
  (list_sum (map (fun x => S (weight x)) l) + S (String.length rest) <= String.length (items_text json_text l rest))%nat.
Proof.
  intros Hl. unfold list_sum in *. induction Hl as [|x l Hx _ IH]; cbn [map fold_right items_text String.length]; [lia|].
  pose proof (Hx (items_text json_text l rest)). lia.
Qed.

Lemma members_length l rest : Forall (fun p => long_enough p.2) l ->
  (list_sum (map (fun p => S (weight p.2)) l) + S (String.length rest) <= String.length (members_text json_text l rest))%nat.
Proof.
  intros Hl. unfold list_sum in *. induction Hl as [|p l Hp _ IH]; cbn [map fold_right members_text String.length]; [lia|].
  pose proof (Hp (members_text json_text l rest)).
  pose proof (quoted_length p.1 (String ":" (json_text p.2 (members_text json_text l rest)))) as Hq. cbn [String.length] in Hq. lia.
Qed.

Lemma text_length v : numberless v = true -> long_enough v.
Proof.
  induction v as [|b| |s|l Hl|l Hl] using json_nested_ind; intros Hn rest; cbn [weight].
  - change (1 + String.length rest <= 4 + String.length rest)%nat. lia.
  - destruct b; [change (1 + String.length rest <= 4 + String.length rest)%nat|change (1 + String.length rest <= 5 + String.length rest)%nat]; lia.
  - done.
  - cbn [json_text]. pose proof (quoted_length s rest). lia.
  - assert (Hl' : Forall long_enough l).
    { cbn [numberless] in Hn. rewrite forallb_forall in Hn. rewrite Forall_forall in *. intros x Hx. apply Hl; [done|]. by apply Hn, list_elem_of_In. }
    destruct l as [|x l]; [cbn; lia|]. apply Forall_cons in Hl' as [Hx Hl']. unfold list_sum in *; cbn [json_text map fold_right String.length].
    pose proof (Hx (items_text json_text l rest)). pose proof (items_length l rest Hl'). unfold list_sum in *. lia.
  - assert (Hl' : Forall (fun p => long_enough p.2) l).
    { cbn [numberless] in Hn. rewrite forallb_forall in Hn. rewrite Forall_forall in *. intros x Hx. apply Hl; [done|]. by apply Hn, list_elem_of_In. }
    destruct l as [|p l]; [cbn; lia|]. apply Forall_cons in Hl' as [Hp Hl']. unfold list_sum in *; cbn [json_text map fold_right String.length].
    pose proof (Hp (members_text json_text l rest)). pose proof (members_length l rest Hl').
    pose proof (quoted_length p.1 (String ":" (json_text p.2 (members_text json_text l rest)))) as Hq. cbn [String.length] in Hq.
    unfold list_sum in *. lia.
Qed.

#[global] Instance compact_JsonTextLaws : JsonTextLaws compact_write compact_parse.
Proof.
  split; [|done]. intros v Hn. unfold compact_write, compact_parse.
  pose proof (calls_written v [] []) as Hw. rewrite app_nil_r in Hw. rewrite Hw. cbn [separator counted write_from].
  change ("" +:+ ?s) with s. pose proof (text_length v Hn "") as Hlen. cbn [String.length] in Hlen.
  by rewrite text_read by (done || lia).
Qed.
