(* ===== verification/BigInteger.v ===== *)
(** * Rendering of java.math.BigInteger (source/common/dubbo/utility.cc)

    A BigInteger arrives as its sign and its magnitude, big endian 32 bit words.
    [divideByWord] divides the magnitude in place by 10^9 and returns the
    remainder; repeating it yields the decimal digits in groups of nine. *)

From S2P Require Import Prelude Decimal Json.
From Stdlib Require Import Ascii.
From stdpp Require Import base gmap strings numbers list.
#[local] Open Scope Z_scope.

Definition LONG_LONG_MASK : Z := 0xffffffff.
Definition word_divisor : Z := 1000000000.

(** The [for] loop of [divideByWord] from index [i] on: [rest] are the words
    still to divide.  All arithmetic is on [uint64_t]. *)
Fixpoint divide_loop (i : nat) (rest : list Z) (from : nat) (remainder : Z)
    (previous_non_zero : bool) : list Z * nat * Z :=
  match rest with
  | [] => ([], from, remainder)
  | v :: rest' =>
      let tmp_dividend := Z.lor (u64 (Z.shiftl remainder 32)) v in
      let tmp_result := tmp_dividend / word_divisor in
      let tmp_remainder := u64 (tmp_dividend - u64 (tmp_result * word_divisor)) in
      let from' := if tmp_result =? 0 then (if previous_non_zero then from else S i) else from in
      let previous' := if tmp_result =? 0 then previous_non_zero else true in
      let r := divide_loop (S i) rest' from' tmp_remainder previous' in
      (tmp_result :: r.1.1, r.1.2, r.2)
  end.

(** [divideByWord(values, from)]: the new [values], the new [from], the result. *)
Definition divideByWord (values : list Z) (from : nat) : list Z * nat * Z :=
  let r := divide_loop from (drop from values) from 0 false in
  (take from values ++ r.1.1, r.1.2, r.2).

(** The [while] loop that collects the groups, least significant first. *)
Fixpoint collect_groups (fuel : nat) (values : list Z) (from : nat) : outcome (list Z) :=
  if (from <? length values)%nat then
    match fuel with
    | O => OutOfFuel
    | S fuel' =>
        let r := divideByWord values from in
        obind (collect_groups fuel' r.1.1 r.1.2) (fun groups => Ok (r.2 :: groups))
    end
  else Ok [].

(** Every round at least halves the magnitude. *)
Definition groups_fuel (values : list Z) : nat := S (32 * length values).

(** The [for] loop over the groups in reverse: all but the first are filled up
    to nine digits. *)
Definition groups_string (final_values : list Z) : string :=
  match rev final_values with
  | [] => ""
  | g :: gs =>
      fold_left (fun s g => s +:+ pad_left 9 (to_string_nonneg g)) gs (to_string_nonneg g)
  end.

(** [final_integer_str] for a sign that is not zero and the words as 32 bit
    signed integers. *)
Definition big_integer_string (sig : Z) (mag : list Z) : outcome string :=
  let values := map (fun z => Z.land (u64 z) LONG_LONG_MASK) mag in
  obind (collect_groups (groups_fuel values) values 0) (fun groups =>
    Ok ((if sig <? 0 then "-" else "") +:+ groups_string groups)).

(** ** Reference: the magnitude of big endian 32 bit words *)

Definition magnitude_from (acc : Z) (vs : list Z) : Z :=
  fold_left (fun acc v => acc * 2 ^ 32 + v) vs acc.
Definition magnitude (vs : list Z) : Z := magnitude_from 0 vs.

Definition is_word (v : Z) : Prop := 0 <= v < 2 ^ 32.

(** The number groups of nine digits denote, least significant group first. *)
Fixpoint groups_value (gs : list Z) : Z :=
  match gs with [] => 0 | g :: gs' => g + word_divisor * groups_value gs' end.

(** ** Lemmas *)

Lemma magnitude_from_acc vs acc :
  magnitude_from acc vs = acc * 2 ^ (32 * Z.of_nat (length vs)) + magnitude vs.
Proof.
  unfold magnitude, magnitude_from. revert acc. induction vs as [|v vs IH]; intros acc.
  - cbn [fold_left length]. rewrite Z.mul_0_r, Z.pow_0_r. lia.
  - cbn [fold_left length]. rewrite IH, (IH (0 * _ + v)), Nat2Z.inj_succ.
    replace (32 * Z.succ (Z.of_nat (length vs))) with (32 + 32 * Z.of_nat (length vs)) by lia.
    rewrite Z.pow_add_r by lia. ring.
Qed.

Lemma magnitude_cons v vs :
  magnitude (v :: vs) = v * 2 ^ (32 * Z.of_nat (length vs)) + magnitude vs.
Proof. unfold magnitude at 1, magnitude_from. cbn [fold_left]. apply magnitude_from_acc. Qed.

Lemma magnitude_zeros n vs :
  magnitude (replicate n 0 ++ vs) = magnitude vs.
Proof. induction n as [|n IH]; [done|]. cbn [replicate app]. rewrite magnitude_cons, IH. lia. Qed.

Lemma magnitude_bound vs :
  Forall is_word vs -> 0 <= magnitude vs < 2 ^ (32 * Z.of_nat (length vs)).
Proof.
  induction 1 as [|v vs Hv _ IH]; [done|]. rewrite magnitude_cons. cbn [length].
  rewrite Nat2Z.inj_succ. unfold is_word in Hv.
  replace (32 * Z.succ (Z.of_nat (length vs))) with (32 + 32 * Z.of_nat (length vs)) by lia.
  rewrite Z.pow_add_r by lia. nia.
Qed.

Lemma lor_shifted r v : is_word v -> Z.lor (r * 2 ^ 32) v = r * 2 ^ 32 + v.
Proof.
  intros Hv. assert (Hland : Z.land (r * 2 ^ 32) v = 0).
  { apply Z.bits_inj_0. intros n. rewrite Z.land_spec, <-Z.shiftl_mul_pow2 by lia.
    rewrite <-(Z.mod_small v (2 ^ 32)) by exact Hv.
    destruct (Z.ltb_spec n 0) as [|Hn0]; [by rewrite !Z.testbit_neg_r by done|].
    destruct (Z.ltb_spec n 32); [by rewrite Z.shiftl_spec_low by done|].
    rewrite (Z.mod_pow2_bits_high v) by lia. apply andb_false_r. }
  pose proof (Z.add_lor_land (r * 2 ^ 32) v). lia.
Qed.

(** One step of the loop in plain arithmetic. *)
Lemma divide_step r v :
  0 <= r < word_divisor -> is_word v ->
  Z.lor (u64 (Z.shiftl r 32)) v = r * 2 ^ 32 + v /\
  is_word ((r * 2 ^ 32 + v) / word_divisor) /\
  u64 (r * 2 ^ 32 + v - u64 ((r * 2 ^ 32 + v) / word_divisor * word_divisor))
    = (r * 2 ^ 32 + v) mod word_divisor.
Proof.
  intros Hr Hv. unfold u64, word_divisor in *. pose proof Hv as Hv'. unfold is_word in Hv' |- *.
  assert (Hd : 0 <= r * 2 ^ 32 + v < 1000000000 * 2 ^ 32) by lia.
  pose proof (Z.div_mod (r * 2 ^ 32 + v) 1000000000 ltac:(lia)) as Hdm.
  pose proof (Z.mod_pos_bound (r * 2 ^ 32 + v) 1000000000 ltac:(lia)) as Hm.
  split_and!.
  - rewrite Z.shiftl_mul_pow2, Z.mod_small by lia. by apply lor_shifted.
  - apply Z.div_pos; lia.
  - apply Z.div_lt_upper_bound; lia.
  - rewrite (Z.mod_small ((r * 2 ^ 32 + v) / 1000000000 * 1000000000)) by lia.
    rewrite Z.mod_small by lia. lia.
Qed.

(** The quotient and the remainder of the division. *)
Lemma divide_loop_value i rest from r p :
  0 <= r < word_divisor -> Forall is_word rest ->
  let q := (divide_loop i rest from r p).1.1 in
  let r' := (divide_loop i rest from r p).2 in
  length q = length rest /\ Forall is_word q /\ 0 <= r' < word_divisor /\
  magnitude_from r rest = word_divisor * magnitude q + r'.
Proof.
  intros Hr HF. revert i from r p Hr.
  induction HF as [|v rest Hv _ IH]; intros i from r p Hr; cbn [divide_loop fst snd].
  - unfold magnitude, magnitude_from. cbn. split_and!; [done|done|lia..].
  - destruct (divide_step r v Hr Hv) as (-> & Hq & ->).
    set (q := (r * 2 ^ 32 + v) / word_divisor) in *.
    set (r1 := (r * 2 ^ 32 + v) mod word_divisor).
    assert (Hr1 : 0 <= r1 < word_divisor) by (by apply Z.mod_pos_bound).
    edestruct (IH (S i)) as (Hlen & HFq & Hr' & Hval); [exact Hr1|].
    cbn zeta in *. split_and!; [|by constructor|exact (proj1 Hr')|exact (proj2 Hr')|].
    + cbn [length]. by rewrite Hlen.
    + rewrite magnitude_cons, Hlen, magnitude_from_acc.
      rewrite magnitude_from_acc in Hval. cbn [length]. rewrite magnitude_cons.
      pose proof (Z.div_mod (r * 2 ^ 32 + v) word_divisor ltac:(done)) as Hdm.
      fold q r1 in Hdm. rewrite Nat2Z.inj_succ.
      replace (32 * Z.succ (Z.of_nat (length rest)))
        with (32 + 32 * Z.of_nat (length rest)) by lia.
      rewrite Z.pow_add_r by lia. nia.
Qed.

(** [from] ends behind the leading zeros of the quotient. *)
Lemma divide_loop_from i rest from r p :
  Forall is_word rest -> 0 <= r < word_divisor ->
  let q := (divide_loop i rest from r p).1.1 in
  let from' := (divide_loop i rest from r p).1.2 in
  (p = true -> from' = from) /\
  (p = false -> from = i ->
    exists k q', from' = (i + k)%nat /\ q = replicate k 0 ++ q' /\
      (q' = [] \/ exists w q'', q' = w :: q'' /\ w ≠ 0)).
Proof.
  intros HF. revert i from r p. induction HF as [|v rest Hv _ IH]; intros i from r p Hr.
  - cbn. split; [done|]. intros _ ->. exists 0%nat, []. split_and!; [lia|done|by left].
  - cbn [divide_loop fst snd]. destruct (divide_step r v Hr Hv) as (-> & Hq & ->).
    set (w := (r * 2 ^ 32 + v) / word_divisor) in *.
    set (r1 := (r * 2 ^ 32 + v) mod word_divisor).
    assert (Hr1 : 0 <= r1 < word_divisor) by (by apply Z.mod_pos_bound).
    destruct (Z.eqb_spec w 0) as [Hw|Hw].
    + destruct (IH (S i) (if p then from else S i) r1 p Hr1) as [H1 H2]. split.
      * intros ->. by apply H1.
      * intros -> ->. destruct H2 as (k & q' & Hf & Hqq & Hend); [done..|].
        exists (S k), q'. split_and!; [lia| |done]. cbn [replicate app]. by rewrite Hw, Hqq.
    + destruct (IH (S i) from r1 true Hr1) as [H1 _]. rewrite (H1 eq_refl). split; [done|].
      intros -> ->. exists 0%nat. eexists. split_and!; [lia|done|]. right. eauto.
Qed.

Lemma groups_value_snoc gs g :
  groups_value (gs ++ [g]) = groups_value gs + g * word_divisor ^ Z.of_nat (length gs).
Proof.
  induction gs as [|x gs IH]; cbn [app groups_value length].
  - cbn [Z.of_nat]. rewrite Z.pow_0_r. lia.
  - rewrite IH, Nat2Z.inj_succ, Z.pow_succ_r by lia. ring.
Qed.

(** A round divides the magnitude by 10^9. *)
Lemma divideByWord_value n rest :
  Forall is_word rest ->
  let r := divideByWord (replicate n 0 ++ rest) n in
  exists k q', r.1.1 = replicate (n + k) 0 ++ q' /\ r.1.2 = (n + k)%nat /\
    Forall is_word q' /\ (q' = [] \/ exists w q'', q' = w :: q'' /\ w ≠ 0) /\
    0 <= r.2 < word_divisor /\
    magnitude rest = word_divisor * magnitude q' + r.2 /\
    length rest = (k + length q')%nat.
Proof.
  intros HF. unfold divideByWord.
  rewrite drop_app_length', take_app_length' by by rewrite length_replicate.
  cbn [fst snd].
  destruct (divide_loop_value n rest n 0 false ltac:(done) HF) as (Hlen & HFq & Hr & Hval).
  destruct (divide_loop_from n rest n 0 false HF ltac:(done)) as [_ (k & q' & Hf & Hq & Hend)];
    [done..|].
  cbn zeta in *. exists k, q'. rewrite Hf, Hq in *.
  split_and!; [|done| |done|exact (proj1 Hr)|exact (proj2 Hr)| |].
  - rewrite replicate_add, <-app_assoc. done.
  - by apply Forall_app in HFq as [_ ?].
  - by rewrite magnitude_zeros in Hval.
  - rewrite length_app, length_replicate in Hlen. lia.
Qed.

Definition nonzero_head (vs : list Z) : Prop := vs = [] \/ exists w vs', vs = w :: vs' /\ w ≠ 0.

Lemma magnitude_nonzero_head vs :
  Forall is_word vs -> nonzero_head vs -> vs ≠ [] -> 0 < magnitude vs.
Proof.
  intros HF [->|(w & vs' & -> & Hw)] Hne; [done|]. rewrite magnitude_cons.
  apply Forall_cons in HF as [Hw' HF]. unfold is_word in Hw'.
  pose proof (magnitude_bound vs' HF). nia.
Qed.

(** The last group is not zero, unless it is the only one. *)
Definition leading_group (gs : list Z) : Prop := forall g, last gs = Some g -> length gs = 1%nat \/ g ≠ 0.

(** The groups of a magnitude below [2^(fuel-1)]. *)
Lemma collect_groups_ok fuel n rest :
  Forall is_word rest -> nonzero_head rest \/ n = 0%nat ->
  magnitude rest < 2 ^ (Z.of_nat fuel - 1) -> (0 < fuel)%nat ->
  exists gs, collect_groups fuel (replicate n 0 ++ rest) n = Ok gs /\
    groups_value gs = magnitude rest /\ Forall (fun g => 0 <= g < word_divisor) gs /\
    (rest ≠ [] -> gs ≠ []) /\ leading_group gs /\
    (nonzero_head rest -> forall g, last gs = Some g -> g ≠ 0).
Proof.
  revert n rest. induction fuel as [|fuel IH]; intros n rest HF Hn Hlt Hfuel; [lia|].
  cbn [collect_groups]. rewrite length_app, length_replicate.
  destruct (Nat.ltb_spec n (n + length rest)) as [Hne|He].
  2: { destruct rest; [|cbn in He; lia]. exists []. unfold leading_group. by split_and!. }
  destruct (divideByWord_value n rest HF) as (k & q' & Hv & Hf & HFq & Hhead & Hr & Hmag & Hlen).
  cbn zeta in *. set (g := (divideByWord (replicate n 0 ++ rest) n).2) in *.
  rewrite Hv, Hf. pose proof (magnitude_bound q' HFq) as Hq0.
  assert (Hcase : q' = [] \/ (0 < magnitude q')%Z).
  { destruct (decide (q' = [])); [by left|right]. by apply magnitude_nonzero_head. }
  destruct Hcase as [->|Hpos].
  - exists [g]. assert (Hcg : collect_groups fuel (replicate (n + k) 0 ++ []) (n + k) = Ok []).
    { rewrite app_nil_r. destruct fuel; cbn [collect_groups];
        rewrite length_replicate, Nat.ltb_irrefl; done. }
    rewrite Hcg. cbn [obind groups_value]. change (magnitude []) with 0 in Hmag.
    split_and!; [done|lia|by apply Forall_singleton|done| |].
    + intros ? [= <-]. by left.
    + intros Hh g' [= <-]. pose proof (magnitude_nonzero_head rest HF Hh) as Hp.
      specialize (Hp ltac:(intros ->; cbn in Hne; lia)). lia.
  - assert (Hfuel' : (0 < fuel)%nat).
    { destruct fuel; [|lia]. change (2 ^ (Z.of_nat 1 - 1)) with 1 in Hlt.
      unfold word_divisor in *. lia. }
    destruct (IH (n + k)%nat q' HFq ltac:(by left)) as (gs & -> & Hgv & HFg & Hgne & _ & Hlast);
      [|done|].
    { replace (Z.of_nat (S fuel) - 1) with (Z.succ (Z.of_nat fuel - 1)) in Hlt by lia.
      rewrite Z.pow_succ_r in Hlt by lia. unfold word_divisor in *. nia. }
    assert (Hgne' : gs ≠ []) by (apply Hgne; intros ->; done).
    assert (Hl : forall g', last (g :: gs) = Some g' -> g' ≠ 0).
    { intros g'. destruct gs as [|g1 gs]; [done|]. rewrite last_cons_cons. by apply Hlast. }
    exists (g :: gs). cbn [obind groups_value]. rewrite Hgv.
    split_and!; [done|lia|by constructor|done| |done]. intros g' ?. right. by apply Hl.
Qed.

(** ** The string of the groups *)

Lemma fold_groups gs s :
  Forall (fun g => 0 <= g < word_divisor) gs -> all_digits s = true ->
  let r := fold_left (fun s g => s +:+ pad_left 9 (to_string_nonneg g)) gs s in
  dec_value r = dec_value s * word_divisor ^ Z.of_nat (length gs) + groups_value (rev gs) /\
  all_digits r = true /\ exists t, r = s +:+ t.
Proof.
  intros HF. revert s. induction HF as [|g gs Hg _ IH]; intros s Hs.
  - cbn [fold_left rev groups_value length Z.of_nat]. rewrite Z.pow_0_r.
    split_and!; [lia|done|]. exists "". by rewrite string_app_nil.
  - cbn [fold_left].
    assert (Hlen : String.length (pad_left 9 (to_string_nonneg g)) = 9%nat).
    { apply pad_left_length, (to_string_nonneg_length g 8). exact Hg. }
    destruct (IH (s +:+ pad_left 9 (to_string_nonneg g))) as (Hval & Hd & t & Ht).
    { by rewrite all_digits_app, pad_left_digits, to_string_nonneg_digits, Hs. }
    cbn zeta in *. split_and!; [|done|].
    + rewrite Hval, dec_value_app, Hlen, pad_left_value, to_string_nonneg_value by lia.
      change (10 ^ Z.of_nat 9) with word_divisor.
      cbn [length rev]. rewrite groups_value_snoc, length_rev, Nat2Z.inj_succ, Z.pow_succ_r by lia.
      ring.
    + rewrite Ht. eexists. apply string_app_assoc.
Qed.

Lemma groups_string_value gs :
  Forall (fun g => 0 <= g < word_divisor) gs -> gs ≠ [] -> leading_group gs ->
  dec_value (groups_string gs) = groups_value gs /\ canonical_decimal (groups_string gs).
Proof.
  intros HF Hne Hlead. destruct gs as [|g gs _] using rev_ind; [done|].
  apply Forall_app in HF as [HF Hg]. apply Forall_cons in Hg as [Hg _].
  specialize (Hlead g). rewrite last_snoc, length_app in Hlead. specialize (Hlead eq_refl).
  unfold groups_string. rewrite rev_app_distr. cbn [rev app].
  assert (HFr : Forall (fun g => 0 <= g < word_divisor) (rev gs)).
  { by apply Forall_rev. }
  destruct (fold_groups _ _ HFr (to_string_nonneg_digits g)) as (Hval & Hd & t & Ht).
  cbn zeta in *. rewrite Hval, rev_involutive, length_rev, to_string_nonneg_value by (apply Hg).
  rewrite groups_value_snoc. split; [lia|]. split; [done|].
  destruct (to_string_nonneg_canonical g (proj1 Hg)) as (_ & Hne' & Hz).
  destruct Hlead as [Hlen|Hg0].
  - assert (gs = []) as -> by (destruct gs; [done|cbn in Hlen; lia]). cbn [rev fold_left].
    by split.
  - rewrite Ht. destruct (to_string_nonneg g) as [|a s] eqn:Hs; [done|].
    split; [done|]. intros s' [= -> _]. exfalso.  specialize (Hz s eq_refl) as ->.
    pose proof (to_string_nonneg_value g (proj1 Hg)) as Hv0. rewrite Hs in Hv0.
    apply Hg0. symmetry. exact Hv0.
Qed.

Lemma words_of_mag mag : Forall is_word (map (fun z => Z.land (u64 z) LONG_LONG_MASK) mag).
Proof.
  apply Forall_forall. intros w Hw. apply list_elem_of_In, in_map_iff in Hw as (z & <- & _).
  unfold is_word. change LONG_LONG_MASK with (Z.ones 32). rewrite Z.land_ones by lia.
  by apply Z.mod_pos_bound.
Qed.

(** The decimal string of a magnitude of at least one word. *)
Lemma big_integer_groups vs :
  Forall is_word vs -> vs ≠ [] ->
  exists gs, collect_groups (groups_fuel vs) vs 0 = Ok gs /\
    dec_value (groups_string gs) = magnitude vs /\ canonical_decimal (groups_string gs).
Proof.
  intros HF Hne. pose proof (magnitude_bound vs HF) as Hb.
  destruct (collect_groups_ok (groups_fuel vs) 0 vs HF ltac:(by right))
    as (gs & Hc & Hv & HFg & Hgne & Hlead & _).
  { unfold groups_fuel. rewrite Nat2Z.inj_succ, Nat2Z.inj_mul.
    replace (Z.succ (Z.of_nat 32 * Z.of_nat (length vs)) - 1)
      with (32 * Z.of_nat (length vs)) by lia. lia. }
  { unfold groups_fuel. lia. }
  exists gs. split; [exact Hc|]. rewrite <-Hv. apply groups_string_value; auto.
Qed.

(** ** The property *)

(** C40. A BigInteger of any number of magnitude words is rendered exactly: the loop of in-place
    divisions ends, and an optional minus sign is followed by the canonical decimal notation of
    the number that the 32 bit words spell, big endian and without their signs, with no
    digit lost or added between the groups of nine.  (The code asserts that there is a
    word.) *)
Theorem big_integer_rendered (sig : Z) (mag : list Z) :
  mag ≠ [] ->
  exists digits,
    big_integer_string sig mag = Ok ((if sig <? 0 then "-" else "") +:+ digits) /\
    canonical_decimal digits /\
    dec_value digits = magnitude (map (fun z => z mod 2 ^ 32) mag).
Proof.
  intros Hne. unfold big_integer_string. set (vs := map _ mag).
  destruct (big_integer_groups vs) as (gs & -> & Hval & Hcan).
  { apply words_of_mag. }
  { unfold vs. by destruct mag. }
  exists (groups_string gs). split; [done|]. split; [done|]. rewrite Hval. f_equal.
  apply map_ext. intros z. change LONG_LONG_MASK with (Z.ones 32).
  rewrite Z.land_ones by lia. unfold u64. rewrite Z.mod_mod_divide; [done|].
  by exists (2 ^ 32).
Qed.

Lemma big_integer_rendered_witness :
  exists digits, big_integer_string (-1) [1; 0; -1] = Ok ("-" +:+ digits) /\
    canonical_decimal digits /\
    dec_value digits = 2 ^ 64 + 2 ^ 32 - 1.
Proof.
  destruct (big_integer_rendered (-1) [1; 0; -1] ltac:(done)) as (d & H1 & H2 & H3).
  exists d. split; [exact H1|]. split; [exact H2|]. rewrite H3. reflexivity.
Defined.
