(* ===== verification/DubboJson.v ===== *)
(** * JSON arguments as Hessian values (source/common/dubbo/utility.cc)

    The request side of the Dubbo bridge: the conversion of a JSON value into a
    Hessian value, the converters and checks selected by the declared Java
    type, and the generic type annotations written into the result.  The JSON
    parser and the JSON text of a value are parameters. *)

From S2P Require Import Prelude Json.
From Stdlib Require Import Ascii.
From stdpp Require Import base gmap strings numbers list.
#[local] Open Scope Z_scope.

(** The Hessian values this code builds.  The key of a map is always a
    [StringObject] here.  A map is given by its entries; it is a hash map, so
    that the order of the entries means nothing. *)
Inductive hessian :=
| HNull
| HBoolean (b : bool)
| HInteger (z : Z)
| HLong (z : Z)
| HDouble (d : double)
| HString (s : string)
| HUntypedList (l : list hessian)
| HUntypedMap (m : list (string * hessian)).

(** [find] and [emplace] of a map: the latter keeps an entry that exists. *)
Definition map_find (k : string) (m : list (string * hessian)) : option hessian :=
  snd <$> head (filter (fun p => p.1 = k) m).

Definition emplace (k : string) (v : hessian) (m : list (string * hessian)) :
  list (string * hessian) :=
  match map_find k m with
  | Some _ => m
  | None => m ++ [(k, v)]
  end.

(** ** Conversion of JSON values *)

Definition max_json_depth : nat := 50.

Fixpoint jsonValueToHessianValueInternal (ignore_null_map_pair : bool) (depth : nat) (value : json)
  {struct value} : hessian :=
  if (max_json_depth <=? depth)%nat then HNull
  else match value with
  | JNull => HNull
  | JBool b => HBoolean b
  | JNumber n =>
      match n with
      | NInt z => if in_int32 z then HInteger z
                  else if in_int64 z then HLong z
                  else HDouble (GetDouble n)
      | NDouble d => HDouble d
      end
  | JString s => HString s
  | JArray l =>
      HUntypedList (map (jsonValueToHessianValueInternal ignore_null_map_pair (S depth)) l)
  | JObject l =>
      HUntypedMap
        (fold_left (fun m pair =>
           if ignore_null_map_pair && IsNull pair.2 then m
           else emplace pair.1
                  (jsonValueToHessianValueInternal ignore_null_map_pair (S depth) pair.2) m)
           l [])
  end.

Definition JsonConverter := json -> bool -> outcome hessian.
Definition JsonTypeChecker := json -> bool.

Section Converters.
(** The parser of JSON text and the JSON text of a value. *)
Variable parse : string -> option json.
Variable debugStringOfJsonValue : json -> string.

Definition invalid_value (value : json) : outcome hessian :=
  Throw ("Dubbo bridge: value '" +:+ debugStringOfJsonValue value +:+
         "' is invalid for current type").

Definition loadableJsonConverter (type_checker : JsonTypeChecker) : JsonConverter :=
  fun value ignore_null_map_pair =>
    if type_checker value then
      Ok (jsonValueToHessianValueInternal ignore_null_map_pair 0 value)
    else match value with
    | JString s =>
        match parse s with
        | None => invalid_value value
        | Some inner_value =>
            if type_checker inner_value then
              Ok (jsonValueToHessianValueInternal ignore_null_map_pair 0 inner_value)
            else invalid_value value
        end
    | _ => invalid_value value
    end.

Definition strictJsonConverter (type_checker : JsonTypeChecker) : JsonConverter :=
  fun value ignore_null_map_pair =>
    if type_checker value then
      Ok (jsonValueToHessianValueInternal ignore_null_map_pair 0 value)
    else invalid_value value.

Definition stringJsonConverter : JsonConverter :=
  fun value ignore_null_map_pair =>
    if IsNull value || IsString value then
      Ok (jsonValueToHessianValueInternal ignore_null_map_pair 0 value)
    else Ok (HString (debugStringOfJsonValue value)).

(** The checker macros. *)
Definition NULL_OR_CHECKER (chk : json -> bool) : JsonTypeChecker := fun v => IsNull v || chk v.
Definition NOT_EMPTY_STRING : JsonTypeChecker :=
  fun v => IsString v && negb (GetStringLength v =? 0)%nat.
Definition NOT_EMPTY_STRING_OR_CHECKER (chk : json -> bool) : JsonTypeChecker :=
  fun v => (IsString v && negb (GetStringLength v =? 0)%nat) || chk v.
Definition NOT_EMPTY_STRING_OR_NULL_OR_CHECKER (chk : json -> bool) : JsonTypeChecker :=
  fun v => (IsString v && negb (GetStringLength v =? 0)%nat) || IsNull v || chk v.

Definition TypedJsonConverters : list (string * JsonConverter) := [
  ("java.lang.Boolean", loadableJsonConverter (NULL_OR_CHECKER IsBool));
  ("boolean", loadableJsonConverter IsBool);
  ("java.lang.Float", loadableJsonConverter (NULL_OR_CHECKER IsNumber));
  ("float", loadableJsonConverter IsNumber);
  ("java.lang.Double", loadableJsonConverter (NULL_OR_CHECKER IsNumber));
  ("double", loadableJsonConverter IsNumber);
  ("java.lang.Byte", loadableJsonConverter (NULL_OR_CHECKER IsInt));
  ("byte", loadableJsonConverter IsInt);
  ("java.lang.Short", loadableJsonConverter (NULL_OR_CHECKER IsInt));
  ("short", loadableJsonConverter IsInt);
  ("java.lang.Integer", loadableJsonConverter (NULL_OR_CHECKER IsInt64));
  ("int", loadableJsonConverter IsInt64);
  ("java.lang.Long", loadableJsonConverter (NULL_OR_CHECKER IsInt64));
  ("long", loadableJsonConverter IsInt64);
  ("java.lang.String", stringJsonConverter);
  ("java.lang.Character", strictJsonConverter (NOT_EMPTY_STRING_OR_CHECKER IsNull));
  ("char", strictJsonConverter NOT_EMPTY_STRING);
  ("java.lang.Enum", strictJsonConverter (NOT_EMPTY_STRING_OR_CHECKER IsNull));
  ("java.time.DayOfWeek", strictJsonConverter (NOT_EMPTY_STRING_OR_CHECKER IsNull));
  ("java.util.Date", strictJsonConverter (NOT_EMPTY_STRING_OR_NULL_OR_CHECKER IsNumber));
  ("java.math.BigDecimal", strictJsonConverter (NOT_EMPTY_STRING_OR_NULL_OR_CHECKER IsNumber));
  ("java.math.BigInteger", strictJsonConverter (NOT_EMPTY_STRING_OR_NULL_OR_CHECKER IsNumber));
  ("java.lang.Void", strictJsonConverter IsNull);
  ("java.util.List", loadableJsonConverter (NULL_OR_CHECKER IsArray));
  ("java.util.ArrayList", loadableJsonConverter (NULL_OR_CHECKER IsArray));
  ("java.util.LinkedList", loadableJsonConverter (NULL_OR_CHECKER IsArray));
  ("com.alibaba.fastjson.JSONArray", loadableJsonConverter (NULL_OR_CHECKER IsArray));
  ("java.util.Set", loadableJsonConverter (NULL_OR_CHECKER IsArray));
  ("java.util.HashSet", loadableJsonConverter (NULL_OR_CHECKER IsArray));
  ("java.util.TreeSet", loadableJsonConverter (NULL_OR_CHECKER IsArray));
  ("java.util.LinkedHashSet", loadableJsonConverter (NULL_OR_CHECKER IsArray));
  ("java.util.Map", loadableJsonConverter (NULL_OR_CHECKER IsObject));
  ("java.util.HashMap", loadableJsonConverter (NULL_OR_CHECKER IsObject));
  ("java.util.TreeMap", loadableJsonConverter (NULL_OR_CHECKER IsObject));
  ("java.util.LinkedHashMap", loadableJsonConverter (NULL_OR_CHECKER IsObject))
].

Definition find_converter (type : string) : option JsonConverter :=
  snd <$> head (filter (fun p => p.1 = type) TypedJsonConverters).

Definition jsonValueToHessianValue (value : json) (type : string) (ignore_map_null_value : bool) :
  outcome hessian :=
  match find_converter type with
  | Some converter => converter value ignore_map_null_value
  | None => Ok (jsonValueToHessianValueInternal ignore_map_null_value 0 value)
  end.

End Converters.

(** ** Generic type annotations *)

(** [populateSingleGenericType]: [*] selects every element of a list or map, a
    name the entry of that name; the selected maps get a "class" entry. *)
Fixpoint populateSingleGenericType (path : list string) (type : string) (ob : hessian) : hessian :=
  match path with
  | [] =>
      match ob with
      | HUntypedMap m => HUntypedMap (emplace "class" (HString type) m)
      | _ => ob
      end
  | first_sub_path :: rest =>
      if decide (first_sub_path = "*") then
        match ob with
        | HUntypedList l => HUntypedList (map (populateSingleGenericType rest type) l)
        | HUntypedMap m =>
            HUntypedMap (map (fun p => (p.1, populateSingleGenericType rest type p.2)) m)
        | _ => ob
        end
      else
        match ob with
        | HUntypedMap m =>
            HUntypedMap (map (fun p =>
              if decide (p.1 = first_sub_path)
              then (p.1, populateSingleGenericType rest type p.2) else p) m)
        | _ => ob
        end
  end.

Record GenericType := { path : string; splited_path : list string; type : string }.

Definition populateGenericTypes (generic_types : list GenericType) (ob : hessian) : hessian :=
  fold_left (fun ob g => populateSingleGenericType (splited_path g) (type g) ob) generic_types ob.

(** ** Reference definitions *)

(** The conversion without the depth limit; null pairs are dropped and of two
    members with the same name the first one counts. *)
Fixpoint json_to_hessian (ignore : bool) (v : json) : hessian :=
  match v with
  | JNull => HNull
  | JBool b => HBoolean b
  | JNumber (NInt z) =>
      if in_int32 z then HInteger z else if in_int64 z then HLong z else HDouble (double_of_Z z)
  | JNumber (NDouble d) => HDouble d
  | JString s => HString s
  | JArray l => HUntypedList (map (json_to_hessian ignore) l)
  | JObject l =>
      HUntypedMap (fold_left (fun m p =>
        if ignore && IsNull p.2 then m else emplace p.1 (json_to_hessian ignore p.2) m) l [])
  end.

Fixpoint hessian_depth (h : hessian) : nat :=
  match h with
  | HUntypedList l => S (list_max (map hessian_depth l))
  | HUntypedMap m => S (list_max (map (fun p => hessian_depth p.2) m))
  | _ => 0
  end.

(** The kinds of Hessian values a declared Java type admits. *)
Definition h_null (h : hessian) : bool := match h with HNull => true | _ => false end.
Definition h_bool (h : hessian) : bool := match h with HBoolean _ => true | _ => false end.
Definition h_int (h : hessian) : bool :=
  match h with HInteger z => in_int32 z | _ => false end.
Definition h_long (h : hessian) : bool :=
  match h with HInteger z => in_int32 z | HLong z => in_int64 z | _ => false end.
Definition h_number (h : hessian) : bool :=
  match h with HInteger _ | HLong _ | HDouble _ => true | _ => false end.
Definition h_string (h : hessian) : bool := match h with HString _ => true | _ => false end.
Definition h_text (h : hessian) : bool :=
  match h with HString s => negb (String.length s =? 0)%nat | _ => false end.
Definition h_list (h : hessian) : bool := match h with HUntypedList _ => true | _ => false end.
Definition h_map (h : hessian) : bool := match h with HUntypedMap _ => true | _ => false end.

Definition or_null (p : hessian -> bool) (h : hessian) : bool := h_null h || p h.

Definition java_types : list (string * (hessian -> bool)) := [
  ("java.lang.Boolean", or_null h_bool); ("boolean", h_bool);
  ("java.lang.Float", or_null h_number); ("float", h_number);
  ("java.lang.Double", or_null h_number); ("double", h_number);
  ("java.lang.Byte", or_null h_int); ("byte", h_int);
  ("java.lang.Short", or_null h_int); ("short", h_int);
  ("java.lang.Integer", or_null h_long); ("int", h_long);
  ("java.lang.Long", or_null h_long); ("long", h_long);
  ("java.lang.String", or_null h_string);
  ("java.lang.Character", or_null h_text); ("char", h_text);
  ("java.lang.Enum", or_null h_text); ("java.time.DayOfWeek", or_null h_text);
  ("java.util.Date", or_null (fun h => h_text h || h_number h));
  ("java.math.BigDecimal", or_null (fun h => h_text h || h_number h));
  ("java.math.BigInteger", or_null (fun h => h_text h || h_number h));
  ("java.lang.Void", h_null);
  ("java.util.List", or_null h_list); ("java.util.ArrayList", or_null h_list);
  ("java.util.LinkedList", or_null h_list); ("com.alibaba.fastjson.JSONArray", or_null h_list);
  ("java.util.Set", or_null h_list); ("java.util.HashSet", or_null h_list);
  ("java.util.TreeSet", or_null h_list); ("java.util.LinkedHashSet", or_null h_list);
  ("java.util.Map", or_null h_map); ("java.util.HashMap", or_null h_map);
  ("java.util.TreeMap", or_null h_map); ("java.util.LinkedHashMap", or_null h_map)
].

Definition type_admits (type : string) (h : hessian) : bool :=
  match snd <$> head (filter (fun p => p.1 = type) java_types) with
  | Some p => p h
  | None => true
  end.

(** The value at a path of map keys. *)
Fixpoint at_path (path : list string) (h : hessian) : option hessian :=
  match path with
  | [] => Some h
  | k :: rest =>
      match h with
      | HUntypedMap m => match map_find k m with Some v => at_path rest v | None => None end
      | _ => None
      end
  end.

(** ** Lemmas *)

Lemma fold_left_ext_in {A B} (f g : A -> B -> A) (l : list B) (a : A) :
  Forall (fun b => forall a, f a b = g a b) l -> fold_left f l a = fold_left g l a.
Proof. intros HF. revert a. induction HF as [|b l Hb _ IH]; intros a; [done|]. cbn. by rewrite Hb. Qed.

Lemma deep_enough d n : (d + n < max_json_depth)%nat -> (max_json_depth <=? d)%nat = false.
Proof. intros Hd. apply Nat.leb_gt. lia. Qed.

Lemma depth_members {A} (f : A -> nat) (l : list A) d :
  (d + S (list_max (map f l)) < max_json_depth)%nat ->
  Forall (fun x => (S d + f x < max_json_depth)%nat) l.
Proof.
  intros Hd. pose proof (proj1 (list_max_le (map f l) _) (le_n _)) as HF.
  rewrite Forall_map in HF. eapply Forall_impl; [exact HF|]. cbn. lia.
Qed.

Lemma conversion_shallow ig v d :
  (d + json_depth v < max_json_depth)%nat ->
  jsonValueToHessianValueInternal ig d v = json_to_hessian ig v.
Proof.
  revert d. induction v as [|b|n|s|l IH|l IH] using json_nested_ind; intros d Hd;
    pose proof (deep_enough _ _ Hd) as Hlt; cbn [jsonValueToHessianValueInternal json_to_hessian];
    rewrite Hlt; try done.
  - by destruct n.
  - cbn [json_depth] in Hd. apply depth_members in Hd. f_equal. apply map_ext_Forall.
    rewrite Forall_forall in *. auto.
  - cbn [json_depth] in Hd. apply (depth_members (fun p => json_depth p.2)) in Hd. f_equal.
    apply fold_left_ext_in. rewrite Forall_forall in *. intros p Hp m. by rewrite (IH p Hp _ (Hd p Hp)).
Qed.

Lemma emplace_Forall (P : string * hessian -> Prop) k v m :
  Forall P m -> P (k, v) -> Forall P (emplace k v m).
Proof.
  intros Hm Hk. unfold emplace. destruct (map_find k m); [done|].
  apply Forall_app. split; [done|]. by repeat constructor.
Qed.

(** The entries a conversion collects satisfy whatever the entries of the
    members satisfy. *)
Lemma fold_emplace_Forall (P : string * hessian -> Prop) ig (f : json -> hessian)
    (l : list (string * json)) m :
  Forall P m -> Forall (fun p => P (p.1, f p.2)) l ->
  Forall P (fold_left (fun m p => if ig && IsNull p.2 then m else emplace p.1 (f p.2) m) l m).
Proof.
  intros Hm HF. revert m Hm. induction HF as [|p l Hp _ IH]; intros m Hm; [done|].
  cbn. apply IH. destruct (ig && IsNull p.2); [done|]. by apply emplace_Forall.
Qed.

Lemma conversion_depth ig v d :
  (hessian_depth (jsonValueToHessianValueInternal ig d v) <= max_json_depth - d)%nat.
Proof.
  revert d. induction v as [|b|n|s|l IH|l IH] using json_nested_ind; intros d;
    cbn [jsonValueToHessianValueInternal]; destruct (Nat.leb_spec max_json_depth d) as [|Hd];
    try (cbn [hessian_depth]; lia).
  - destruct n as [z|]; [|cbn [hessian_depth]; lia]. repeat case_match; cbn [hessian_depth]; lia.
  - cbn [hessian_depth]. enough (list_max (map hessian_depth
      (map (jsonValueToHessianValueInternal ig (S d)) l)) <= max_json_depth - S d)%nat by lia.
    apply list_max_le. rewrite !Forall_map. eapply Forall_impl; [exact IH|]. eauto.
  - cbn [hessian_depth]. match goal with |- (S (list_max ?x) <= _)%nat =>
      enough (list_max x <= max_json_depth - S d)%nat by lia end.
    apply list_max_le. rewrite Forall_map.
    apply (fold_emplace_Forall (fun p => (hessian_depth p.2 <= max_json_depth - S d)%nat) ig
             (jsonValueToHessianValueInternal ig (S d))); [done|].
    eapply Forall_impl; [exact IH|]. eauto.
Qed.

(** ** Converters *)

Section ConverterLemmas.
Variable parse : string -> option json.
Variable text : json -> string.

Lemma loadable_sound (chk : json -> bool) (p : hessian -> bool) v ig h :
  (forall w, chk w = true -> p (jsonValueToHessianValueInternal ig 0 w) = true) ->
  loadableJsonConverter parse text chk v ig = Ok h -> p h = true.
Proof.
  intros Hchk. unfold loadableJsonConverter, invalid_value.
  repeat case_match; intros; simplify_eq; auto.
Qed.

Lemma strict_sound (chk : json -> bool) (p : hessian -> bool) v ig h :
  (forall w, chk w = true -> p (jsonValueToHessianValueInternal ig 0 w) = true) ->
  strictJsonConverter text chk v ig = Ok h -> p h = true.
Proof.
  intros Hchk. unfold strictJsonConverter, invalid_value.
  case_match; intros; simplify_eq; auto.
Qed.

Lemma string_sound v ig h :
  stringJsonConverter text v ig = Ok h -> or_null h_string h = true.
Proof. unfold stringJsonConverter. destruct v; cbn; intros [= <-]; done. Qed.

Lemma find_related {A B} (P : A -> B -> Prop) (l : list (string * A)) (k : list (string * B)) t :
  Forall2 (fun a b => a.1 = b.1 /\ P a.2 b.2) l k ->
  match snd <$> head (filter (fun p => p.1 = t) l), snd <$> head (filter (fun p => p.1 = t) k) with
  | Some a, Some b => P a b
  | None, None => True
  | _, _ => False
  end.
Proof.
  induction 1 as [|[s a] [s' b] l k [Hs HP] _ IH]; [done|]. cbn in Hs. subst s'.
  rewrite !filter_cons. cbn [fst]. by destruct (decide (s = t)).
Qed.

Ltac check_values :=
  let w := fresh in let Hw := fresh in
  intros w Hw; destruct w as [|?|[]|?| |]; cbn in *; try done;
  repeat (case_match; cbn in *; try done; try congruence);
  revert Hw; unfold NOT_EMPTY_STRING, NOT_EMPTY_STRING_OR_CHECKER,
    NOT_EMPTY_STRING_OR_NULL_OR_CHECKER; cbn; by destruct (_ =? 0)%nat.

Lemma converters_sound ig :
  Forall2 (fun c t => c.1 = t.1 /\ forall v h, c.2 v ig = Ok h -> t.2 h = true)
    (TypedJsonConverters parse text) java_types.
Proof.
  unfold TypedJsonConverters, java_types.
  repeat (apply Forall2_cons; split; [split; [done|]; intros v h; cbn [snd]|]); [..|constructor].
  all: first [ exact (string_sound v ig h)
             | apply loadable_sound; check_values
             | apply strict_sound; check_values ].
Qed.

End ConverterLemmas.

Lemma map_find_map (f : string -> hessian -> hessian) k m :
  map_find k (map (fun p => (p.1, f p.1 p.2)) m) = f k <$> map_find k m.
Proof.
  unfold map_find. induction m as [|[k' v] m IH]; [done|].
  cbn [map]. rewrite !filter_cons. cbn [fst snd].
  destruct (decide (k' = k)) as [->|]; [done|exact IH].
Qed.

Lemma map_find_emplace k k' v m :
  map_find k' (emplace k v m) =
  if decide (k = k') then Some (default v (map_find k m)) else map_find k' m.
Proof.
  unfold emplace. destruct (map_find k m) as [w|] eqn:Hk.
  - case_decide; subst; [done|done].
  - unfold map_find in *. rewrite filter_app.
    destruct (decide (k = k')) as [->|Hne].
    + destruct (filter (fun p => p.1 = k') m); [|done].
      rewrite filter_cons. cbn. by rewrite decide_True.
    + rewrite (filter_cons _ (k, v)). cbn [fst]. rewrite decide_False by done.
      by rewrite filter_nil, app_nil_r.
Qed.

Definition is_container (h : hessian) : bool := h_list h || h_map h.

(** The step a path component that is not [*] takes. *)
Definition annotate (k : string) (rest : list string) (t k' : string) (v : hessian) : hessian :=
  if decide (k' = k) then populateSingleGenericType rest t v else v.

Lemma populate_key k rest t m :
  k ≠ "*" ->
  populateSingleGenericType (k :: rest) t (HUntypedMap m) =
  HUntypedMap (map (fun p => (p.1, annotate k rest t p.1 p.2)) m).
Proof.
  intros Hk. cbn [populateSingleGenericType]. rewrite decide_False by done. f_equal.
  apply map_ext. intros [k' v]. unfold annotate. cbn. by case_decide.
Qed.

Lemma populate_keeps_scalars path t q ob h :
  at_path q ob = Some h -> is_container h = false ->
  at_path q (populateSingleGenericType path t ob) = Some h.
Proof.
  revert q ob. induction path as [|p path IH]; intros q ob Hq Hh.
  - destruct ob as [| | | | | | |m]; try done. cbn [populateSingleGenericType].
    destruct q as [|k q]; cbn [at_path] in *; [by injection Hq as <-|].
    rewrite map_find_emplace. destruct (map_find k m) as [w|] eqn:Hk; [|done].
    case_decide; [subst; by rewrite Hk|done].
  - destruct q as [|k q].
    { cbn [at_path] in Hq. injection Hq as ->. cbn [populateSingleGenericType].
      destruct h; try done; by case_decide. }
    destruct ob as [| | | | | | |m]; try done. cbn [at_path] in Hq.
    destruct (map_find k m) as [w|] eqn:Hk; [|done].
    destruct (decide (p = "*")) as [->|Hp].
    + cbn [populateSingleGenericType]. rewrite decide_True by done. cbn [at_path].
      rewrite (map_find_map (fun _ => populateSingleGenericType path t)), Hk. cbn. auto.
    + rewrite populate_key by done. cbn [at_path].
      rewrite (map_find_map (annotate p path t)), Hk. unfold annotate. cbn.
      case_decide; auto.
Qed.

Lemma populate_selected path t ob m :
  Forall (fun k => k ≠ "*") path ->
  at_path path ob = Some (HUntypedMap m) ->
  at_path path (populateSingleGenericType path t ob)
    = Some (HUntypedMap (emplace "class" (HString t) m)).
Proof.
  intros HF. revert ob. induction HF as [|k path Hk _ IH]; intros ob Hat.
  - cbn in Hat. by injection Hat as ->.
  - destruct ob as [| | | | | | |m']; try done. cbn [at_path] in Hat.
    destruct (map_find k m') as [w|] eqn:Hfind; [|done].
    rewrite populate_key by done. cbn [at_path].
    rewrite (map_find_map (annotate k path t)), Hfind. unfold annotate. cbn.
    rewrite decide_True by done. auto.
Qed.

(** The kind of a converted value. *)
Lemma conversion_admits parse text v t ig h :
  jsonValueToHessianValue parse text v t ig = Ok h -> type_admits t h = true.
Proof.
  pose proof (find_related (fun (c : JsonConverter) p => forall v h, c v ig = Ok h -> p h = true)
    _ _ t (converters_sound parse text ig)) as Hrel.
  unfold jsonValueToHessianValue, type_admits, find_converter.
  destruct (snd <$> head (filter _ (TypedJsonConverters parse text))) as [c|];
    destruct (snd <$> head (filter _ java_types)) as [p|]; try done.
  apply Hrel.
Qed.

(** ** Properties *)

(** Nothing of a request argument is lost or altered by the recursion: a
    JSON value nested less than fifty levels deep becomes exactly the Hessian
    value of the unbounded reference conversion. *)
Theorem json_conversion_exact (ignore : bool) (v : json) :
  (json_depth v < max_json_depth)%nat ->
  jsonValueToHessianValueInternal ignore 0 v = json_to_hessian ignore v.
Proof. intros Hd. by apply conversion_shallow. Qed.

Lemma json_conversion_exact_witness :
  jsonValueToHessianValueInternal true 0
    (JObject [("a", JNull); ("b", JArray [JNumber (NInt 5)]); ("b", JBool true)])
  = json_to_hessian true (JObject [("a", JNull); ("b", JArray [JNumber (NInt 5)]); ("b", JBool true)]).
Proof.
  apply (json_conversion_exact true
    (JObject [("a", JNull); ("b", JArray [JNumber (NInt 5)]); ("b", JBool true)])).
  vm_compute. lia.
Defined.

(** Whatever the nesting of the request, the converted argument is at most
    fifty levels deep. *)
Theorem json_conversion_depth (ignore : bool) (v : json) :
  (hessian_depth (jsonValueToHessianValueInternal ignore 0 v) <= max_json_depth)%nat.
Proof. pose proof (conversion_depth ignore v 0). lia. Qed.

(** C39. A converted argument has the kind its declared Java type admits: a
    boolean for boolean, a 32 bit integer for byte and short, a 64 bit integer
    for int and long, a non empty text for a character or an enum, a list for
    the list and set types, a map for the map types; null only for the boxed
    and reference types. *)
Theorem typed_conversion_sound (parse : string -> option json) (text : json -> string)
    (v : json) (type : string) (ignore : bool) (h : hessian) :
  jsonValueToHessianValue parse text v type ignore = Ok h -> type_admits type h = true.
Proof. apply conversion_admits. Qed.

Lemma typed_conversion_sound_witness :
  type_admits "int" (HLong (2 ^ 40)) = true.
Proof.
  apply (typed_conversion_sound (fun _ => None) (fun _ => "")
    (JNumber (NInt (2 ^ 40))) "int" false (HLong (2 ^ 40))).
  vm_compute. reflexivity.
Defined.

(** An argument given as text, as every query parameter is, converts like
    the value it spells: for a type whose values may be loaded from a string, a
    text that parses to a value that is not itself a text gives the same result
    as that value, and fails exactly when that value fails. *)
Theorem quoted_argument_equivalent (parse : string -> option json) (text : json -> string)
    (chk : JsonTypeChecker) (s : string) (inner : json) (ignore : bool) (h : hessian) :
  parse s = Some inner -> IsString inner = false -> chk (JString s) = false ->
  loadableJsonConverter parse text chk (JString s) ignore = Ok h <->
  loadableJsonConverter parse text chk inner ignore = Ok h.
Proof.
  intros Hparse Hin Hchk. unfold loadableJsonConverter, invalid_value.
  rewrite Hchk, Hparse. destruct (chk inner); [done|].
  by destruct inner.
Qed.

Lemma quoted_argument_equivalent_witness :
  loadableJsonConverter (fun _ => Some (JNumber (NInt 7))) (fun _ => "") IsInt (JString "7") false
    = Ok (HInteger 7) <->
  loadableJsonConverter (fun _ => Some (JNumber (NInt 7))) (fun _ => "") IsInt (JNumber (NInt 7)) false
    = Ok (HInteger 7).
Proof.
  apply (quoted_argument_equivalent (fun _ => Some (JNumber (NInt 7))) (fun _ => "") IsInt "7"
    (JNumber (NInt 7)) false (HInteger 7)); reflexivity.
Defined.

(** A generic type annotation reaches the map its path names and gives it
    its class; an entry "class" that the request already holds wins. *)
Theorem populate_generic_selected (path : list string) (t : string) (ob : hessian)
    (m : list (string * hessian)) :
  Forall (fun k => k ≠ "*") path -> at_path path ob = Some (HUntypedMap m) ->
  at_path (path ++ ["class"]) (populateSingleGenericType path t ob)
    = Some (default (HString t) (map_find "class" m)).
Proof.
  intros Hp Hat. pose proof (populate_selected path t ob m Hp Hat) as Hsel.
  revert Hsel. generalize (populateSingleGenericType path t ob). clear Hat ob.
  induction Hp as [|k path Hk _ IH]; intros ob Hsel.
  - cbn in Hsel. injection Hsel as ->. cbn [app at_path].
    by rewrite map_find_emplace, decide_True.
  - cbn [app at_path] in *. destruct ob; try done. destruct (map_find k _); [auto|done].
Qed.

Lemma populate_generic_selected_witness :
  at_path (["a"] ++ ["class"])
    (populateSingleGenericType ["a"] "com.X" (HUntypedMap [("a", HUntypedMap [("b", HNull)])]))
  = Some (default (HString "com.X") (map_find "class" [("b", HNull)])).
Proof.
  apply (populate_generic_selected ["a"] "com.X"
    (HUntypedMap [("a", HUntypedMap [("b", HNull)])]) [("b", HNull)]).
  - repeat constructor. discriminate.
  - reflexivity.
Defined.

(** Annotating an argument never changes what the request said: every
    value that is not a list or a map stays at its place with its content. *)
Theorem populate_generic_preserves (generic_types : list GenericType) (q : list string)
    (ob h : hessian) :
  at_path q ob = Some h -> is_container h = false ->
  at_path q (populateGenericTypes generic_types ob) = Some h.
Proof.
  intros Hq Hh. unfold populateGenericTypes. revert ob Hq.
  induction generic_types as [|g gs IH]; intros ob Hq; [done|].
  cbn [fold_left]. apply IH. by apply populate_keeps_scalars.
Qed.

Lemma populate_generic_preserves_witness :
  at_path ["a"] (populateGenericTypes [{| path := "*"; splited_path := ["*"]; type := "T" |}]
    (HUntypedMap [("a", HInteger 3)])) = Some (HInteger 3).
Proof.
  apply (populate_generic_preserves [{| path := "*"; splited_path := ["*"]; type := "T" |}] ["a"]
    (HUntypedMap [("a", HInteger 3)]) (HInteger 3)); reflexivity.
Defined.
