(* ===== verification/HessianToJson.v ===== *)
(** * Hessian values as JSON (source/common/dubbo/utility.cc)

    The response side of the Dubbo bridge.  A decoded Hessian value is an object
    graph: [Ref] objects point to objects decoded before, also to one that
    encloses them.  The converter therefore keeps a set of object addresses, the
    history, which it changes in place.  The graph is a store from addresses to
    objects, a pointer is an optional address, and the calls on the JSON writer
    are the output. *)

From S2P Require Import Prelude Decimal Json BigInteger DubboJson.
From Stdlib Require Import Ascii.
From stdpp Require Import base gmap strings numbers list.
#[local] Open Scope Z_scope.

Abbreviation loc := positive.
Definition ptr : Type := option loc.

(** [RawDefinition] and [ClassInstance]. *)
Record RawDefinition := { def_type : string; field_names : list string }.
Record ClassInstance := { def_ : option RawDefinition; data_ : list ptr }.

(** An object.  A Date is its count of milliseconds, a Binary its bytes. *)
Inductive object :=
| ONull
| OBoolean (b : bool)
| OInteger (z : Z)
| OLong (z : Z)
| ODouble (d : double)
| ODate (count : Z)
| OString (s : string)
| OBinary (s : string)
| OTypedList (type : string) (values : list ptr)
| OUntypedList (values : list ptr)
| OTypedMap (type : string) (pairs : list (ptr * ptr))
| OUntypedMap (pairs : list (ptr * ptr))
| OClass (c : ClassInstance)
| ORef (dest : ptr).

Abbreviation store := (gmap positive object).
Abbreviation HessianHistory := (gset positive).

Definition toInteger (o : object) : option Z := match o with OInteger z => Some z | _ => None end.
Definition toLong (o : object) : option Z := match o with OLong z => Some z | _ => None end.
Definition toDouble (o : object) : option double := match o with ODouble d => Some d | _ => None end.
Definition toDate (o : object) : option Z := match o with ODate z => Some z | _ => None end.
Definition toTypedList (o : object) : option (list ptr) :=
  match o with OTypedList _ l => Some l | _ => None end.

Section Conversion.
Variable mem : store.
(** [StringBuffer::GetString] after the calls; [absl::SimpleAtoi] to [int64_t]. *)
Variable json_text : list wevent -> string.
Variable SimpleAtoi : string -> option Z.

(** The object a pointer leads to when it is used without a check. *)
Definition deref (p : ptr) : outcome object :=
  match p with
  | None => Undefined "null pointer"
  | Some l => match mem !! l with Some o => Ok o | None => Undefined "dangling pointer" end
  end.

(** ** Converters of known classes *)

Definition checkClassOnlyHasOneValue (def : RawDefinition) (data : list ptr) : outcome ptr :=
  match field_names def, data with
  | [f], [p] =>
      if decide (f = "value") then Ok p
      else Throw ("Unknown type definition for: " +:+ def_type def)
  | [f], _ =>
      if decide (f = "value") then
        Throw ("Expected fields size: 1 but actual fields size: "
               +:+ to_string (Z.of_nat (length data)) +:+ " for " +:+ def_type def)
      else Throw ("Unknown type definition for: " +:+ def_type def)
  | _, _ => Throw ("Unknown type definition for: " +:+ def_type def)
  end.

Inductive number_kind := KInteger | KLong | KDouble | KDate.

Definition handleValueNumber (T : number_kind) (def : RawDefinition) (data : list ptr) :
  outcome (list wevent) :=
  obind (checkClassOnlyHasOneValue def data) (fun p =>
  obind (deref p) (fun o =>
  let written :=
    match T with
    | KInteger => WInt64 <$> toInteger o
    | KLong => WInt64 <$> toLong o
    | KDouble => WDouble <$> toDouble o
    | KDate => WInt64 <$> toDate o
    end in
  Ok [default WNull written])).

Definition convertBigDecimal (def : RawDefinition) (data : list ptr) : outcome (list wevent) :=
  obind (checkClassOnlyHasOneValue def data) (fun p =>
  obind (deref p) (fun o =>
  match o with OString s => Ok [WRawValue s] | _ => Ok [WNull] end)).

(** The index of the last field with a name. *)
Fixpoint last_index (name : string) (i : nat) (names : list string) : option nat :=
  match names with
  | [] => None
  | n :: names' =>
      match last_index name (S i) names' with
      | Some j => Some j
      | None => if decide (n = name) then Some i else None
      end
  end.

(** The magnitude words; [None] when an element is not an Integer. *)
Fixpoint magnitude_words (l : list ptr) : outcome (option (list Z)) :=
  match l with
  | [] => Ok (Some [])
  | p :: l' =>
      obind (deref p) (fun o =>
      match toInteger o with
      | None => Ok None
      | Some z => obind (magnitude_words l') (fun r => Ok (cons z <$> r))
      end)
  end.

Definition convertBigInteger (def : RawDefinition) (data : list ptr) : outcome (list wevent) :=
  match last_index "mag" 0 (field_names def), last_index "signum" 0 (field_names def) with
  | Some mag_index, Some sig_index =>
      match data !! mag_index, data !! sig_index with
      | Some mag, Some sig =>
          obind (deref sig) (fun sig_object =>
          match toInteger sig_object with
          | None => Ok [WNull]
          | Some sig =>
              if sig =? 0 then Ok [WInt 0]
              else obind (deref mag) (fun mag_object =>
              match toTypedList mag_object with
              | None => Ok [WNull]
              | Some values_ =>
                  obind (magnitude_words values_) (fun words =>
                  match words with
                  | None => Ok [WNull]
                  | Some values =>
                      obind (big_integer_string sig values) (fun final_integer_str =>
                      match SimpleAtoi final_integer_str with
                      | Some int64_value => Ok [WInt64 int64_value]
                      | None => Ok [WString final_integer_str]
                      end)
                  end)
              end)
          end)
      | _, _ => Ok [WNull]
      end
  | _, _ => Ok [WNull]
  end.

Definition TypedClassConverters :
  list (string * (RawDefinition -> list ptr -> outcome (list wevent))) := [
  ("java.math.BigDecimal", convertBigDecimal);
  ("java.math.BigInteger", convertBigInteger);
  ("java.sql.Date", handleValueNumber KDate);
  ("java.sql.Time", handleValueNumber KDate);
  ("java.sql.Timestamp", handleValueNumber KDate);
  ("java.util.concurrent.atomic.AtomicInteger", handleValueNumber KInteger);
  ("java.util.concurrent.atomic.AtomicLong", handleValueNumber KLong)
].

Definition find_class_converter (type : string) :=
  snd <$> head (filter (fun p => p.1 = type) TypedClassConverters).

(** ** The recursive conversion *)

(** The loops over elements, fields and pairs, with the recursive call [rec]
    and the rendering [key] of a key that is not a String. *)
Section Loops.
Variable rec : ptr -> HessianHistory -> outcome (list wevent * HessianHistory).
Variable key : ptr -> outcome string.

Fixpoint convertElements (l : list ptr) (history : HessianHistory) :
  outcome (list wevent * HessianHistory) :=
  match l with
  | [] => Ok ([], history)
  | p :: l' =>
      obind (rec p history) (fun r =>
      obind (convertElements l' r.2) (fun r' => Ok (r.1 ++ r'.1, r'.2)))
  end.

(** The loop of [defaultClassConverter]: it stops at the shorter list. *)
Fixpoint convertFields (names : list string) (l : list ptr) (history : HessianHistory) :
  outcome (list wevent * HessianHistory) :=
  match names, l with
  | n :: names', p :: l' =>
      obind (rec p history) (fun r =>
      obind (convertFields names' l' r.2) (fun r' =>
      Ok ([WString n] ++ r.1 ++ r'.1, r'.2)))
  | _, _ => Ok ([], history)
  end.

Definition convertKey (k : ptr) : outcome string :=
  obind (deref k) (fun o => match o with OString s => Ok s | _ => key k end).

Fixpoint convertPairs (l : list (ptr * ptr)) (history : HessianHistory) :
  outcome (list wevent * HessianHistory) :=
  match l with
  | [] => Ok ([], history)
  | entry :: l' =>
      obind (convertKey entry.1) (fun data =>
      obind (rec entry.2 history) (fun r =>
      obind (convertPairs l' r.2) (fun r' =>
      Ok ([WString data] ++ r.1 ++ r'.1, r'.2))))
  end.

Definition convertUntypedMapToJsonString (l : list (ptr * ptr)) (history : HessianHistory) :
  outcome (list wevent * HessianHistory) :=
  obind (convertPairs l history) (fun r => Ok ([WStartObject] ++ r.1 ++ [WEndObject], r.2)).

Definition defaultClassConverter (def : RawDefinition) (data : list ptr)
    (history : HessianHistory) : outcome (list wevent * HessianHistory) :=
  obind (convertFields (field_names def) data history) (fun r =>
    Ok ([WStartObject] ++ r.1 ++ [WEndObject], r.2)).

Definition covertClassToJsonString (instance : ClassInstance) (history : HessianHistory) :
  outcome (list wevent * HessianHistory) :=
  match def_ instance with
  | None => Ok ([WNull], history)
  | Some def =>
      match find_class_converter (def_type def) with
      | None => defaultClassConverter def (data_ instance) history
      | Some converter =>
          obind (converter def (data_ instance)) (fun es => Ok (es, history))
      end
  end.

(** The body of [hessianValueToJsonStringInternal] for the object at [l]. *)
Definition convertObject (l : loc) (o : object) (history : HessianHistory) :
  outcome (list wevent * HessianHistory) :=
  let inserted := {[l]} ∪ history in
  let erase (r : outcome (list wevent * HessianHistory)) :=
    obind r (fun r => Ok (r.1, r.2 ∖ {[l]})) in
  match o with
  | OString s => Ok ([WString s], history)
  | OLong z => Ok ([WInt64 z], history)
  | OInteger z => Ok ([WInt z], history)
  | OBoolean b => Ok ([WBool b], history)
  | ODouble d => Ok ([WDouble d], history)
  | ODate z => Ok ([WInt64 z], history)
  | OBinary s => Ok ([WString s], history)
  | ONull => Ok ([WNull], history)
  | OTypedList _ values | OUntypedList values =>
      obind (erase (convertElements values inserted)) (fun r =>
        Ok ([WStartArray] ++ r.1 ++ [WEndArray], r.2))
  | OTypedMap _ pairs | OUntypedMap pairs => erase (convertUntypedMapToJsonString pairs inserted)
  | OClass c => erase (covertClassToJsonString c inserted)
  | ORef data =>
      match data with
      | Some d => if decide (d ∈ history) then Ok ([WNull], history) else erase (rec data inserted)
      | None => erase (rec data inserted)
      end
  end.
End Loops.

(** [hessianValueToJsonStringInternal], at most [fuel] calls deep. *)
Fixpoint hessianValueToJsonStringInternal (fuel : nat) (p : ptr) (history : HessianHistory) :
  outcome (list wevent * HessianHistory) :=
  match fuel with
  | O => OutOfFuel
  | S fuel' =>
      match p with
      | None => Ok ([WNull], history)
      | Some l =>
          obind (deref p) (fun o =>
          convertObject (hessianValueToJsonStringInternal fuel')
            (fun k => obind (hessianValueToJsonStringInternal fuel' k ∅) (fun r =>
               Ok (json_text r.1)))
            l o history)
      end
  end.

(** [Utility::hessianValueToJsonString]: the calls, and their text. *)
Definition hessianValueToJsonEvents (fuel : nat) (value : ptr) : outcome (list wevent) :=
  obind (hessianValueToJsonStringInternal fuel value ∅) (fun r => Ok r.1).
Definition hessianValueToJsonString (fuel : nat) (value : ptr) : outcome string :=
  obind (hessianValueToJsonEvents fuel value) (fun es => Ok (json_text es)).

End Conversion.

(** ** Reference: the tree a graph unfolds to *)

(** The pointers an object holds. *)
Definition children (o : object) : list ptr :=
  match o with
  | OTypedList _ l | OUntypedList l => l
  | OTypedMap _ l | OUntypedMap l => flat_map (fun e => [e.1; e.2]) l
  | OClass c => data_ c
  | ORef d => [d]
  | _ => []
  end.

Definition with_history (r : outcome (list wevent)) (h : HessianHistory) :
  outcome (list wevent * HessianHistory) := obind r (fun es => Ok (es, h)).

Section Reference.
Variable mem : store.
Variable json_text : list wevent -> string.
Variable SimpleAtoi : string -> option Z.

(** References are followed like any other pointer; there is no history. *)
Fixpoint unfolding (fuel : nat) (p : ptr) : outcome (list wevent) :=
  match fuel with
  | O => OutOfFuel
  | S fuel' =>
      match p with
      | None => Ok [WNull]
      | Some l =>
          obind (deref mem p) (fun o =>
          match o with
          | ORef d => unfolding fuel' d
          | _ =>
              obind (convertObject mem SimpleAtoi (fun p h => with_history (unfolding fuel' p) h)
                (fun k => obind (unfolding fuel' k) (fun es => Ok (json_text es))) l o ∅)
                (fun r => Ok r.1)
          end)
      end
  end.

(** A rank that falls along every pointer. *)
Definition ranked (rank : loc -> nat) : Prop :=
  forall l o, mem !! l = Some o ->
    Forall (fun p => forall l', p = Some l' -> (rank l' < rank l)%nat) (children o).
End Reference.

Definition ptr_rank (rank : loc -> nat) (p : ptr) : nat :=
  match p with Some l => S (rank l) | None => 0%nat end.

#[export] Instance is_ref_dec (o : object) : Decision (exists d, o = ORef d).
Proof.
  refine (match o with ORef d => left _ | _ => right _ end); [by intros [? [=]]..|by exists d].
Defined.

(** ** Lemmas on the loops *)

(** Two runs that produce the same calls and leave their histories alone. *)
Definition agree (h1 h2 : HessianHistory) (r1 r2 : outcome (list wevent * HessianHistory)) : Prop :=
  exists r, r1 = with_history r h1 /\ r2 = with_history r h2.

Lemma agree_bind h1 h2 r1 r2 f1 f2 :
  agree h1 h2 r1 r2 -> (forall es, agree h1 h2 (f1 (es, h1)) (f2 (es, h2))) ->
  agree h1 h2 (obind r1 f1) (obind r2 f2).
Proof.
  intros ([es|w|w|] & -> & ->) Hf; cbn [with_history obind].
  - apply Hf.
  - by exists (Throw w).
  - by exists (Undefined w).
  - by exists OutOfFuel.
Qed.

Lemma agree_bind_pure {A} h1 h2 (r : outcome A) f1 f2 :
  (forall a, r = Ok a -> agree h1 h2 (f1 a) (f2 a)) -> agree h1 h2 (obind r f1) (obind r f2).
Proof.
  intros Hf. destruct r as [a|w|w|]; cbn [obind].
  - by apply Hf.
  - by exists (Throw w).
  - by exists (Undefined w).
  - by exists OutOfFuel.
Qed.

Lemma agree_ok h1 h2 es : agree h1 h2 (Ok (es, h1)) (Ok (es, h2)).
Proof. by exists (Ok es). Qed.

Create HintDb history.
#[export] Hint Resolve agree_ok : history.

Section LoopLemmas.
Variable mem : store.
Variable rec1 rec2 : ptr -> HessianHistory -> outcome (list wevent * HessianHistory).
Variable key1 key2 : ptr -> outcome string.
Variable h1 h2 : HessianHistory.

Definition agree_at (p : ptr) : Prop := agree h1 h2 (rec1 p h1) (rec2 p h2).

Lemma elements_agree l :
  Forall agree_at l -> agree h1 h2 (convertElements rec1 l h1) (convertElements rec2 l h2).
Proof.
  induction 1 as [|p l Hp _ IH]; cbn [convertElements]; [auto with history|].
  apply agree_bind; [exact Hp|]. intros es. apply agree_bind; [exact IH|]. auto with history.
Qed.

Lemma fields_agree names l :
  Forall agree_at l ->
  agree h1 h2 (convertFields rec1 names l h1) (convertFields rec2 names l h2).
Proof.
  intros HF. revert names. induction HF as [|p l Hp _ IH]; intros [|n names];
    cbn [convertFields]; auto with history.
  apply agree_bind; [exact Hp|]. intros es. apply agree_bind; [exact (IH names)|]. auto with history.
Qed.

Lemma pairs_agree l :
  Forall (fun e => key1 e.1 = key2 e.1 /\ agree_at e.2) l ->
  agree h1 h2 (convertPairs mem rec1 key1 l h1) (convertPairs mem rec2 key2 l h2).
Proof.
  induction 1 as [|e l [Hk Hp] _ IH]; cbn [convertPairs]; [auto with history|].
  assert (Hkey : convertKey mem key1 e.1 = convertKey mem key2 e.1).
  { unfold convertKey. destruct (deref mem e.1) as [[]| | |]; cbn [obind]; congruence. }
  rewrite Hkey. apply agree_bind_pure. intros data _.
  apply agree_bind; [exact Hp|]. intros es. apply agree_bind; [exact IH|]. auto with history.
Qed.
End LoopLemmas.

Lemma erase_agree l h1 h2 r1 r2 :
  l ∉ h1 -> l ∉ h2 -> agree ({[l]} ∪ h1) ({[l]} ∪ h2) r1 r2 ->
  agree h1 h2 (obind r1 (fun r => Ok (r.1, r.2 ∖ {[l]}))) (obind r2 (fun r => Ok (r.1, r.2 ∖ {[l]}))).
Proof.
  intros H1 H2 (r & -> & ->).
  assert (He : forall h : HessianHistory, l ∉ h -> ({[l]} ∪ h) ∖ {[l]} = h) by set_solver.
  exists r. unfold with_history. destruct r; cbn [obind fst snd]; rewrite ?He; done.
Qed.

Lemma class_agree mem SA rec1 rec2 c h1 h2 :
  Forall (agree_at rec1 rec2 h1 h2) (data_ c) ->
  agree h1 h2 (covertClassToJsonString mem SA rec1 c h1) (covertClassToJsonString mem SA rec2 c h2).
Proof.
  intros HF. unfold covertClassToJsonString. destruct (def_ c) as [def|]; [|auto with history].
  destruct (find_class_converter _ _ _) as [conv|].
  - apply agree_bind_pure. auto with history.
  - apply agree_bind; [by apply fields_agree|]. auto with history.
Qed.

Lemma object_agree mem SA rec1 rec2 key1 key2 l o h1 h2 :
  (forall d, o ≠ ORef d) -> l ∉ h1 -> l ∉ h2 ->
  Forall (fun p => key1 p = key2 p /\ agree_at rec1 rec2 ({[l]} ∪ h1) ({[l]} ∪ h2) p) (children o) ->
  agree h1 h2 (convertObject mem SA rec1 key1 l o h1) (convertObject mem SA rec2 key2 l o h2).
Proof.
  intros Href H1 H2 HF.
  assert (Hpairs : forall m : list (ptr * ptr),
    Forall (fun p => key1 p = key2 p /\ agree_at rec1 rec2 ({[l]} ∪ h1) ({[l]} ∪ h2) p)
      (flat_map (fun e => [e.1; e.2]) m) ->
    agree h1 h2
      (obind (convertUntypedMapToJsonString mem rec1 key1 m ({[l]} ∪ h1)) (fun r => Ok (r.1, r.2 ∖ {[l]})))
      (obind (convertUntypedMapToJsonString mem rec2 key2 m ({[l]} ∪ h2)) (fun r => Ok (r.1, r.2 ∖ {[l]})))).
  { intros m Hm. apply erase_agree; [done..|]. apply agree_bind; [|auto with history].
    apply pairs_agree. induction m as [|e m IH]; [constructor|].
    cbn [flat_map app] in Hm. rewrite !Forall_cons in Hm. destruct Hm as ([Hk _] & [_ Hv] & Hm).
    constructor; auto. }
  assert (Hlist : forall values,
    Forall (fun p => key1 p = key2 p /\ agree_at rec1 rec2 ({[l]} ∪ h1) ({[l]} ∪ h2) p) values ->
    agree h1 h2
      (obind (obind (convertElements rec1 values ({[l]} ∪ h1)) (fun r => Ok (r.1, r.2 ∖ {[l]})))
         (fun r => Ok ([WStartArray] ++ r.1 ++ [WEndArray], r.2)))
      (obind (obind (convertElements rec2 values ({[l]} ∪ h2)) (fun r => Ok (r.1, r.2 ∖ {[l]})))
         (fun r => Ok ([WStartArray] ++ r.1 ++ [WEndArray], r.2)))).
  { intros values Hv. apply agree_bind; [|auto with history]. apply erase_agree; [done..|].
    apply elements_agree. eapply Forall_impl; [exact Hv|]. by intros p [_ ?]. }
  destruct o; cbn [convertObject]; auto with history.
  - apply erase_agree; [done..|]. apply class_agree. eapply Forall_impl; [exact HF|]. by intros p [_ ?].
  - by destruct (Href dest).
Qed.

(** On a graph without cycles the history has no effect. *)
Lemma conversion_unfolds mem text SA rank fuel p h :
  ranked mem rank -> (forall x, x ∈ h -> (ptr_rank rank p <= rank x)%nat) ->
  hessianValueToJsonStringInternal mem text SA fuel p h
    = with_history (unfolding mem text SA fuel p) h.
Proof.
  intros Hrank. revert p h. induction fuel as [|fuel IH]; intros p h Hh; [done|].
  destruct p as [l|]; [|done]. cbn [hessianValueToJsonStringInternal unfolding].
  cbn [ptr_rank] in Hh. assert (Hl : l ∉ h) by (intros Hl; specialize (Hh l Hl); lia).
  destruct (deref mem (Some l)) as [o|w|w|] eqn:Hd; cbn [obind]; [|done..].
  assert (Hchildren : Forall (fun p => (ptr_rank rank p <= rank l)%nat) (children o)).
  { unfold deref in Hd. destruct (mem !! l) as [o'|] eqn:Hlook; [|done]. injection Hd as ->.
    eapply Forall_impl; [exact (Hrank l o Hlook)|]. intros [l'|] Hp; cbn [ptr_rank]; [|lia].
    specialize (Hp l' eq_refl). lia. }
  assert (Hrec : Forall (fun p => forall h', (forall x, x ∈ h' -> x = l \/ x ∈ h) ->
    hessianValueToJsonStringInternal mem text SA fuel p h'
      = with_history (unfolding mem text SA fuel p) h') (children o)).
  { eapply Forall_impl; [exact Hchildren|]. intros p Hp h' Hh'. apply IH. intros x Hx.
    cbn [ptr_rank] in *. destruct (Hh' x Hx) as [->|Hx']; [done|]. specialize (Hh x Hx'). lia. }
  destruct (decide (exists d, o = ORef d)) as [[d ->]|Href] eqn:Hdec; [|clear Hdec].
  - cbn [children] in Hchildren, Hrec. rewrite Forall_singleton in Hchildren.
    rewrite Forall_singleton in Hrec. cbn [convertObject].
    assert (He : ({[l]} ∪ h) ∖ {[l]} = h) by set_solver.
    assert (Hgoal : obind (hessianValueToJsonStringInternal mem text SA fuel d ({[l]} ∪ h))
      (fun r => Ok (r.1, r.2 ∖ {[l]})) = with_history (unfolding mem text SA fuel d) h).
    { rewrite Hrec by set_solver. unfold with_history.
      destruct (unfolding _ _ _ fuel d); cbn [obind fst snd]; by rewrite ?He. }
    destruct d as [d|]; [|exact Hgoal]. rewrite decide_False; [exact Hgoal|].
    intros Hx. specialize (Hh d Hx). cbn [ptr_rank] in Hchildren. lia.
  - assert (Hag : agree h ∅
      (convertObject mem SA (hessianValueToJsonStringInternal mem text SA fuel)
         (fun k => obind (hessianValueToJsonStringInternal mem text SA fuel k ∅) (fun r => Ok (text r.1)))
         l o h)
      (convertObject mem SA (fun p h => with_history (unfolding mem text SA fuel p) h)
         (fun k => obind (unfolding mem text SA fuel k) (fun es => Ok (text es))) l o ∅)).
    { apply object_agree; [intros d ->; eauto|done|set_solver|].
      eapply Forall_impl; [exact Hrec|]. intros p Hp. split.
      - rewrite Hp by set_solver. by destruct (unfolding _ _ _ fuel p).
      - exists (unfolding mem text SA fuel p). split; [apply Hp; set_solver|done]. }
    destruct Hag as (r & -> & Hr). assert (Hr' : obind (with_history r ∅) (fun r => Ok r.1) = r).
    { by destruct r. }
    destruct o; rewrite ?Hr, ?Hr'; try done. exfalso; eauto.
Qed.

(** ** The runs end *)

Definition ends {A} (r : outcome A) : Prop := r ≠ OutOfFuel.

Lemma ends_bind {A B} (r : outcome A) (f : A -> outcome B) :
  ends r -> (forall a, r = Ok a -> ends (f a)) -> ends (obind r f).
Proof. unfold ends. destruct r; cbn [obind]; auto. Qed.

Lemma ends_ok {A} (a : A) : ends (Ok a).
Proof. done. Qed.

Lemma ends_throw {A} w : ends (@Throw A w).
Proof. done. Qed.

Lemma ends_undefined {A} w : ends (@Undefined A w).
Proof. done. Qed.
#[export] Hint Resolve ends_bind ends_ok ends_throw ends_undefined : history.

Lemma deref_ends mem p : ends (deref mem p).
Proof. unfold deref. destruct p as [l|]; [|done]. by destruct (mem !! l). Qed.

Lemma only_value_ends def data : ends (checkClassOnlyHasOneValue def data).
Proof. unfold checkClassOnlyHasOneValue. repeat case_match; done. Qed.
#[export] Hint Resolve deref_ends only_value_ends : history.

Lemma magnitude_words_ends mem l : ends (magnitude_words mem l).
Proof.
  induction l as [|p l IH]; cbn [magnitude_words]; [done|].
  apply ends_bind; [auto with history|]. intros o _. destruct (toInteger o); auto with history.
Qed.

Lemma big_integer_ends sig mag : ends (big_integer_string sig mag).
Proof.
  unfold big_integer_string. destruct mag as [|z mag]; [done|].
  destruct (big_integer_groups (map (fun z => Z.land (u64 z) LONG_LONG_MASK) (z :: mag)))
    as (gs & -> & _); [apply words_of_mag|done|done].
Qed.
#[export] Hint Resolve magnitude_words_ends big_integer_ends : history.

Lemma class_converter_ends mem SA t conv def data :
  find_class_converter mem SA t = Some conv -> ends (conv def data).
Proof.
  intros Hf. assert (Hin : In conv (map snd (TypedClassConverters mem SA))).
  { unfold find_class_converter in Hf. apply fmap_Some in Hf as ([s c] & Hh & ->).
    apply head_Some_elem_of, list_elem_of_filter in Hh as [_ Hh].
    apply in_map, list_elem_of_In, Hh. }
  assert (Hnum : forall T, ends (handleValueNumber mem T def data))
    by (intros T; unfold handleValueNumber; auto 6 with history).
  cbn in Hin. repeat destruct Hin as [<-|Hin]; try done; try apply Hnum.
  - unfold convertBigDecimal. apply ends_bind; [auto with history|]. intros p _.
    apply ends_bind; [auto with history|]. by intros [].
  - unfold convertBigInteger. repeat (case_match; auto with history).
    apply ends_bind; [auto with history|]. intros o _. repeat (case_match; auto with history).
    apply ends_bind; [auto with history|]. intros o' _. repeat (case_match; auto with history).
    apply ends_bind; [auto with history|]. intros [words|] _; [|done].
    apply ends_bind; [auto with history|]. intros str _. by destruct (SA str).
Qed.

Section LoopsEnd.
Variable mem : store.
Variable SA : string -> option Z.
Variable rec : ptr -> HessianHistory -> outcome (list wevent * HessianHistory).
Variable key : ptr -> outcome string.

Lemma elements_end l h :
  Forall (fun p => forall h, ends (rec p h)) l -> ends (convertElements rec l h).
Proof. intros HF. revert h. induction HF; intros h; cbn [convertElements]; auto 6 with history. Qed.

Lemma fields_end names l h :
  Forall (fun p => forall h, ends (rec p h)) l -> ends (convertFields rec names l h).
Proof.
  intros HF. revert names h. induction HF; intros [|n names] h; cbn [convertFields];
    auto 6 with history.
Qed.

Lemma pairs_end l h :
  Forall (fun e => ends (key e.1) /\ forall h, ends (rec e.2 h)) l -> ends (convertPairs mem rec key l h).
Proof.
  intros HF. revert h. induction HF as [|e l [Hk Hr] _ IH]; intros h; cbn [convertPairs]; [done|].
  apply ends_bind; [|auto 6 with history]. unfold convertKey.
  apply ends_bind; [auto with history|]. by intros [].
Qed.

Lemma object_ends l o h :
  Forall (fun p => ends (key p) /\ forall h, ends (rec p h)) (children o) ->
  ends (convertObject mem SA rec key l o h).
Proof.
  intros HF.
  assert (Hrec : Forall (fun p => forall h, ends (rec p h)) (children o))
    by (eapply Forall_impl; [exact HF|by intros p [_ ?]]).
  assert (Hpairs : forall m : list (ptr * ptr), children o = flat_map (fun e => [e.1; e.2]) m ->
    ends (convertUntypedMapToJsonString mem rec key m ({[l]} ∪ h))).
  { intros m Hm. rewrite Hm in HF. apply ends_bind; [|auto with history]. apply pairs_end.
    clear -HF. induction m as [|e m IH]; [constructor|].
    cbn [flat_map app] in HF. rewrite !Forall_cons in HF. destruct HF as ([Hk _] & [_ Hv] & HF).
    constructor; auto. }
  destruct o; cbn [convertObject]; auto 8 using elements_end with history.
  - apply ends_bind; [|auto with history]. unfold covertClassToJsonString.
    destruct (def_ c) as [def|]; [|done]. destruct (find_class_converter _ _ _) as [conv|] eqn:Hf.
    + apply ends_bind; [by eapply class_converter_ends|auto with history].
    + apply ends_bind; [by apply fields_end|auto with history].
  - cbn [children] in Hrec. rewrite Forall_singleton in Hrec.
    destruct dest; [case_decide|]; [done|apply ends_bind; [apply Hrec|auto with history]..].
Qed.
End LoopsEnd.

Lemma unfolding_ends mem text SA rank fuel p :
  ranked mem rank -> (ptr_rank rank p < fuel)%nat -> ends (unfolding mem text SA fuel p).
Proof.
  intros Hrank. revert p. induction fuel as [|fuel IH]; intros p Hp; [lia|].
  destruct p as [l|]; [|done]. cbn [unfolding]. apply ends_bind; [auto with history|].
  intros o Hd. cbn [ptr_rank] in Hp.
  assert (Hc : Forall (fun p => ends (unfolding mem text SA fuel p)) (children o)).
  { unfold deref in Hd. destruct (mem !! l) as [o'|] eqn:Hlook; [|done]. injection Hd as ->.
    eapply Forall_impl; [exact (Hrank l o Hlook)|]. intros [l'|] Hl'; apply IH; cbn [ptr_rank]; [|lia].
    specialize (Hl' l' eq_refl). lia. }
  assert (Hobj : ends (obind (convertObject mem SA (fun p h => with_history (unfolding mem text SA fuel p) h)
         (fun k => obind (unfolding mem text SA fuel k) (fun es => Ok (text es))) l o ∅) (fun r => Ok r.1))).
  { apply ends_bind; [|auto with history]. apply object_ends.
    eapply Forall_impl; [exact Hc|]. unfold with_history. auto with history. }
  destruct o; try exact Hobj. cbn [children] in Hc. by rewrite Forall_singleton in Hc.
Qed.

(** ** The calls write one value *)

Section LoopsWrite.
Variable mem : store.
Variable SA : string -> option Z.
Variable rec : ptr -> HessianHistory -> outcome (list wevent * HessianHistory).
Variable key : ptr -> outcome string.
Hypothesis rec_wf : forall p h r, rec p h = Ok r -> wf_value r.1.

Lemma elements_wf l h r : convertElements rec l h = Ok r -> wf_values r.1.
Proof.
  revert h r. induction l as [|p l IH]; intros h r; cbn [convertElements];
    [intros [= <-]; constructor|].
  intros H. invert_bind H. invert_bind H. injection H as <-. cbn [fst]. eauto with json.
Qed.

Lemma fields_wf names l h r : convertFields rec names l h = Ok r -> wf_members r.1.
Proof.
  revert names h r. induction l as [|p l IH]; intros [|n names] h r; cbn [convertFields];
    try (intros [= <-]; constructor).
  intros H. invert_bind H. invert_bind H. injection H as <-. cbn [fst].
  apply wf_members_string; eauto.
Qed.

Lemma pairs_wf l h r : convertPairs mem rec key l h = Ok r -> wf_members r.1.
Proof.
  revert h r. induction l as [|e l IH]; intros h r; cbn [convertPairs];
    [intros [= <-]; constructor|].
  intros H. invert_bind H. invert_bind H. invert_bind H. injection H as <-. cbn [fst].
  apply wf_members_string; eauto.
Qed.

Lemma class_converter_wf t conv def data es :
  find_class_converter mem SA t = Some conv -> conv def data = Ok es -> wf_value es.
Proof.
  intros Hf. assert (Hin : In conv (map snd (TypedClassConverters mem SA))).
  { unfold find_class_converter in Hf. apply fmap_Some in Hf as ([s c] & Hh & ->).
    apply head_Some_elem_of, list_elem_of_filter in Hh as [_ Hh].
    apply in_map, list_elem_of_In, Hh. }
  assert (Hnum : forall T, handleValueNumber mem T def data = Ok es -> wf_value es).
  { intros T H. unfold handleValueNumber in H. invert_bind H. invert_bind H. injection H as <-.
    destruct T, r0; cbn; constructor. }
  cbn in Hin. repeat destruct Hin as [<-|Hin]; try done; try apply Hnum.
  - unfold convertBigDecimal. intros H. invert_bind H. invert_bind H.
    destruct r0; injection H as <-; constructor.
  - unfold convertBigInteger. intros H.
    repeat first [invert_bind H | case_match; simplify_eq]; simplify_eq; constructor.
Qed.

Lemma object_wf l o h r : convertObject mem SA rec key l o h = Ok r -> wf_value r.1.
Proof.
  assert (Hlist : forall values h r,
    obind (obind (convertElements rec values h) (fun r => Ok (r.1, r.2 ∖ {[l]})))
         (fun r => Ok ([WStartArray] ++ r.1 ++ [WEndArray], r.2)) = Ok r -> wf_value r.1).
  { intros values h' r' H. invert_bind H. injection H as <-. invert_bind E.
    injection E as <-. cbn [fst]. apply wf_array. by eapply elements_wf. }
  assert (Hmap : forall m h r,
    obind (convertUntypedMapToJsonString mem rec key m h) (fun r => Ok (r.1, r.2 ∖ {[l]})) = Ok r ->
    wf_value r.1).
  { intros m h' r' H. invert_bind H. injection H as <-. unfold convertUntypedMapToJsonString in E.
    invert_bind E. injection E as <-. cbn [fst]. apply wf_object. by eapply pairs_wf. }
  destruct o; cbn [convertObject]; try (intros [= <-]; constructor); eauto.
  - intros H. invert_bind H. injection H as <-. cbn [fst]. unfold covertClassToJsonString in E.
    destruct (def_ c) as [def|]; [|injection E as <-; constructor].
    destruct (find_class_converter _ _ _) as [conv|] eqn:Hf.
    + invert_bind E. injection E as <-. by eapply class_converter_wf.
    + unfold defaultClassConverter in E. invert_bind E. injection E as <-. cbn [fst]. apply wf_object.
      by eapply fields_wf.
  - destruct dest as [d|]; [case_decide; [intros [= <-]; apply wf_null|]|];
      intros Hres; invert_bind Hres; injection Hres as <-; cbn [fst]; eauto.
Qed.
End LoopsWrite.

Lemma conversion_wf mem text SA fuel p h r :
  hessianValueToJsonStringInternal mem text SA fuel p h = Ok r -> wf_value r.1.
Proof.
  revert p h r. induction fuel as [|fuel IH]; intros p h r; [done|].
  cbn [hessianValueToJsonStringInternal]. destruct p as [l|]; [|intros [= <-]; constructor].
  destruct (deref mem (Some l)) as [o|?|?|]; cbn [obind]; [|done..]. by apply object_wf.
Qed.

(** ** A graph on which the conversion does not end *)

(** An array [root] holding an array [A] and a reference to [D], the only element
    of [A] besides nothing; [D] is an array that refers to [A] and to itself. *)
Definition cyclic_store : store :=
  <[1%positive := OUntypedList [Some 2%positive; Some 5%positive]]> (
  <[2%positive := OUntypedList [Some 3%positive]]> (
  <[3%positive := OUntypedList [Some 4%positive; Some 6%positive]]> (
  <[4%positive := ORef (Some 2%positive)]> (
  <[5%positive := ORef (Some 3%positive)]> (
  <[6%positive := ORef (Some 3%positive)]> ∅))))).

Section Divergence.
Variable text : list wevent -> string.
Variable SA : string -> option Z.
#[local] Abbreviation conv := (hessianValueToJsonStringInternal cyclic_store text SA).

Lemma conv_ref fuel l d h :
  cyclic_store !! l = Some (ORef (Some d)) -> d ∉ h ->
  conv (S fuel) (Some l) h
    = obind (conv fuel (Some d) ({[l]} ∪ h)) (fun r => Ok (r.1, r.2 ∖ {[l]})).
Proof.
  intros Hl Hd. cbn [hessianValueToJsonStringInternal]. unfold deref. rewrite Hl.
  cbn [obind convertObject]. by rewrite decide_False.
Qed.

Lemma conv_back fuel l d h :
  cyclic_store !! l = Some (ORef (Some d)) -> d ∈ h -> conv (S fuel) (Some l) h = Ok ([WNull], h).
Proof.
  intros Hl Hd. cbn [hessianValueToJsonStringInternal]. unfold deref. rewrite Hl.
  cbn [obind convertObject]. by rewrite decide_True.
Qed.

Lemma conv_list fuel l values h :
  cyclic_store !! l = Some (OUntypedList values) ->
  conv (S fuel) (Some l) h
    = obind (convertElements (conv fuel) values ({[l]} ∪ h)) (fun r =>
        Ok ([WStartArray] ++ r.1 ++ [WEndArray], r.2 ∖ {[l]})).
Proof.
  intros Hl. cbn [hessianValueToJsonStringInternal]. unfold deref. rewrite Hl.
  cbn [obind convertObject]. by destruct (convertElements _ _ _).
Qed.

(** Leaving [A] removes the marks of [A] and of [D], whoever set them. *)
Lemma visit_A fuel h :
  (exists es, conv fuel (Some 2%positive) h = Ok (es, h ∖ {[3%positive]} ∖ {[2%positive]}))
  \/ conv fuel (Some 2%positive) h = OutOfFuel.
Proof.
  destruct fuel as [|fuel]; [by right|]. rewrite (conv_list fuel _ [Some 3%positive]) by done.
  cbn [convertElements].
  destruct fuel as [|fuel]; [by right|].
  rewrite (conv_list fuel _ [Some 4%positive; Some 6%positive]) by done. cbn [convertElements].
  destruct fuel as [|fuel]; [by right|].
  rewrite (conv_back _ _ 2%positive) by (done || set_solver). cbn [obind fst snd].
  rewrite (conv_back _ _ 3%positive) by (done || set_solver). cbn [obind fst snd].
  left. eexists. do 2 f_equal. set_solver.
Qed.

Lemma detached_loop fuel h :
  3%positive ∉ h -> 2%positive ∉ h -> conv fuel (Some 3%positive) h = OutOfFuel.
Proof.
  revert h. induction fuel as [fuel IH] using lt_wf_ind. intros h H3 H2.
  destruct fuel as [|fuel]; [done|].
  rewrite (conv_list fuel _ [Some 4%positive; Some 6%positive]) by done. cbn [convertElements].
  destruct fuel as [|fuel]; [done|]. rewrite (conv_ref fuel _ 2%positive) by (done || set_solver).
  match goal with |- context [conv fuel (Some 2%positive) ?x] =>
    destruct (visit_A fuel x) as [[es ->]| ->] end; [|done].
  cbn [obind fst snd]. rewrite (conv_ref fuel _ 3%positive) by (done || set_solver).
  rewrite IH; [done|lia|set_solver|set_solver].
Qed.

Lemma root_diverges fuel : conv fuel (Some 1%positive) ∅ = OutOfFuel.
Proof.
  destruct fuel as [|fuel]; [done|].
  rewrite (conv_list fuel _ [Some 2%positive; Some 5%positive]) by done. cbn [convertElements].
  destruct (visit_A fuel ({[1%positive]} ∪ ∅)) as [[es ->]| ->]; [|done].
  cbn [obind fst snd]. destruct fuel as [|fuel]; [done|].
  rewrite (conv_ref fuel _ 3%positive) by (done || set_solver).
  by rewrite detached_loop by set_solver.
Qed.
End Divergence.

(** ** Properties *)

(** C11. A response whose object graph has no cycle is written out completely:
    the conversion ends, within a depth bounded by the rank of the value, with
    the calls of its unfolding, in which every reference is followed.  The
    history, which is there for cycles, changes nothing of such a graph, also
    when an object is referred to many times. *)
Theorem hessian_json_unfolds (mem : store) (text : list wevent -> string)
    (SA : string -> option Z) (rank : loc -> nat) (value : ptr) (fuel : nat) :
  ranked mem rank -> (ptr_rank rank value < fuel)%nat ->
  hessianValueToJsonEvents mem text SA fuel value = unfolding mem text SA fuel value /\
  hessianValueToJsonEvents mem text SA fuel value ≠ OutOfFuel.
Proof.
  intros Hr Hf. unfold hessianValueToJsonEvents.
  rewrite (conversion_unfolds mem text SA rank) by (done || set_solver).
  pose proof (unfolding_ends mem text SA rank fuel value Hr Hf) as He.
  unfold ends in He. by destruct (unfolding mem text SA fuel value).
Qed.

Definition shared_store : store :=
  <[1%positive := OUntypedList [Some 2%positive; Some 4%positive; Some 4%positive]]> (
  <[2%positive := OUntypedMap [(Some 3%positive, Some 5%positive)]]> (
  <[3%positive := OString "k"]> (
  <[4%positive := ORef (Some 2%positive)]> (
  <[5%positive := OClass {| def_ := Some {| def_type := "java.util.concurrent.atomic.AtomicLong";
                                           field_names := ["value"] |};
                            data_ := [Some 6%positive] |}]> (
  <[6%positive := OLong 7]> ∅))))).

Definition shared_rank (l : loc) : nat :=
  match l with 1%positive => 4 | 2%positive => 2 | 4%positive => 3 | 5%positive => 1 | _ => 0 end%nat.

Lemma hessian_json_unfolds_witness :
  hessianValueToJsonEvents shared_store (fun _ => "") (fun _ => None) 6 (Some 1%positive)
    = unfolding shared_store (fun _ => "") (fun _ => None) 6 (Some 1%positive) /\
  hessianValueToJsonEvents shared_store (fun _ => "") (fun _ => None) 6 (Some 1%positive) ≠ OutOfFuel.
Proof.
  apply (hessian_json_unfolds shared_store (fun _ => "") (fun _ => None) shared_rank); [|vm_compute; lia].
  intros l o Hl. unfold shared_store in Hl.
  repeat (apply lookup_insert_Some in Hl as [[<- <-]|[_ Hl]];
    [cbn [children data_ flat_map app fst snd]; rewrite ?Forall_cons, ?Forall_nil; split_and?;
       try done; intros l' [= <-]; vm_compute; lia|]).
  by rewrite lookup_empty in Hl.
Defined.

(** Whenever the conversion of a response ends without an exception, the
    writer has been called to write exactly one value, with every array and
    object closed and one value after every member name. *)
Theorem hessian_json_wellformed (mem : store) (text : list wevent -> string)
    (SA : string -> option Z) (value : ptr) (fuel : nat) (es : list wevent) :
  hessianValueToJsonEvents mem text SA fuel value = Ok es -> wf_value es.
Proof.
  unfold hessianValueToJsonEvents.
  destruct (hessianValueToJsonStringInternal mem text SA fuel value ∅) as [r|?|?|] eqn:Hr;
    cbn [obind]; [|done..]. intros [= <-]. by eapply conversion_wf.
Qed.

Lemma hessian_json_wellformed_witness :
  wf_value [WStartArray; WStartObject; WString "k"; WInt64 7; WEndObject; WStartObject;
    WString "k"; WInt64 7; WEndObject; WStartObject; WString "k"; WInt64 7; WEndObject; WEndArray].
Proof.
  apply (hessian_json_wellformed shared_store (fun _ => "") (fun _ => None) (Some 1%positive) 6).
  vm_compute. reflexivity.
Defined.

(** The history does not stop every cycle.  Leaving an object erases its
    mark even when an enclosing visit of the same object set it, so that there is
    a graph of three arrays and three references, one that a peer can send, on
    which the recursion never ends, whatever the stack. *)
Theorem hessian_json_cycle_diverges :
  exists mem root, forall text SA fuel,
    hessianValueToJsonEvents mem text SA fuel root = OutOfFuel.
Proof.
  exists cyclic_store, (Some 1%positive). intros text SA fuel.
  unfold hessianValueToJsonEvents. by rewrite root_diverges.
Qed.
