(* ===== verification/DubboEcho.v ===== *)
(** * A value through the Dubbo bridge and back (source/common/dubbo/utility.cc)

    The request side turns a JSON value into a Hessian value, the response side an object graph
    into JSON.  A service that returns an argument as it got it sends a graph that shows the same
    value: entries of maps in any order, lists and maps with or without a type, integers of either
    width, equal parts written once and referred to.  The client reads its own value again. *)

From S2P Require Import Prelude Json DubboJson HessianToJson.
From stdpp Require Import base gmap strings numbers list.
#[local] Open Scope Z_scope.

(** ** What the service sends *)

Section Graph.
Variable mem : store.

Definition key_shows (k : ptr) (name : string) : Prop := exists l, k = Some l /\ mem !! l = Some (OString name).

Inductive represents : hessian -> ptr -> Prop :=
| shown_null : represents HNull None
| shown_at h l o : mem !! l = Some o -> shows h o -> represents h (Some l)
with shows : hessian -> object -> Prop :=
| shows_null : shows HNull ONull
| shows_boolean b : shows (HBoolean b) (OBoolean b)
| shows_integer z : shows (HInteger z) (OInteger z)
| shows_widened z : shows (HInteger z) (OLong z)
| shows_long z : shows (HLong z) (OLong z)
| shows_double d : shows (HDouble d) (ODouble d)
| shows_string s : shows (HString s) (OString s)
| shows_list l ps : Forall2 represents l ps -> shows (HUntypedList l) (OUntypedList ps)
| shows_typed_list t l ps : Forall2 represents l ps -> shows (HUntypedList l) (OTypedList t ps)
| shows_map m m' es :
    m ≡ₚ m' -> Forall2 (fun p e => key_shows e.1 p.1 /\ represents p.2 e.2) m' es ->
    shows (HUntypedMap m) (OUntypedMap es)
| shows_typed_map t m m' es :
    m ≡ₚ m' -> Forall2 (fun p e => key_shows e.1 p.1 /\ represents p.2 e.2) m' es ->
    shows (HUntypedMap m) (OTypedMap t es)
| shows_ref h p : represents h p -> shows h (ORef p).
End Graph.

(** ** What the client reads *)

(** Integers are written alike whatever their width. *)
Definition width (e : wevent) : wevent := match e with WInt z => WInt64 z | _ => e end.

Fixpoint json_events (v : json) : list wevent :=
  match v with
  | JNull => [WNull]
  | JBool b => [WBool b]
  | JNumber (NInt z) => [WInt64 z]
  | JNumber (NDouble d) => [WDouble d]
  | JString s => [WString s]
  | JArray l => [WStartArray] ++ flat_map json_events l ++ [WEndArray]
  | JObject l => [WStartObject] ++ flat_map (fun p => WString p.1 :: json_events p.2) l ++ [WEndObject]
  end.

(** The same document: the members of an object in any order. *)
Inductive same_json : json -> json -> Prop :=
| same_null : same_json JNull JNull
| same_bool b : same_json (JBool b) (JBool b)
| same_number n : same_json (JNumber n) (JNumber n)
| same_string s : same_json (JString s) (JString s)
| same_array l l' : Forall2 same_json l l' -> same_json (JArray l) (JArray l')
| same_object l l0 l' :
    l ≡ₚ l0 -> Forall2 (fun p q => p.1 = q.1 /\ same_json p.2 q.2) l0 l' -> same_json (JObject l) (JObject l').

Fixpoint json_of_hessian (h : hessian) : json :=
  match h with
  | HNull => JNull
  | HBoolean b => JBool b
  | HInteger z | HLong z => JNumber (NInt z)
  | HDouble d => JNumber (NDouble d)
  | HString s => JString s
  | HUntypedList l => JArray (map json_of_hessian l)
  | HUntypedMap m => JObject (map (fun p => (p.1, json_of_hessian p.2)) m)
  end.

(** The document the request side takes a value for.  For [java.lang.String] a value that is no text stands for its
    text; for a type that may be given as text, a text stands for the document in it. *)
Definition loadable_types : list string :=
  ["java.lang.Boolean"; "boolean"; "java.lang.Float"; "float"; "java.lang.Double"; "double"; "java.lang.Byte"; "byte";
   "java.lang.Short"; "short"; "java.lang.Integer"; "int"; "java.lang.Long"; "long"; "java.util.List";
   "java.util.ArrayList"; "java.util.LinkedList"; "com.alibaba.fastjson.JSONArray"; "java.util.Set"; "java.util.HashSet";
   "java.util.TreeSet"; "java.util.LinkedHashSet"; "java.util.Map"; "java.util.HashMap"; "java.util.TreeMap";
   "java.util.LinkedHashMap"].

Definition taken (parse : string -> option json) (dbg : json -> string) (t : string) (v : json) : json :=
  if decide (t = "java.lang.String") then (if IsNull v || IsString v then v else JString (dbg v))
  else match v with
       | JString s => if decide (t ∈ loadable_types) then default v (parse s) else v
       | _ => v
       end.

(** What the request side keeps of a document at a depth: from depth 50 on null, of members with one name the first, no
    null members if these are ignored, integers beyond 64 bits as numbers of double precision. *)
Definition add_member (k : string) (v : json) (l : list (string * json)) : list (string * json) :=
  match find_member k l with Some _ => l | None => l ++ [(k, v)] end.

Fixpoint kept (ignore : bool) (depth : nat) (v : json) : json :=
  if (50 <=? depth)%nat then JNull
  else match v with
       | JNumber (NInt z) => if in_int64 z then v else JNumber (NDouble (double_of_Z z))
       | JArray l => JArray (map (kept ignore (S depth)) l)
       | JObject l =>
           JObject (fold_left (fun m p => if ignore && IsNull p.2 then m else add_member p.1 (kept ignore (S depth) p.2) m) l [])
       | _ => v
       end.

(** A document, of depth below 50, that is kept as it is. *)
Fixpoint plain_json (v : json) : bool :=
  match v with
  | JNumber (NInt z) => in_int64 z
  | JArray l => forallb plain_json l
  | JObject l => bool_decide (NoDup l.*1) && forallb (fun p => plain_json p.2) l
  | _ => true
  end.

(** ** The response side *)

Section Back.
Variable mem : store.
Variable text : list wevent -> string.
Variable SA : string -> option Z.
Variable rank : loc -> nat.
Hypothesis Hrank : ranked mem rank.

(** [p] is written as a document that is the value [h]. *)
Definition written (h : hessian) (r : outcome (list wevent)) : Prop :=
  exists es v, r = Ok es /\ map width es = json_events v /\ same_json (json_of_hessian h) v.

Section Loops.
Variable rec : ptr -> outcome (list wevent).
Variable key : ptr -> outcome string.
#[local] Abbreviation rec_h := (fun p h => with_history (rec p) h).

Lemma elements_written l ps h :
  Forall2 (fun h p => written h (rec p)) l ps ->
  exists es vs, convertElements rec_h ps h = Ok (es, h) /\ map width es = flat_map json_events vs /\
    Forall2 same_json (map json_of_hessian l) vs.
Proof.
  induction 1 as [|x p l ps (es & v & Hr & He & Hs) _ (es' & vs & Hc & He' & Hs')]; cbn [convertElements].
  - by exists [], [].
  - rewrite Hr. cbn [with_history obind fst snd]. rewrite Hc. cbn [obind fst snd].
    exists (es ++ es'), (v :: vs). split; [done|]. split; [by rewrite map_app, He, He'|by constructor].
Qed.

Lemma pairs_written m es h :
  Forall2 (fun p e => key_shows mem e.1 p.1 /\ written p.2 (rec e.2)) m es ->
  exists out vs, convertPairs mem rec_h key es h = Ok (out, h) /\
    map width out = flat_map (fun p => WString p.1 :: json_events p.2) vs /\
    Forall2 (fun p q => p.1 = q.1 /\ same_json p.2 q.2) (map (fun p => (p.1, json_of_hessian p.2)) m) vs.
Proof.
  induction 1 as [|x e m es ((l & Hk & Hl) & out & v & Hr & He & Hs) _ (out' & vs & Hc & He' & Hs')]; cbn [convertPairs].
  - by exists [], [].
  - unfold convertKey, deref. rewrite Hk, Hl. cbn [obind]. rewrite Hr. cbn [with_history obind fst snd].
    rewrite Hc. cbn [obind fst snd]. exists ([WString x.1] ++ out ++ out'), ((x.1, v) :: vs). split; [done|].
    split; [|by constructor]. cbn [flat_map app map width fst snd]. by rewrite map_app, He, He'.
Qed.
End Loops.

Lemma children_rank l o : mem !! l = Some o -> Forall (fun p => (ptr_rank rank p <= rank l)%nat) (children o).
Proof.
  intros Hl. eapply Forall_impl; [exact (Hrank l o Hl)|]. intros [l'|] Hp; cbn [ptr_rank]; [|lia].
  specialize (Hp l' eq_refl). lia.
Qed.

#[local] Abbreviation written_at fuel h p := (written h (unfolding mem text SA fuel p)).

Lemma represented_list fuel l ps :
  (forall p h, represents mem h p -> (ptr_rank rank p < fuel)%nat -> written_at fuel h p) ->
  Forall2 (represents mem) l ps -> Forall (fun p => (ptr_rank rank p < fuel)%nat) ps ->
  Forall2 (fun h p => written_at fuel h p) l ps.
Proof.
  intros IH Hr Hf. induction Hr as [|h p l ps Hp _ IHl]; [constructor|].
  apply Forall_cons in Hf as [Hp' Hf]. constructor; auto.
Qed.

Lemma represented_pairs fuel m es :
  (forall p h, represents mem h p -> (ptr_rank rank p < fuel)%nat -> written_at fuel h p) ->
  Forall2 (fun p e => key_shows mem e.1 p.1 /\ represents mem p.2 e.2) m es ->
  Forall (fun p => (ptr_rank rank p < fuel)%nat) (flat_map (fun e => [e.1; e.2]) es) ->
  Forall2 (fun p e => key_shows mem e.1 p.1 /\ written_at fuel p.2 e.2) m es.
Proof.
  intros IH Hr Hf. induction Hr as [|h p m es [Hk Hp] _ IHl]; [constructor|].
  cbn [flat_map app] in Hf. apply Forall_cons in Hf as [_ Hf]. apply Forall_cons in Hf as [Hp' Hf].
  constructor; auto.
Qed.

Lemma list_written fuel l ps h :
  Forall2 (fun h p => written_at fuel h p) l ps ->
  written (HUntypedList l)
    (obind (obind (obind (convertElements (fun p h => with_history (unfolding mem text SA fuel p) h) ps ({[h]} ∪ ∅))
       (fun r => Ok (r.1, r.2 ∖ {[h]}))) (fun r => Ok ([WStartArray] ++ r.1 ++ [WEndArray], r.2)))
       (fun r : list wevent * HessianHistory => Ok r.1)).
Proof.
  intros HF. destruct (elements_written (unfolding mem text SA fuel) l ps ({[h]} ∪ ∅) HF) as (es & vs & -> & He & Hs).
  cbn [obind fst snd]. eexists _, (JArray vs). split; [done|]. split; [|by constructor].
  cbn [map app json_events width]. by rewrite map_app, He.
Qed.

Lemma map_written fuel m m' es h key :
  m ≡ₚ m' -> Forall2 (fun p e => key_shows mem e.1 p.1 /\ written_at fuel p.2 e.2) m' es ->
  written (HUntypedMap m)
    (obind (obind (convertUntypedMapToJsonString mem (fun p h => with_history (unfolding mem text SA fuel p) h) key es ({[h]} ∪ ∅))
       (fun r => Ok (r.1, r.2 ∖ {[h]}))) (fun r : list wevent * HessianHistory => Ok r.1)).
Proof.
  intros Hp HF.
  destruct (pairs_written (unfolding mem text SA fuel) key m' es ({[h]} ∪ ∅) HF) as (out & vs & Hc & He & Hs).
  unfold convertUntypedMapToJsonString. rewrite Hc. cbn [obind fst snd].
  eexists _, (JObject vs). split; [done|]. split.
  - cbn [map app json_events width]. by rewrite map_app, He.
  - cbn [json_of_hessian]. econstructor; [|exact Hs]. by apply Permutation_map.
Qed.

Lemma represents_written fuel p h :
  represents mem h p -> (ptr_rank rank p < fuel)%nat -> written_at fuel h p.
Proof.
  revert p h. induction fuel as [|fuel IH]; intros p h Hp Hf; [lia|]. destruct Hp as [|h l o Hl Ho].
  - exists [WNull], JNull. repeat split. constructor.
  - cbn [unfolding]. unfold deref. rewrite Hl. cbn [obind]. cbn [ptr_rank] in Hf.
    assert (Hch : Forall (fun p => (ptr_rank rank p < fuel)%nat) (children o)).
    { eapply Forall_impl; [exact (children_rank l o Hl)|]. cbn. lia. }
    destruct Ho; cbn [convertObject children] in *;
      try match goal with |- written ?h (obind (Ok _) _) => eexists _, (json_of_hessian h); split_and!; [done|done|constructor] end.
    + by apply list_written, represented_list.
    + by apply list_written, represented_list.
    + by eapply map_written, represented_pairs.
    + by eapply map_written, represented_pairs.
    + apply Forall_cons in Hch as [Hch _]. by apply IH.
Qed.
End Back.

(** ** The request side *)

Lemma map_find_of_hessian k m :
  find_member k (map (fun p => (p.1, json_of_hessian p.2)) m) = json_of_hessian <$> map_find k m.
Proof.
  unfold find_member, map_find. induction m as [|[k' h] m IH]; [done|].
  cbn [map fst]. rewrite !filter_cons. cbn [fst]. by case_decide.
Qed.

Lemma emplace_of_hessian k h m :
  map (fun p => (p.1, json_of_hessian p.2)) (emplace k h m)
    = add_member k (json_of_hessian h) (map (fun p => (p.1, json_of_hessian p.2)) m).
Proof.
  unfold emplace, add_member. rewrite map_find_of_hessian. destruct (map_find k m); [done|]. by rewrite map_app.
Qed.

Lemma kept_of_hessian ig v d : json_of_hessian (jsonValueToHessianValueInternal ig d v) = kept ig d v.
Proof.
  revert d. induction v as [|b|n|s|l IH|l IH] using json_nested_ind; intros d; cbn [jsonValueToHessianValueInternal kept];
    unfold max_json_depth; destruct (50 <=? d)%nat; cbn [json_of_hessian]; try done.
  - destruct n as [z|x]; [|done]. destruct (in_int32 z) eqn:E32; cbn [json_of_hessian].
    + replace (in_int64 z) with true; [done|]. unfold in_int32, in_int64 in *. lia.
    + by destruct (in_int64 z).
  - f_equal. rewrite map_map. apply map_ext_Forall. by eapply Forall_impl.
  - f_equal. assert (Hm : forall m, map (fun p => (p.1, json_of_hessian p.2))
        (fold_left (fun m p => if ig && IsNull p.2 then m else emplace p.1 (jsonValueToHessianValueInternal ig (S d) p.2) m) l m)
      = fold_left (fun m p => if ig && IsNull p.2 then m else add_member p.1 (kept ig (S d) p.2) m) l
          (map (fun p => (p.1, json_of_hessian p.2)) m)); [|by apply (Hm [])].
    induction IH as [|p l Hp _ IHl]; intros m; [done|]. cbn [fold_left]. rewrite IHl.
    destruct (ig && IsNull p.2); [done|]. by rewrite emplace_of_hessian, Hp.
Qed.

Lemma find_member_fresh k l : k ∉ l.*1 -> find_member k l = None.
Proof.
  unfold find_member. induction l as [|[k' v] l IH]; intros Hk; [done|]. cbn in Hk. rewrite not_elem_of_cons in Hk.
  rewrite filter_cons. cbn [fst]. rewrite decide_False by naive_solver. apply IH. naive_solver.
Qed.

Lemma members_kept ig d l m :
  Forall (fun p => kept ig d p.2 = p.2 /\ ig && IsNull p.2 = false) l -> NoDup (m ++ l).*1 ->
  fold_left (fun m p => if ig && IsNull p.2 then m else add_member p.1 (kept ig d p.2) m) l m = m ++ l.
Proof.
  intros HF. revert m. induction HF as [|[k v] l [Hv Hn] _ IH]; intros m Hnd; cbn [fold_left fst snd] in *.
  - by rewrite app_nil_r.
  - rewrite Hn, Hv. unfold add_member. rewrite find_member_fresh.
    + rewrite IH; [by rewrite <- app_assoc|]. by rewrite <- app_assoc.
    + rewrite fmap_app, fmap_cons in Hnd. apply NoDup_app in Hnd as (_ & Hnd & _). intros Hk. apply (Hnd k Hk). by left.
Qed.

Lemma kept_plain v d : plain_json v = true -> (d + json_depth v < 50)%nat -> kept false d v = v.
Proof.
  revert d. induction v as [|b|n|s|l IH|l IH] using json_nested_ind; intros d Hv Hd; pose proof (deep_enough _ _ Hd) as Hlt;
    unfold max_json_depth in Hlt; cbn [plain_json kept] in *; rewrite Hlt; try done.
  - destruct n as [z|x]; [by rewrite Hv|done].
  - cbn [json_depth] in Hd. apply depth_members in Hd. f_equal. rewrite <- (map_id l) at 2. apply map_ext_Forall.
    rewrite forallb_forall in Hv. rewrite Forall_forall in *. intros x Hx. apply IH; [done| |by apply Hd].
    apply Hv. by apply list_elem_of_In.
  - cbn [json_depth] in Hd. apply (depth_members (fun p => json_depth p.2)) in Hd. apply andb_prop in Hv as [Hnd Hv].
    apply bool_decide_eq_true in Hnd. f_equal. apply (members_kept false (S d) l []); [|done].
    rewrite forallb_forall in Hv. rewrite Forall_forall in *. intros x Hx. split; [|done].
    apply IH; [done| |by apply Hd]. apply Hv. by apply list_elem_of_In.
Qed.

(** Every converter converts the document the value is taken for. *)
Section Taken.
Variable parse : string -> option json.
Variable dbg : json -> string.
#[local] Abbreviation converts conv t := (forall v ig h, conv v ig = Ok h ->
  h = jsonValueToHessianValueInternal ig 0 (taken parse dbg t v)).

Lemma taken_plain t v : t <> "java.lang.String" -> (forall s, v = JString s -> t ∉ loadable_types) -> taken parse dbg t v = v.
Proof.
  intros Ht Hv. unfold taken. rewrite decide_False by done. destruct v as [| | |s| |]; try done.
  by rewrite decide_False by by apply (Hv s).
Qed.

Lemma loadable_converts chk t : t <> "java.lang.String" -> t ∈ loadable_types -> (forall s, chk (JString s) = false) ->
  converts (loadableJsonConverter parse dbg chk) t.
Proof.
  intros Ht Hin Hchk v ig h. unfold loadableJsonConverter. destruct (chk v) eqn:E.
  - intros [= <-]. rewrite taken_plain; [done|done|]. intros s ->. by rewrite Hchk in E.
  - destruct v as [| | |s| |]; try done. unfold taken. rewrite decide_False, decide_True by done.
    destruct (parse s) as [w|]; [|done]. destruct (chk w); [by intros [= <-]|done].
Qed.

Lemma strict_converts chk t : t <> "java.lang.String" -> t ∉ loadable_types -> converts (strictJsonConverter dbg chk) t.
Proof.
  intros Ht Hin v ig h. unfold strictJsonConverter. destruct (chk v); [|done]. intros [= <-]. by rewrite taken_plain.
Qed.

Lemma string_converts : converts (stringJsonConverter dbg) "java.lang.String".
Proof.
  intros v ig h. unfold stringJsonConverter, taken. rewrite decide_True by done.
  by destruct (IsNull v || IsString v); intros [= <-].
Qed.

Lemma all_convert : Forall (fun p => converts p.2 p.1) (TypedJsonConverters parse dbg).
Proof.
  unfold TypedJsonConverters. repeat (apply Forall_cons; split; [cbn [fst snd]|]); [..|by apply Forall_nil].
  all: try (apply loadable_converts; [done|by apply (bool_decide_unpack _)|done]).
  all: try (apply strict_converts; [done|by apply (bool_decide_unpack _)]).
  apply string_converts.
Qed.

Lemma loadable_found t : t ∈ loadable_types -> find_converter parse dbg t <> None.
Proof.
  intros Hin. unfold loadable_types in Hin.
  repeat (apply elem_of_cons in Hin as [->|Hin]; [discriminate|]). by apply not_elem_of_nil in Hin.
Qed.

Lemma conversion_taken v t ig h :
  jsonValueToHessianValue parse dbg v t ig = Ok h -> h = jsonValueToHessianValueInternal ig 0 (taken parse dbg t v).
Proof.
  unfold jsonValueToHessianValue. intros Hc. destruct (find_converter parse dbg t) as [conv|] eqn:Hf.
  - unfold find_converter in Hf. apply fmap_Some in Hf as ([t' conv'] & Hh & ->).
    apply head_Some_elem_of in Hh. apply list_elem_of_filter in Hh as [Ht' Hin]. cbn [fst snd] in *. subst t'.
    pose proof all_convert as Hall. rewrite Forall_forall in Hall. exact (Hall _ Hin v ig h Hc).
  - injection Hc as <-. rewrite taken_plain; [done|by intros ->|]. intros s _ Hin. by apply (loadable_found t).
Qed.
End Taken.

(** ** There and back *)

(** C7. A client reads back what it sent: a document that is passed as an argument and returned by the service is
    written again as the same document, members in any order, however the service lays out the graph it returns.
    [taken] says which document a text stands for under the declared type, and [kept] all that the request side does
    not keep of it: what is nested 50 deep, later members of a name, null members if the configuration ignores them,
    integers beyond 64 bits.  A document with distinct names, integers of 64 bits and less depth is kept whole. *)
Theorem bridge_echo (parse : string -> option json) (dbg : json -> string) (v : json) (t : string) (ignore : bool)
    (h : hessian) (mem : store) (text : list wevent -> string) (SA : string -> option Z) (rank : loc -> nat)
    (p : ptr) (fuel : nat) :
  jsonValueToHessianValue parse dbg v t ignore = Ok h ->
  represents mem h p -> ranked mem rank -> (ptr_rank rank p < fuel)%nat ->
  let w := taken parse dbg t v in
  exists es v', hessianValueToJsonEvents mem text SA fuel p = Ok es /\ map width es = json_events v' /\
    same_json (kept ignore 0 w) v' /\
    (ignore = false -> plain_json w = true -> (json_depth w < 50)%nat -> same_json w v') /\
    (IsString v = false -> t <> "java.lang.String" -> w = v).
Proof.
  intros Hc Hrep Hrank Hf w. apply conversion_taken in Hc as ->. fold w in Hrep.
  destruct (represents_written mem text SA rank Hrank fuel p _ Hrep Hf) as (es & v' & Hu & He & Hsame).
  rewrite kept_of_hessian in Hsame. exists es, v'. split_and!; [|done|done| |].
  - unfold hessianValueToJsonEvents. rewrite (conversion_unfolds mem text SA rank) by (done || set_solver). by rewrite Hu.
  - intros -> Hp Hd. by rewrite kept_plain in Hsame.
  - intros Hs Ht. apply taken_plain; [done|]. by intros s ->.
Qed.

(** A list of two equal maps, the second a reference to the first. *)
Definition echo_value : json :=
  let m := JObject [("b", JNull); ("a", JNumber (NInt 5))] in JArray [m; m].
Definition echo_store : store :=
  <[1%positive := OTypedList "java.util.ArrayList" [Some 2%positive; Some 3%positive]]> (
  <[2%positive := OUntypedMap [(Some 4%positive, Some 6%positive); (Some 5%positive, None)]]> (
  <[3%positive := ORef (Some 2%positive)]> (
  <[4%positive := OString "a"]> (<[5%positive := OString "b"]> (<[6%positive := OLong 5]> ∅))))).
Definition echo_rank (l : loc) : nat :=
  match l with 1%positive => 3 | 3%positive => 2 | 2%positive => 1 | _ => 0 end%nat.

Lemma echo_ranked : ranked echo_store echo_rank.
Proof.
  intros l o Hl. unfold echo_store in Hl.
  repeat (apply lookup_insert_Some in Hl as [[<- <-]|[_ Hl]];
    [cbn [children flat_map app fst snd]; rewrite ?Forall_cons, ?Forall_nil; split_and?;
       try done; intros l' [= <-]; vm_compute; lia|]).
  by rewrite lookup_empty in Hl.
Qed.

Lemma echo_represented : represents echo_store (jsonValueToHessianValueInternal false 0 echo_value) (Some 1%positive).
Proof.
  assert (Hm : represents echo_store (HUntypedMap [("b", HNull); ("a", HInteger 5)]) (Some 2%positive)).
  { econstructor; [reflexivity|]. eapply shows_map; [apply Permutation_swap|].
    repeat constructor; try (eexists; split; reflexivity). cbn. econstructor; [reflexivity|constructor]. }
  change (represents echo_store (HUntypedList [HUntypedMap [("b", HNull); ("a", HInteger 5)];
                                               HUntypedMap [("b", HNull); ("a", HInteger 5)]]) (Some 1%positive)).
  econstructor; [reflexivity|]. constructor. constructor; [exact Hm|]. constructor; [|constructor].
  econstructor; [reflexivity|]. by constructor.
Qed.

Lemma bridge_echo_witness :
  exists es v', hessianValueToJsonEvents echo_store (fun _ => "") (fun _ => None) 10 (Some 1%positive) = Ok es /\
    map width es = json_events v' /\ same_json echo_value v'.
Proof.
  destruct (bridge_echo (fun _ => None) (fun _ => "") echo_value "java.util.List" false
    (jsonValueToHessianValueInternal false 0 echo_value) echo_store (fun _ => "") (fun _ => None) echo_rank (Some 1%positive) 10
    eq_refl echo_represented echo_ranked ltac:(vm_compute; lia)) as (es & v' & H1 & H2 & _ & H4 & _).
  exists es, v'. split; [exact H1|]. split; [exact H2|]. apply H4; [reflexivity|vm_compute; reflexivity|vm_compute; lia].
Defined.

(** A document of depth 50 loses its innermost part. *)
Example deep_cut : kept false 0 (Nat.iter 50 (fun v => JArray [v]) (JBool true)) = Nat.iter 50 (fun v => JArray [v]) JNull.
Proof. vm_compute. reflexivity. Qed.
