(* ===== verification/DubboContext.v ===== *)
(** * The Dubbo request of an HTTP request (source/common/dubbo/utility.{h,cc},
      source/bridge/dubbo/simple/config.{h,cc})

    The configuration of a bridge, the getters that take the arguments of the
    call out of the HTTP request, and the bytes of the Dubbo request.  The
    Hessian encoder, the JSON parser, the query string and the cookie parser
    are parameters. *)

From S2P Require Import Prelude Decimal Json DubboJson.
From Stdlib Require Import Ascii.
From stdpp Require Import base gmap strings numbers list.
#[local] Open Scope Z_scope.

Abbreviation FlatStringMap := (gmap string string).

(** [insert] of a map keeps an entry that exists. *)
Definition insert_new (k v : string) (m : FlatStringMap) : FlatStringMap :=
  match m !! k with Some _ => m | None => <[k := v]> m end.

(** ** Configuration messages *)

Record PathType := { pt_path : string; pt_type : string }.

Record ProtoParameter := {
  cfg_type : string;
  cfg_name : string;
  cfg_required : bool;
  cfg_default : string;
  cfg_generic : list PathType;
}.

Inductive AttachmentSource :=
| kStatic (value : string)
| kHeader (header : string)
| kCookie (cookie : string)
| VALUE_SOURCE_NOT_SET.

Record Attachment := { attach_name : string; value_source : AttachmentSource }.

Inductive ProtoSource := HTTP_BODY | HTTP_QUERY.

Record ProtoDubboBridgeContext := {
  cfg_service : string;
  cfg_version : string;
  cfg_method : string;
  cfg_group : string;
  cfg_attachments : list Attachment;
  cfg_parameters : list ProtoParameter;
  cfg_source : ProtoSource;
  cfg_ignore_null_map_pair : bool;
}.

(** ** Run time state *)

Record BridgeParameter := {
  index_ : nat;
  type_ : string;
  name_ : string;
  required_ : bool;
  default_ : hessian;
  generic_ : list GenericType;
}.

Inductive ArgumentSource := None_ | Body | Query.

Record DubboBridgeContext := {
  service_ : string;
  version_ : string;
  method_ : string;
  static_attachs_ : FlatStringMap;
  header_attachs_ : FlatStringMap;
  cookie_attachs_ : FlatStringMap;
  params_ : list BridgeParameter;
  lost_parameter_name_ : bool;
  argument_source_ : ArgumentSource;
  ignore_null_map_pair_ : bool;
}.

(** [SrcsRequestContext]: the HTTP request.  [getCookie] parses the cookies on its
    first use and looks them up afterwards. *)
Record SrcsRequestContext := {
  getHeader : string -> option string;
  getCookie : string -> option string;
  getBody : string;
}.

(** [ArgumentGetter]: an argument may be absent, and getting it may throw. *)
Record ArgumentGetter := {
  getArgumentByParameter : BridgeParameter -> outcome (option hessian);
  attachmentsFromGetter : option FlatStringMap;
}.

Section Getters.
Variable parse : string -> option json.
Variable debugStringOfJsonValue : json -> string.
(** [Http::Utility::parseAndDecodeQueryString] *)
Variable parseAndDecodeQueryString : string -> list (string * string).

#[local] Abbreviation toHessian := (jsonValueToHessianValue parse debugStringOfJsonValue).

(** The constructor of [Parameter]. *)
Definition new_GenericType (path_type : PathType) : GenericType :=
  {| path := pt_path path_type;
     splited_path := split_skip_empty "."%char (pt_path path_type);
     type := pt_type path_type |}.

Definition new_Parameter (index : nat) (config : ProtoParameter) (ignore_null_map_pair : bool) :
  outcome BridgeParameter :=
  obind
    (if decide (cfg_default config = "") then Ok HNull
     else match parse (cfg_default config) with
          | None => Throw ("Dubbo bridge: default value: " +:+ cfg_name config +:+ "/" +:+
                           cfg_type config +:+ " of " +:+ cfg_default config +:+ " is invalid Json")
          | Some default_document => toHessian default_document (cfg_type config) ignore_null_map_pair
          end)
    (fun default =>
    Ok {| index_ := index; type_ := cfg_type config; name_ := cfg_name config;
          required_ := cfg_required config; default_ := default;
          generic_ := map new_GenericType (cfg_generic config) |}).

(** The loop over the parameters; [i] is the index of the first of them. *)
Fixpoint new_Parameters (i : nat) (l : list ProtoParameter) (ignore : bool) :
  outcome (list BridgeParameter) :=
  match l with
  | [] => Ok []
  | param :: l' =>
      obind (new_Parameter i param ignore) (fun p =>
      obind (new_Parameters (S i) l' ignore) (fun ps => Ok (p :: ps)))
  end.

(** The three maps after one attachment of the configuration; the [kCookie] case
    runs on into [default], which does nothing. *)
Definition add_attachment (m : FlatStringMap * FlatStringMap * FlatStringMap) (attach : Attachment) :
  FlatStringMap * FlatStringMap * FlatStringMap :=
  match value_source attach with
  | kStatic v => (insert_new (attach_name attach) v m.1.1, m.1.2, m.2)
  | kHeader h => (m.1.1, insert_new (attach_name attach) (to_lower h) m.1.2, m.2)
  | kCookie c => (m.1.1, m.1.2, insert_new (attach_name attach) c m.2)
  | VALUE_SOURCE_NOT_SET => m
  end.

Definition new_DubboBridgeContext (context : ProtoDubboBridgeContext) : outcome DubboBridgeContext :=
  let static := if decide (cfg_group context = "") then ∅
                else insert_new "group" (cfg_group context) ∅ in
  let attachs := fold_left add_attachment (cfg_attachments context) (static, ∅, ∅) in
  obind (new_Parameters 0 (cfg_parameters context) (cfg_ignore_null_map_pair context)) (fun params =>
  Ok {| service_ := cfg_service context; version_ := cfg_version context;
        method_ := cfg_method context;
        static_attachs_ := attachs.1.1; header_attachs_ := attachs.1.2;
        cookie_attachs_ := attachs.2; params_ := params;
        lost_parameter_name_ :=
          existsb (fun param => bool_decide (cfg_name param = "")) (cfg_parameters context);
        argument_source_ := match cfg_source context with HTTP_QUERY => Query | _ => Body end;
        ignore_null_map_pair_ := cfg_ignore_null_map_pair context |}).

(** ** The simple argument getters *)

Definition QueryGetter (context : DubboBridgeContext) (source : SrcsRequestContext) :
  outcome ArgumentGetter :=
  let params_ := parseAndDecodeQueryString (default "/" (getHeader source ":path")) in
  if lost_parameter_name_ context then
    Throw "Dubbo bridge: no parameter name is not allowed for query type source"
  else Ok {|
    getArgumentByParameter := fun parameter =>
      match snd <$> head (filter (fun p => p.1 = name_ parameter) params_) with
      | None => Ok None
      | Some value =>
          match parse value with
          | None => Throw "Dubbo bridge: query value not valid Json string"
          | Some doc =>
              obind (toHessian doc (type_ parameter) (ignore_null_map_pair_ context))
                (fun h => Ok (Some h))
          end
      end;
    attachmentsFromGetter := None |}.

Definition BodyGetter (context : DubboBridgeContext) (source : SrcsRequestContext) :
  outcome ArgumentGetter :=
  match parse (getBody source) with
  | None => Throw "Dubbo bridge: HTTP request body not valid Json string"
  | Some doc =>
      if lost_parameter_name_ context && negb (IsArray doc) then
        Throw "Dubbo bridge: no parameter name is only allowed for HTTP request body of type Json array"
      else Ok {|
        getArgumentByParameter := fun parameter =>
          let convert v :=
            obind (toHessian v (type_ parameter) (ignore_null_map_pair_ context))
              (fun h => Ok (Some h)) in
          match doc with
          | JArray l => match l !! index_ parameter with Some v => convert v | None => Ok None end
          | JObject l => match find_member (name_ parameter) l with
                         | Some v => convert v
                         | None => Ok None
                         end
          | _ => Ok None
          end;
        attachmentsFromGetter := None |}
  end.

Definition EmptyGetter : ArgumentGetter :=
  {| getArgumentByParameter := fun _ => Ok None; attachmentsFromGetter := None |}.

Definition SimpleArgumentGetter (context : DubboBridgeContext) (source : SrcsRequestContext) :
  outcome ArgumentGetter :=
  if (length (params_ context) =? 0)%nat then Ok EmptyGetter
  else match argument_source_ context with
       | Body => BodyGetter context source
       | _ => QueryGetter context source
       end.

End Getters.

(** ** The bytes of the request *)

(** Big endian, [n] bytes. *)
Fixpoint be_bytes (n : nat) (z : Z) : list Z :=
  match n with
  | O => []
  | S n' => (z / 2 ^ (8 * Z.of_nat n')) mod 256 :: be_bytes n' z
  end.

Definition DUBBO_VERSION_ENCODE : string := "2.0.2".
Definition DUBBO_MAGIC_NUMBER : Z := 0xdabb.
Definition DUBBO_FLAG_REQ_HESSIAN2 : Z := 0xc2.
Definition DUBBO_GENERIC_PARAM_TYPES : string :=
  "Ljava/lang/String;[Ljava/lang/String;[Ljava/lang/Object;".
Definition DUBBO_GENERIC_METHOD : string := "$invoke".
Definition DUBBO_HEADER_SIZE : Z := 16.

Section Encoding.
(** [Hessian2::Encoder::encode]. *)
Variable encode_string : string -> list Z.
Variable encode_int : Z -> list Z.
Variable encode_value : hessian -> list Z.

Definition writeListBegin (length : Z) : list Z :=
  if length <=? 7 then [u8 (0x78 + length)] else 0x58 :: encode_int length.

Definition write_pairs (l : list (string * string)) : list Z :=
  mjoin (map (fun p => encode_string p.1 ++ encode_string p.2) l).

Definition writeStaticAttachments (c : DubboBridgeContext) : list Z :=
  write_pairs (map_to_list (static_attachs_ c)).

(** The attachments whose header or cookie is there, with its value. *)
Definition found (lookup : string -> option string) (l : list (string * string)) :
  list (string * string) :=
  omap (fun p => pair p.1 <$> lookup p.2) l.

Definition writeHeaderAttachments (c : DubboBridgeContext) (source : SrcsRequestContext) : list Z :=
  write_pairs (found (getHeader source) (map_to_list (header_attachs_ c))).

Definition writeCookieAttachments (c : DubboBridgeContext) (source : SrcsRequestContext) : list Z :=
  if decide (cookie_attachs_ c = ∅) then []
  else write_pairs (found (getCookie source) (map_to_list (cookie_attachs_ c))).

(** The value sent for a parameter. *)
Definition argument_of (getter : ArgumentGetter) (parameter : BridgeParameter) : outcome hessian :=
  obind (getArgumentByParameter getter parameter) (fun object =>
  match object with
  | Some ob => Ok (populateGenericTypes (generic_ parameter) ob)
  | None =>
      if required_ parameter then
        Throw ("Dubbo bridge: " +:+ to_string (Z.of_nat (index_ parameter)) +:+ "/" +:+
               name_ parameter +:+ "/" +:+ type_ parameter +:+ " is required but not provided")
      else Ok (default_ parameter)
  end).

Fixpoint write_arguments (getter : ArgumentGetter) (params : list BridgeParameter) : outcome (list Z) :=
  match params with
  | [] => Ok []
  | p :: ps =>
      obind (argument_of getter p) (fun object =>
      obind (write_arguments getter ps) (fun bytes => Ok (encode_value object ++ bytes)))
  end.

Definition writeRequestBody (c : DubboBridgeContext) (source : SrcsRequestContext)
    (getter : ArgumentGetter) : outcome (list Z) :=
  let params_length := Z.of_nat (length (params_ c)) in
  obind (write_arguments getter (params_ c)) (fun arguments =>
  Ok (encode_string DUBBO_VERSION_ENCODE ++ encode_string (service_ c) ++
      encode_string (version_ c) ++ encode_string DUBBO_GENERIC_METHOD ++
      encode_string DUBBO_GENERIC_PARAM_TYPES ++ encode_string (method_ c) ++
      writeListBegin params_length ++
      mjoin (map (fun p => encode_string (type_ p)) (params_ c)) ++
      writeListBegin params_length ++ arguments ++
      [72] ++
      writeStaticAttachments c ++ writeHeaderAttachments c source ++
      writeCookieAttachments c source ++
      match attachmentsFromGetter getter with
      | Some m => write_pairs (map_to_list m)
      | None => []
      end ++
      [90])).

(** [dubboRequestId]: the counter and its next value. *)
Definition dubboRequestId (counter : Z) : Z * Z := (counter, u64 (counter + 1)).

(** [writeDubboRequest]: the bytes and the counter.  The header is written before
    the body is built, but nothing reads the buffer when that throws. *)
Definition writeDubboRequest (counter : Z) (c : DubboBridgeContext)
    (source : SrcsRequestContext) (getter : ArgumentGetter) : outcome (list Z) * Z :=
  let request_id := dubboRequestId counter in
  (obind (writeRequestBody c source getter) (fun dubbo_body =>
   Ok (be_bytes 2 DUBBO_MAGIC_NUMBER ++ [DUBBO_FLAG_REQ_HESSIAN2] ++ [0] ++
       be_bytes 8 request_id.1 ++
       be_bytes 4 (u32 (Z.of_nat (length dubbo_body))) ++ dubbo_body)),
   request_id.2).

End Encoding.

(** ** Reference definitions *)

(** The number big endian bytes denote. *)
Definition be_value (bytes : list Z) : Z := fold_left (fun acc b => acc * 256 + b) bytes 0.

(** The static, header and cookie entries of a configuration, in its order; the
    group counts as a static attachment in front of the others. *)
Definition static_entry (a : Attachment) : option (string * string) :=
  match value_source a with kStatic v => Some (attach_name a, v) | _ => None end.
Definition header_entry (a : Attachment) : option (string * string) :=
  match value_source a with kHeader h => Some (attach_name a, to_lower h) | _ => None end.
Definition cookie_entry (a : Attachment) : option (string * string) :=
  match value_source a with kCookie c => Some (attach_name a, c) | _ => None end.

Definition first_entry (k : string) (l : list (string * string)) : option string :=
  snd <$> head (filter (fun p => p.1 = k) l).

(** A request body up to its arguments: the call, the types and the mark of the
    list of arguments. *)
Definition body_front (es : string -> list Z) (ei : Z -> list Z) (c : DubboBridgeContext) : list Z :=
  let n := Z.of_nat (length (params_ c)) in
  mjoin (map es [DUBBO_VERSION_ENCODE; service_ c; version_ c; DUBBO_GENERIC_METHOD;
                 DUBBO_GENERIC_PARAM_TYPES; method_ c]) ++
  writeListBegin ei n ++ mjoin (map (fun p => es (type_ p)) (params_ c)) ++ writeListBegin ei n.

(** What the HTTP request gives for a parameter: the element at its index when the body is an array, the member
    of its name when it is an object, or the text of the query parameter of its name, read as JSON. *)
Definition source_value (parse : string -> option json) (query : string -> list (string * string))
    (c : DubboBridgeContext) (source : SrcsRequestContext) (p : BridgeParameter) : option json :=
  match argument_source_ c with
  | Body =>
      match parse (getBody source) with
      | Some (JArray l) => l !! index_ p
      | Some (JObject l) => find_member (name_ p) l
      | _ => None
      end
  | _ => first_entry (name_ p) (query (default "/" (getHeader source ":path"))) ≫= parse
  end.

(** The value that belongs into the request: that of the HTTP request, converted to the declared type and annotated,
    or, if it gives none and need not, the default. *)
Definition sendable (parse : string -> option json) (text : json -> string) (query : string -> list (string * string))
    (c : DubboBridgeContext) (source : SrcsRequestContext) (p : BridgeParameter) (v : hessian) : Prop :=
  match source_value parse query c source p with
  | Some j => exists ob, jsonValueToHessianValue parse text j (type_ p) (ignore_null_map_pair_ c) = Ok ob /\
      type_admits (type_ p) ob = true /\ v = populateGenericTypes (generic_ p) ob
  | None => required_ p = false /\ v = default_ p
  end.

(** A default has the kind of its type; none is configured as null. *)
Definition default_typed (p : BridgeParameter) : Prop := default_ p = HNull \/ type_admits (type_ p) (default_ p) = true.

(** ** Lemmas *)

Lemma be_bytes_length n z : length (be_bytes n z) = n.
Proof. induction n as [|n IH]; cbn [be_bytes length]; by rewrite ?IH. Qed.

Lemma be_value_acc bytes acc :
  fold_left (fun acc b => acc * 256 + b) bytes acc
    = acc * 256 ^ Z.of_nat (length bytes) + be_value bytes.
Proof.
  unfold be_value. revert acc. induction bytes as [|b bytes IH]; intros acc.
  - cbn [fold_left length]. change (256 ^ Z.of_nat 0) with 1. lia.
  - cbn [fold_left length]. rewrite IH, (IH (0 * 256 + b)), Nat2Z.inj_succ, Z.pow_succ_r by lia. ring.
Qed.

Lemma be_value_bytes n z : 0 <= z -> be_value (be_bytes n z) = z mod 2 ^ (8 * Z.of_nat n).
Proof.
  intros Hz. induction n as [|n IH]; [by rewrite Z.mod_1_r|].
  cbn [be_bytes]. unfold be_value. cbn [fold_left]. rewrite be_value_acc, be_bytes_length.
  assert (Hp : 256 ^ Z.of_nat n = 2 ^ (8 * Z.of_nat n)) by (by rewrite Z.pow_mul_r by lia).
  rewrite Hp, IH.
  replace (8 * Z.of_nat (S n)) with (8 * Z.of_nat n + 8) by lia.
  rewrite Z.pow_add_r by lia. rewrite (Z.rem_mul_r z) by (lia || apply Z.pow_pos_nonneg; lia).
  change (2 ^ 8) with 256. lia.
Qed.

Lemma frame_parts (h id len body : list Z) :
  length h = 4%nat -> length id = 8%nat -> length len = 4%nat ->
  let bytes := h ++ id ++ len ++ body in
  take 4 bytes = h /\ take 8 (drop 4 bytes) = id /\ take 4 (drop 12 bytes) = len /\
  drop 16 bytes = body.
Proof.
  intros Hh Hi Hl bytes. unfold bytes. split_and!.
  - by rewrite take_app_length'.
  - by rewrite drop_app_length', take_app_length'.
  - rewrite (app_assoc h), drop_app_length'; [by rewrite take_app_length'|]. rewrite length_app. lia.
  - rewrite !app_assoc. apply drop_app_length'. rewrite !length_app. lia.
Qed.

Lemma insert_new_lookup k v m k' :
  insert_new k v m !! k' = match m !! k' with Some w => Some w | None => if decide (k = k') then Some v else None end.
Proof.
  unfold insert_new. destruct (m !! k) as [w|] eqn:Hk.
  - case_decide; subst; [by rewrite Hk|by destruct (m !! k')].
  - rewrite lookup_insert. case_decide; subst; [by rewrite Hk|by destruct (m !! k')].
Qed.

Lemma first_entry_app k l l' :
  first_entry k (l ++ l') = match first_entry k l with Some w => Some w | None => first_entry k l' end.
Proof.
  unfold first_entry. rewrite filter_app. by destruct (filter (fun p => p.1 = k) l).
Qed.

Lemma first_entry_one k k' v : first_entry k' [(k, v)] = if decide (k = k') then Some v else None.
Proof. unfold first_entry. rewrite filter_cons. cbn [fst]. by case_decide. Qed.

(** One kind of attachment: [entry] selects it, [get] its map. *)
Lemma attachments_lookup (entry : Attachment -> option (string * string))
    (get : FlatStringMap * FlatStringMap * FlatStringMap -> FlatStringMap) l m k :
  (forall m a, get (add_attachment m a) =
     match entry a with Some e => insert_new e.1 e.2 (get m) | None => get m end) ->
  get (fold_left add_attachment l m) !! k
    = match get m !! k with Some w => Some w | None => first_entry k (omap entry l) end.
Proof.
  intros Hstep. revert m. induction l as [|a l IH]; intros m; cbn [fold_left].
  - by destruct (get m !! k).
  - rewrite IH, Hstep. cbn [omap list_omap]. destruct (entry a) as [[k1 v1]|]; [|done].
    rewrite insert_new_lookup. destruct (get m !! k); [done|].
    change ((k1, v1) :: omap entry l) with ([(k1, v1)] ++ omap entry l).
    rewrite first_entry_app, first_entry_one. cbn [fst snd]. by case_decide.
Qed.

Lemma write_arguments_ok encode getter params bytes :
  write_arguments encode getter params = Ok bytes ->
  exists args, Forall2 (fun p a => argument_of getter p = Ok a) params args /\
    bytes = mjoin (encode <$> args).
Proof.
  revert bytes. induction params as [|p ps IH]; intros bytes; cbn [write_arguments].
  - intros [= <-]. exists []. by split.
  - destruct (argument_of getter p) as [a|?|?|] eqn:Ha; cbn [obind]; [|done..].
    destruct (write_arguments encode getter ps) as [bs|?|?|]; cbn [obind]; [|done..].
    intros [= <-]. destruct (IH bs eq_refl) as (args & HF & ->). exists (a :: args).
    split; [by constructor|done].
Qed.

Lemma write_arguments_all encode getter params args :
  Forall2 (fun p a => argument_of getter p = Ok a) params args ->
  write_arguments encode getter params = Ok (mjoin (encode <$> args)).
Proof.
  induction 1 as [|p a ps args Ha _ IH]; cbn [write_arguments]; [done|].
  rewrite Ha. cbn [obind]. rewrite IH. done.
Qed.

(** What a getter of the simple bridge yields is the converted value of the request. *)
Lemma simple_getter_value parse text query c source getter p v :
  p ∈ params_ c -> SimpleArgumentGetter parse text query c source = Ok getter ->
  getArgumentByParameter getter p = Ok v ->
  match source_value parse query c source p with
  | Some j => exists ob, jsonValueToHessianValue parse text j (type_ p) (ignore_null_map_pair_ c) = Ok ob /\ v = Some ob
  | None => v = None
  end.
Proof.
  assert (Hconv : forall j, obind (jsonValueToHessianValue parse text j (type_ p) (ignore_null_map_pair_ c))
      (fun h => Ok (Some h)) = Ok v ->
    exists ob, jsonValueToHessianValue parse text j (type_ p) (ignore_null_map_pair_ c) = Ok ob /\ v = Some ob).
  { intros j. destruct (jsonValueToHessianValue parse text j _ _) as [h|?|?|]; cbn [obind]; [|done..].
    intros [= <-]. by exists h. }
  intros Hp. unfold SimpleArgumentGetter. destruct (params_ c) as [|p0 ps]; [by apply not_elem_of_nil in Hp|].
  cbn [length Nat.eqb]. unfold source_value, BodyGetter, QueryGetter, first_entry. intros Hg.
  repeat case_match; simplify_eq; cbn [getArgumentByParameter] in *; intros Hv; repeat case_match; simplify_eq; cbn in *;
    simplify_eq; eauto; try congruence.
Qed.

Lemma argument_sendable parse text query c source getter p v :
  p ∈ params_ c -> SimpleArgumentGetter parse text query c source = Ok getter ->
  argument_of getter p = Ok v -> sendable parse text query c source p v.
Proof.
  intros Hp Hg. unfold argument_of, sendable.
  destruct (getArgumentByParameter getter p) as [o|?|?|] eqn:Hob; cbn [obind]; [|done..].
  pose proof (simple_getter_value _ _ _ _ _ _ _ _ Hp Hg Hob) as Hv. destruct (source_value _ _ _ _ _) as [j|].
  - destruct Hv as (ob & Hc & ->). intros [= <-]. exists ob. split_and!; [done|by eapply conversion_admits|done].
  - subst o. by destruct (required_ p); intros [= <-].
Qed.

Lemma new_Parameters_default parse text i l ignore ps :
  new_Parameters parse text i l ignore = Ok ps -> Forall default_typed ps.
Proof.
  revert i ps. induction l as [|config l IH]; intros i ps; cbn [new_Parameters]; [by intros [= <-]|].
  intros Hn. invert_bind Hn. invert_bind Hn. injection Hn as <-. constructor; [|by eapply IH].
  unfold new_Parameter in E. invert_bind E. injection E as <-. unfold default_typed. cbn [default_ type_].
  case_decide; [injection E1 as <-; by left|]. destruct (parse _); [right; by eapply conversion_admits|done].
Qed.

(** ** Properties *)

(** The frame of a request: the magic number and the flags of a Hessian
    request, the request id of the counter, and a payload length that is the
    length of the body that follows (below 4 GiB); the counter then differs from
    the id just used. *)
Theorem dubbo_request_frame (es : string -> list Z) (ei : Z -> list Z) (ev : hessian -> list Z)
    (counter : Z) (c : DubboBridgeContext) (source : SrcsRequestContext) (getter : ArgumentGetter)
    (bytes : list Z) (counter' : Z) :
  0 <= counter < 2 ^ 64 ->
  writeDubboRequest es ei ev counter c source getter = (Ok bytes, counter') ->
  Z.of_nat (length bytes) < 2 ^ 32 ->
  take 4 bytes = [0xda; 0xbb; 0xc2; 0] /\
  be_value (take 8 (drop 4 bytes)) = counter /\
  be_value (take 4 (drop 12 bytes)) = Z.of_nat (length (drop 16 bytes)) /\
  writeRequestBody es ei ev c source getter = Ok (drop 16 bytes) /\
  0 <= counter' < 2 ^ 64 /\ counter' ≠ counter.
Proof.
  intros Hc. unfold writeDubboRequest.
  destruct (writeRequestBody es ei ev c source getter) as [body|?|?|]; cbn [obind]; [|done..].
  intros [<-%Ok_inj <-]%pair_equal_spec Hlen.
  rewrite !length_app, !be_bytes_length in Hlen. cbn [length] in Hlen.
  set (idb := be_bytes 8 _). set (lenb := be_bytes 4 _).
  assert (Hid : length idb = 8%nat) by apply be_bytes_length.
  assert (Hll : length lenb = 4%nat) by apply be_bytes_length.
  destruct (frame_parts [0xda; 0xbb; 0xc2; 0] idb lenb body eq_refl Hid Hll)
    as (H1 & H2 & H3 & H4).
  change (be_bytes 2 DUBBO_MAGIC_NUMBER ++ [DUBBO_FLAG_REQ_HESSIAN2] ++ [0] ++ idb ++ lenb ++ body)
    with ([0xda; 0xbb; 0xc2; 0] ++ idb ++ lenb ++ body).
  cbn zeta in *. rewrite H1, H2, H3, H4.
  split_and!; [done| | |done|..].
  - unfold idb. rewrite be_value_bytes by (cbn; lia). cbn [dubboRequestId fst].
    rewrite Z.mod_small; [done|]. change (8 * Z.of_nat 8) with 64. lia.
  - unfold lenb. rewrite be_value_bytes; [|apply Z.mod_pos_bound; lia].
    change (2 ^ (8 * Z.of_nat 4)) with (2 ^ 32). unfold u32. rewrite Z.mod_mod by lia.
    apply Z.mod_small. lia.
  - apply u64_range.
  - apply u64_range.
  - cbn [dubboRequestId snd]. destruct (decide (counter = 2 ^ 64 - 1)) as [->|]; [done|].
    rewrite u64_small; lia.
Qed.

Definition example_context : DubboBridgeContext :=
  {| service_ := "s"; version_ := "1"; method_ := "m"; static_attachs_ := ∅; header_attachs_ := ∅;
     cookie_attachs_ := ∅;
     params_ := [{| index_ := 0; type_ := "int"; name_ := "a"; required_ := true;
                    default_ := HNull; generic_ := [] |}];
     lost_parameter_name_ := false; argument_source_ := Body; ignore_null_map_pair_ := false |}.
Definition example_source : SrcsRequestContext :=
  {| getHeader := fun _ => None; getCookie := fun _ => None; getBody := "[7]" |}.
Definition example_getter : ArgumentGetter :=
  {| getArgumentByParameter := fun _ => Ok (Some (HInteger 7)); attachmentsFromGetter := None |}.
Definition example_bytes : list Z :=
  [0xda; 0xbb; 0xc2; 0] ++ [0;0;0;0;0;0;0;5] ++ [0;0;0;12] ++
  [1;1;1;1;1;1; 0x79; 1; 0x79; 2; 72; 90].

Lemma dubbo_request_frame_witness :
  take 4 example_bytes = [0xda; 0xbb; 0xc2; 0] /\
  be_value (take 8 (drop 4 example_bytes)) = 5 /\
  be_value (take 4 (drop 12 example_bytes)) = Z.of_nat (length (drop 16 example_bytes)) /\
  writeRequestBody (fun _ => [1]) (fun _ => []) (fun _ => [2]) example_context example_source
    example_getter = Ok (drop 16 example_bytes) /\
  0 <= 6 < 2 ^ 64 /\ 6 ≠ 5.
Proof.
  apply (dubbo_request_frame (fun _ => [1]) (fun _ => []) (fun _ => [2]) 5 example_context
    example_source example_getter example_bytes 6).
  - lia.
  - vm_compute. reflexivity.
  - vm_compute. reflexivity.
Defined.

(** C30. A request is sent only when every parameter has an argument, and then the argument section holds exactly
    one value per parameter, in order: what the HTTP request gives for it in its body or query, converted to the
    declared Java type, whose kind it has, and annotated; or the default of a parameter that is not required and that
    the request does not give.  The defaults of a configuration have the kind of their type too, or are null. *)
Theorem dubbo_arguments_typed (parse : string -> option json) (text : json -> string)
    (query : string -> list (string * string)) (es : string -> list Z) (ei : Z -> list Z)
    (ev : hessian -> list Z) (c : DubboBridgeContext) (source : SrcsRequestContext)
    (getter : ArgumentGetter) :
  SimpleArgumentGetter parse text query c source = Ok getter ->
  (forall body, writeRequestBody es ei ev c source getter = Ok body ->
    exists args rest, body = body_front es ei c ++ mjoin (ev <$> args) ++ rest /\
      Forall2 (sendable parse text query c source) (params_ c) args) /\
  (forall p, p ∈ params_ c -> required_ p = true -> source_value parse query c source p = None ->
    is_ok (writeRequestBody es ei ev c source getter) = false) /\
  (forall cfg, new_DubboBridgeContext parse text cfg = Ok c -> Forall default_typed (params_ c)).
Proof.
  intros Hg. split_and!.
  - intros body. unfold writeRequestBody.
    destruct (write_arguments ev getter (params_ c)) as [bs|?|?|] eqn:Hw; cbn [obind]; [|done..].
    intros [= <-]. destruct (write_arguments_ok _ _ _ _ Hw) as (args & HF & ->).
    eexists args, _. split.
    + unfold body_front. cbn [map mjoin list_join]. rewrite app_nil_r, <-!app_assoc. reflexivity.
    + apply Forall2_same_length_lookup_2; [by eapply Forall2_length|]. intros i p a Hp Ha.
      eapply argument_sendable; [by eapply list_elem_of_lookup_2|done|]. by eapply (Forall2_lookup_lr _ _ _ _ _ _ HF).
  - intros p Hp Hreq Hnone. unfold writeRequestBody.
    destruct (write_arguments ev getter (params_ c)) as [bs|?|?|] eqn:Hw; [|done..]. exfalso.
    destruct (write_arguments_ok _ _ _ _ Hw) as (args & HF & _).
    pose proof Hp as [i Hi]%list_elem_of_lookup.
    destruct (Forall2_lookup_l _ _ _ _ _ HF Hi) as (a & _ & Ha).
    apply (argument_sendable _ _ _ _ _ _ _ _ Hp Hg) in Ha. unfold sendable in Ha. rewrite Hnone in Ha. by destruct Ha as [Ha _]; rewrite Hreq in Ha.
  - intros cfg Hcfg. unfold new_DubboBridgeContext in Hcfg. cbv zeta in Hcfg. invert_bind Hcfg. injection Hcfg as <-.
    by eapply new_Parameters_default.
Qed.

Definition example_json (s : string) : option json := Some (JArray [JNumber (NInt 7)]).
Definition example_json_getter : ArgumentGetter :=
  match SimpleArgumentGetter example_json (fun _ => "") (fun _ => []) example_context example_source with
  | Ok getter => getter
  | _ => EmptyGetter
  end.

Lemma dubbo_arguments_typed_witness :
  exists args rest,
    [0x79; 0x79; 2; 72; 90]
      = body_front (fun _ => []) (fun _ => []) example_context ++ mjoin ((fun _ => [2]) <$> args) ++ rest /\
    Forall2 (sendable example_json (fun _ => "") (fun _ => []) example_context example_source) (params_ example_context) args.
Proof.
  destruct (dubbo_arguments_typed example_json (fun _ => "") (fun _ => []) (fun _ => [])
    (fun _ => []) (fun _ => [2]) example_context example_source example_json_getter eq_refl) as [H _].
  apply (H [0x79; 0x79; 2; 72; 90]). vm_compute. reflexivity.
Defined.

(** The attachments of a configuration: of several entries with one name the
    first counts, header names are compared in lower case, and the group of the
    configuration comes before every static attachment called "group". *)
Theorem dubbo_context_attachments (parse : string -> option json) (text : json -> string)
    (cfg : ProtoDubboBridgeContext) (c : DubboBridgeContext) (k : string) :
  new_DubboBridgeContext parse text cfg = Ok c ->
  static_attachs_ c !! k = first_entry k
    ((if decide (cfg_group cfg = "") then [] else [("group", cfg_group cfg)])
     ++ omap static_entry (cfg_attachments cfg)) /\
  header_attachs_ c !! k = first_entry k (omap header_entry (cfg_attachments cfg)) /\
  cookie_attachs_ c !! k = first_entry k (omap cookie_entry (cfg_attachments cfg)).
Proof.
  unfold new_DubboBridgeContext.
  destruct (new_Parameters _ _ _ _ _) as [ps|?|?|]; cbn [obind]; [|done..].
  intros [= <-]. cbn [static_attachs_ header_attachs_ cookie_attachs_]. split_and!.
  - rewrite (attachments_lookup static_entry (fun m => m.1.1)).
    + cbn [fst]. rewrite first_entry_app. case_decide; [done|].
      by rewrite insert_new_lookup, lookup_empty, first_entry_one.
    + intros m a. unfold add_attachment, static_entry. by destruct (value_source a).
  - rewrite (attachments_lookup header_entry (fun m => m.1.2)); [done|].
    intros m a. unfold add_attachment, header_entry. by destruct (value_source a).
  - rewrite (attachments_lookup cookie_entry (fun m => m.2)); [done|].
    intros m a. unfold add_attachment, cookie_entry. by destruct (value_source a).
Qed.

Definition example_config : ProtoDubboBridgeContext :=
  {| cfg_service := "s"; cfg_version := "1"; cfg_method := "m"; cfg_group := "g";
     cfg_attachments := [{| attach_name := "group"; value_source := kStatic "h" |}];
     cfg_parameters := []; cfg_source := HTTP_BODY; cfg_ignore_null_map_pair := false |}.

Lemma dubbo_context_attachments_witness :
  exists c, new_DubboBridgeContext (fun _ => None) (fun _ => "") example_config = Ok c /\
    static_attachs_ c !! "group" = Some "g".
Proof.
  destruct (new_DubboBridgeContext (fun _ => None) (fun _ => "") example_config)
    as [c|w|w|] eqn:Hc; [|discriminate Hc..].
  exists c. split; [done|].
  destruct (dubbo_context_attachments (fun _ => None) (fun _ => "") example_config c "group" Hc)
    as [H _]. rewrite H. vm_compute. reflexivity.
Defined.
