(* ===== verification/DubboResponse.v ===== *)
(** * Dubbo messages from the upstream (source/common/dubbo/utility.{h,cc})

    [awaitMessage] is the part both readers of upstream data share: decode a
    header, wait until the whole message is there, skip heartbeats.  [decodeBody]
    classifies a response.  The header decoder and the Hessian decoder are
    parameters; of the header decoder the theorems use that it looks at sixteen
    bytes. *)

From S2P Require Import Prelude Decimal.
From Stdlib Require Import Ascii.
From stdpp Require Import base gmap strings numbers list.

Inductive MessageType :=
| MT_Response | MT_Request | MT_Oneway | MT_Exception | MT_HeartbeatRequest | MT_HeartbeatResponse.

(** The fields of [MessageMetadata] and of the context that are read. *)
Record Header := { messageType : MessageType; responseStatusOk : bool; bodySize : nat }.

Inductive RpcResponseType :=
| ResponseWithException | ResponseWithValue | ResponseWithNullValue
| ResponseWithExceptionWithAttachments | ResponseValueWithAttachments
| ResponseNullValueWithAttachments.

Definition is_heartbeat (h : Header) : bool :=
  match messageType h with MT_HeartbeatRequest | MT_HeartbeatResponse => true | _ => false end.

Definition header_size : nat := 16.

Section Decoding.
(** [DubboProtocolImpl::decodeHeader]: no header yet, a header, or an exception. *)
Variable decodeHeader : list Z -> outcome (option Header).

(** The whole message is in the buffer. *)
Definition complete (h : Header) (buffer : list Z) : bool :=
  (bodySize h + header_size <=? length buffer)%nat.

Inductive awaited :=
| Waiting (context : option Header) (buffer : list Z)
| Ready (h : Header) (buffer : list Z).

(** The [while] loop on a message that is complete. *)
Fixpoint skipHeartbeats (fuel : nat) (h : Header) (buffer : list Z) : outcome awaited :=
  if is_heartbeat h then
    match fuel with
    | O => OutOfFuel
    | S fuel' =>
        let buffer' := drop (bodySize h + header_size) buffer in
        obind (decodeHeader buffer') (fun context =>
        match context with
        | None => Ok (Waiting None buffer')
        | Some h' =>
            if complete h' buffer' then skipHeartbeats fuel' h' buffer'
            else Ok (Waiting (Some h') buffer')
        end)
    end
  else Ok (Ready h buffer).

(** From the context kept since the last call; every round of the loop removes
    at least a header, so that the length of the buffer bounds the rounds. *)
Definition awaitMessage (context : option Header) (buffer : list Z) : outcome awaited :=
  obind (match context with None => decodeHeader buffer | Some _ => Ok context end) (fun context =>
  match context with
  | None => Ok (Waiting None buffer)
  | Some h =>
      if complete h buffer then skipHeartbeats (length buffer) h buffer
      else Ok (Waiting (Some h) buffer)
  end).

(** Data arriving in pieces, until a message is there. *)
Fixpoint feed (context : option Header) (buffer : list Z) (chunks : list (list Z)) :
  outcome awaited :=
  match chunks with
  | [] => Ok (Waiting context buffer)
  | c :: chunks' =>
      obind (awaitMessage context (buffer ++ c)) (fun r =>
      match r with
      | Waiting context' buffer' => feed context' buffer' chunks'
      | Ready _ _ => Ok r
      end)
  end.

End Decoding.

(** ** The body of a response *)

Section Body.
Variable V : Type.
Variable message_type_number : MessageType -> Z.
(** The value of [static_cast<RpcResponseType>] and of its cast back to a number. *)
Variable rpc_response_type : Z -> option RpcResponseType.
(** [Hessian2::Decoder::decode] at an offset of the buffer: the value, if there is
    one, and the next offset. *)
Variable decode_object : list Z -> nat -> outcome (option V * nat).
Variable decode_int32 : list Z -> nat -> outcome (option Z * nat).

Record DubboResponse := {
  is_exception_ : bool;
  close_connection_ : bool;
  value_ : option V;
}.

Definition size_error (offset size : nat) : string :=
  "RpcResult size(" +:+ to_string (Z.of_nat offset) +:+ ") large than body size(" +:+
  to_string (Z.of_nat size) +:+ ")".

(** [decodeDubboFromBuffer] after the heartbeats, on the buffer with the header. *)
Definition decodeBody (h : Header) (buffer : list Z) : outcome (DubboResponse * list Z) :=
  match messageType h with
  | MT_Response =>
      let buffer := drop 16 buffer in
      if negb (responseStatusOk h) then
        obind (decode_object buffer 0) (fun r =>
        if (bodySize h <? r.2)%nat then Throw (size_error r.2 (bodySize h))
        else Ok ({| is_exception_ := true; close_connection_ := true; value_ := r.1 |}, buffer))
      else
        obind (decode_int32 buffer 0) (fun t =>
        match t.1 with
        | None => Throw "No response type get from dubbo response and do nothing"
        | Some n =>
            obind (match rpc_response_type n with
                   | Some ResponseWithException | Some ResponseWithExceptionWithAttachments =>
                       Ok (true, true)
                   | Some ResponseWithValue | Some ResponseValueWithAttachments => Ok (true, false)
                   | Some ResponseWithNullValue | Some ResponseNullValueWithAttachments =>
                       Ok (false, false)
                   | None => Throw ("not supported return type " +:+ to_string (u8 n))
                   end) (fun kind =>
            let (has_value, has_exception) := kind : bool * bool in
            obind (if has_value then decode_object buffer t.2 else Ok (None, t.2)) (fun r =>
            if (bodySize h <? r.2)%nat then Throw (size_error r.2 (bodySize h))
            else Ok ({| is_exception_ := has_value && has_exception; close_connection_ := false;
                        value_ := r.1 |}, buffer)))
        end)
  | t => Throw ("Expected response message but get " +:+ to_string (message_type_number t))
  end.

Inductive Status := OK | WAITING.

(** [DubboResponse::decodeDubboFromBuffer]: the status, the header that is kept for
    the next call, the response and the rest of the buffer. *)
Definition decodeDubboFromBuffer (decodeHeader : list Z -> outcome (option Header))
    (context : option Header) (buffer : list Z) :
  outcome (Status * option Header * option DubboResponse * list Z) :=
  obind (awaitMessage decodeHeader context buffer) (fun r =>
  match r with
  | Waiting context' buffer' => Ok (WAITING, context', None, buffer')
  | Ready h buffer' =>
      obind (decodeBody h buffer') (fun r => Ok (OK, Some h, Some r.1, r.2))
  end).

End Body.
Arguments is_exception_ {V} _.
Arguments close_connection_ {V} _.
Arguments value_ {V} _.

(** ** Lemmas *)

(** What a header decoder does: it looks at sixteen bytes and waits for them. *)
Class HeaderDecoder (decodeHeader : list Z -> outcome (option Header)) : Prop := {
  header_short : forall b, (length b < header_size)%nat -> decodeHeader b = Ok None;
  header_local : forall b, (header_size <= length b)%nat ->
    decodeHeader b = decodeHeader (take header_size b);
  header_some : forall b, (header_size <= length b)%nat -> decodeHeader b ≠ Ok None;
}.

Section AwaitLemmas.
Variable decodeHeader : list Z -> outcome (option Header).
Context `{!HeaderDecoder decodeHeader}.

(** A header is read the same way when more data follows. *)
Lemma header_app b c h : decodeHeader b = Ok (Some h) -> decodeHeader (b ++ c) = Ok (Some h).
Proof.
  intros Hb. destruct (Nat.lt_ge_cases (length b) header_size) as [Hl|Hl].
  - rewrite (header_short b Hl) in Hb. done.
  - rewrite (header_local (b ++ c)) by (rewrite length_app; lia).
    rewrite take_app_le by done. by rewrite <-header_local.
Qed.

Lemma complete_app h b c : complete h b = true -> complete h (b ++ c) = true.
Proof. unfold complete. rewrite length_app, !Nat.leb_le. lia. Qed.

Lemma skip_fuel fuel fuel' h b :
  complete h b = true -> (length b <= fuel)%nat -> (length b <= fuel')%nat ->
  skipHeartbeats decodeHeader fuel h b = skipHeartbeats decodeHeader fuel' h b.
Proof.
  revert fuel' h b. induction fuel as [|fuel IH]; intros fuel' h b Hc Hf Hf'.
  - unfold complete, header_size in Hc. apply Nat.leb_le in Hc. lia.
  - destruct fuel' as [|fuel']; [unfold complete, header_size in Hc; apply Nat.leb_le in Hc; lia|].
    cbn [skipHeartbeats]. destruct (is_heartbeat h); [|done].
    destruct (decodeHeader _) as [[h'|]|?|?|]; cbn [obind]; try done.
    destruct (complete h' _) eqn:Hc'; [|done]. unfold complete, header_size in Hc.
    apply Nat.leb_le in Hc. apply IH; [done|rewrite length_drop; unfold header_size; lia..].
Qed.

(** Waiting and resuming with more data is like having had the data at once. *)
Lemma skip_resume fuel h b c ctx b' :
  complete h b = true -> (length b <= fuel)%nat ->
  skipHeartbeats decodeHeader fuel h b = Ok (Waiting ctx b') ->
  skipHeartbeats decodeHeader (length (b ++ c)) h (b ++ c) = awaitMessage decodeHeader ctx (b' ++ c).
Proof.
  revert h b. induction fuel as [|fuel IH]; intros h b Hc Hf Hs;
    pose proof Hc as Hl; unfold complete, header_size in Hl; apply Nat.leb_le in Hl.
  - lia.
  - cbn [skipHeartbeats] in Hs. destruct (is_heartbeat h) eqn:Hh; [|done].
    assert (Hn : exists n, length (b ++ c) = S n) by (rewrite length_app; exists (length b + length c - 1); lia).
    destruct Hn as [n Hn]. rewrite Hn. cbn [skipHeartbeats]. rewrite Hh.
    rewrite drop_app_le by (unfold header_size; lia).
    set (d := drop (bodySize h + header_size) b) in *.
    assert (Hd : (length d + 16 <= length b)%nat)
      by (unfold d, header_size; rewrite length_drop; lia).
    rewrite length_app in Hn.
    destruct (decodeHeader d) as [[h'|]|?|?|] eqn:Hdec; cbn [obind] in Hs; [| |done..].
    + rewrite (header_app _ c _ Hdec). cbn [obind]. destruct (complete h' d) eqn:Hc'.
      * rewrite (complete_app _ _ c Hc').
        rewrite (skip_fuel n (length (d ++ c))) by (rewrite ?length_app; auto using complete_app; lia).
        apply IH; [done|lia|done].
      * injection Hs as <- <-. unfold awaitMessage. cbn [obind].
        destruct (complete h' (d ++ c)) eqn:Hc2; [|done].
        apply skip_fuel; [done|rewrite length_app; lia|done].
    + injection Hs as <- <-. unfold awaitMessage. destruct (decodeHeader (d ++ c)) as [[h'|]|?|?|];
        cbn [obind]; try done. destruct (complete h' (d ++ c)) eqn:Hc2; [|done].
      apply skip_fuel; [done|rewrite length_app; lia|done].
Qed.

Lemma await_resume ctx b c ctx' b' :
  awaitMessage decodeHeader ctx b = Ok (Waiting ctx' b') ->
  awaitMessage decodeHeader ctx (b ++ c) = awaitMessage decodeHeader ctx' (b' ++ c).
Proof.
  unfold awaitMessage at 1. intros Hw.
  assert (Hsome : forall h, (match ctx with None => decodeHeader b | Some _ => Ok ctx end) = Ok (Some h) ->
    (match ctx with None => decodeHeader (b ++ c) | Some _ => Ok ctx end) = Ok (Some h)).
  { intros h. destruct ctx; [done|]. apply header_app. }
  destruct (match ctx with None => decodeHeader b | Some _ => Ok ctx end) as [[h|]|?|?|] eqn:Hctx;
    cbn [obind] in Hw; [| |done..].
  - unfold awaitMessage at 1. rewrite (Hsome h eq_refl). cbn [obind].
    destruct (complete h b) eqn:Hc.
    + rewrite (complete_app _ _ c Hc). by eapply skip_resume.
    + injection Hw as <- <-. done.
  - injection Hw as <- <-. destruct ctx as [h|]; [done|]. done.
Qed.

Lemma feed_waiting ctx b chunks :
  awaitMessage decodeHeader ctx b = Ok (Waiting ctx b) ->
  forall ctx' b', feed decodeHeader ctx b chunks = Ok (Waiting ctx' b') ->
  awaitMessage decodeHeader ctx (b ++ mjoin chunks) = Ok (Waiting ctx' b') /\
  awaitMessage decodeHeader ctx' b' = Ok (Waiting ctx' b').
Proof.
  revert ctx b. induction chunks as [|c chunks IH]; intros ctx b Hb ctx' b' Hf; cbn [feed] in Hf.
  - injection Hf as <- <-. cbn [mjoin list_join]. by rewrite app_nil_r.
  - destruct (awaitMessage decodeHeader ctx (b ++ c)) as [[ctx1 b1|h1 b1]|?|?|] eqn:H1;
      cbn [obind] in Hf; try done.
    change (mjoin (c :: chunks)) with (c ++ mjoin chunks). rewrite app_assoc.
    rewrite (await_resume _ _ (mjoin chunks) _ _ H1). apply IH; [|done].
    pose proof (await_resume _ _ [] _ _ H1) as Hr. rewrite !app_nil_r in Hr.
    by rewrite <-Hr.
Qed.

(** A message of that header and with that many bytes after it. *)
Definition frame_of (h : Header) (f : list Z) : Prop :=
  length f = (bodySize h + header_size)%nat /\ decodeHeader f = Ok (Some h).

Lemma frame_complete h f rest : frame_of h f -> complete h (f ++ rest) = true.
Proof. intros [Hl _]. unfold complete. rewrite length_app, Nat.leb_le. lia. Qed.

Lemma skip_frame fuel h f rest h' :
  frame_of h f -> is_heartbeat h = true -> decodeHeader rest = Ok (Some h') ->
  complete h' rest = true ->
  skipHeartbeats decodeHeader (S fuel) h (f ++ rest) = skipHeartbeats decodeHeader fuel h' rest.
Proof.
  intros [Hl _] Hh Hr Hc. cbn [skipHeartbeats]. rewrite Hh, <-Hl, drop_app_length, Hr.
  cbn [obind]. by rewrite Hc.
Qed.

Lemma frames_skipped fs h f rest :
  Forall (fun f => exists h, frame_of h f /\ is_heartbeat h = true) fs ->
  frame_of h f -> is_heartbeat h = false ->
  awaitMessage decodeHeader None (mjoin fs ++ f ++ rest) = Ok (Ready h (f ++ rest)).
Proof.
  intros HF Hf Hh.
  assert (Hlast : awaitMessage decodeHeader None (f ++ rest) = Ok (Ready h (f ++ rest))).
  { unfold awaitMessage. rewrite (header_app _ rest _ (proj2 Hf)). cbn [obind].
    rewrite (frame_complete _ _ rest Hf). destruct (length (f ++ rest)); cbn [skipHeartbeats]; by rewrite Hh. }
  induction HF as [|g fs (hg & Hg & Hhg) _ IH]; [done|].
  change (mjoin (g :: fs)) with (g ++ mjoin fs). rewrite <-app_assoc.
  set (tail := mjoin fs ++ f ++ rest) in *. unfold awaitMessage in IH |- *.
  rewrite (header_app _ tail _ (proj2 Hg)). cbn [obind]. rewrite (frame_complete _ _ tail Hg).
  destruct (decodeHeader tail) as [[h'|]|?|?|] eqn:Ht; cbn [obind] in IH; try done.
  destruct (complete h' tail) eqn:Hc; [|done].
  assert (Hn : exists n, length (g ++ tail) = S n /\ (length tail <= n)%nat).
  { exists (length (g ++ tail) - 1)%nat. rewrite length_app. destruct Hg as [Hl _].
    unfold header_size in Hl. lia. }
  destruct Hn as (n & -> & Hn). rewrite (skip_frame n hg g tail h') by done.
  rewrite <-IH. apply skip_fuel; [done|lia|lia].
Qed.
End AwaitLemmas.

(** ** Properties *)

(** C29. The messages are framed independently of how the upstream bytes arrive:
    while no message is complete, what the reader keeps (a decoded header, the
    bytes after the heartbeats it has skipped) makes the next call behave as if
    all the bytes had arrived at once. *)
Theorem dubbo_framing_chunks (decodeHeader : list Z -> outcome (option Header))
    (Hd : HeaderDecoder decodeHeader) (chunks : list (list Z)) (c : list Z)
    (ctx : option Header) (b : list Z) :
  feed decodeHeader None [] chunks = Ok (Waiting ctx b) ->
  awaitMessage decodeHeader ctx (b ++ c) = awaitMessage decodeHeader None (mjoin chunks ++ c).
Proof.
  intros Hf. assert (H0 : awaitMessage decodeHeader None [] = Ok (Waiting None [])).
  { unfold awaitMessage. rewrite header_short; [done|]. cbn. unfold header_size. lia. }
  destruct (feed_waiting decodeHeader None [] chunks H0 ctx b Hf) as [Hw _].
  cbn [app] in Hw. symmetry. by apply await_resume.
Qed.

(** Heartbeats never reach the response decoder and never hide a response: any
    number of complete heartbeat messages in front of a message is removed, and
    the first other message is found, followed by whatever came after it. *)
Theorem dubbo_heartbeats_skipped (decodeHeader : list Z -> outcome (option Header))
    (Hd : HeaderDecoder decodeHeader) (heartbeats : list (list Z)) (h : Header) (f rest : list Z) :
  Forall (fun f => exists h, frame_of decodeHeader h f /\ is_heartbeat h = true) heartbeats ->
  frame_of decodeHeader h f -> is_heartbeat h = false ->
  awaitMessage decodeHeader None (mjoin heartbeats ++ f ++ rest) = Ok (Ready h (f ++ rest)).
Proof. intros HF Hf Hh. by apply frames_skipped. Qed.

(** A header decoder: byte 2 tells a heartbeat, byte 15 the size of the body. *)
Definition example_decodeHeader (b : list Z) : outcome (option Header) :=
  if (length b <? header_size)%nat then Ok None
  else Ok (Some {| messageType := if Z.testbit (default 0%Z (take header_size b !! 2)) 5
                                  then MT_HeartbeatRequest else MT_Response;
                   responseStatusOk := true;
                   bodySize := Z.to_nat (default 0%Z (take header_size b !! 15)) |}).

#[export] Instance example_HeaderDecoder : HeaderDecoder example_decodeHeader.
Proof.
  split; unfold example_decodeHeader; intros b Hb.
  - apply Nat.ltb_lt in Hb. by rewrite Hb.
  - rewrite length_take, Nat.min_l, take_take, Nat.min_id by done.
    apply Nat.ltb_ge in Hb. by rewrite Hb, Nat.ltb_irrefl.
  - apply Nat.ltb_ge in Hb. by rewrite Hb.
Qed.

Definition example_frame (flag size : Z) (body : list Z) : list Z :=
  [0xda; 0xbb; flag; 20; 0;0;0;0;0;0;0;1; 0;0;0; size]%Z ++ body.

Lemma dubbo_framing_chunks_witness :
  awaitMessage example_decodeHeader
    (Some {| messageType := MT_Response; responseStatusOk := true; bodySize := 2 |})
    (example_frame 2 2 [] ++ [1; 2]%Z)
  = awaitMessage example_decodeHeader None
      (mjoin [example_frame 0x20 1 [78%Z]; example_frame 2 2 []] ++ [1; 2]%Z).
Proof.
  apply (dubbo_framing_chunks example_decodeHeader _
    [example_frame 0x20 1 [78%Z]; example_frame 2 2 []] [1; 2]%Z).
  vm_compute. reflexivity.
Defined.

Lemma dubbo_heartbeats_skipped_witness :
  awaitMessage example_decodeHeader None
    (mjoin [example_frame 0x20 1 [78%Z]; example_frame 0x20 0 []] ++ example_frame 2 2 [1; 2]%Z ++ [9%Z])
  = Ok (Ready {| messageType := MT_Response; responseStatusOk := true; bodySize := 2 |}
          (example_frame 2 2 [1; 2]%Z ++ [9%Z])).
Proof.
  apply (dubbo_heartbeats_skipped example_decodeHeader _).
  - repeat constructor; eexists; repeat split; vm_compute; reflexivity.
  - repeat split; vm_compute; reflexivity.
  - reflexivity.
Defined.
