(* ===== verification/Effects.v ===== *)
(** * Programs with state, calls and exceptions

    Methods of objects that callbacks reach later (the Dubbo upstream, the Lua filter) are programs
    of a small monad: they read and change the state, make calls on their neighbours and may throw.
    A relation between the states before and after and the calls in between is proved of a program
    by following its structure. *)

From S2P Require Import Prelude.
From stdpp Require Import base gmap strings numbers list.

(** ** A monad of state, calls and exceptions *)

Section Monad.
Context {S E : Type}.

Definition M (A : Type) : Type := S -> S * list E * outcome A.

Definition mret {A} (a : A) : M A := fun s => (s, [], Ok a).
Definition mlet {A B} (m : M A) (f : A -> M B) : M B := fun s =>
  let '(s1, e1, r) := m s in
  match r with
  | Ok a => let '(s2, e2, r2) := f a s1 in (s2, e1 ++ e2, r2)
  | Throw w => (s1, e1, Throw w)
  | Undefined w => (s1, e1, Undefined w)
  | OutOfFuel => (s1, e1, OutOfFuel)
  end.
Definition mget : M S := fun s => (s, [], Ok s).
Definition modify (f : S -> S) : M unit := fun s => (f s, [], Ok tt).
Definition emit (e : E) : M unit := fun s => (s, [e], Ok tt).
Definition lift {A} (r : outcome A) : M A := fun s => (s, [], r).
(** [try { m } catch (const std::exception& e) { h(e.what()) }] *)
Definition mcatch {A} (m : M A) (h : string -> M A) : M A := fun s =>
  let '(s1, e1, r) := m s in
  match r with
  | Throw w => let '(s2, e2, r2) := h w s1 in (s2, e1 ++ e2, r2)
  | _ => (s1, e1, r)
  end.
End Monad.
Arguments M : clear implicits.

Notation "'do' x <- m ; k" := (mlet m (fun x => k))
  (at level 20, x binder, m at level 100, k at level 200) : proxy_scope.
Notation "m ;; k" := (mlet m (fun _ => k)) (at level 100, right associativity) : proxy_scope.
#[local] Open Scope proxy_scope.

(** ** Reasoning about programs *)

(** [holds R m]: every run of [m] relates its first state, its calls and its last
    state. *)
Definition holds {S E A} (R : S -> list E -> S -> Prop) (m : M S E A) : Prop :=
  forall s, R s (m s).1.2 (m s).1.1.

Class Transitive_effects {S E} (R : S -> list E -> S -> Prop) : Prop := {
  te_refl : forall s, R s [] s;
  te_trans : forall s1 e1 s2 e2 s3, R s1 e1 s2 -> R s2 e2 s3 -> R s1 (e1 ++ e2) s3;
}.

Section Holds.
Context {S E : Type} (R : S -> list E -> S -> Prop)
  `{!Transitive_effects R}.

Lemma holds_ret {A} (a : A) : holds R (mret a).
Proof. intros s. apply te_refl. Qed.
Lemma holds_get : holds R mget.
Proof. intros s. apply te_refl. Qed.
Lemma holds_lift {A} (r : outcome A) : holds R (lift r).
Proof. intros s. apply te_refl. Qed.

Lemma holds_let {A B} (m : M S E A) (f : A -> M S E B) :
  holds R m -> (forall a, holds R (f a)) -> holds R (mlet m f).
Proof.
  intros Hm Hf s. unfold mlet. specialize (Hm s). destruct (m s) as [[s1 e1] r]. cbn in Hm.
  destruct r as [a|w|w|]; [|done..]. specialize (Hf a s1).
  destruct (f a s1) as [[s2 e2] r2]. cbn in *. by eapply te_trans.
Qed.

Lemma holds_catch {A} (m : M S E A) (h : string -> M S E A) :
  holds R m -> (forall w, holds R (h w)) -> holds R (mcatch m h).
Proof.
  intros Hm Hh s. unfold mcatch. specialize (Hm s). destruct (m s) as [[s1 e1] r]. cbn in Hm.
  destruct r as [a|w|w|]; [done| |done..]. specialize (Hh w s1).
  destruct (h w s1) as [[s2 e2] r2]. cbn in *. by eapply te_trans.
Qed.
End Holds.

Ltac walk known :=
  repeat first
    [ known
    | apply holds_let; [typeclasses eauto| |intros ?]
    | apply holds_catch; [typeclasses eauto| |intros ?]
    | apply holds_ret; typeclasses eauto
    | apply holds_get; typeclasses eauto
    | apply holds_lift; typeclasses eauto
    | case_match
    | progress cbn beta ].

Lemma mlet_assoc {S E A B C} (m : M S E A) (k : A -> M S E B) (k' : B -> M S E C) s :
  mlet (mlet m k) k' s = mlet m (fun a => mlet (k a) k') s.
Proof.
  unfold mlet. destruct (m s) as [[s1 e1] [a|w|w|]]; [|done..]. destruct (k a s1) as [[s2 e2] [b|w|w|]]; [|done..].
  destruct (k' b s2) as [[s3 e3] r]. by rewrite app_assoc.
Qed.

Lemma modify_let {S E A} f (m : M S E A) s : mlet (modify f) (fun _ => m) s = m (f s).
Proof. unfold mlet, modify. by destruct (m (f s)) as [[s' es] r]. Qed.


(** ** Weakest preconditions *)

(** What holds after a run that returns a value or throws; a run without a defined result is not
    spoken of. *)
Definition wp {S E A} (m : M S E A) (s : S) (Q : S -> list E -> A + string -> Prop) : Prop :=
  match m s with
  | (s', e, Ok a) => Q s' e (inl a)
  | (s', e, Throw w) => Q s' e (inr w)
  | _ => True
  end.

Section wp.
Context {S E : Type}.
Implicit Types (s : S).

Lemma wp_mono {A} (m : M S E A) s (Q Q' : S -> list E -> A + string -> Prop) :
  wp m s Q -> (forall s' e r, Q s' e r -> Q' s' e r) -> wp m s Q'.
Proof. unfold wp. destruct (m s) as [[s' e] [a|w|w|]]; auto. Qed.

Lemma wp_let {A B} (m : M S E A) (k : A -> M S E B) s Q :
  wp m s (fun s1 e1 r =>
    match r with
    | inl a => wp (k a) s1 (fun s2 e2 r2 => Q s2 (e1 ++ e2) r2)
    | inr w => Q s1 e1 (inr w)
    end) -> wp (mlet m k) s Q.
Proof.
  unfold wp, mlet. destruct (m s) as [[s1 e1] [a|w|w|]]; [|done..].
  by destruct (k a s1) as [[s2 e2] [b|w|w|]].
Qed.

Lemma wp_catch {A} (m : M S E A) (h : string -> M S E A) s Q :
  wp m s (fun s1 e1 r =>
    match r with
    | inl a => Q s1 e1 (inl a)
    | inr w => wp (h w) s1 (fun s2 e2 r2 => Q s2 (e1 ++ e2) r2)
    end) -> wp (mcatch m h) s Q.
Proof.
  unfold wp, mcatch. destruct (m s) as [[s1 e1] [a|w|w|]]; [done| |done..].
  by destruct (h w s1) as [[s2 e2] [b|v|v|]].
Qed.

Lemma wp_ret {A} (a : A) s Q : Q s [] (inl a) -> wp (mret (E := E) a) s Q.
Proof. done. Qed.
Lemma wp_modify f s Q : Q (f s) [] (inl tt) -> wp (modify (E := E) f) s Q.
Proof. done. Qed.
Lemma wp_emit e s Q : Q s [e] (inl tt) -> wp (emit (E := E) e) s Q.
Proof. done. Qed.
Lemma wp_throw {A} w s Q : Q s [] (inr w) -> wp (lift (A := A) (Throw w) : M S E A) s Q.
Proof. done. Qed.
Lemma wp_undefined {A} w s Q : wp (lift (A := A) (Undefined w) : M S E A) s Q.
Proof. done. Qed.
End wp.

Lemma wp_holds {S E A} (R : S -> list E -> S -> Prop) (m : M S E A) s (Q : S -> list E -> A + string -> Prop) :
  holds R m -> (forall s' e r, R s e s' -> Q s' e r) -> wp m s Q.
Proof.
  intros Hm HQ. specialize (Hm s). unfold wp. destruct (m s) as [[s' e] [a|w|w|]]; cbn in Hm; auto.
Qed.

Lemma wp_and {S E A} (m : M S E A) s (Q Q' : S -> list E -> A + string -> Prop) :
  wp m s Q -> wp m s Q' -> wp m s (fun s' e r => Q s' e r /\ Q' s' e r).
Proof. unfold wp. destruct (m s) as [[s' e] [a|w|w|]]; auto. Qed.
