(* ===== verification/DubboUpstream.v ===== *)
(** * The upstream request of the Dubbo bridge
      (source/upstreams/http/dubbo/upstream_request.{h,cc})

    [DubboUpstream] sits between the router's upstream request and a TCP
    connection of a pool.  It collects the HTTP request, writes one Dubbo request,
    reads messages until a response is there and gives the router one HTTP
    response.  Its methods are programs of a small monad with the object's state,
    the calls it makes on its neighbours and C++ exceptions; the events of a
    request's life are the steps of a machine. *)

From S2P Require Import Prelude Decimal DubboJson DubboContext DubboResponse.
From Stdlib Require Import Ascii.
From stdpp Require Import base gmap strings numbers list.
From S2P Require Import Effects.
#[local] Open Scope Z_scope.

#[local] Open Scope proxy_scope.

(** ** The neighbours *)

Inductive ResponseType := Value | Exception | Local.

(** [ResponseGetter::getStringFromResponse]: the body and an optional code. *)
Definition ResponseGetter (V : Type) : Type := option V -> ResponseType -> outcome (string * option Z).

(** The one of the bridge: the text of the value, never a code. *)
Definition SimpleResponseGetter {V : Type} (hessianValueToJsonString : option V -> outcome string) : ResponseGetter V :=
  fun response _ => obind (hessianValueToJsonString response) (fun text => Ok (text, None)).

(** The parts of the route's [DubboBridge] that are used. *)
Record DubboBridge (V : Type) := {
  getContext : SrcsRequestContext -> outcome DubboBridgeContext;
  argument_getter_creator_ :
    DubboBridgeContext -> SrcsRequestContext -> outcome ArgumentGetter;
  response_getter_creator_ : ResponseGetter V;
  bridge_protocol_error_code_ : Z;
  bridge_resp_exception_code_ : Z;
}.
Arguments getContext {V} _.
Arguments argument_getter_creator_ {V} _.
Arguments response_getter_creator_ {V} _.
Arguments bridge_protocol_error_code_ {V} _.
Arguments bridge_resp_exception_code_ {V} _.

(** Calls on the connection and on the router's upstream request. *)
Inductive effect :=
| ConnWrite (bytes : list Z)
| ConnClose
| ConnRelease
| DecodeHeaders (code : Z) (content_length : Z) (connection_close end_stream : bool)
| DecodeData (body : string)
| OnResetStream.

Record DubboUpstream (Hdr V : Type) := {
  request_headers_ : option Hdr;
  bufferd_body_ : string;
  dubbo_response_buffer_ : list Z;
  request_complete_ : bool;
  responded_ : bool;
  response_context_ : option Header;
  protocol_error_code_ : Z;
  resp_exception_code_ : Z;
  response_getter_ : option (ResponseGetter V);
  upstream_request_ : bool;
  upstream_conn_data_ : bool;
  to_close_upstream_connection_ : bool;
  upstream_reset_guard_ : bool;
  posted : list string;
}.
Arguments request_headers_ {Hdr V} _.
Arguments bufferd_body_ {Hdr V} _.
Arguments dubbo_response_buffer_ {Hdr V} _.
Arguments request_complete_ {Hdr V} _.
Arguments responded_ {Hdr V} _.
Arguments response_context_ {Hdr V} _.
Arguments protocol_error_code_ {Hdr V} _.
Arguments resp_exception_code_ {Hdr V} _.
Arguments response_getter_ {Hdr V} _.
Arguments upstream_request_ {Hdr V} _.
Arguments upstream_conn_data_ {Hdr V} _.
Arguments to_close_upstream_connection_ {Hdr V} _.
Arguments upstream_reset_guard_ {Hdr V} _.
Arguments posted {Hdr V} _.

#[export] Instance is_write_dec (e : effect) :
  Decision (match e with ConnWrite _ => True | _ => False end).
Proof. destruct e; apply _. Defined.
#[export] Instance is_response_dec (e : effect) :
  Decision (match e with DecodeHeaders _ _ _ _ => True | _ => False end).
Proof. destruct e; apply _. Defined.

Section Upstream.
Context {Hdr V : Type}.
#[local] Abbreviation upstream := (DubboUpstream Hdr V).
#[local] Abbreviation prog := (M upstream effect).

(** The route, the request as the bridge sees it, the request id taken from the
    global counter. *)
Variable route_bridge : option (DubboBridge V).
Variable source_context : Hdr -> string -> SrcsRequestContext.
Variable request_id : Z.
(** The Hessian and Dubbo libraries. *)
Variable encode_string : string -> list Z.
Variable encode_int : Z -> list Z.
Variable encode_value : hessian -> list Z.
Variable decodeHeader : list Z -> outcome (option Header).
Variable message_type_number : MessageType -> Z.
Variable rpc_response_type : Z -> option RpcResponseType.
Variable decode_object : list Z -> nat -> outcome (option V * nat).
Variable decode_int32 : list Z -> nat -> outcome (option Z * nat).
Variable string_object : string -> V.
Variable hessianValueToJsonString : option V -> outcome string.
(** Whether the router resets this stream while it handles response headers. *)
Variable router_resets : Z -> bool.

(** The object after its constructor. *)
Definition new_DubboUpstream : upstream :=
  {| request_headers_ := None; bufferd_body_ := ""; dubbo_response_buffer_ := [];
     request_complete_ := false; responded_ := false; response_context_ := None;
     protocol_error_code_ := 501; resp_exception_code_ := 503; response_getter_ := None;
     upstream_request_ := true; upstream_conn_data_ := true;
     to_close_upstream_connection_ := false; upstream_reset_guard_ := true; posted := [] |}.

(** Assignments to the members. *)
Definition set_request_headers h (s : upstream) : upstream :=
  {| request_headers_ := Some h; bufferd_body_ := bufferd_body_ s;
     dubbo_response_buffer_ := dubbo_response_buffer_ s; request_complete_ := request_complete_ s;
     responded_ := responded_ s; response_context_ := response_context_ s;
     protocol_error_code_ := protocol_error_code_ s; resp_exception_code_ := resp_exception_code_ s;
     response_getter_ := response_getter_ s; upstream_request_ := upstream_request_ s;
     upstream_conn_data_ := upstream_conn_data_ s;
     to_close_upstream_connection_ := to_close_upstream_connection_ s;
     upstream_reset_guard_ := upstream_reset_guard_ s; posted := posted s |}.
Definition append_body d (s : upstream) : upstream :=
  {| request_headers_ := request_headers_ s; bufferd_body_ := bufferd_body_ s +:+ d;
     dubbo_response_buffer_ := dubbo_response_buffer_ s; request_complete_ := request_complete_ s;
     responded_ := responded_ s; response_context_ := response_context_ s;
     protocol_error_code_ := protocol_error_code_ s; resp_exception_code_ := resp_exception_code_ s;
     response_getter_ := response_getter_ s; upstream_request_ := upstream_request_ s;
     upstream_conn_data_ := upstream_conn_data_ s;
     to_close_upstream_connection_ := to_close_upstream_connection_ s;
     upstream_reset_guard_ := upstream_reset_guard_ s; posted := posted s |}.
Definition set_read ctx buf (s : upstream) : upstream :=
  {| request_headers_ := request_headers_ s; bufferd_body_ := bufferd_body_ s;
     dubbo_response_buffer_ := buf; request_complete_ := request_complete_ s;
     responded_ := responded_ s; response_context_ := ctx;
     protocol_error_code_ := protocol_error_code_ s; resp_exception_code_ := resp_exception_code_ s;
     response_getter_ := response_getter_ s; upstream_request_ := upstream_request_ s;
     upstream_conn_data_ := upstream_conn_data_ s;
     to_close_upstream_connection_ := to_close_upstream_connection_ s;
     upstream_reset_guard_ := upstream_reset_guard_ s; posted := posted s |}.
Definition set_request_complete (s : upstream) : upstream :=
  {| request_headers_ := request_headers_ s; bufferd_body_ := bufferd_body_ s;
     dubbo_response_buffer_ := dubbo_response_buffer_ s; request_complete_ := true;
     responded_ := responded_ s; response_context_ := response_context_ s;
     protocol_error_code_ := protocol_error_code_ s; resp_exception_code_ := resp_exception_code_ s;
     response_getter_ := response_getter_ s; upstream_request_ := upstream_request_ s;
     upstream_conn_data_ := upstream_conn_data_ s;
     to_close_upstream_connection_ := to_close_upstream_connection_ s;
     upstream_reset_guard_ := upstream_reset_guard_ s; posted := posted s |}.
Definition set_bridge (b : DubboBridge V) (s : upstream) : upstream :=
  {| request_headers_ := request_headers_ s; bufferd_body_ := bufferd_body_ s;
     dubbo_response_buffer_ := dubbo_response_buffer_ s; request_complete_ := request_complete_ s;
     responded_ := responded_ s; response_context_ := response_context_ s;
     protocol_error_code_ := bridge_protocol_error_code_ b;
     resp_exception_code_ := bridge_resp_exception_code_ b;
     response_getter_ := Some (response_getter_creator_ b); upstream_request_ := upstream_request_ s;
     upstream_conn_data_ := upstream_conn_data_ s;
     to_close_upstream_connection_ := to_close_upstream_connection_ s;
     upstream_reset_guard_ := upstream_reset_guard_ s; posted := posted s |}.
Definition post message (s : upstream) : upstream :=
  {| request_headers_ := request_headers_ s; bufferd_body_ := bufferd_body_ s;
     dubbo_response_buffer_ := dubbo_response_buffer_ s; request_complete_ := request_complete_ s;
     responded_ := responded_ s; response_context_ := response_context_ s;
     protocol_error_code_ := protocol_error_code_ s; resp_exception_code_ := resp_exception_code_ s;
     response_getter_ := response_getter_ s; upstream_request_ := upstream_request_ s;
     upstream_conn_data_ := upstream_conn_data_ s;
     to_close_upstream_connection_ := to_close_upstream_connection_ s;
     upstream_reset_guard_ := upstream_reset_guard_ s; posted := posted s ++ [message] |}.
Definition set_posted l (s : upstream) : upstream :=
  {| request_headers_ := request_headers_ s; bufferd_body_ := bufferd_body_ s;
     dubbo_response_buffer_ := dubbo_response_buffer_ s; request_complete_ := request_complete_ s;
     responded_ := responded_ s; response_context_ := response_context_ s;
     protocol_error_code_ := protocol_error_code_ s; resp_exception_code_ := resp_exception_code_ s;
     response_getter_ := response_getter_ s; upstream_request_ := upstream_request_ s;
     upstream_conn_data_ := upstream_conn_data_ s;
     to_close_upstream_connection_ := to_close_upstream_connection_ s;
     upstream_reset_guard_ := upstream_reset_guard_ s; posted := l |}.
Definition set_responded (close : bool) (s : upstream) : upstream :=
  {| request_headers_ := request_headers_ s; bufferd_body_ := bufferd_body_ s;
     dubbo_response_buffer_ := dubbo_response_buffer_ s; request_complete_ := request_complete_ s;
     responded_ := true; response_context_ := response_context_ s;
     protocol_error_code_ := protocol_error_code_ s; resp_exception_code_ := resp_exception_code_ s;
     response_getter_ := response_getter_ s; upstream_request_ := upstream_request_ s;
     upstream_conn_data_ := upstream_conn_data_ s;
     to_close_upstream_connection_ := close || to_close_upstream_connection_ s;
     upstream_reset_guard_ := upstream_reset_guard_ s; posted := posted s |}.
Definition detach (s : upstream) : upstream :=
  {| request_headers_ := request_headers_ s; bufferd_body_ := bufferd_body_ s;
     dubbo_response_buffer_ := dubbo_response_buffer_ s; request_complete_ := request_complete_ s;
     responded_ := responded_ s; response_context_ := response_context_ s;
     protocol_error_code_ := protocol_error_code_ s; resp_exception_code_ := resp_exception_code_ s;
     response_getter_ := response_getter_ s; upstream_request_ := false;
     upstream_conn_data_ := upstream_conn_data_ s;
     to_close_upstream_connection_ := to_close_upstream_connection_ s;
     upstream_reset_guard_ := false; posted := posted s |}.
Definition release (s : upstream) : upstream :=
  {| request_headers_ := request_headers_ s; bufferd_body_ := bufferd_body_ s;
     dubbo_response_buffer_ := dubbo_response_buffer_ s; request_complete_ := request_complete_ s;
     responded_ := responded_ s; response_context_ := response_context_ s;
     protocol_error_code_ := protocol_error_code_ s; resp_exception_code_ := resp_exception_code_ s;
     response_getter_ := response_getter_ s; upstream_request_ := upstream_request_ s;
     upstream_conn_data_ := false;
     to_close_upstream_connection_ := to_close_upstream_connection_ s;
     upstream_reset_guard_ := upstream_reset_guard_ s; posted := posted s |}.

(** ** The methods *)

Definition cleanup (close_connection : bool) : prog unit :=
  modify detach ;;
  do s <- mget ;
  (if close_connection && upstream_conn_data_ s then emit ConnClose else mret tt) ;;
  (if upstream_conn_data_ s then emit ConnRelease else mret tt) ;;
  modify release.

Definition resetStream : prog unit := cleanup true.

(** The destructor. *)
Definition destroy : prog unit :=
  do s <- mget ; cleanup (to_close_upstream_connection_ s || negb (responded_ s)).

Definition handleRawResponse (code : Z) (body : string) (close : bool) : prog unit :=
  do s <- mget ;
  if upstream_request_ s then
    modify (set_responded close) ;;
    let end_stream := bool_decide (body = "") in
    emit (DecodeHeaders code (Z.of_nat (String.length body)) close end_stream) ;;
    (if router_resets code then resetStream else mret tt) ;;
    do s <- mget ;
    if end_stream || negb (upstream_request_ s) then mret tt
    else emit (DecodeData body)
  else lift (Undefined "upstream_request_ is null").

Definition handleResponse (code : Z) (type : ResponseType) (response : option V) (close : bool) :
  prog unit :=
  do s <- mget ;
  match response_getter_ s with
  | Some getter =>
      do final_response <- lift (getter response type) ;
      handleRawResponse (default code final_response.2) final_response.1 close
  | None =>
      do text <- lift (hessianValueToJsonString response) ;
      handleRawResponse code text close
  end.

(** The overload for a message. *)
Definition handleLocalResponse (code : Z) (type : ResponseType) (raw_str : string) (close : bool) :
  prog unit :=
  handleResponse code type (Some (string_object raw_str)) close.

Definition convertHttpToDubbo (dubbo_bridge : DubboBridge V) (s : upstream) : outcome (list Z) :=
  match request_headers_ s with
  | None => Undefined "request_headers_ is null"
  | Some headers =>
      let source := source_context headers (bufferd_body_ s) in
      obind (getContext dubbo_bridge source) (fun context =>
      obind (argument_getter_creator_ dubbo_bridge context source) (fun getter =>
      (writeDubboRequest encode_string encode_int encode_value request_id context source getter).1))
  end.

Definition no_context_message : string :=
  "No valid dubbo conversion context for current route or request".

Definition writeRequestToUpstream : prog unit :=
  do s <- mget ;
  if request_complete_ s then mret tt
  else
    modify set_request_complete ;;
    if negb (upstream_request_ s && upstream_conn_data_ s) then
      lift (Undefined "upstream_request_ is null")
    else
      match route_bridge with
      | None => modify (post no_context_message)
      | Some dubbo_bridge =>
          modify (set_bridge dubbo_bridge) ;;
          do s <- mget ;
          match convertHttpToDubbo dubbo_bridge s with
          | Throw error_message => modify (post error_message)
          | Ok buffer => emit (ConnWrite buffer)
          | r => lift (obind r (fun _ => Ok tt))
          end
      end.

Definition encodeHeaders (headers : Hdr) (end_stream : bool) : prog unit :=
  modify (set_request_headers headers) ;;
  if end_stream then writeRequestToUpstream else mret tt.

Definition encodeData (data : string) (end_stream : bool) : prog unit :=
  modify (append_body data) ;;
  if end_stream then writeRequestToUpstream else mret tt.

Definition encodeTrailers : prog unit := writeRequestToUpstream.

(** [readRespnoseFromUpstream]; [true] stands for [ResponseStatus::OK]. *)
Definition handleMessage (h : Header) : prog unit :=
  do s <- mget ;
  let protocol_error message :=
    handleLocalResponse (protocol_error_code_ s) Exception message true in
  match messageType h with
  | MT_Response =>
      let buffer := drop 16 (dubbo_response_buffer_ s) in
      modify (set_read (response_context_ s) buffer) ;;
      if negb (responseStatusOk h) then
        do r <- lift (decode_object buffer 0) ;
        if (bodySize h <? r.2)%nat then protocol_error (size_error r.2 (bodySize h))
        else handleResponse (protocol_error_code_ s) Exception r.1 true
      else
        do t <- lift (decode_int32 buffer 0) ;
        match t.1 with
        | None => protocol_error "No response type get from dubbo response and do nothing"
        | Some n =>
            let value (has_exception : bool) :=
              do r <- lift (decode_object buffer t.2) ;
              if (bodySize h <? r.2)%nat then protocol_error (size_error r.2 (bodySize h))
              else handleResponse (if has_exception then resp_exception_code_ s else 200)
                     (if has_exception then Exception else Value) r.1 false in
            match rpc_response_type n with
            | Some ResponseWithException | Some ResponseWithExceptionWithAttachments => value true
            | Some ResponseWithValue | Some ResponseValueWithAttachments => value false
            | Some ResponseWithNullValue | Some ResponseNullValueWithAttachments =>
                handleResponse 200 Value None false
            | None => lift (Throw ("not supported return type " +:+ to_string (u8 n)))
            end
        end
  | t => protocol_error ("Expected response message but get " +:+ to_string (message_type_number t))
  end.

Definition readRespnoseFromUpstream : prog bool :=
  do s <- mget ;
  do r <- lift (awaitMessage decodeHeader (response_context_ s) (dubbo_response_buffer_ s)) ;
  match r with
  | Waiting context buffer => modify (set_read context buffer) ;; mret false
  | Ready h buffer => modify (set_read (Some h) buffer) ;; handleMessage h ;; mret true
  end.

Definition onUpstreamData (data : list Z) (end_stream : bool) : prog unit :=
  do s <- mget ;
  if negb (upstream_request_ s) || responded_ s || bool_decide (data = []) then mret tt
  else
    modify (set_read (response_context_ s) (dubbo_response_buffer_ s ++ data)) ;;
    mcatch
      (do ok <- readRespnoseFromUpstream ;
       do s <- mget ;
       if negb ok && end_stream then
         handleLocalResponse (protocol_error_code_ s) Exception
           "More data is necessary for upstream but end stream" true
       else mret tt)
      (fun what =>
       do s <- mget ;
       handleLocalResponse (protocol_error_code_ s) Exception what true).

(** A connection event other than [Connected]. *)
Definition onEvent : prog unit :=
  do s <- mget ;
  if negb (upstream_request_ s) then mret tt
  else if responded_ s then cleanup false
  else cleanup false ;; emit OnResetStream.

(** The dispatcher runs the oldest posted callback. *)
Definition runPosted : prog unit :=
  do s <- mget ;
  match posted s with
  | [] => mret tt
  | message :: rest =>
      modify (set_posted rest) ;;
      if upstream_reset_guard_ s then handleLocalResponse 400 Local message false else mret tt
  end.

(** ** The life of a request *)

Inductive event :=
| EncodeHeaders (h : Hdr) (end_stream : bool)
| EncodeData (d : string) (end_stream : bool)
| EncodeTrailers
| UpstreamData (d : list Z) (end_stream : bool)
| ConnectionClosed
| RunPosted
| ResetStream
| Destroy.

Definition handle (e : event) : prog unit :=
  match e with
  | EncodeHeaders h end_stream => encodeHeaders h end_stream
  | EncodeData d end_stream => encodeData d end_stream
  | EncodeTrailers => encodeTrailers
  | UpstreamData d end_stream => onUpstreamData d end_stream
  | ConnectionClosed => onEvent
  | RunPosted => runPosted
  | ResetStream => resetStream
  | Destroy => destroy
  end.

(** One event: the state after it and the calls made. *)
Definition after (s : upstream) (e : event) : upstream * list effect := (handle e s).1.

Fixpoint run (s : upstream) (es : list event) : upstream * list effect :=
  match es with
  | [] => (s, [])
  | e :: es' =>
      let r := after s e in
      let r' := run r.1 es' in
      (r'.1, r.2 ++ r'.2)
  end.

(** ** Reasoning about programs *)

(** Everything that is not the body of [handleRawResponse], [cleanup] or
    [writeRequestToUpstream] is built from reads of the upstream data. *)
Section Generic.
Variable R : upstream -> list effect -> upstream -> Prop.
Context `{!Transitive_effects R}.
Hypothesis R_set_read : forall ctx buf, holds R (modify (set_read ctx buf)).
Hypothesis R_respond : forall code body close, holds R (handleRawResponse code body close).

Lemma holds_handleResponse code t v close : holds R (handleResponse code t v close).
Proof. unfold handleResponse. walk ltac:(apply R_respond). Qed.

Lemma holds_handleLocalResponse code t v close : holds R (handleLocalResponse code t v close).
Proof. apply holds_handleResponse. Qed.

Lemma holds_handleMessage h : holds R (handleMessage h).
Proof.
  unfold handleMessage.
  walk ltac:(first [apply R_set_read | apply holds_handleLocalResponse | apply holds_handleResponse]).
Qed.

Lemma holds_read : holds R readRespnoseFromUpstream.
Proof. unfold readRespnoseFromUpstream. 
  walk ltac:(first [apply R_set_read | apply holds_handleMessage]). Qed.

Lemma holds_onUpstreamData d e : holds R (onUpstreamData d e).
Proof.
  unfold onUpstreamData. 
  walk ltac:(first [apply R_set_read | apply holds_read | apply holds_handleLocalResponse]).
Qed.
End Generic.

(** ** Runs of the basic methods *)

Lemma cleanup_run close s :
  cleanup close s =
  (release (detach s),
   if upstream_conn_data_ s then (if close then [ConnClose] else []) ++ [ConnRelease] else [], Ok tt).
Proof.
  unfold cleanup, mlet, mget, modify, emit, mret. cbn.
  destruct close, (upstream_conn_data_ s); reflexivity.
Qed.

Lemma onEvent_run s :
  onEvent s =
  if upstream_request_ s then
    (release (detach s), (if upstream_conn_data_ s then [ConnRelease] else [])
       ++ (if responded_ s then [] else [OnResetStream]), Ok tt)
  else (s, [], Ok tt).
Proof.
  unfold onEvent, mlet at 1, mget. destruct (upstream_request_ s); cbn [negb]; [|done].
  destruct (responded_ s).
  - rewrite cleanup_run. cbn [app]. by rewrite app_nil_r.
  - unfold mlet, emit. rewrite cleanup_run. done.
Qed.

Lemma destroy_run s :
  destroy s =
  (release (detach s),
   if upstream_conn_data_ s
   then (if to_close_upstream_connection_ s || negb (responded_ s) then [ConnClose] else []) ++ [ConnRelease]
   else [], Ok tt).
Proof. unfold destroy, mlet at 1, mget. by rewrite cleanup_run. Qed.

Lemma runPosted_run s :
  runPosted s =
  match posted s with
  | [] => (s, [], Ok tt)
  | m :: rest =>
      (if upstream_reset_guard_ s then handleLocalResponse 400 Local m false else mret tt)
        (set_posted rest s)
  end.
Proof.
  unfold runPosted. unfold mlet at 1, mget. destruct (posted s) as [|m rest]; [done|].
  rewrite modify_let. destruct (upstream_reset_guard_ s); [|done].
  by destruct (handleLocalResponse _ _ _ _ _) as [[s' es] r].
Qed.

(** The new state and the calls of a response. *)
Lemma raw_response_run code body close s :
  upstream_request_ s = true ->
  exists es s', handleRawResponse code body close s
    = (s', DecodeHeaders code (Z.of_nat (String.length body)) close (bool_decide (body = "")) :: es, Ok tt) /\
  (s' = set_responded close s \/ s' = release (detach (set_responded close s))) /\
  Forall (fun e => match e with ConnClose | ConnRelease | DecodeData _ => True | _ => False end) es.
Proof.
  intros Hu. unfold handleRawResponse, mlet, mget, modify, emit, mret, resetStream. rewrite Hu. cbn.
  destruct (router_resets code).
  - rewrite cleanup_run. cbn. rewrite orb_true_r.
    eexists _, _. split; [reflexivity|]. split; [by right|].
    destruct (upstream_conn_data_ s); repeat constructor.
  - cbn. rewrite Hu, orb_false_r.
    destruct (bool_decide (body = "")); (eexists _, _; split; [reflexivity|]; split; [by left|]; repeat constructor).
Qed.

Lemma write_request_run s :
  request_complete_ s = false ->
  let r := writeRequestToUpstream s in
  request_complete_ r.1.1 = true /\ responded_ r.1.1 = responded_ s /\
  upstream_request_ r.1.1 = upstream_request_ s /\ upstream_conn_data_ r.1.1 = upstream_conn_data_ s /\
  upstream_reset_guard_ r.1.1 = upstream_reset_guard_ s /\
  to_close_upstream_connection_ r.1.1 = to_close_upstream_connection_ s /\
  ((exists bytes, r.1.2 = [ConnWrite bytes] /\ posted r.1.1 = posted s) \/
   (r.1.2 = [] /\ posted r.1.1 = posted s) \/
   (exists m, r.1.2 = [] /\ posted r.1.1 = posted s ++ [m])).
Proof.
  intros Hrc. unfold writeRequestToUpstream, mlet, mget, modify, emit, mret, lift. rewrite Hrc. cbn.
  destruct (upstream_request_ s && upstream_conn_data_ s); cbn; [|by repeat split; eauto].
  destruct route_bridge as [b|]; cbn; [|by repeat split; eauto].
  destruct (convertHttpToDubbo _ _) as [bytes|w|w|]; cbn; by repeat split; eauto.
Qed.

Lemma write_request_done s :
  request_complete_ s = true ->
  writeRequestToUpstream s = (s, [], Ok tt).
Proof. intros Hrc. unfold writeRequestToUpstream, mlet, mget. by rewrite Hrc. Qed.

(** ** One request is written *)

Definition b2n (b : bool) : nat := if b then 1 else 0.

Definition writes (es : list effect) : nat :=
  length (filter (fun e => match e with ConnWrite _ => True | _ => False end) es).

Definition no_write (s : upstream) (es : list effect) (s' : upstream) : Prop :=
  writes es = 0%nat /\ request_complete_ s' = request_complete_ s.

Lemma writes_app es es' : writes (es ++ es') = (writes es + writes es')%nat.
Proof. unfold writes. by rewrite filter_app, length_app. Qed.

#[local] Instance no_write_trans : Transitive_effects no_write.
Proof.
  split; [done|]. unfold no_write. intros s1 e1 s2 e2 s3 [H1 E1] [H2 E2].
  rewrite writes_app, H1, H2. by split; [|congruence].
Qed.

Lemma no_write_others es :
  Forall (fun e => match e with ConnClose | ConnRelease | DecodeData _ => True | _ => False end) es ->
  writes es = 0%nat.
Proof. induction 1 as [|e es He _ IH]; [done|]. destruct e; try done; exact IH. Qed.

Lemma no_write_respond code body close : holds no_write (handleRawResponse code body close).
Proof.
  intros s. destruct (upstream_request_ s) eqn:Hu.
  - destruct (raw_response_run code body close s Hu) as (es & s' & -> & Hs' & Hes). cbn.
    split; [exact (no_write_others es Hes)|]. by destruct Hs' as [-> | ->].
  - unfold handleRawResponse, mlet, mget, lift. rewrite Hu. done.
Qed.

Lemma event_writes s e :
  (writes (after s e).2 + b2n (request_complete_ s) <= b2n (request_complete_ (after s e).1))%nat.
Proof.
  assert (Hno : forall m : prog unit, holds no_write m ->
    (writes (m s).1.2 + b2n (request_complete_ s) <= b2n (request_complete_ (m s).1.1))%nat).
  { intros m Hm. destruct (Hm s) as [-> ->]. lia. }
  assert (Hwr : forall s, (writes (writeRequestToUpstream s).1.2 + b2n (request_complete_ s)
    <= b2n (request_complete_ (writeRequestToUpstream s).1.1))%nat).
  { intros s0. destruct (request_complete_ s0) eqn:Hrc.
    - rewrite write_request_done by done. cbn. by rewrite Hrc.
    - destruct (write_request_run s0 Hrc) as (-> & _ & _ & _ & _ & _ & Hcases).
      destruct Hcases as [(bs & -> & _)|[(-> & _)|(m & -> & _)]];
        [change (writes [ConnWrite bs]) with 1%nat|change (writes []) with 0%nat..]; cbn [b2n]; lia. }
  destruct e; unfold after; cbn [handle].
  - unfold encodeHeaders. rewrite modify_let. destruct end_stream; [|cbn; lia].
    apply (Hwr (set_request_headers h s)).
  - unfold encodeData. rewrite modify_let. destruct end_stream; [|cbn; lia].
    apply (Hwr (append_body d s)).
  - apply Hwr.
  - apply Hno, holds_onUpstreamData; [typeclasses eauto|done|apply no_write_respond].
  - apply Hno. intros s0. rewrite onEvent_run. destruct (upstream_request_ s0); [|done]. cbn.
    by destruct (upstream_conn_data_ s0), (responded_ s0).
  - apply Hno. unfold runPosted. walk ltac:(first [apply holds_handleLocalResponse;
      [typeclasses eauto|done|apply no_write_respond] | by intros ?]).
  - apply Hno. intros s0. unfold resetStream. rewrite cleanup_run. cbn.
    by destruct (upstream_conn_data_ s0).
  - apply Hno. intros s0. rewrite destroy_run. cbn.
    by destruct (upstream_conn_data_ s0), (to_close_upstream_connection_ s0), (responded_ s0).
Qed.

Lemma run_writes s es :
  (writes (run s es).2 + b2n (request_complete_ s) <= b2n (request_complete_ (run s es).1))%nat.
Proof.
  revert s. induction es as [|e es IH]; intros s; cbn [run]; [cbn; lia|].
  pose proof (event_writes s e). specialize (IH (after s e).1). cbn [fst snd].
  rewrite writes_app. lia.
Qed.

(** ** One response is given *)

Definition responses (es : list effect) : nat :=
  length (filter (fun e => match e with DecodeHeaders _ _ _ _ => True | _ => False end) es).

Lemma responses_app es es' : responses (es ++ es') = (responses es + responses es')%nat.
Proof. unfold responses. by rewrite filter_app, length_app. Qed.

(** A program that gives no response. *)
Definition quiet {A} (m : prog A) : Prop := forall s,
  responses (m s).1.2 = 0%nat /\ responded_ (m s).1.1 = responded_ s /\
  posted (m s).1.1 = posted s /\ request_complete_ (m s).1.1 = request_complete_ s.

(** A program that gives at most one response to a request that has none, and has
    given none when it throws. *)
Definition once {A} (m : prog A) : Prop := forall s, responded_ s = false ->
  let r := m s in
  (responses r.1.2 <= b2n (responded_ r.1.1))%nat /\
  (forall w, r.2 = Throw w -> responded_ r.1.1 = false) /\
  posted r.1.1 = posted s /\ request_complete_ r.1.1 = request_complete_ s.

Lemma quiet_once {A} (m : prog A) : quiet m -> once m.
Proof. intros Hq s Hs. destruct (Hq s) as (H1 & H2 & H3 & H4). cbn zeta. rewrite H1, H2, H3, H4, Hs. by split_and!. Qed.

Lemma quiet_get : quiet mget.
Proof. by intros s. Qed.
Lemma quiet_lift {A} (r : outcome A) : quiet (lift r).
Proof. by intros s. Qed.
Lemma quiet_ret {A} (a : A) : quiet (mret a).
Proof. by intros s. Qed.
Lemma quiet_set_read ctx buf : quiet (modify (set_read ctx buf)).
Proof. by intros s. Qed.

Lemma once_let {A B} (m : prog A) (f : A -> prog B) :
  quiet m -> (forall a, once (f a)) -> once (mlet m f).
Proof.
  intros Hm Hf s Hs. specialize (Hm s). unfold mlet. destruct (m s) as [[s1 e1] r]. cbn zeta in Hm; cbn [fst snd] in Hm.
  destruct Hm as (He & Hr & Hp & Hc). rewrite Hs in Hr.
  destruct r as [a|w|w|]; cbn [fst snd]; [|rewrite He, Hr; cbn [b2n]; split_and!; auto; lia..].
  specialize (Hf a s1 Hr). destruct (f a s1) as [[s2 e2] r2]. cbn zeta in *; cbn [fst snd] in *.
  rewrite responses_app, He, <-Hp, <-Hc. exact Hf.
Qed.

Lemma once_then {A B} (m : prog A) (b : B) : once m -> once (mlet m (fun _ => mret b)).
Proof.
  intros Hm s Hs. specialize (Hm s Hs). unfold mlet, mret. destruct (m s) as [[s1 e1] r].
  cbn zeta in *; cbn [fst snd] in *. destruct Hm as (H1 & H2 & H3 & H4).
  destruct r as [a|w|w|]; cbn [fst snd]; rewrite ?app_nil_r; split_and!; try done.
  intros w' _. by apply (H2 w).
Qed.

Lemma once_catch {A} (m : prog A) (h : string -> prog A) :
  once m -> (forall w, once (h w)) -> once (mcatch m h).
Proof.
  intros Hm Hh s Hs. specialize (Hm s Hs). unfold mcatch. destruct (m s) as [[s1 e1] r]. cbn zeta in Hm; cbn [fst snd] in Hm.
  destruct r as [a|w|w|]; [exact Hm| |exact Hm..]. destruct Hm as (He & Hr & Hp & Hc).
  specialize (Hr w eq_refl). rewrite Hr in He. cbn [b2n] in He. specialize (Hh w s1 Hr).
  destruct (h w s1) as [[s2 e2] r2]. cbn zeta in *; cbn [fst snd] in *. rewrite responses_app, <-Hp, <-Hc.
  replace (responses e1) with 0%nat by lia. exact Hh.
Qed.

Ltac walk_once known :=
  repeat first
    [ known
    | apply once_let;
        [first [apply quiet_get | apply quiet_lift | apply quiet_set_read]|intros ?]
    | apply quiet_once; first [apply quiet_ret | apply quiet_lift]
    | case_match
    | progress cbn beta ].

Lemma no_response_others es :
  Forall (fun e => match e with ConnClose | ConnRelease | DecodeData _ => True | _ => False end) es ->
  responses es = 0%nat.
Proof. induction 1 as [|e es He _ IH]; [done|]. destruct e; try done; exact IH. Qed.

Lemma once_respond code body close : once (handleRawResponse code body close).
Proof.
  intros s Hs. destruct (upstream_request_ s) eqn:Hu.
  - destruct (raw_response_run code body close s Hu) as (es & s' & -> & Hs' & Hes).
    cbn zeta; cbn [fst snd].
    assert (Hone : forall n c e, responses (DecodeHeaders code n c e :: es) = 1%nat)
      by (intros; exact (f_equal S (no_response_others es Hes))).
    rewrite Hone. destruct Hs' as [-> | ->]; cbn; split_and!; auto; by intros.
  - unfold handleRawResponse, mlet, mget, lift. rewrite Hu. cbn. by rewrite Hs.
Qed.

Lemma once_handleResponse code t v close : once (handleResponse code t v close).
Proof. unfold handleResponse. walk_once ltac:(apply once_respond). Qed.

Lemma once_handleMessage h : once (handleMessage h).
Proof. unfold handleMessage, handleLocalResponse. walk_once ltac:(apply once_handleResponse). Qed.

Lemma read_run s :
  readRespnoseFromUpstream s =
  match awaitMessage decodeHeader (response_context_ s) (dubbo_response_buffer_ s) with
  | Ok (Waiting ctx b) => (set_read ctx b s, [], Ok false)
  | Ok (Ready h b) => mlet (handleMessage h) (fun _ => mret true) (set_read (Some h) b s)
  | Throw w => (s, [], Throw w)
  | Undefined w => (s, [], Undefined w)
  | OutOfFuel => (s, [], OutOfFuel)
  end.
Proof.
  unfold readRespnoseFromUpstream. unfold mlet at 1, mget. unfold mlet at 1, lift.
  destruct (awaitMessage _ _ _) as [[ctx b|h b]|w|w|]; [|rewrite modify_let|done..].
  - by rewrite modify_let.
  - by destruct (mlet _ _ _) as [[s' es] r].
Qed.

(** The body of the [try]: the end of the stream is only looked at when no message
    was there. *)
Lemma once_try end_stream :
  once (do ok <- readRespnoseFromUpstream ;
        do s <- mget ;
        if negb ok && end_stream then
          handleLocalResponse (protocol_error_code_ s) Exception
            "More data is necessary for upstream but end stream" true
        else mret tt).
Proof.
  intros s Hs. unfold mlet at 1. rewrite read_run.
  destruct (awaitMessage decodeHeader (response_context_ s) (dubbo_response_buffer_ s))
    as [[ctx b|h b]|w|w|]; cbn [negb andb].
  - assert (Ho : once (do s <- mget ; (if end_stream then
          handleLocalResponse (protocol_error_code_ s) Exception
            "More data is necessary for upstream but end stream" true else mret tt) : prog unit))
      by walk_once ltac:(apply once_handleResponse).
    specialize (Ho (set_read ctx b s) Hs). by destruct (mlet _ _ _) as [[s' es] r].
  - assert (Ho : once (mlet (handleMessage h) (fun _ => mret true)))
      by apply once_then, once_handleMessage.
    specialize (Ho (set_read (Some h) b s) Hs). revert Ho.
    assert (Hok : forall ok, (mlet (handleMessage h) (fun _ => mret true) (set_read (Some h) b s)).2 = Ok ok -> ok = true).
    { unfold mlet, mret. by destruct (handleMessage h _) as [[s' es] [|?|?|]]; intros ok [= <-]. }
    destruct (mlet _ _ _) as [[s' es] r]. cbn [fst snd] in *. destruct r as [ok|w|w|].
    + rewrite (Hok ok eq_refl). unfold mlet, mget, mret. cbn zeta; cbn [fst snd andb negb].
      rewrite !app_nil_r. intros (H1 & H2 & H3). split; [done|]. split; [by intros|done].
    + intros (H1 & H2 & H3). split; [done|]. split; [intros w' _; by apply (H2 w)|done].
    + intros (H1 & H2 & H3). split; [done|]. split; [by intros|done].
    + intros (H1 & H2 & H3). split; [done|]. split; [by intros|done].
  - cbn zeta; cbn [fst snd]. rewrite Hs. by split_and!.
  - cbn zeta; cbn [fst snd]. rewrite Hs. by split_and!.
  - cbn zeta; cbn [fst snd]. rewrite Hs. by split_and!.
Qed.

Lemma once_onUpstreamData d end_stream : once (onUpstreamData d end_stream).
Proof.
  unfold onUpstreamData. apply once_let; [apply quiet_get|]. intros s.
  case_match; [apply quiet_once, quiet_ret|].
  apply once_let; [apply quiet_set_read|]. intros _. apply once_catch; [apply once_try|].
  intros w. apply once_let; [apply quiet_get|]. intros s'. apply once_handleResponse.
Qed.

(** The peer sends nothing before it has been sent the request, and nothing when
    the conversion of the request has failed. *)
Fixpoint polite (s : upstream) (es : list event) : bool :=
  match es with
  | [] => true
  | e :: es' =>
      match e with
      | UpstreamData _ _ => request_complete_ s && bool_decide (posted s = [])
      | _ => true
      end && polite (after s e).1 es'
  end.

(** [n] responses have been given so far. *)
Definition response_inv (s : upstream) (n : nat) : Prop :=
  (n <= b2n (responded_ s))%nat /\
  (posted s ≠ [] -> responded_ s = false /\ length (posted s) = 1%nat /\ request_complete_ s = true) /\
  (responded_ s = true -> request_complete_ s = true).

Lemma write_inv s n :
  response_inv s n ->
  response_inv (writeRequestToUpstream s).1.1 (n + responses (writeRequestToUpstream s).1.2).
Proof.
  intros (Hn & Hp & Hr). destruct (request_complete_ s) eqn:Hrc.
  - rewrite write_request_done by done. cbn [fst snd]. change (responses []) with 0%nat.
    rewrite Nat.add_0_r. split_and!; [done|rewrite Hrc; auto|done].
  - destruct (write_request_run s Hrc) as (H1 & H2 & _ & _ & _ & _ & Hcases). cbn zeta in *.
    assert (Hempty : posted s = []) by (destruct (posted s); [done|by destruct Hp as (_ & _ & ?)]).
    assert (Hnr : responded_ s = false) by (destruct (responded_ s); [by specialize (Hr eq_refl)|done]).
    unfold response_inv. rewrite H1, H2, Hnr in *. cbn [b2n] in *.
    destruct Hcases as [(bs & -> & ->)|[(-> & ->)|(m & -> & ->)]]; rewrite Hempty;
      [change (responses [ConnWrite bs]) with 0%nat|change (responses []) with 0%nat..];
      split_and!; try lia; done.
Qed.

Lemma once_inv (m : prog unit) s n :
  once m -> responded_ s = false -> posted s = [] -> request_complete_ s = true ->
  response_inv s n -> response_inv (m s).1.1 (n + responses (m s).1.2).
Proof.
  intros Hm Hs Hp Hc (Hn & _ & _). rewrite Hs in Hn. cbn [b2n] in Hn.
  destruct (Hm s Hs) as (H1 & _ & H3 & H4). cbn zeta in *. unfold response_inv.
  rewrite H3, H4, Hp, Hc. split_and!; [lia|done|done].
Qed.

Lemma silent_inv s n s' es :
  responses es = 0%nat -> responded_ s' = responded_ s -> posted s' = posted s ->
  request_complete_ s' = request_complete_ s ->
  response_inv s n -> response_inv s' (n + responses es).
Proof. unfold response_inv. intros -> -> -> ->. by rewrite Nat.add_0_r. Qed.

Lemma event_inv s e n :
  response_inv s n ->
  (match e with UpstreamData _ _ => request_complete_ s && bool_decide (posted s = []) | _ => true end) = true ->
  response_inv (after s e).1 (n + responses (after s e).2).
Proof.
  intros Hinv Hpol. unfold after. destruct e; cbn [handle].
  - unfold encodeHeaders. rewrite modify_let. destruct end_stream; [by apply write_inv|].
    by apply (silent_inv s).
  - unfold encodeData. rewrite modify_let. destruct end_stream; [by apply write_inv|].
    by apply (silent_inv s).
  - by apply write_inv.
  - apply andb_prop in Hpol as [Hc Hp%bool_decide_eq_true].
    destruct (responded_ s) eqn:Hr; [|by apply once_inv; [apply once_onUpstreamData|..]].
    unfold onUpstreamData, mlet, mget. rewrite Hr, orb_true_r. cbn [fst snd orb].
    by apply (silent_inv s).
  - rewrite onEvent_run. destruct (upstream_request_ s); [|by apply (silent_inv s)].
    cbn [fst snd]. apply (silent_inv s); try done. by destruct (upstream_conn_data_ s), (responded_ s).
  - rewrite runPosted_run. destruct (posted s) as [|m rest] eqn:Hp; [by apply (silent_inv s)|].
    pose proof Hinv as (Hn & Hq & Hr).
    destruct Hq as (Hrs & Hlen & Hc); [by rewrite Hp|]. rewrite Hp in Hlen.
    destruct rest; [|done].
    assert (Hinv' : response_inv (set_posted [] s) n).
    { unfold response_inv. cbn. split_and!; [exact Hn|done|exact Hr]. }
    destruct (upstream_reset_guard_ s); [|by apply (silent_inv (set_posted [] s))].
    apply (once_inv (handleLocalResponse 400 Local m false) (set_posted [] s)); try done.
    apply once_handleResponse.
  - unfold resetStream. rewrite cleanup_run. cbn [fst snd]. apply (silent_inv s); try done.
    by destruct (upstream_conn_data_ s).
  - rewrite destroy_run. cbn [fst snd]. apply (silent_inv s); try done.
    by destruct (upstream_conn_data_ s), (to_close_upstream_connection_ s), (responded_ s).
Qed.

Lemma run_inv s es n :
  response_inv s n -> polite s es = true ->
  response_inv (run s es).1 (n + responses (run s es).2).
Proof.
  revert s n. induction es as [|e es IH]; intros s n Hinv Hpol; cbn [run].
  - by apply (silent_inv s).
  - cbn [polite] in Hpol. apply andb_prop in Hpol as [He Hes]. cbn [fst snd].
    rewrite responses_app, Nat.add_assoc. apply IH; [|done]. by apply event_inv.
Qed.

(** ** A response that arrives *)

Lemma lift_let {A B} (a : A) (f : A -> prog B) s : mlet (lift (Ok a)) f s = f a s.
Proof. unfold mlet, lift. by destruct (f a s) as [[s' es] r]. Qed.
Lemma get_let {B} (f : upstream -> prog B) s : mlet mget f s = f s s.
Proof. unfold mlet, mget. by destruct (f s s) as [[s' es] r]. Qed.

(** What a decoded response becomes: the code unless the getter gives one, the type
    and the text. *)
Definition response_code (s : upstream) (r : DubboResponse V) : Z :=
  if close_connection_ r then protocol_error_code_ s
  else if is_exception_ r then resp_exception_code_ s else 200.
Definition response_type (r : DubboResponse V) : ResponseType :=
  if is_exception_ r then Exception else Value.
Definition response_text (s : upstream) (r : DubboResponse V) : outcome (string * option Z) :=
  match response_getter_ s with
  | Some getter => getter (value_ r) (response_type r)
  | None => obind (hessianValueToJsonString (value_ r)) (fun text => Ok (text, None))
  end.

(** The calls that give the router a response it accepts. *)
Definition response_calls (code : Z) (text : string) (close : bool) : list effect :=
  DecodeHeaders code (Z.of_nat (String.length text)) close (bool_decide (text = "")) ::
  (if bool_decide (text = "") then [] else [DecodeData text]).

(** [handleMessage] gives the response [decodeBody] reads. *)
Lemma handleMessage_run h s r rest :
  decodeBody V message_type_number rpc_response_type decode_object decode_int32 h
    (dubbo_response_buffer_ s) = Ok (r, rest) ->
  handleMessage h s = handleResponse (response_code s r) (response_type r) (value_ r) (close_connection_ r)
                        (set_read (response_context_ s) rest s).
Proof.
  unfold decodeBody, handleMessage, response_code, response_type. rewrite get_let.
  destruct (messageType h); try done. destruct (responseStatusOk h); cbn [negb].
  - intros H. invert_bind H. rewrite modify_let, lift_let.
    destruct r0.1 as [n|]; [|done]. invert_bind H. destruct r1 as [has_value has_exception]. invert_bind H.
    destruct (bodySize h <? r1.2)%nat eqn:Hsize; [done|]. injection H as <- <-.
    cbn [is_exception_ close_connection_ value_].
    destruct (rpc_response_type n) as [[]|]; [..|done]; injection E0 as <- <-; cbn [andb];
      try (rewrite E1, lift_let, Hsize; done); injection E1 as <-; done.
  - intros H. invert_bind H. rewrite modify_let, lift_let.
    destruct (bodySize h <? r0.2)%nat; [done|]. by injection H as <- <-.
Qed.

Lemma handleResponse_run s r text code :
  upstream_request_ s = true -> (forall c, router_resets c = false) ->
  response_text s r = Ok (text, code) ->
  handleResponse (response_code s r) (response_type r) (value_ r) (close_connection_ r) s
    = (set_responded (close_connection_ r) s,
       response_calls (default (response_code s r) code) text (close_connection_ r), Ok tt).
Proof.
  intros Hu Hresets Htext.
  assert (Hraw : forall c t cl, handleRawResponse c t cl s = (set_responded cl s, response_calls c t cl, Ok tt)).
  { intros c t cl. unfold handleRawResponse. rewrite get_let, Hu, modify_let. rewrite Hresets.
    unfold response_calls, mlet, emit, mret, mget. cbn. rewrite Hu, orb_false_r. by destruct (bool_decide (t = "")). }
  unfold handleResponse. rewrite get_let. unfold response_text in Htext.
  destruct (response_getter_ s) as [getter|].
  - rewrite Htext, lift_let. cbn [fst snd]. apply Hraw.
  - invert_bind Htext. injection Htext as <- <-. rewrite lift_let. apply Hraw.
Qed.

(** Reads that have been answered change nothing. *)
Lemma answered_silent s chunks : responded_ s = true -> (run s (map (fun c => UpstreamData c false) chunks)).2 = [].
Proof.
  intros Hr. induction chunks as [|c cs IH]; [done|]. cbn [map run]. unfold after. cbn [handle].
  unfold onUpstreamData. rewrite get_let, Hr, orb_true_r. cbn [orb mret fst snd app]. apply IH.
Qed.

(** Data that does not complete a message, and data that does. *)
Lemma data_waits s c context buffer :
  upstream_request_ s = true -> responded_ s = false -> c ≠ [] ->
  awaitMessage decodeHeader (response_context_ s) (dubbo_response_buffer_ s ++ c) = Ok (Waiting context buffer) ->
  onUpstreamData c false s = (set_read context buffer s, [], Ok tt).
Proof.
  intros Hu Hr Hc Hw. unfold onUpstreamData. rewrite get_let, Hu, Hr, bool_decide_eq_false_2 by done.
  cbn [negb orb]. rewrite modify_let. unfold mcatch. unfold mlet at 1. rewrite read_run.
  cbn [response_context_ dubbo_response_buffer_ set_read]. rewrite Hw. rewrite get_let, andb_false_r.
  by destruct s.
Qed.

Lemma data_answers s c h buffer r rest text code :
  upstream_request_ s = true -> responded_ s = false -> (forall c, router_resets c = false) -> c ≠ [] ->
  awaitMessage decodeHeader (response_context_ s) (dubbo_response_buffer_ s ++ c) = Ok (Ready h buffer) ->
  decodeBody V message_type_number rpc_response_type decode_object decode_int32 h buffer = Ok (r, rest) ->
  response_text s r = Ok (text, code) ->
  exists s', onUpstreamData c false s
      = (s', response_calls (default (response_code s r) code) text (close_connection_ r), Ok tt) /\
    responded_ s' = true.
Proof.
  intros Hu Hr Hresets Hc Hw Hbody Htext. unfold onUpstreamData.
  rewrite get_let, Hu, Hr, bool_decide_eq_false_2 by done. cbn [negb orb]. rewrite modify_let.
  unfold mcatch. unfold mlet at 1. rewrite read_run.
  cbn [response_context_ dubbo_response_buffer_ set_read]. rewrite Hw.
  set (s2 := set_read (Some h) buffer _). unfold mlet at 1. rewrite (handleMessage_run h s2 r rest Hbody).
  pose proof (handleResponse_run (set_read (response_context_ s2) rest s2) r text code Hu Hresets Htext) as Hres.
  change (response_code (set_read (response_context_ s2) rest s2) r) with (response_code s2 r) in Hres.
  rewrite Hres. cbn [mret]. rewrite get_let. cbn [negb andb mret]. eexists. rewrite !app_nil_r. by split.
Qed.

Lemma response_run s chunks h buffer r rest text code :
  upstream_request_ s = true -> responded_ s = false -> (forall c, router_resets c = false) ->
  Forall (fun c => c ≠ []) chunks ->
  feed decodeHeader (response_context_ s) (dubbo_response_buffer_ s) chunks = Ok (Ready h buffer) ->
  decodeBody V message_type_number rpc_response_type decode_object decode_int32 h buffer = Ok (r, rest) ->
  response_text s r = Ok (text, code) ->
  (run s (map (fun c => UpstreamData c false) chunks)).2
    = response_calls (default (response_code s r) code) text (close_connection_ r).
Proof.
  intros Hu Hr Hresets HF. revert s Hu Hr. induction HF as [|c cs Hc HF IH]; intros s Hu Hr Hfeed Hbody Htext;
    [done|]. cbn [feed] in Hfeed. cbn [map run]. unfold after. cbn [handle]. invert_bind Hfeed.
  destruct r0 as [context b|h0 b0].
  - rewrite (data_waits s c context b) by done. cbn [fst snd app].
    by apply (IH (set_read context b s)).
  - injection Hfeed as -> ->.
    destruct (data_answers s c h buffer r rest text code) as (s' & -> & Hs'); [done..|].
    cbn [fst snd]. rewrite answered_silent by done. by rewrite app_nil_r.
Qed.

(** ** The connection *)

Definition is_response (e : effect) : bool :=
  match e with DecodeHeaders _ _ _ _ => true | _ => false end.
(** A response that asks for the connection to be closed. *)
Definition is_close_response (e : effect) : bool :=
  match e with DecodeHeaders _ _ close _ => close | _ => false end.

(** The stream is attached to the router, its connection and its callbacks, or to
    none of them. *)
Definition attached (s : upstream) : Prop :=
  upstream_conn_data_ s = upstream_request_ s /\ upstream_reset_guard_ s = upstream_request_ s.

Definition conn_step (s : upstream) (es : list effect) (s' : upstream) : Prop :=
  (attached s -> attached s') /\
  (to_close_upstream_connection_ s || existsb is_close_response es = true ->
   to_close_upstream_connection_ s' = true) /\
  (responded_ s' = true -> responded_ s || existsb is_response es = true).

#[local] Instance conn_step_trans : Transitive_effects conn_step.
Proof.
  unfold conn_step. split.
  - intros s. cbn [existsb]. rewrite !orb_false_r. auto.
  - intros s1 e1 s2 e2 s3 (A1 & C1 & R1) (A2 & C2 & R2). rewrite !existsb_app, !orb_assoc.
    split_and!; [auto| |].
    + intros [Hc|Hc]%orb_prop; apply C2; [rewrite C1 by done; done|by rewrite Hc, orb_true_r].
    + intros [Hr|Hr]%R2%orb_prop; [by rewrite R1|by rewrite Hr, orb_true_r].
Qed.

(** A step that gives no response and leaves the flags of one alone. *)
Lemma conn_step_quiet s es s' :
  existsb is_response es = false -> attached s' \/ (attached s -> attached s') ->
  to_close_upstream_connection_ s' = to_close_upstream_connection_ s ->
  responded_ s' = responded_ s -> conn_step s es s'.
Proof.
  intros Hes Ha Hc Hr. assert (Hcl : existsb is_close_response es = false).
  { revert Hes. induction es as [|e es IH]; [done|]. cbn [existsb]. intros [H1 H2]%orb_false_iff.
    rewrite (IH H2). by destruct e. }
  unfold conn_step. rewrite Hes, Hcl, Hc, Hr, !orb_false_r. split_and!; auto. tauto.
Qed.

Lemma others_no_response es :
  Forall (fun e => match e with ConnClose | ConnRelease | DecodeData _ => True | _ => False end) es ->
  existsb is_response es = false /\ existsb is_close_response es = false.
Proof. induction 1 as [|e es He _ [IH1 IH2]]; [done|]. by destruct e. Qed.

Lemma conn_step_respond code body close : holds conn_step (handleRawResponse code body close).
Proof.
  intros s. destruct (upstream_request_ s) eqn:Hu.
  - destruct (raw_response_run code body close s Hu) as (es & s' & -> & Hs' & Hes).
    destruct (others_no_response es Hes) as [Hr Hc]. unfold conn_step, attached. cbn [fst snd existsb].
    rewrite Hr, Hc. cbn [is_response is_close_response]. rewrite orb_true_r, !orb_false_r.
    destruct Hs' as [-> | ->]; cbn; split_and!; try tauto; by destruct close, (to_close_upstream_connection_ s).
  - unfold handleRawResponse, mlet, mget, lift. rewrite Hu. apply (te_refl (R := conn_step)).
Qed.

Lemma conn_step_event s e : conn_step s (after s e).2 (after s e).1.
Proof.
  assert (Hq : forall ctx buf, holds conn_step (modify (set_read ctx buf)))
    by (intros ctx buf s0; apply conn_step_quiet; auto).
  assert (Hw : forall s, conn_step s (writeRequestToUpstream s).1.2 (writeRequestToUpstream s).1.1).
  { intros s0. destruct (request_complete_ s0) eqn:Hrc.
    - rewrite write_request_done by done. apply (te_refl (R := conn_step)).
    - destruct (write_request_run s0 Hrc) as (_ & H2 & H3 & H4 & H5 & H6 & Hcases). cbn zeta in *.
      apply conn_step_quiet; [|right; unfold attached; by rewrite H3, H4, H5|done|done].
      by destruct Hcases as [(bs & -> & _)|[(-> & _)|(m & -> & _)]]. }
  unfold after. destruct e; cbn [handle].
  - unfold encodeHeaders. rewrite modify_let. destruct end_stream; [apply (Hw (set_request_headers h s))|].
    apply conn_step_quiet; auto.
  - unfold encodeData. rewrite modify_let. destruct end_stream; [apply (Hw (append_body d s))|].
    apply conn_step_quiet; auto.
  - apply Hw.
  - apply (holds_onUpstreamData conn_step Hq conn_step_respond).
  - rewrite onEvent_run. destruct (upstream_request_ s); [|apply (te_refl (R := conn_step))].
    apply conn_step_quiet; [by destruct (upstream_conn_data_ s), (responded_ s)|left|done|done].
    done.
  - rewrite runPosted_run. destruct (posted s) as [|m rest]; [apply (te_refl (R := conn_step))|].
    destruct (upstream_reset_guard_ s); [|apply conn_step_quiet; auto].
    apply (holds_handleLocalResponse conn_step conn_step_respond 400 Local m false (set_posted rest s)).
  - unfold resetStream. rewrite cleanup_run.
    apply conn_step_quiet; [by destruct (upstream_conn_data_ s)|by left|done|done].
  - rewrite destroy_run. apply conn_step_quiet; [|by left|done|done].
    by destruct (upstream_conn_data_ s), (to_close_upstream_connection_ s), (responded_ s).
Qed.

Lemma conn_step_run s es : conn_step s (run s es).2 (run s es).1.
Proof.
  revert s. induction es as [|e es IH]; intros s; cbn [run]; [apply (te_refl (R := conn_step))|].
  cbn [fst snd]. eapply (te_trans (R := conn_step)); [apply conn_step_event|apply IH].
Qed.

(** ** After the end of the stream *)

(** The events that may still arrive when the router has let the stream go. *)
Definition is_callback (e : event) : bool :=
  match e with EncodeHeaders _ _ | EncodeData _ _ | EncodeTrailers => false | _ => true end.

Definition is_end (e : event) : bool :=
  match e with ConnectionClosed | ResetStream | Destroy => true | _ => false end.

Definition detached (s : upstream) : Prop := attached s /\ upstream_request_ s = false.

Lemma detached_silent s e :
  detached s -> is_callback e = true -> (after s e).2 = [] /\ detached (after s e).1.
Proof.
  intros Hd He. pose proof Hd as [[Hc Hg] Hu]. rewrite Hu in Hc, Hg. unfold after.
  destruct e; try done; cbn [handle].
  - unfold onUpstreamData, mlet, mget. rewrite Hu. by split.
  - rewrite onEvent_run, Hu. by split.
  - rewrite runPosted_run, Hg. by destruct (posted s).
  - unfold resetStream. rewrite cleanup_run, Hc. by split.
  - rewrite destroy_run, Hc. by split.
Qed.

Lemma end_detaches s e : attached s -> is_end e = true -> detached (after s e).1.
Proof.
  intros Ha He. unfold after. destruct e; try done; cbn [handle].
  - rewrite onEvent_run. destruct (upstream_request_ s) eqn:Hu; [done|by split].
  - unfold resetStream. by rewrite cleanup_run.
  - by rewrite destroy_run.
Qed.

(** ** Properties *)

(** Whatever the order of the events, the Dubbo request is written at most
    once, also when headers, body and trailers all claim to end the request. *)
Theorem dubbo_request_written_once (es : list event) :
  (writes (run new_DubboUpstream es).2 <= 1)%nat.
Proof.
  pose proof (run_writes new_DubboUpstream es) as H. cbn [b2n new_DubboUpstream request_complete_] in H.
  destruct (request_complete_ (run new_DubboUpstream es).1); cbn [b2n] in H; lia.
Qed.

(** C1. The router gets at most one response, on every order of events in which
    the peer sends data only after it was sent the request: error replies that
    were posted, exceptions in the middle of a response and connection events
    never add a second one. *)
Theorem dubbo_responds_once (es : list event) :
  polite new_DubboUpstream es = true -> (responses (run new_DubboUpstream es).2 <= 1)%nat.
Proof.
  intros Hp. assert (Hinv : response_inv new_DubboUpstream 0)
    by (unfold response_inv; cbn; split_and!; [lia|done|done]).
  destruct (run_inv _ es 0 Hinv Hp) as (H & _ & _). cbn [Nat.add] in H.
  destruct (responded_ (run new_DubboUpstream es).1); cbn [b2n] in H; lia.
Qed.

(** C31. Once the stream has been reset or destroyed or its connection has closed,
    nothing reaches the router or the connection any more: data, connection
    events, posted error replies and further resets are without effect. *)
Theorem dubbo_silent_after_end (before later : list event) (e : event) :
  is_end e = true -> forallb is_callback later = true ->
  (run (run new_DubboUpstream (before ++ [e])).1 later).2 = [].
Proof.
  intros He Hl.
  assert (Hd : detached (run new_DubboUpstream (before ++ [e])).1).
  { assert (Happ : forall s, attached s -> detached (run s (before ++ [e])).1).
    { induction before as [|b before IH]; intros s Ha; cbn [run app fst].
      - by apply end_detaches.
      - apply IH. by apply (conn_step_event s b). }
    by apply Happ. }
  revert Hd. generalize (run new_DubboUpstream (before ++ [e])).1.
  induction later as [|l later IH]; intros s Hd; [done|]. cbn [forallb] in Hl.
  apply andb_prop in Hl as [Hl1 Hl2]. destruct (detached_silent s l Hd Hl1) as [Hs Hd'].
  cbn [run snd]. rewrite Hs. by apply IH.
Qed.

(** A connection goes back to the pool for reuse only when a response was
    given from it and none of its responses reported a protocol error; in every
    other case the end of the request closes it. *)
Theorem dubbo_connection_reused (es : list event) :
  In ConnRelease (after (run new_DubboUpstream es).1 Destroy).2 ->
  In ConnClose (after (run new_DubboUpstream es).1 Destroy).2 \/
  (existsb is_response (run new_DubboUpstream es).2 = true /\
   existsb is_close_response (run new_DubboUpstream es).2 = false).
Proof.
  destruct (conn_step_run new_DubboUpstream es) as (_ & Hc & Hr).
  destruct (run new_DubboUpstream es) as [s t]. cbn [fst snd] in *.
  unfold after. cbn [handle]. rewrite destroy_run. cbn [fst snd].
  destruct (upstream_conn_data_ s); [|by intros []]. intros _.
  destruct (to_close_upstream_connection_ s); [left; by left|].
  destruct (responded_ s); [|left; by left]. right. split; [by apply Hr|].
  destruct (existsb is_close_response t); [|done]. by specialize (Hc eq_refl).
Qed.

(** C8. A response is delivered: when the bytes of a response have arrived after any
    number of heartbeats, in any pieces, the router gets at once one message, with
    the text the getter makes of the decoded value and the code of its kind (200,
    that of an exception or that of a protocol error, unless the getter gives
    another), and whatever follows on the connection adds nothing. *)
Theorem dubbo_response_delivered (s : upstream) (chunks : list (list Z)) (h : Header) (buffer rest : list Z)
    (r : DubboResponse V) (text : string) (code : option Z) :
  upstream_request_ s = true -> responded_ s = false -> (forall c, router_resets c = false) ->
  Forall (fun c => c ≠ []) chunks ->
  feed decodeHeader (response_context_ s) (dubbo_response_buffer_ s) chunks = Ok (Ready h buffer) ->
  decodeBody V message_type_number rpc_response_type decode_object decode_int32 h buffer = Ok (r, rest) ->
  response_text s r = Ok (text, code) ->
  (run s (map (fun c => UpstreamData c false) chunks)).2
    = response_calls (default (response_code s r) code) text (close_connection_ r).
Proof. apply response_run. Qed.

End Upstream.

(** ** Concrete requests *)

(** A route without bridge, or one whose request conversion gives no bytes. *)
Definition example_run (bridge : option (DubboBridge string)) :=
  run (Hdr := unit) (V := string) bridge
    (fun _ body => {| getHeader := fun _ => None; getCookie := fun _ => None; getBody := body |})
    7 (fun _ => []) (fun _ => []) (fun _ => []) example_decodeHeader (fun _ => 0)
    (fun n => if n =? 4 then Some ResponseValueWithAttachments else None)
    (fun buf o => Ok (Some "v", S o)) (fun buf o => Ok (buf !! o, S o)) (fun s => s)
    (fun v => Ok (default "null" v)) (fun _ => false) new_DubboUpstream.
Definition example_bridge : DubboBridge string :=
  {| getContext := fun _ => Ok example_context;
     argument_getter_creator_ := fun _ _ => Ok example_getter;
     response_getter_creator_ := fun v _ => Ok (default "null" v, None);
     bridge_protocol_error_code_ := 501; bridge_resp_exception_code_ := 503 |}.
Definition example_events : list (event (Hdr := unit)) :=
  [EncodeHeaders tt false; EncodeData "[7]" true; EncodeTrailers;
   UpstreamData (example_frame 0x20 0 []) false;
   UpstreamData (example_frame 2 2 [4]) false; UpstreamData [0] false; ConnectionClosed].

Lemma dubbo_responds_once_witness :
  (responses (example_run (Some example_bridge) example_events).2 <= 1)%nat.
Proof.
  unfold example_run. apply dubbo_responds_once. vm_compute. reflexivity.
Defined.

(** A request whose conversion succeeded and was written. *)
Definition example_waiting : DubboUpstream unit string :=
  (example_run (Some example_bridge) (take 3 example_events)).1.

Lemma dubbo_response_delivered_witness :
  (run (Some example_bridge)
    (fun _ body => {| getHeader := fun _ => None; getCookie := fun _ => None; getBody := body |})
    7 (fun _ => []) (fun _ => []) (fun _ => []) example_decodeHeader (fun _ => 0)
    (fun n => if n =? 4 then Some ResponseValueWithAttachments else None)
    (fun buf o => Ok (Some "v", S o)) (fun buf o => Ok (buf !! o, S o)) (fun s => s)
    (fun v => Ok (default "null" v)) (fun _ => false) example_waiting
    (map (fun c => UpstreamData c false)
      [example_frame 0x20 0 []; example_frame 2 2 [4]; [0]; [1; 2]])).2
  = [DecodeHeaders 200 1 false false; DecodeData "v"].
Proof.
  rewrite (dubbo_response_delivered (Some example_bridge)
    (fun _ body => {| getHeader := fun _ => None; getCookie := fun _ => None; getBody := body |})
    7 (fun _ => []) (fun _ => []) (fun _ => []) example_decodeHeader (fun _ => 0)
    (fun n => if n =? 4 then Some ResponseValueWithAttachments else None)
    (fun buf o => Ok (Some "v", S o)) (fun buf o => Ok (buf !! o, S o)) (fun s => s)
    (fun v => Ok (default "null" v)) (fun _ => false) example_waiting
    [example_frame 0x20 0 []; example_frame 2 2 [4]; [0]; [1; 2]]
    {| messageType := MT_Response; responseStatusOk := true; bodySize := 2 |} (example_frame 2 2 [4; 0])
    [4; 0] {| is_exception_ := false; close_connection_ := false; value_ := Some "v" |} "v" None);
    [reflexivity|reflexivity|reflexivity|reflexivity|repeat constructor; discriminate|reflexivity|reflexivity|reflexivity].
Defined.

Lemma dubbo_silent_after_end_witness :
  (run (Some example_bridge)
    (fun _ body => {| getHeader := fun _ => None; getCookie := fun _ => None; getBody := body |})
    7 (fun _ => []) (fun _ => []) (fun _ => []) example_decodeHeader (fun _ => 0)
    (fun n => if n =? 4 then Some ResponseValueWithAttachments else None)
    (fun buf o => Ok (Some "v", S o)) (fun buf o => Ok (buf !! o, S o)) (fun s => s)
    (fun v => Ok (default "null" v)) (fun _ => false)
    (example_run (Some example_bridge) ([EncodeHeaders tt true] ++ [ResetStream])).1
    [UpstreamData (example_frame 2 2 [4; 0]) true; ConnectionClosed; Destroy]).2 = [].
Proof. unfold example_run. apply dubbo_silent_after_end; reflexivity. Defined.

Lemma dubbo_connection_reused_witness :
  existsb is_response (example_run (Some example_bridge) (take 6 example_events)).2 = true /\
  existsb is_close_response (example_run (Some example_bridge) (take 6 example_events)).2 = false.
Proof.
  destruct (dubbo_connection_reused (Hdr := unit) (V := string) (Some example_bridge)
    (fun _ body => {| getHeader := fun _ => None; getCookie := fun _ => None; getBody := body |})
    7 (fun _ => []) (fun _ => []) (fun _ => []) example_decodeHeader (fun _ => 0)
    (fun n => if n =? 4 then Some ResponseValueWithAttachments else None)
    (fun buf o => Ok (Some "v", S o)) (fun buf o => Ok (buf !! o, S o)) (fun s => s)
    (fun v => Ok (default "null" v)) (fun _ => false) (take 6 example_events)) as [H|H].
  - vm_compute. left. reflexivity.
  - exfalso. vm_compute in H. destruct H as [H|[]]. discriminate H.
  - exact H.
Defined.

(** The trace of an ordinary request: a heartbeat and a response in two pieces. *)
Example example_trace :
  (example_run (Some example_bridge) (take 6 example_events)).2
  = [ConnWrite ([0xda; 0xbb; 0xc2; 0] ++ [0;0;0;0;0;0;0;7] ++ [0;0;0;4] ++ [0x79; 0x79; 72; 90]);
     DecodeHeaders 200 1 false false; DecodeData "v"].
Proof. vm_compute. reflexivity. Qed.

(** Without that politeness a second response is possible: when the conversion
    of the request fails, the error reply waits in the dispatcher's queue, and
    data the peer sends meanwhile is answered first; the posted reply does not
    look at [responded_] again. *)
Theorem dubbo_double_response :
  (example_run None [EncodeHeaders tt true; UpstreamData (example_frame 2 2 [4; 0]) false; RunPosted]).2
  = [DecodeHeaders 200 1 false false; DecodeData "v";
     DecodeHeaders 400 62 false false; DecodeData no_context_message].
Proof. vm_compute. reflexivity. Qed.

(** The end of the upstream stream is lost when it carries no data: a peer that
    half-closes in the middle of a message, with the end in a packet of its own,
    leaves the request waiting, although an end that comes together with data is
    answered with a protocol error. *)
Theorem dubbo_bare_end_ignored :
  (example_run (Some example_bridge)
     [EncodeHeaders tt true; UpstreamData [0xda; 0xbb] false; UpstreamData [] true]).2
    = (example_run (Some example_bridge) [EncodeHeaders tt true]).2 /\
  (example_run (Some example_bridge)
     [EncodeHeaders tt true; UpstreamData [0xda; 0xbb] true]).2
    = (example_run (Some example_bridge) [EncodeHeaders tt true]).2 ++
      [DecodeHeaders 501 50 true false; DecodeData "More data is necessary for upstream but end stream"].
Proof. split; vm_compute; reflexivity. Qed.
