(* ===== verification/DubboPool.v ===== *)
(** * The connection pool of the Dubbo bridge
      (DubboConnPool of source/upstreams/http/dubbo/upstream_request.{h,cc}, config.cc)

    [DubboConnPool] asks a TCP pool for a connection and tells the router's stream how that ended.  The TCP pool
    may call back before its call returns, later, or never if the request is cancelled.  Here are also the
    calls of [DubboUpstream] that pass on flow control and change nothing. *)

From S2P Require Import Prelude Json DubboContext DubboResponse.
From S2P Require Import Effects DubboUpstream.
From stdpp Require Import base numbers list strings.

Section Pool.
Context {Hdr V : Type}.
#[local] Abbreviation upstream := (DubboUpstream Hdr V).

(** What the TCP pool does when it is asked for a connection: it keeps the request, or answers at once. *)
Inductive TcpAnswer := TcpReady | TcpFailure (reason : string).
Inductive NewConnection := KeptRequest (handle : nat) | AnsweredRequest (answer : TcpAnswer).

Record DubboConnPool := { upstream_handle_ : option nat; callbacks_ : option nat }.

(** The calls to the router's stream, and to the TCP pool. *)
Inductive pool_call :=
| StreamReady (callbacks : nat) (u : upstream)
| StreamFailure (callbacks : nat) (reason : string)
| CancelRequest (handle : nat).

(** The factory gives a pool only if the cluster has one. *)
Definition createGenericConnPool (conn_pool_data_ : bool) : option DubboConnPool :=
  if conn_pool_data_ then Some {| upstream_handle_ := None; callbacks_ := None |} else None.

Definition onPoolFailure (reason : string) (p : DubboConnPool) : outcome (DubboConnPool * list pool_call) :=
  match callbacks_ p with
  | Some c => Ok ({| upstream_handle_ := None; callbacks_ := callbacks_ p |}, [StreamFailure c reason])
  | None => Undefined "callbacks_ is null"
  end.

Definition onPoolReady (p : DubboConnPool) : outcome (DubboConnPool * list pool_call) :=
  match callbacks_ p with
  | Some c => Ok ({| upstream_handle_ := None; callbacks_ := callbacks_ p |}, [StreamReady c new_DubboUpstream])
  | None => Undefined "callbacks_ is null"
  end.

Definition pool_answer (a : TcpAnswer) (p : DubboConnPool) : outcome (DubboConnPool * list pool_call) :=
  match a with TcpReady => onPoolReady p | TcpFailure reason => onPoolFailure reason p end.

(** A pool that answers at once returns a null pointer. *)
Definition newStream (callbacks : nat) (r : NewConnection) (p : DubboConnPool) : outcome (DubboConnPool * list pool_call) :=
  let p := {| upstream_handle_ := upstream_handle_ p; callbacks_ := Some callbacks |} in
  match r with
  | KeptRequest h => Ok ({| upstream_handle_ := Some h; callbacks_ := callbacks_ p |}, [])
  | AnsweredRequest a =>
      obind (pool_answer a p) (fun r => Ok ({| upstream_handle_ := None; callbacks_ := callbacks_ r.1 |}, r.2))
  end.

Definition cancelAnyPendingStream (p : DubboConnPool) : bool * DubboConnPool * list pool_call :=
  match upstream_handle_ p with
  | Some h => (true, {| upstream_handle_ := None; callbacks_ := callbacks_ p |}, [CancelRequest h])
  | None => (false, p, [])
  end.

(** ** Flow control of the upstream *)

Inductive flow_call := ConnReadDisable (disable : bool) | AboveWriteBufferHighWatermark | BelowWriteBufferLowWatermark.

(** [open]: the state of the connection. *)
Definition readDisable (open disable : bool) (s : upstream) : list flow_call :=
  if negb (upstream_conn_data_ s) then [] else if negb open then [] else [ConnReadDisable disable].
Definition onAboveWriteBufferHighWatermark (s : upstream) : list flow_call :=
  if upstream_request_ s then [AboveWriteBufferHighWatermark] else [].
Definition onBelowWriteBufferLowWatermark (s : upstream) : list flow_call :=
  if upstream_request_ s then [BelowWriteBufferLowWatermark] else [].

(** ** A pool and its TCP pool *)

Inductive pool_event :=
| NewStream (callbacks : nat) (r : NewConnection)
| Answer (handle : nat) (a : TcpAnswer)
| CancelPending.

(** The requests the TCP pool keeps. *)
Record PoolWorld := { pool : DubboConnPool; kept : list nat }.

(** A request that is over must not be cancelled: the TCP pool has deleted it. *)
Definition cancel_kept (calls : list pool_call) (kept : list nat) : outcome (list nat) :=
  match calls with
  | [CancelRequest h] =>
      if decide (h ∈ kept) then Ok (filter (fun h' => h' <> h) kept) else Undefined "the request is over"
  | _ => Ok kept
  end.

(** The router starts a stream when none is pending, and the TCP pool answers what it keeps, under new handles. *)
Definition pool_step (e : pool_event) (w : PoolWorld) : outcome (PoolWorld * list pool_call) :=
  match e with
  | NewStream c r =>
      match upstream_handle_ (pool w), r with
      | Some _, _ => Ok (w, [])
      | None, KeptRequest h =>
          if decide (h ∈ kept w) then Ok (w, [])
          else obind (newStream c r (pool w)) (fun x => Ok ({| pool := x.1; kept := h :: kept w |}, x.2))
      | None, AnsweredRequest _ => obind (newStream c r (pool w)) (fun x => Ok ({| pool := x.1; kept := kept w |}, x.2))
      end
  | Answer h a =>
      if decide (h ∈ kept w) then
        obind (pool_answer a (pool w)) (fun x => Ok ({| pool := x.1; kept := filter (fun h' => h' <> h) (kept w) |}, x.2))
      else Ok (w, [])
  | CancelPending =>
      let r := cancelAnyPendingStream (pool w) in
      obind (cancel_kept r.2 (kept w)) (fun kept' => Ok ({| pool := r.1.2; kept := kept' |}, r.2))
  end.

Fixpoint pool_run (es : list pool_event) (w : PoolWorld) : outcome (PoolWorld * list pool_call) :=
  match es with
  | [] => Ok (w, [])
  | e :: es' => obind (pool_step e w) (fun r => obind (pool_run es' r.1) (fun r' => Ok (r'.1, r.2 ++ r'.2)))
  end.

(** The handle is that of the one request that is kept. *)
Definition pool_ok (w : PoolWorld) : Prop :=
  match upstream_handle_ (pool w) with
  | Some h => kept w = [h] /\ is_Some (callbacks_ (pool w))
  | None => kept w = []
  end.

(** A stream that started and has not ended. *)
Definition pending_of (w : PoolWorld) : nat := match upstream_handle_ (pool w) with Some _ => 1 | None => 0 end.

(** The streams that an event starts. *)
Definition started (e : pool_event) (w : PoolWorld) : nat :=
  match e, upstream_handle_ (pool w) with
  | NewStream _ (KeptRequest h), None => if decide (h ∈ kept w) then 0 else 1
  | NewStream _ (AnsweredRequest _), None => 1
  | _, _ => 0
  end.

Lemma filter_own (h : nat) : filter (fun h' => h' <> h) [h] = [].
Proof. rewrite filter_cons_False by auto. apply filter_nil. Qed.

Lemma pool_step_ok e w : pool_ok w ->
  exists w' calls, pool_step e w = Ok (w', calls) /\ pool_ok w' /\ (length calls + pending_of w' = pending_of w + started e w)%nat.
Proof.
  unfold pool_ok, pending_of, started. destruct w as [[h c] k]. cbn [pool kept upstream_handle_ callbacks_]. intros Hw.
  destruct e as [c' r|h' a|]; cbn [pool_step pool kept upstream_handle_].
  - destruct h as [h|]; [by eexists _, _; split_and!; [..|destruct r]|]. subst k. destruct r as [h|a].
    + rewrite decide_False by apply not_elem_of_nil. eexists _, _. split; [done|]. cbn. split; [by split; [|eexists]|done].
    + destruct a; cbn; eexists _, _; by split_and!.
  - case_decide as Hin; [|eexists _, _; split_and!; [done|done|by destruct h]]. destruct h as [h|]; [|subst k; by apply not_elem_of_nil in Hin].
    destruct Hw as [-> [c0 ->]]. apply list_elem_of_singleton in Hin as ->. rewrite filter_own.
    destruct a; cbn; eexists _, _; by split_and!.
  - unfold cancelAnyPendingStream. cbn [upstream_handle_]. destruct h as [h|]; cbn [cancel_kept fst snd].
    + destruct Hw as [-> Hc]. rewrite decide_True by (by left). rewrite filter_own. cbn. eexists _, _. by split_and!.
    + cbn. eexists _, _. by split_and!.
Qed.

Fixpoint started_in (es : list pool_event) (w : PoolWorld) : nat :=
  match es with
  | [] => 0
  | e :: es' => started e w + match pool_step e w with Ok r => started_in es' r.1 | _ => 0 end
  end.

(** Every stream of a connection pool ends once: whatever order the TCP pool answers in, no request that is over is
    cancelled, and each stream that started is ready, has failed, was cancelled, or is the one still pending. *)
Theorem dubbo_pool_settles (es : list pool_event) :
  exists w calls, pool_run es {| pool := {| upstream_handle_ := None; callbacks_ := None |}; kept := [] |} = Ok (w, calls) /\
    (length calls + pending_of w = started_in es {| pool := {| upstream_handle_ := None; callbacks_ := None |}; kept := [] |})%nat.
Proof.
  assert (Hrun : forall w, pool_ok w -> exists w' calls, pool_run es w = Ok (w', calls) /\
    (length calls + pending_of w' = pending_of w + started_in es w)%nat).
  { induction es as [|e es' IH]; intros w Hw; cbn [pool_run started_in]; [eexists _, _; split; [done|cbn [length]; lia]|].
    destruct (pool_step_ok e w Hw) as (w1 & calls & -> & Hw1 & Hlen). cbn [obind fst snd].
    destruct (IH w1 Hw1) as (w2 & calls2 & -> & Hlen2). cbn [obind fst snd]. eexists _, _. split; [done|].
    rewrite length_app. lia. }
  destruct (Hrun {| pool := {| upstream_handle_ := None; callbacks_ := None |}; kept := [] |} eq_refl) as (w & calls & Hr & Hlen).
  by exists w, calls.
Qed.
End Pool.
