(* ===== verification/Http.v ===== *)
(** * What the filters use of the proxy's HTTP API

    Header maps, messages and the return values of the filter callbacks belong
    to the proxy the filters are loaded into, not to this code base.  They are
    an interface here: [HeaderMap] names the operations the filters call and
    [HeaderMapLaws] the documented behaviour they rely on.  [alist] is an
    executable header map that satisfies the laws. *)

From S2P Require Import Prelude.
From Stdlib Require Import Ascii.
From stdpp Require Import base gmap strings numbers list.

(** A header map holds (lower case) keys with any number of values each.  Headers the proxy predefines for a kind of
    map (or that are registered with it) are inline: they have one value, and further ones are joined to it.
    [hm_inline h k] is the text between them, [None] for any other header. *)
Class HeaderMap (H : Type) := {
  hm_empty : H;
  hm_get : string -> H -> list string;
  hm_entries : H -> list (string * string);
  hm_inline : H -> string -> option string;
  hm_addCopy : string -> string -> H -> H;
  hm_set : string -> string -> H -> H;
  hm_remove : string -> H -> H;
  hm_byteSize : H -> Z;
}.

(** "Calling addCopy multiple times for the same header will result in comma concatenation for predefined inline
    headers and multiple headers being present for other headers."  An empty text adds nothing to a value. *)
Definition join_value (delimiter v0 v : string) : string :=
  if String.eqb v "" then v0 else if String.eqb v0 "" then v else v0 +:+ delimiter +:+ v.
Definition add_value (inline : option string) (vs : list string) (v : string) : list string :=
  match inline, vs with
  | Some delimiter, v0 :: vs' => join_value delimiter v0 v :: vs'
  | _, _ => vs ++ [v]
  end.
Definition add_values (inline : option string) (vs l : list string) : list string := fold_left (add_value inline) l vs.

(** The headers that the filters add of their own: the code base registers no inline headers. *)
Definition own_headers : list string := ["x-cache-status"; "x-cache-hit"; "x-cache-key"; "x-downgrade-status"].

Class HeaderMapLaws (H : Type) `{HeaderMap H} := {
  get_empty : forall k, hm_get k hm_empty = [];
  get_entries : forall k h, hm_get k h = snd <$> filter (fun p => p.1 = k) (hm_entries h);
  get_add_eq : forall k v h, hm_get k (hm_addCopy k v h) = add_value (hm_inline h k) (hm_get k h) v;
  get_add_ne : forall k k' v h, k ≠ k' -> hm_get k' (hm_addCopy k v h) = hm_get k' h;
  get_set_eq : forall k v h, hm_get k (hm_set k v h) = [v];
  get_set_ne : forall k k' v h, k ≠ k' -> hm_get k' (hm_set k v h) = hm_get k' h;
  get_remove_eq : forall k h, hm_get k (hm_remove k h) = [];
  get_remove_ne : forall k k' h, k ≠ k' -> hm_get k' (hm_remove k h) = hm_get k' h;
  inline_add : forall k v h, hm_inline (hm_addCopy k v h) = hm_inline h;
  inline_set : forall k v h, hm_inline (hm_set k v h) = hm_inline h;
  inline_remove : forall k h, hm_inline (hm_remove k h) = hm_inline h;
  own_plain : forall h k, k ∈ own_headers -> hm_inline h k = None;
  byteSize_nonneg : forall h, (0 <= hm_byteSize h)%Z;
}.

Lemma get_add_own `{HeaderMapLaws H} k v h : k ∈ own_headers -> hm_get k (hm_addCopy k v h) = hm_get k h ++ [v].
Proof. intros Hk. by rewrite get_add_eq, own_plain. Qed.

Lemma add_values_plain vs l : add_values None vs l = vs ++ l.
Proof.
  revert vs. induction l as [|v l IH]; intros vs; [by rewrite app_nil_r|].
  unfold add_values in *. cbn [fold_left add_value]. by rewrite IH, <- app_assoc.
Qed.

Lemma add_values_one inline l : (length l <= 1)%nat -> add_values inline [] l = l.
Proof. destruct l as [|v [|]]; cbn; [done| |lia]. by destruct inline. Qed.

(** Results of [decodeHeaders]/[encodeHeaders] and [decodeData]/[encodeData]. *)
Inductive FilterHeadersStatus :=
| Continue
| StopIteration
| StopAllIterationAndBuffer
| StopAllIterationAndWatermark.

Inductive FilterDataStatus :=
| DataContinue
| StopIterationNoBuffer.

#[global] Instance FilterHeadersStatus_eq_dec : EqDecision FilterHeadersStatus.
Proof. solve_decision. Defined.
#[global] Instance FilterDataStatus_eq_dec : EqDecision FilterDataStatus.
Proof. solve_decision. Defined.

(** A local reply: status, body, headers added by the callback, details. *)
Record LocalReply := {
  reply_code : Z;
  reply_body : string;
  reply_headers : list (string * string);
  reply_details : string;
}.

(** A request or response message: headers and body. *)
Record Message (H : Type) := { headers : H; body : string }.
Arguments headers {H} _.
Arguments body {H} _.

(** ** An executable header map: the entries in insertion order, with some of the predefined headers *)

Abbreviation alist := (list (string * string)).

Definition alist_remove (k : string) (h : alist) : alist := filter (fun p => p.1 ≠ k) h.
Definition alist_get (k : string) (h : alist) : list string :=
  snd <$> filter (fun p => p.1 = k) h.
Definition alist_inline (k : string) : option string :=
  if String.eqb k "cookie" then Some "; "
  else if decide (k ∈ [":method"; ":authority"; ":path"; ":scheme"; ":status"; "connection"; "content-length"; "content-type";
                       "transfer-encoding"; "upgrade"; "user-agent"; "via"; "x-forwarded-for"; "x-request-id"])
  then Some "," else None.

(** A value joined to the first one of its key. *)
Fixpoint alist_join (delimiter k v : string) (h : alist) : alist :=
  match h with
  | [] => [(k, v)]
  | (k0, v0) :: h' =>
      if decide (k0 = k) then (k, join_value delimiter v0 v) :: h' else (k0, v0) :: alist_join delimiter k v h'
  end.
Definition alist_add (k v : string) (h : alist) : alist :=
  match alist_inline k with Some delimiter => alist_join delimiter k v h | None => h ++ [(k, v)] end.
Definition alist_byteSize (h : alist) : Z :=
  foldr (fun p z => Z.of_nat (String.length p.1) + Z.of_nat (String.length p.2) + z)%Z 0%Z h.

Arguments alist_get : simpl never.
Arguments alist_inline : simpl never.
Arguments alist_add : simpl never.
Arguments alist_remove : simpl never.
Arguments alist_byteSize : simpl never.

#[global] Instance alist_HeaderMap : HeaderMap alist := {
  hm_empty := [];
  hm_get := alist_get;
  hm_entries h := h;
  hm_inline _ := alist_inline;
  hm_addCopy := alist_add;
  hm_set k v h := alist_remove k h ++ [(k, v)];
  hm_remove := alist_remove;
  hm_byteSize := alist_byteSize;
}.

Lemma alist_get_app k h h' : alist_get k (h ++ h') = alist_get k h ++ alist_get k h'.
Proof. unfold alist_get. by rewrite filter_app, fmap_app. Qed.

Lemma alist_get_one k k' v : alist_get k [(k', v)] = if decide (k' = k) then [v] else [].
Proof. unfold alist_get. rewrite filter_cons. simpl. by case_decide. Qed.

Lemma alist_get_remove k k' h :
  alist_get k' (alist_remove k h) = if decide (k = k') then [] else alist_get k' h.
Proof.
  unfold alist_get, alist_remove. rewrite list_filter_filter.
  induction h as [|[k1 v1] h IH]; [by case_decide|]. revert IH.
  rewrite !filter_cons. cbn [fst]. repeat case_decide; intros IH; csimpl; naive_solver congruence.
Qed.

Lemma alist_byteSize_nonneg (h : alist) : (0 <= alist_byteSize h)%Z.
Proof. unfold alist_byteSize. induction h as [|p h IH]; simpl; lia. Qed.

Lemma alist_get_cons k k' v h : alist_get k ((k', v) :: h) = if decide (k' = k) then v :: alist_get k h else alist_get k h.
Proof. unfold alist_get. rewrite filter_cons. cbn [fst]. by case_decide. Qed.

Lemma alist_get_join delimiter k k' v h :
  alist_get k' (alist_join delimiter k v h) =
    if decide (k = k') then add_value (Some delimiter) (alist_get k' h) v else alist_get k' h.
Proof.
  induction h as [|[k0 v0] h IH]; cbn [alist_join]; [rewrite alist_get_one; by repeat case_decide|].
  destruct (decide (k0 = k)) as [->|Hne]; rewrite !alist_get_cons; [by case_decide|].
  rewrite IH. repeat case_decide; subst; done.
Qed.

Lemma alist_get_add k k' v h :
  alist_get k' (alist_add k v h) = if decide (k = k') then add_value (alist_inline k) (alist_get k' h) v else alist_get k' h.
Proof.
  unfold alist_add. destruct (alist_inline k) as [d|]; [apply alist_get_join|].
  rewrite alist_get_app, alist_get_one. by case_decide; [|rewrite app_nil_r].
Qed.

Lemma alist_own_plain k : k ∈ own_headers -> alist_inline k = None.
Proof.
  intros Hk. repeat (apply elem_of_cons in Hk as [->|Hk]; [reflexivity|]). by apply not_elem_of_nil in Hk.
Qed.

#[global] Instance alist_HeaderMapLaws : HeaderMapLaws alist.
Proof.
  split; [..|exact alist_byteSize_nonneg]; cbn; [| | | | | | | |done|done|done|auto using alist_own_plain]; intros;
    rewrite ?alist_get_add, ?alist_get_app, ?alist_get_remove, ?alist_get_one;
    repeat case_decide; subst; rewrite ?app_nil_r; try done.
Qed.
