(* ===== verification/CacheBase.v ===== *)
(** * The interfaces of the response caches

    [CacheEntry] is the abstract class of cached values and [CommonCacheBase]
    the abstract class of the caches themselves (source/common/cache/cache_base.h).
    The two-level sender is written against [CommonCacheBase]; [LruCache] gives
    the local implementation. *)

From S2P Require Import Prelude.
From Stdlib Require Import Ascii.
From stdpp Require Import base gmap strings numbers list.

(** The virtual methods of [CacheEntry]; [createCopy] may return a null pointer. *)
Class CacheEntry (E : Type) := {
  createCopy : E -> option E;
  cacheExpire : E -> Z;
  setCacheExpire : Z -> E -> E;
  cacheLength : E -> Z;
  serializeAsString : E -> option string;
}.

(** What the caches rely on: the sizes and the expiry are [uint64_t], setting
    the expiry changes nothing else. *)
Class CacheEntryLaws (E : Type) `{CacheEntry E} := {
  cacheLength_range : forall e, (0 <= cacheLength e < 2 ^ 64)%Z;
  cacheExpire_set : forall z e, cacheExpire (setCacheExpire z e) = z;
  cacheLength_set : forall z e, cacheLength (setCacheExpire z e) = cacheLength e;
}.

(** The state-changing methods of [CommonCacheBase] on a cache of state [C];
    [now] is the wall clock in milliseconds read by the implementation. *)
Class CommonCacheBase (E C : Type) := {
  lookupCache : Z -> string -> C -> outcome (option E * C);
  removeCache : string -> C -> outcome C;
  insertCache : Z -> string -> E -> C -> outcome C;
}.

(** What a cache promises to the sender: while it is in a state [good] for an
    entry, inserting succeeds, keeps such a state, and until the entry expires the
    next lookup of the key finds a copy. *)
Class CommonCacheLaws (E C : Type) `{CacheEntry E} `{CommonCacheBase E C} := {
  cache_good : E -> C -> Prop;
  insert_found : forall now k e c, cache_good e c ->
    exists c', insertCache now k e c = Ok c' /\
      forall now', (now' < cacheExpire e)%Z ->
        exists c'', lookupCache now' k c' = Ok (createCopy e, c'');
}.

(** What a cache promises about the entries in it: [holds_only P c] says that [c] works and that every entry
    it can give for a key satisfies [P] with that key.  Operations succeed and keep this, and what a lookup
    finds is a copy of such an entry that has not expired. *)
Class CommonCacheSafety (E C : Type) `{CacheEntry E} `{CommonCacheBase E C} := {
  holds_only : (string -> E -> Prop) -> C -> Prop;
  holds_weaken : forall (P Q : string -> E -> Prop) c,
    (forall k e, P k e -> Q k e) -> holds_only P c -> holds_only Q c;
  holds_insert : forall P now k e c, holds_only P c -> P k e ->
    exists c', insertCache now k e c = Ok c' /\ holds_only P c';
  holds_remove : forall P k c, holds_only P c -> exists c', removeCache k c = Ok c' /\ holds_only P c';
  holds_lookup : forall P now k c, holds_only P c ->
    exists r c', lookupCache now k c = Ok (r, c') /\ holds_only P c' /\
      forall e', r = Some e' -> exists e, P k e /\ createCopy e = Some e' /\ (now < cacheExpire e)%Z;
}.
