(* ===== verification/HttpCacheEntry.v ===== *)
(** * HTTP messages as cache entries
    (source/common/cache/http_cache_entry.h, [makeMessageCopy] of
    source/common/http/proxy_base.cc)

    [HttpCacheEntry] is the response instance of the class template, the one
    the filters store. *)

From S2P Require Import Prelude Decimal Json JsonText Http CacheBase.
From Stdlib Require Import Ascii.
From stdpp Require Import base gmap strings numbers list.
#[local] Open Scope Z_scope.

Module HttpEntry.
Section HttpEntry.
Context {H : Type} `{HM : HeaderMap H}.

Record HttpCacheEntry := {
  cache_message_ : option (Message H);
  cache_expire_ : Z;
  cache_length_ : Z;
}.

(** The default constructor and the one that takes a message. *)
Definition empty_entry : HttpCacheEntry :=
  {| cache_message_ := None; cache_expire_ := 0; cache_length_ := 0 |}.

Definition message_length (m : Message H) : Z :=
  u64 (hm_byteSize (headers m) + Z.of_nat (String.length (body m))).

Definition new_entry (message : option (Message H)) (cache_expire : Z) : HttpCacheEntry :=
  {| cache_message_ := message;
     cache_expire_ := cache_expire;
     cache_length_ := match message with Some m => message_length m | None => 0 end |}.

(** [makeMessageCopy]: the copy is never chunked and announces its length. *)
Definition makeMessageCopy (message : Message H) : Message H :=
  let h := hm_remove "transfer-encoding" (headers message) in
  if (Z.of_nat (String.length (body message)) <=? 0)
  then {| headers := hm_set "content-length" (to_string 0) h; body := "" |}
  else {| headers := hm_set "content-length"
                       (to_string (Z.of_nat (String.length (body message)))) h;
          body := body message |}.

Definition entry_createCopy (e : HttpCacheEntry) : option HttpCacheEntry :=
  match cache_message_ e with
  | Some m => Some (new_entry (Some (makeMessageCopy m)) 0)
  | None => None
  end.

Definition entry_setCacheExpire (expire : Z) (e : HttpCacheEntry) : HttpCacheEntry :=
  {| cache_message_ := cache_message_ e; cache_expire_ := expire;
     cache_length_ := cache_length_ e |}.

(** The writer calls of [serializeAsString]; [headersToJson] per header entry. *)
Definition headersToJson (p : string * string) : list wevent := [WKey p.1; WString p.2].

Definition entry_events (m : Message H) : list wevent :=
  [WStartObject; WKey "headers"; WStartObject] ++
  mbind headersToJson (hm_entries (headers m)) ++
  [WEndObject; WKey "rawbody"; WString (body m); WEndObject].

(** [write] turns writer calls into text. *)
Definition entry_serializeAsString (write : list wevent -> string) (e : HttpCacheEntry) :
  option string :=
  match cache_message_ e with
  | None => None
  | Some m => Some (write (entry_events m))
  end.

Definition set_message (m : option (Message H)) (e : HttpCacheEntry) : HttpCacheEntry :=
  {| cache_message_ := m; cache_expire_ := cache_expire_ e; cache_length_ := cache_length_ e |}.

(** The loop over the members of "headers".  [LowerCaseString] lower-cases the
    name; name and value are read as C strings; [GetString] of a value that is
    not a string is not defined. *)
Fixpoint load_headers (lower : string -> string) (l : list (string * json)) (h : H) : outcome H :=
  match l with
  | [] => Ok h
  | (n, JString v) :: l' => load_headers lower l' (hm_addCopy (lower (c_str n)) (c_str v) h)
  | _ :: _ => Undefined "GetString of a value that is not a string"
  end.

Definition loaded_headers (lower : string -> string) (doc : list (string * json)) : outcome H :=
  match find_member "headers" doc with
  | None => Ok hm_empty
  | Some (JObject l) => load_headers lower l hm_empty
  | Some _ => Undefined "MemberBegin of a value that is not an object"
  end.

Definition loaded_body (doc : list (string * json)) : outcome string :=
  match find_member "rawbody" doc with
  | None => Ok ""
  | Some (JString s) => Ok s
  | Some _ => Undefined "GetString of a value that is not a string"
  end.

Definition loadFromString (parse : string -> option json) (lower : string -> string)
    (raw : string) (e : HttpCacheEntry) : outcome HttpCacheEntry :=
  if decide (raw = "") then Ok (set_message None e)
  else match parse raw with
  | None => Ok (set_message None e)
  | Some (JObject doc) =>
      obind (loaded_headers lower doc) (fun h =>
        if decide (hm_entries h = [] \/ hm_get ":status" h = []) then Ok (set_message None e)
        else obind (loaded_body doc) (fun b =>
          Ok (set_message (Some
            {| headers := hm_set "content-length" (to_string (Z.of_nat (String.length b)))
                            (hm_remove "transfer-encoding" h);
               body := b |}) e)))
  | Some _ => Undefined "HasMember of a value that is not an object"
  end.

(** The document a message is stored as. *)
Definition entry_doc (m : Message H) : json :=
  JObject [("headers", JObject ((fun p => (p.1, JString p.2)) <$> hm_entries (headers m)));
           ("rawbody", JString (body m))].

(** ** Lemmas *)

Lemma message_length_range m : 0 <= message_length m < 2 ^ 64.
Proof. unfold message_length, u64. apply Z.mod_pos_bound. lia. Qed.

(** The writer calls of [serializeAsString] write that document. *)
Lemma entry_events_doc m : entry_events m = json_calls (entry_doc m).
Proof.
  assert (Hh : mbind headersToJson (hm_entries (headers m)) =
    flat_map (fun p => WKey p.1 :: json_calls p.2) ((fun p => (p.1, JString p.2)) <$> hm_entries (headers m))).
  { induction (hm_entries (headers m)) as [|p l IH]; [done|]. csimpl. by rewrite IH. }
  unfold entry_events, entry_doc. cbn [json_calls flat_map fst snd app]. rewrite Hh. cbn [app].
  by rewrite <- !app_assoc.
Qed.

Lemma entry_doc_numberless m : numberless (entry_doc m) = true.
Proof.
  cbn. rewrite andb_true_r. by induction (hm_entries (headers m)).
Qed.

Lemma entry_events_wf m : wf_value (entry_events m).
Proof.
  enough (wf_members (mbind headersToJson (hm_entries (headers m)))) as Hm.
  { replace (entry_events m) with
      ([WStartObject] ++ ([WKey "headers"] ++
         ([WStartObject] ++ mbind headersToJson (hm_entries (headers m)) ++ [WEndObject]) ++
         ([WKey "rawbody"] ++ [WString (body m)] ++ [])) ++ [WEndObject])
      by (unfold entry_events; cbn; by rewrite <-!app_assoc).
    auto with json. }
  induction (hm_entries (headers m)) as [|p l IH]; [constructor|].
  change (wf_members ([WKey p.1] ++ [WString p.2] ++ mbind headersToJson l)).
  constructor; [constructor|done].
Qed.

Context {HL : HeaderMapLaws H}.

Lemma load_headers_get lower l h :
  (forall p, p ∈ l -> lower p.1 = p.1 /\
     string_forallb (fun a => bool_decide (a ≠ Ascii.zero)) p.1 = true /\
     string_forallb (fun a => bool_decide (a ≠ Ascii.zero)) p.2 = true) ->
  exists h', load_headers lower ((fun p => (p.1, JString p.2)) <$> l) h = Ok h' /\
    forall k, hm_get k h' = add_values (hm_inline h k) (hm_get k h) (snd <$> filter (fun p => p.1 = k) l).
Proof.
  revert h. induction l as [|[n v] l IH]; intros h Hl.
  - by exists h.
  - destruct (Hl (n, v)) as (Hlow & Hn & Hv); [by left|]. cbn [fst snd] in *.
    csimpl. rewrite (c_str_id _ Hn), (c_str_id _ Hv), Hlow.
    destruct (IH (hm_addCopy n v h)) as (h' & -> & Hget).
    { intros p Hp. apply Hl. by right. }
    exists h'. split; [done|]. intros k. rewrite Hget, filter_cons, inline_add. cbn [fst].
    destruct (decide (n = k)) as [->|Hne].
    + by rewrite get_add_eq.
    + by rewrite get_add_ne.
Qed.

End HttpEntry.
Arguments HttpCacheEntry H : clear implicits.

(** The entries of the caches; [write] renders the writer calls.  The length is
    an [uint64_t]. *)
#[global] Instance HttpCacheEntry_CacheEntry {H} `{HeaderMap H} (write : list wevent -> string) :
  CacheEntry (HttpCacheEntry H) := {
  createCopy := entry_createCopy;
  cacheExpire := cache_expire_;
  setCacheExpire := entry_setCacheExpire;
  cacheLength e := u64 (cache_length_ e);
  serializeAsString := entry_serializeAsString write;
}.

#[global] Instance HttpCacheEntry_CacheEntryLaws {H} `{HeaderMap H} (write : list wevent -> string) :
  @CacheEntryLaws (HttpCacheEntry H) (HttpCacheEntry_CacheEntry write).
Proof.
  split; [|done|done]. intros e. cbn. unfold u64. apply Z.mod_pos_bound. lia.
Qed.

(** A header value may hold no NUL character and a header name is lower case. *)
Definition plain (lower : string -> string) (p : string * string) : Prop :=
  lower p.1 = p.1 /\
  string_forallb (fun a => bool_decide (a ≠ Ascii.zero)) p.1 = true /\
  string_forallb (fun a => bool_decide (a ≠ Ascii.zero)) p.2 = true.

(** C37. Round trip through the remote cache: loading the text of a serialized response gives back its body and all
    of its headers, except that the copy is not chunked and carries its own content length.  Writer and parser are any
    for which documents survive being written and read; predefined headers have one value, as those of a map have. *)
Theorem http_entry_roundtrip {H} `{HeaderMapLaws H}
    (write : list wevent -> string) (parse : string -> option json) `{!JsonTextLaws write parse} (lower : string -> string)
    (m : Message H) (e target : HttpCacheEntry H) :
  cache_message_ e = Some m ->
  hm_get ":status" (headers m) ≠ [] ->
  Forall (plain lower) (hm_entries (headers m)) ->
  (forall k, hm_inline (H := H) hm_empty k ≠ None -> (length (hm_get k (headers m)) <= 1)%nat) ->
  exists s e' m',
    entry_serializeAsString write e = Some s /\
    loadFromString parse lower s target = Ok e' /\
    cache_message_ e' = Some m' /\
    body m' = body m /\
    (forall k, k ≠ "content-length" -> k ≠ "transfer-encoding" ->
       hm_get k (headers m') = hm_get k (headers m)) /\
    hm_get "transfer-encoding" (headers m') = [] /\
    hm_get "content-length" (headers m') = [to_string (Z.of_nat (String.length (body m)))].
Proof.
  intros Hm Hst Hplain Hone. rewrite Forall_forall in Hplain.
  unfold entry_serializeAsString, loadFromString. rewrite Hm.
  eexists _. destruct (load_headers_get lower (hm_entries (headers m)) hm_empty Hplain)
    as (h & Hload & Hget).
  assert (Hall : forall k, hm_get k h = hm_get k (headers m)).
  { intros k. rewrite Hget, get_empty, <- (get_entries k (headers m)). specialize (Hone k).
    destruct (hm_inline hm_empty k); [apply add_values_one; auto|apply add_values_plain]. }
  assert (Hparse : parse (write (entry_events m)) = Some (entry_doc m)).
  { rewrite entry_events_doc. apply parse_written, entry_doc_numberless. }
  rewrite decide_False, Hparse by (intros Hnil; by rewrite Hnil, (parse_empty (write := write)) in Hparse).
  unfold entry_doc, loaded_headers, loaded_body.
  change (find_member "headers" _) with
    (Some (JObject ((fun p => (p.1, JString p.2)) <$> hm_entries (headers m)))).
  change (find_member "rawbody" _) with (Some (JString (body m))).
  cbv beta iota. rewrite Hload. cbn [obind]. rewrite decide_False.
  2: { rewrite Hall. intros [Hnil|Hnil]; [|done].
       rewrite <-Hall, get_entries, Hnil in Hst. done. }
  eexists _, _. split_and!; [done..| | |]; cbn [headers].
  - intros k Hk1 Hk2. rewrite get_set_ne, get_remove_ne by congruence. apply Hall.
  - rewrite get_set_ne by done. apply get_remove_eq.
  - apply get_set_eq.
Qed.

Definition sample_message : Message alist :=
  {| headers := [(":status", "200"); ("transfer-encoding", "chunked"); ("x-a", "1"); ("x-a", "2")];
     body := "he\llo" |}.

Lemma http_entry_roundtrip_witness :
  exists s e' m',
    entry_serializeAsString compact_write (new_entry (Some sample_message) 5) = Some s /\
    loadFromString compact_parse id s empty_entry = Ok e' /\
    cache_message_ e' = Some m' /\ body m' = "he\llo".
Proof.
  destruct (http_entry_roundtrip compact_write compact_parse id sample_message (new_entry (Some sample_message) 5) empty_entry)
    as (s & e' & m' & H1 & H2 & H3 & H4 & _).
  - reflexivity.
  - discriminate.
  - repeat constructor; vm_compute; reflexivity.
  - intros k Hk. destruct (decide (k = "x-a")) as [->|Hne]; [by destruct Hk|].
    cbn. rewrite !alist_get_cons. repeat case_decide; subst; change (alist_get _ []) with (@nil string); cbn; try done; lia.
  - exists s, e', m'. split_and!; assumption.
Defined.

End HttpEntry.
