(* ===== verification/LruCache.v ===== *)
(** * The local LRU cache (source/common/cache/local_cache_impl.{h,cc})

    [LruCacheImpl] keeps a doubly linked list of keys, most recently used
    first, and a dictionary from a key to the list iterator of its node and
    the entry.  A list node is modelled with an identity, so that an iterator
    stored in the dictionary denotes that node and no other. *)

From S2P Require Import Prelude CacheBase.
From Stdlib Require Import Ascii.
From stdpp Require Import base gmap strings numbers list.

Module Lru.
Section Lru.
Context {E : Type} `{EC : CacheEntry E}.

Record LruCacheImpl := {
  m_dict_ : gmap string (nat * E);
  m_list_ : list (nat * string);
  next_node : nat;
  max_cache_length_ : Z;
  cache_length_ : Z;
}.

Definition new_LruCacheImpl (max_cache_length : Z) : LruCacheImpl :=
  {| m_dict_ := ∅; m_list_ := []; next_node := 0;
     max_cache_length_ := max_cache_length; cache_length_ := 0 |}.

Definition cacheNumber (c : LruCacheImpl) : Z := Z.of_nat (size (m_dict_ c)).

(** [std::list::erase(it)]. *)
Definition list_erase (it : nat) (l : list (nat * string)) : list (nat * string) :=
  filter (fun n => n.1 ≠ it) l.

Definition removeImpl (key : string) (c : LruCacheImpl) : LruCacheImpl :=
  match m_dict_ c !! key with
  | None => c
  | Some (it, e) =>
      {| m_dict_ := delete key (m_dict_ c);
         m_list_ := list_erase it (m_list_ c);
         next_node := next_node c;
         max_cache_length_ := max_cache_length_ c;
         cache_length_ := u64 (cache_length_ c - cacheLength e) |}
  end.

Definition checkMemory (c : LruCacheImpl) : LruCacheImpl :=
  if decide (length (m_list_ c) = size (m_dict_ c)) then c
  else {| m_dict_ := ∅; m_list_ := []; next_node := next_node c;
          max_cache_length_ := max_cache_length_ c; cache_length_ := 0 |}.

(** The [for] loop of [drainNumber], [i] iterations left. *)
Fixpoint drain_loop (i : nat) (true_number : Z) (c : LruCacheImpl) : outcome (Z * LruCacheImpl) :=
  match i with
  | O => Ok (true_number, c)
  | S i' =>
      if decide (m_dict_ c = ∅) then Ok (true_number, c)
      else match last (m_list_ c) with
           | None => Undefined "m_list_.rbegin() of an empty list"
           | Some (_, to_remove) => drain_loop i' (true_number + 1) (removeImpl to_remove c)
           end
  end.

Definition drainNumber (number : nat) (c : LruCacheImpl) : outcome (Z * LruCacheImpl) :=
  drain_loop number 0 c.

(** The [while] loop of [insert]. *)
Fixpoint recall_loop (fuel : nat) (c : LruCacheImpl) : outcome LruCacheImpl :=
  if decide (cache_length_ c > max_cache_length_ c)%Z then
    match fuel with
    | O => OutOfFuel
    | S fuel' =>
        obind (drainNumber (Nat.max (size (m_dict_ c) / 10) 1) c)
              (fun r => recall_loop fuel' r.2)
    end
  else Ok c.

(** The part of [insert] before its loop. *)
Definition insert_front (key : string) (value : E) (c0 : LruCacheImpl) : LruCacheImpl :=
  let c := removeImpl key c0 in
  {| m_dict_ := <[key := (next_node c, value)]> (m_dict_ c);
     m_list_ := (next_node c, key) :: m_list_ c;
     next_node := S (next_node c);
     max_cache_length_ := max_cache_length_ c;
     cache_length_ := u64 (cache_length_ c + cacheLength value) |}.

Definition insert (key : string) (value : E) (c : LruCacheImpl) : outcome LruCacheImpl :=
  let c' := insert_front key value c in
  recall_loop (S (size (m_dict_ c'))) c'.

Definition move_to_front (it : nat) (key : string) (e : E) (c : LruCacheImpl) : LruCacheImpl :=
  {| m_dict_ := <[key := (next_node c, e)]> (m_dict_ c);
     m_list_ := (next_node c, key) :: list_erase it (m_list_ c);
     next_node := S (next_node c);
     max_cache_length_ := max_cache_length_ c;
     cache_length_ := cache_length_ c |}.

Definition lookup (now : Z) (key : string) (c0 : LruCacheImpl) : option E * LruCacheImpl :=
  let c := checkMemory c0 in
  match m_dict_ c !! key with
  | None => (None, c)
  | Some (it, e) =>
      if decide (now >= cacheExpire e)%Z then (None, removeImpl key c)
      else
        let c' := if decide (fst <$> head (m_list_ c) = Some it) then c
                  else move_to_front it key e c in
        (createCopy e, c')
  end.

Definition remove (key : string) (c : LruCacheImpl) : LruCacheImpl := removeImpl key c.

(** ** Abstract specification: a list of entries, most recently used first *)

Definition total_length (A : list (string * E)) : Z :=
  foldr (fun p z => cacheLength p.2 + z)%Z 0%Z A.

Definition spec_remove (key : string) (A : list (string * E)) : list (string * E) :=
  filter (fun p => p.1 ≠ key) A.

Definition spec_find (key : string) (A : list (string * E)) : option E :=
  snd <$> head (filter (fun p => p.1 = key) A).

(** Drop the least recently used tenth, at least one entry, until the rest fits. *)
Fixpoint evict (fuel : nat) (max : Z) (A : list (string * E)) : list (string * E) :=
  match fuel with
  | O => A
  | S fuel' =>
      if decide (u64 (total_length A) > max)%Z
      then evict fuel' max (take (length A - Nat.max (length A / 10) 1) A)
      else A
  end.

Definition spec_insert (max : Z) (key : string) (v : E) (A : list (string * E)) :
  list (string * E) :=
  let A' := (key, v) :: spec_remove key A in evict (S (length A')) max A'.

Definition spec_lookup (now : Z) (key : string) (A : list (string * E)) :
  option E * list (string * E) :=
  match spec_find key A with
  | None => (None, A)
  | Some e => if decide (now >= cacheExpire e)%Z then (None, spec_remove key A)
              else (createCopy e, (key, e) :: spec_remove key A)
  end.

(** ** Histories of calls *)

Inductive lru_op :=
| OpInsert (key : string) (value : E)
| OpLookup (now : Z) (key : string)
| OpRemove (key : string).

(** One call on the implementation and on the specification; the result of a
    lookup is the output. *)
Definition lru_step (op : lru_op) (c : LruCacheImpl) : outcome (option E * LruCacheImpl) :=
  match op with
  | OpInsert k v => obind (insert k v c) (fun c' => Ok (None, c'))
  | OpLookup now k => Ok (lookup now k c)
  | OpRemove k => Ok (None, remove k c)
  end.

Definition spec_step (max : Z) (op : lru_op) (A : list (string * E)) :
  option E * list (string * E) :=
  match op with
  | OpInsert k v => (None, spec_insert max k v A)
  | OpLookup now k => spec_lookup now k A
  | OpRemove k => (None, spec_remove k A)
  end.

Fixpoint lru_run (ops : list lru_op) (c : LruCacheImpl) : outcome (list (option E) * LruCacheImpl) :=
  match ops with
  | [] => Ok ([], c)
  | op :: ops' =>
      obind (lru_step op c) (fun r =>
        obind (lru_run ops' r.2) (fun r' => Ok (r.1 :: r'.1, r'.2)))
  end.

Fixpoint spec_run (max : Z) (ops : list lru_op) (A : list (string * E)) :
  list (option E) * list (string * E) :=
  match ops with
  | [] => ([], A)
  | op :: ops' =>
      let r := spec_step max op A in
      let r' := spec_run max ops' r.2 in (r.1 :: r'.1, r'.2)
  end.

(** The dictionary and the key list of a sequence of nodes. *)
Definition dict_of (l : list (nat * (string * E))) : gmap string (nat * E) :=
  list_to_map ((fun n => (n.2.1, (n.1, n.2.2))) <$> l).

(** [Rep c l]: the cache [c] holds the nodes [l], in this order. *)
Record Rep (c : LruCacheImpl) (l : list (nat * (string * E))) : Prop := {
  rep_ids : NoDup (l.*1);
  rep_keys : NoDup (l.*2.*1);
  rep_list : m_list_ c = (fun n => (n.1, n.2.1)) <$> l;
  rep_dict : m_dict_ c = dict_of l;
  rep_fresh : Forall (fun n => n.1 < next_node c) l;
  rep_len : cache_length_ c = u64 (total_length (l.*2));
}.

(** ** Lemmas *)

Lemma fst_dict_pairs (l : list (nat * (string * E))) :
  ((fun n => (n.2.1, (n.1, n.2.2))) <$> l).*1 = l.*2.*1.
Proof. induction l; csimpl; congruence. Qed.

Lemma dict_of_lookup l k it e :
  NoDup (l.*2.*1) -> dict_of l !! k = Some (it, e) <-> (it, (k, e)) ∈ l.
Proof.
  intros ND. unfold dict_of.
  rewrite <-elem_of_list_to_map by (by rewrite fst_dict_pairs).
  rewrite list_elem_of_fmap. split.
  - intros [[it' [k' e']] [[= -> -> ->] Hin]]. done.
  - intros Hin. by exists (it, (k, e)).
Qed.

Lemma dict_of_lookup_None l k : dict_of l !! k = None <-> k ∉ l.*2.*1.
Proof.
  unfold dict_of. rewrite <-(fst_dict_pairs l). symmetry. apply not_elem_of_list_to_map.
Qed.

Lemma dict_of_size l : NoDup (l.*2.*1) -> size (dict_of l) = length l.
Proof.
  intros ND. unfold dict_of.
  rewrite <-length_map_to_list, map_to_list_to_map by (by rewrite fst_dict_pairs).
  by rewrite length_fmap.
Qed.

(** Dropping the node with key [k]. *)
Definition drop_key (k : string) (l : list (nat * (string * E))) :=
  filter (fun n => n.2.1 ≠ k) l.

Lemma drop_key_elem k l n : n ∈ drop_key k l <-> n.2.1 ≠ k /\ n ∈ l.
Proof. unfold drop_key. by rewrite list_elem_of_filter. Qed.

Lemma drop_key_snd k l : (drop_key k l).*2 = spec_remove k (l.*2).
Proof.
  unfold drop_key, spec_remove. induction l as [|n l IH]; [done|].
  rewrite !filter_cons. csimpl. rewrite filter_cons. repeat case_decide; csimpl; congruence.
Qed.

Lemma drop_key_notin k l : k ∉ l.*2.*1 -> drop_key k l = l.
Proof.
  unfold drop_key. induction l as [|n l IH]; [done|]. csimpl. intros Hk.
  apply not_elem_of_cons in Hk as [Hne Hk].
  rewrite filter_cons, decide_True by done. f_equal. by apply IH.
Qed.

Lemma drop_key_NoDup_ids k l : NoDup (l.*1) -> NoDup ((drop_key k l).*1).
Proof.
  intros ND. eapply sublist_NoDup; [exact ND|]. apply fmap_sublist, sublist_filter.
Qed.

Lemma drop_key_NoDup_keys k l : NoDup (l.*2.*1) -> NoDup ((drop_key k l).*2.*1).
Proof.
  intros ND. eapply sublist_NoDup; [exact ND|].
  apply fmap_sublist, fmap_sublist, sublist_filter.
Qed.

Lemma erase_drop_key l it k e :
  NoDup (l.*1) -> NoDup (l.*2.*1) -> (it, (k, e)) ∈ l ->
  list_erase it ((fun n => (n.1, n.2.1)) <$> l) = (fun n => (n.1, n.2.1)) <$> drop_key k l.
Proof.
  unfold list_erase, drop_key. induction l as [|[it' [k' e']] l IH]; [set_solver|].
  csimpl. intros [Hi NDi]%NoDup_cons [Hk NDk]%NoDup_cons [Heq|Hin]%elem_of_cons.
  - simplify_eq. rewrite !filter_cons. simpl. rewrite !decide_False by naive_solver.
    fold (drop_key k' l). rewrite (drop_key_notin k' l Hk).
    apply filter_all. rewrite Forall_fmap, Forall_forall. simpl.
    intros n Hn Heq. simpl in Heq. apply Hi. rewrite <-Heq. by apply list_elem_of_fmap_2.
  - assert (it' ≠ it) by (intros ->; apply Hi, list_elem_of_fmap; by exists (it, (k, e))).
    assert (k' ≠ k).
    { intros ->. apply Hk. apply list_elem_of_fmap. exists (k, e). split; [done|].
      apply list_elem_of_fmap. by exists (it, (k, e)). }
    rewrite !filter_cons. simpl. rewrite !decide_True by done. csimpl. f_equal. by apply IH.
Qed.

Lemma Rep_lookup c l k it e :
  Rep c l -> m_dict_ c !! k = Some (it, e) <-> (it, (k, e)) ∈ l.
Proof. intros R. rewrite (rep_dict _ _ R). apply dict_of_lookup, R. Qed.

Lemma Rep_lookup_None c l k : Rep c l -> m_dict_ c !! k = None <-> k ∉ l.*2.*1.
Proof. intros R. rewrite (rep_dict _ _ R). apply dict_of_lookup_None. Qed.

Lemma Rep_size c l : Rep c l -> size (m_dict_ c) = length l.
Proof. intros R. rewrite (rep_dict _ _ R). apply dict_of_size, R. Qed.

Lemma total_length_remove k e A :
  NoDup (A.*1) -> (k, e) ∈ A ->
  total_length A = (cacheLength e + total_length (spec_remove k A))%Z.
Proof.
  unfold spec_remove. induction A as [|[k' e'] A IH]; [set_solver|].
  csimpl. intros [Hk ND]%NoDup_cons [Heq|Hin]%elem_of_cons.
  - simplify_eq. rewrite filter_cons. simpl. rewrite decide_False by naive_solver.
    rewrite filter_all; [done|]. rewrite Forall_forall. intros [k1 e1] Hin Heq.
    simpl in Heq. subst. apply Hk. apply list_elem_of_fmap. by exists (k', e1).
  - assert (k' ≠ k) by (intros ->; apply Hk, list_elem_of_fmap; by exists (k, e)).
    rewrite filter_cons. simpl. rewrite decide_True by done. simpl.
    rewrite IH by done. lia.
Qed.

(** [removeImpl] drops the node of the key and nothing else. *)
Lemma Rep_removeImpl c l k : Rep c l -> Rep (removeImpl k c) (drop_key k l).
Proof.
  intros R. unfold removeImpl. destruct (m_dict_ c !! k) as [[it e]|] eqn:Hk.
  - apply (Rep_lookup _ _ _ _ _ R) in Hk. destruct R as [NDi NDk Hl Hd Hf Hn].
    split; simpl.
    + by apply drop_key_NoDup_ids.
    + by apply drop_key_NoDup_keys.
    + rewrite Hl. by eapply erase_drop_key.
    + rewrite Hd. apply map_eq. intros k'. apply option_eq. intros [it' e'].
      rewrite lookup_delete_Some, !dict_of_lookup by (auto using drop_key_NoDup_keys).
      rewrite drop_key_elem. simpl. split; intros [? ?]; split; auto.
    + by apply Forall_filter.
    + rewrite Hn, drop_key_snd. unfold u64. rewrite Zminus_mod_idemp_l. f_equal.
      rewrite (total_length_remove k e); [lia|done|].
      apply list_elem_of_fmap. by exists (it, (k, e)).
  - apply (Rep_lookup_None _ _ _ R) in Hk. rewrite drop_key_notin by done. done.
Qed.

Lemma Rep_insert_front c l k v :
  Rep c l -> Rep (insert_front k v c) ((next_node c, (k, v)) :: drop_key k l).
Proof.
  intros R. apply (Rep_removeImpl _ _ k) in R as R'. unfold insert_front.
  assert (Hnext : next_node (removeImpl k c) = next_node c)
    by (unfold removeImpl; by repeat case_match).
  destruct R' as [NDi NDk Hl Hd Hf Hn]. rewrite Hnext in *. split; csimpl.
  - apply NoDup_cons. split; [|done]. intros (n & Heq & Hin)%list_elem_of_fmap.
    rewrite Forall_forall in Hf. apply Hf in Hin. lia.
  - apply NoDup_cons. split; [|done]. rewrite drop_key_snd.
    intros (p & Heq & Hin)%list_elem_of_fmap. unfold spec_remove in Hin.
    apply list_elem_of_filter in Hin as [Hne _]. congruence.
  - by rewrite Hl.
  - by rewrite Hd.
  - apply Forall_cons. split; [simpl; lia|]. eapply Forall_impl; [exact Hf|]. simpl. lia.
  - rewrite Hn. unfold u64. rewrite Zplus_mod_idemp_l. f_equal. lia.
Qed.

Lemma Rep_dict_empty c l : Rep c l -> m_dict_ c = ∅ <-> l = [].
Proof.
  intros R. rewrite <-map_size_empty_iff, (Rep_size c l R). by destruct l.
Qed.

Lemma Rep_last c l x : Rep c (l ++ [x]) -> last (m_list_ c) = Some (x.1, x.2.1).
Proof. intros R. rewrite (rep_list _ _ R), fmap_app. csimpl. by rewrite last_snoc. Qed.

Lemma drop_key_last l x : NoDup ((l ++ [x]).*2.*1) -> drop_key (x.2.1) (l ++ [x]) = l.
Proof.
  rewrite !fmap_app. csimpl. intros (_ & Hd & _)%NoDup_app.
  unfold drop_key. rewrite filter_app, filter_cons. simpl.
  rewrite decide_False by naive_solver. rewrite filter_nil, app_nil_r.
  apply drop_key_notin. intros Hin. by apply (Hd _ Hin), list_elem_of_singleton.
Qed.

(** [drainNumber n] removes exactly the [n] least recently used entries (all of
    them when there are fewer) and returns how many it removed. *)
Lemma drain_loop_spec i n c l :
  Rep c l -> exists c',
    drain_loop i n c = Ok ((n + Z.of_nat (Nat.min i (length l)))%Z, c') /\
    Rep c' (take (length l - i) l) /\ max_cache_length_ c' = max_cache_length_ c.
Proof.
  revert n c l. induction i as [|i IH]; intros n c l R; cbn [drain_loop].
  - exists c. rewrite Z.add_0_r, Nat.sub_0_r, firstn_all. done.
  - destruct (decide (m_dict_ c = ∅)) as [He|He].
    + apply (Rep_dict_empty _ _ R) in He. subst. exists c. by rewrite Z.add_0_r.
    + rewrite (Rep_dict_empty _ _ R) in He.
      destruct (exists_last He) as (l' & x & ->).
      rewrite (Rep_last _ _ _ R).
      destruct (IH (n + 1)%Z (removeImpl (x.2.1) c) l') as (c' & Hc' & R' & Hm).
      { rewrite <-(drop_key_last l' x) by apply R. by apply Rep_removeImpl. }
      exists c'. rewrite Hc', Hm. split; [|split].
      * do 2 f_equal. rewrite length_app. cbn [length]. lia.
      * rewrite take_app_le by (rewrite length_app; cbn [length]; lia).
        rewrite length_app. cbn [length]. by replace (length l' + 1 - S i) with (length l' - i) by lia.
      * unfold removeImpl. by repeat case_match.
Qed.

Lemma recall_loop_spec fuel c l :
  (0 <= max_cache_length_ c)%Z -> Rep c l -> length l <= fuel ->
  exists c' l',
    recall_loop fuel c = Ok c' /\ Rep c' l' /\
    l'.*2 = evict fuel (max_cache_length_ c) (l.*2) /\ l' `prefix_of` l /\
    max_cache_length_ c' = max_cache_length_ c /\
    (cache_length_ c' <= max_cache_length_ c')%Z.
Proof.
  revert c l. induction fuel as [|fuel IH]; intros c l Hmax R Hf; cbn [recall_loop evict].
  - assert (l = []) as -> by (destruct l; simpl in *; [done|lia]).
    assert (Hz : cache_length_ c = 0%Z) by (by rewrite (rep_len _ _ R)).
    exists c, []. rewrite decide_False by lia. split_and!; try done. lia.
  - rewrite (rep_len _ _ R). destruct (decide _) as [Hgt|Hle].
    + rewrite (Rep_size _ _ R), length_fmap.
      set (n := Nat.max (length l / 10) 1). unfold drainNumber.
      destruct (drain_loop_spec n 0 c l R) as (c1 & -> & R1 & Hm1). cbn [obind snd].
      destruct (IH c1 (take (length l - n) l)) as (c' & l' & E' & R' & Ha & Hp & Hm & Hb).
      * lia.
      * done.
      * rewrite length_take. lia.
      * exists c', l'. rewrite E'. split_and!; try done; try congruence.
        -- by rewrite Ha, Hm1, fmap_take.
        -- etrans; [exact Hp|]. apply prefix_take.
    + exists c, l. split_and!; try done. rewrite (rep_len _ _ R). lia.
Qed.

Lemma Rep_insert c l k v :
  (0 <= max_cache_length_ c)%Z -> Rep c l -> exists c' l',
    insert k v c = Ok c' /\ Rep c' l' /\
    l'.*2 = spec_insert (max_cache_length_ c) k v (l.*2) /\
    l' `prefix_of` (next_node c, (k, v)) :: drop_key k l /\
    max_cache_length_ c' = max_cache_length_ c /\
    (cache_length_ c' <= max_cache_length_ c')%Z.
Proof.
  intros Hmax R. apply (Rep_insert_front _ _ k v) in R as R1. unfold insert.
  assert (Hm : max_cache_length_ (insert_front k v c) = max_cache_length_ c)
    by (unfold insert_front, removeImpl; by repeat case_match).
  rewrite (Rep_size _ _ R1).
  destruct (recall_loop_spec (S (length ((next_node c, (k, v)) :: drop_key k l)))
              (insert_front k v c) _ ltac:(lia) R1 ltac:(lia))
    as (c' & l' & -> & R' & Ha & Hp & Hm' & Hb).
  exists c', l'. split_and!; try done; [|congruence].
  rewrite Ha, Hm. unfold spec_insert. rewrite fmap_cons, drop_key_snd.
  f_equal. simpl. by rewrite <-drop_key_snd, length_fmap.
Qed.

Lemma checkMemory_Rep c l : Rep c l -> checkMemory c = c.
Proof.
  intros R. unfold checkMemory. rewrite decide_True; [done|].
  by rewrite (Rep_size _ _ R), (rep_list _ _ R), length_fmap.
Qed.

Lemma spec_find_elem k e A :
  NoDup (A.*1) -> spec_find k A = Some e <-> (k, e) ∈ A.
Proof.
  unfold spec_find. induction A as [|[k' e'] A IH]; [set_solver|].
  csimpl. intros [Hk ND]%NoDup_cons. rewrite filter_cons, elem_of_cons. simpl.
  destruct (decide (k' = k)) as [->|Hne]; simpl.
  - split; [intros [= ->]; auto|]. intros [[= ->]|Hin]; [done|].
    destruct Hk. apply list_elem_of_fmap. by exists (k, e).
  - rewrite IH by done. naive_solver.
Qed.

Lemma spec_find_None k A : spec_find k A = None <-> k ∉ A.*1.
Proof.
  unfold spec_find. induction A as [|[k' e'] A IH]; [set_solver|].
  csimpl. rewrite filter_cons, not_elem_of_cons. simpl.
  destruct (decide (k' = k)) as [->|Hne]; simpl; [naive_solver|]. rewrite IH. naive_solver.
Qed.

Lemma Rep_head_front c it k e l' :
  Rep c ((it, (k, e)) :: l') ->
  (k, e) :: spec_remove k (((it, (k, e)) :: l').*2) = ((it, (k, e)) :: l').*2.
Proof.
  intros R. csimpl. f_equal. unfold spec_remove. rewrite filter_cons. simpl.
  rewrite decide_False by naive_solver. apply filter_all, Forall_forall.
  intros [k1 e1] Hin Heq. simpl in Heq. subst.
  pose proof (rep_keys _ _ R) as [Hk _]%NoDup_cons. apply Hk.
  apply list_elem_of_fmap. by exists (k, e1).
Qed.

Lemma Rep_move_to_front c l it k e :
  Rep c l -> (it, (k, e)) ∈ l ->
  Rep (move_to_front it k e c) ((next_node c, (k, e)) :: drop_key k l).
Proof.
  intros R Hin. pose proof (Rep_insert_front _ _ k e R) as R'.
  assert (Hk : m_dict_ c !! k = Some (it, e)) by by apply (Rep_lookup _ _ _ _ _ R).
  destruct R' as [NDi NDk Hl Hd Hf Hn]. unfold insert_front, removeImpl in *.
  rewrite Hk in *. simpl in *. split; simpl; try done.
  - by rewrite insert_delete_eq in Hd.
  - rewrite (rep_len _ _ R), drop_key_snd. f_equal. apply total_length_remove; [apply R|].
    apply list_elem_of_fmap. by exists (it, (k, e)).
Qed.

Lemma Rep_lookup_step now k c l :
  Rep c l -> exists l',
    Rep (lookup now k c).2 l' /\
    ((lookup now k c).1, l'.*2) = spec_lookup now k (l.*2) /\
    max_cache_length_ (lookup now k c).2 = max_cache_length_ c.
Proof.
  intros R. unfold lookup, spec_lookup. rewrite (checkMemory_Rep _ _ R).
  destruct (m_dict_ c !! k) as [[it e]|] eqn:Hk.
  - pose proof Hk as Hin. rewrite (Rep_lookup _ _ _ _ _ R) in Hin.
    assert (Hk2 : (k, e) ∈ l.*2) by (apply list_elem_of_fmap; by exists (it, (k, e))).
    pose proof (proj2 (spec_find_elem k e (l.*2) (rep_keys _ _ R)) Hk2) as ->.
    destruct (decide _) as [Hexp|Hlive]; cbn [fst snd].
    + exists (drop_key k l). rewrite drop_key_snd. split_and!; try done.
      * by apply Rep_removeImpl.
      * unfold removeImpl. by repeat case_match.
    + destruct (decide _) as [Hh|Hh]; cbn [fst snd].
      * assert (exists l', l = (it, (k, e)) :: l') as [l' ->].
        { rewrite (rep_list _ _ R) in Hh. destruct l as [|[it' [k' e']] l']; [done|].
          simpl in Hh. injection Hh as ->. exists l'.
          apply elem_of_cons in Hin as [->|Hin]; [done|].
          pose proof (rep_ids _ _ R) as [Hid _]%NoDup_cons. destruct Hid.
          apply list_elem_of_fmap. by exists (it, (k, e)). }
        exists ((it, (k, e)) :: l'). rewrite (Rep_head_front _ _ _ _ _ R). done.
      * exists ((next_node c, (k, e)) :: drop_key k l). split_and!.
        -- by apply Rep_move_to_front.
        -- by rewrite fmap_cons, drop_key_snd.
        -- done.
  - rewrite (Rep_lookup_None _ _ _ R), <-spec_find_None in Hk. rewrite Hk. by exists l.
Qed.

Lemma Rep_new max : Rep (new_LruCacheImpl max) [].
Proof. split; try done; constructor. Qed.

(** One call: the implementation follows the specification step by step. *)
Lemma lru_step_refines op c l :
  (0 <= max_cache_length_ c)%Z -> Rep c l -> exists r c' l',
    lru_step op c = Ok (r, c') /\ Rep c' l' /\
    spec_step (max_cache_length_ c) op (l.*2) = (r, l'.*2) /\
    max_cache_length_ c' = max_cache_length_ c.
Proof.
  intros Hmax R. destruct op as [k v|now k|k]; cbn [lru_step spec_step].
  - destruct (Rep_insert c l k v Hmax R) as (c' & l' & -> & R' & Ha & _ & Hm & _).
    exists None, c', l'. rewrite Ha. done.
  - destruct (Rep_lookup_step now k c l R) as (l' & R' & Ha & Hm).
    exists (lookup now k c).1, (lookup now k c).2, l'. rewrite <-Ha.
    split_and!; try done. by destruct (lookup now k c).
  - exists None, (remove k c), (drop_key k l). rewrite drop_key_snd.
    split_and!; try done; [by apply Rep_removeImpl|].
    unfold remove, removeImpl. by repeat case_match.
Qed.

Lemma lru_run_refines ops c l :
  (0 <= max_cache_length_ c)%Z -> Rep c l -> exists outs c' l',
    lru_run ops c = Ok (outs, c') /\ Rep c' l' /\
    spec_run (max_cache_length_ c) ops (l.*2) = (outs, l'.*2).
Proof.
  revert c l. induction ops as [|op ops IH]; intros c l Hmax R; cbn [lru_run spec_run].
  - by exists [], c, l.
  - destruct (lru_step_refines op c l Hmax R) as (r & c1 & l1 & -> & R1 & -> & Hm).
    destruct (IH c1 l1 ltac:(lia) R1) as (outs & c2 & l2 & Hr & R2 & Hs).
    exists (r :: outs), c2, l2. cbn [obind fst snd]. rewrite Hr, <-Hm, Hs. done.
Qed.

(** Eviction never reaches the entry that was just inserted, as long as that
    entry fits into the cache on its own. *)
Lemma evict_head {EL : CacheEntryLaws E} fuel max p A :
  (cacheLength p.2 <= max)%Z -> head (evict fuel max (p :: A)) = Some p.
Proof.
  intros Hfit. revert A. induction fuel as [|fuel IH]; intros A; [done|].
  cbn [evict]. destruct (decide _) as [Hgt|]; [|done].
  remember (length (p :: A) - Nat.max (length (p :: A) / 10) 1) as m eqn:Hm.
  destruct m as [|m].
  - destruct A as [|q A].
    + cbn [total_length foldr] in Hgt. pose proof (cacheLength_range (p.2)).
      rewrite Z.add_0_r, u64_small in Hgt by lia. lia.
    + exfalso. cbn [length] in Hm.
      pose proof (Nat.div_lt (S (S (length A))) 10 ltac:(lia) ltac:(lia)). lia.
  - cbn [take firstn]. apply IH.
Qed.

Lemma total_length_prefix {EL : CacheEntryLaws E} A B :
  A `prefix_of` B -> (0 <= total_length A <= total_length B)%Z.
Proof.
  intros [k ->]. unfold total_length. induction A as [|p A IH]; simpl.
  - induction k as [|q k IH]; simpl; [lia|]. pose proof (cacheLength_range (q.2)). lia.
  - pose proof (cacheLength_range (p.2)). lia.
Qed.

(** Bytes really held, in the absence of [uint64_t] overflow. *)
Lemma Rep_cache_length {EL : CacheEntryLaws E} c l :
  Rep c l -> (total_length (l.*2) < 2 ^ 64)%Z -> cache_length_ c = total_length (l.*2).
Proof.
  intros R Hlt. rewrite (rep_len _ _ R). apply u64_small.
  pose proof (total_length_prefix (l.*2) (l.*2) ltac:(done)). lia.
Qed.

(** ** What the entries satisfy *)

Definition entries_all (P : string -> E -> Prop) (c : LruCacheImpl) : Prop := map_Forall (fun k v => P k v.2) (m_dict_ c).

Lemma entries_all_remove P k c : entries_all P c -> entries_all P (removeImpl k c).
Proof.
  unfold entries_all, removeImpl. intros Hc. destruct (m_dict_ c !! k) as [[it e]|]; [|done]. by apply map_Forall_delete.
Qed.

Lemma entries_all_drain P i n c r : entries_all P c -> drain_loop i n c = Ok r -> entries_all P r.2.
Proof.
  revert n c. induction i as [|i IH]; intros n c Hc; cbn [drain_loop]; [by intros [= <-]|].
  destruct (decide _); [by intros [= <-]|]. destruct (last _) as [[it k]|]; [|done]. by apply IH, entries_all_remove.
Qed.

Lemma entries_all_recall P fuel c c' : entries_all P c -> recall_loop fuel c = Ok c' -> entries_all P c'.
Proof.
  revert c. induction fuel as [|fuel IH]; intros c Hc; cbn [recall_loop]; (destruct (decide _); [|by intros [= <-]]); [done|].
  unfold drainNumber. destruct (drain_loop _ _ _) as [r|?|?|] eqn:Hd; cbn [obind]; [|done..].
  apply IH. by eapply entries_all_drain.
Qed.

Lemma entries_all_insert P k e c c' : entries_all P c -> P k e -> insert k e c = Ok c' -> entries_all P c'.
Proof.
  unfold insert. intros Hc Hk. apply entries_all_recall. unfold entries_all, insert_front. cbn [m_dict_].
  apply map_Forall_insert_2; [done|]. by apply entries_all_remove.
Qed.

Lemma entries_all_lookup P now k c :
  entries_all P c -> entries_all P (lookup now k c).2 /\
  forall e', (lookup now k c).1 = Some e' -> exists e, P k e /\ createCopy e = Some e' /\ (now < cacheExpire e)%Z.
Proof.
  intros Hc0. unfold lookup. set (c1 := checkMemory c).
  assert (Hc : entries_all P c1) by (unfold c1, checkMemory; case_decide; [done|apply map_Forall_empty]). clearbody c1.
  destruct (m_dict_ c1 !! k) as [[it e]|] eqn:Hk; [|by split].
  pose proof (map_Forall_lookup_1 _ _ _ _ Hc Hk) as He. cbn [snd] in He.
  destruct (decide _) as [Hnow|Hnow]; cbn [fst snd]; [by split; [apply entries_all_remove|]|]. split.
  - case_decide; [done|]. unfold entries_all, move_to_front. cbn [m_dict_]. by apply map_Forall_insert_2.
  - intros e' Hcopy. exists e. split_and!; [done|done|lia].
Qed.
End Lru.
End Lru.
