(* ===== verification/LocalCache.v ===== *)
(** * The local cache: sixteen LRU caches (source/common/cache/local_cache_impl.{h,cc})

    A key is served by the LRU cache its first byte selects.  The file also
    states what the LRU cache promises to its users. *)

From S2P Require Import Prelude Json Http CacheBase HttpCacheEntry LruCache.
From Stdlib Require Import Ascii.
From stdpp Require Import base gmap strings numbers list.
Import Lru.
#[local] Open Scope Z_scope.

Module Local.
Section Local.
Context {E : Type} `{EC : CacheEntry E}.

Definition DEFAULT_MAX_CACHE_SIZE : Z := 128 * 1024 * 1024.
Definition cache_list_number_ : Z := 16.

Record LocalCache := { lru_caches_ : list (LruCacheImpl (E := E)) }.

(** The constructor; [max_cache_size] is the optional field of the configuration. *)
Definition new_LocalCache (max_cache_size : option Z) : LocalCache :=
  let max := default DEFAULT_MAX_CACHE_SIZE max_cache_size in
  let single_max_cache_size := max / cache_list_number_ in
  {| lru_caches_ := repeat (new_LruCacheImpl single_max_cache_size) (Z.to_nat cache_list_number_) |}.

(** [static_cast<uint8_t>(key[0]) % cache_list_number_]; [key[0]] of the empty
    string is the terminating NUL. *)
Definition key_index (key : string) : nat :=
  Z.to_nat (match key with
            | EmptyString => 0
            | String a _ => Z.of_nat (nat_of_ascii a)
            end mod cache_list_number_).

Definition set_cache (i : nat) (c : LruCacheImpl) (lc : LocalCache) : LocalCache :=
  {| lru_caches_ := <[i := c]> (lru_caches_ lc) |}.

Definition local_lookupCache (now : Z) (key : string) (lc : LocalCache) :
  outcome (option E * LocalCache) :=
  match lru_caches_ lc !! key_index key with
  | None => Undefined "lru_caches_ index out of range"
  | Some c => let r := Lru.lookup now key c in Ok (r.1, set_cache (key_index key) r.2 lc)
  end.

(** The callback that the asynchronous lookup posts to the worker's dispatcher:
    it will be called with an empty message and the entry found now. *)
Record posted_callback := { posted_message : string; posted_entry : option E }.

Definition local_lookupCache_async (now : Z) (key : string) (lc : LocalCache) :
  outcome (posted_callback * LocalCache) :=
  obind (local_lookupCache now key lc) (fun r =>
    Ok ({| posted_message := ""; posted_entry := r.1 |}, r.2)).

Definition local_insertCache (key : string) (value : E) (lc : LocalCache) : outcome LocalCache :=
  match lru_caches_ lc !! key_index key with
  | None => Undefined "lru_caches_ index out of range"
  | Some c => obind (Lru.insert key value c) (fun c' => Ok (set_cache (key_index key) c' lc))
  end.

Definition local_removeCache (key : string) (lc : LocalCache) : outcome LocalCache :=
  match lru_caches_ lc !! key_index key with
  | None => Undefined "lru_caches_ index out of range"
  | Some c => Ok (set_cache (key_index key) (Lru.remove key c) lc)
  end.

#[global] Instance LocalCache_CommonCacheBase : CommonCacheBase E LocalCache := {
  lookupCache := local_lookupCache;
  removeCache := local_removeCache;
  insertCache := fun _ => local_insertCache;
}.

(** Histories of calls. *)
Definition local_step (op : lru_op) (lc : LocalCache) : outcome (option E * LocalCache) :=
  match op with
  | OpInsert k v => obind (local_insertCache k v lc) (fun lc' => Ok (None, lc'))
  | OpLookup now k => local_lookupCache now k lc
  | OpRemove k => obind (local_removeCache k lc) (fun lc' => Ok (None, lc'))
  end.

Fixpoint local_run (ops : list lru_op) (lc : LocalCache) : outcome (list (option E) * LocalCache) :=
  match ops with
  | [] => Ok ([], lc)
  | op :: ops' =>
      obind (local_step op lc) (fun r =>
        obind (local_run ops' r.2) (fun r' => Ok (r.1 :: r'.1, r'.2)))
  end.

Definition op_key (op : lru_op (E := E)) : string :=
  match op with OpInsert k _ => k | OpLookup _ k => k | OpRemove k => k end.

(** Bytes accounted for by all the LRU caches together. *)
Definition local_cacheLength (lc : LocalCache) : Z :=
  foldr (fun c z => cache_length_ c + z) 0 (lru_caches_ lc).

(** An LRU cache within its budget. *)
Definition within (max : Z) (c : LruCacheImpl) : Prop :=
  max_cache_length_ c = max /\ exists l, Rep c l /\ total_length (l.*2) <= max.

(** ** Lemmas *)
Context {EL : CacheEntryLaws E}.

Lemma total_length_nonneg (A : list (string * E)) : 0 <= total_length A.
Proof. by apply (total_length_prefix A A). Qed.

Lemma total_length_spec_remove k (A : list (string * E)) :
  total_length (spec_remove k A) <= total_length A.
Proof.
  unfold total_length, spec_remove. induction A as [|p A IH]; [done|].
  rewrite filter_cons. pose proof (cacheLength_range (p.2)). case_decide; simpl; lia.
Qed.

Lemma within_length max c : 0 <= max < 2 ^ 64 -> within max c -> 0 <= cache_length_ c <= max.
Proof.
  intros Hmax (_ & l & R & Ht). rewrite (Rep_cache_length _ _ R) by lia.
  pose proof (total_length_nonneg (l.*2)). lia.
Qed.

Lemma within_new max : 0 <= max -> within max (new_LruCacheImpl max).
Proof. intros Hmax. split; [done|]. exists []. split; [apply Rep_new|]. done. Qed.

Lemma within_insert max c k v :
  0 <= max -> max + cacheLength v < 2 ^ 64 -> within max c ->
  exists c', Lru.insert k v c = Ok c' /\ within max c'.
Proof.
  intros Hmax Hv (Hm & l & R & Ht).
  destruct (Rep_insert c l k v ltac:(lia) R) as (c' & l' & -> & R' & Ha & Hp & Hm' & Hb).
  exists c'. split; [done|]. split; [congruence|]. exists l'. split; [done|].
  pose proof (total_length_prefix (l'.*2) _ (prefix_fmap snd _ _ Hp)) as Hle.
  rewrite fmap_cons, drop_key_snd in Hle.
  pose proof (total_length_spec_remove k (l.*2)).
  change (total_length ((next_node c, (k, v)).2 :: spec_remove k (l.*2)))
    with (cacheLength v + total_length (spec_remove k (l.*2))) in Hle.
  rewrite <-(Rep_cache_length _ _ R') by lia. lia.
Qed.

Lemma within_remove max c k : within max c -> within max (Lru.remove k c).
Proof.
  intros (Hm & l & R & Ht). split.
  - unfold remove, removeImpl. by repeat case_match.
  - exists (drop_key k l). split; [by apply Rep_removeImpl|].
    rewrite drop_key_snd. pose proof (total_length_spec_remove k (l.*2)). lia.
Qed.

Lemma within_lookup max c now k : within max c -> within max (Lru.lookup now k c).2.
Proof.
  intros (Hm & l & R & Ht). destruct (Rep_lookup_step now k c l R) as (l' & R' & Ha & Hm').
  split; [congruence|]. exists l'. split; [done|].
  assert (l'.*2 = (spec_lookup now k (l.*2)).2) as -> by (by rewrite <-Ha).
  unfold spec_lookup. destruct (spec_find k (l.*2)) as [e|] eqn:He; [|done].
  apply (spec_find_elem k e (l.*2) (rep_keys _ _ R)) in He.
  pose proof (total_length_remove k e _ (rep_keys _ _ R) He) as Htot.
  pose proof (cacheLength_range e).
  destruct (decide _); cbn [snd]; [lia|].
  change (total_length ((k, e) :: spec_remove k (l.*2)))
    with (cacheLength e + total_length (spec_remove k (l.*2))). lia.
Qed.

Lemma key_index_lt k : (key_index k < 16)%nat.
Proof.
  unfold key_index, cache_list_number_.
  match goal with |- (Z.to_nat (?x mod 16) < _)%nat => pose proof (Z.mod_pos_bound x 16 ltac:(lia)) end.
  lia.
Qed.

(** Sixteen caches, each within the budget. *)
Definition local_inv (max : Z) (lc : LocalCache) : Prop :=
  length (lru_caches_ lc) = 16%nat /\ Forall (within max) (lru_caches_ lc).

Lemma local_inv_at max lc k :
  local_inv max lc -> exists c, lru_caches_ lc !! key_index k = Some c /\ within max c.
Proof.
  intros [Hlen HF]. pose proof (key_index_lt k).
  destruct (lookup_lt_is_Some_2 (lru_caches_ lc) (key_index k)) as [c Hc]; [lia|].
  exists c. split; [done|]. by eapply Forall_lookup_1.
Qed.

Lemma local_inv_set max lc i c :
  local_inv max lc -> within max c -> local_inv max (set_cache i c lc).
Proof.
  intros [Hlen HF] Hc. split; cbn [lru_caches_ set_cache].
  - by rewrite length_insert.
  - by apply Forall_insert.
Qed.

Definition op_fits (max : Z) (op : lru_op (E := E)) : Prop :=
  match op with OpInsert _ v => max + cacheLength v < 2 ^ 64 | _ => True end.

Lemma local_step_inv max op lc :
  0 <= max -> op_fits max op -> local_inv max lc ->
  exists r lc', local_step op lc = Ok (r, lc') /\ local_inv max lc' /\
    forall i, i ≠ key_index (op_key op) -> lru_caches_ lc' !! i = lru_caches_ lc !! i.
Proof.
  intros Hmax Hfit Hinv. destruct (local_inv_at max lc (op_key op) Hinv) as (c & Hc & Hw).
  assert (Hset : forall c' i, i ≠ key_index (op_key op) ->
    lru_caches_ (set_cache (key_index (op_key op)) c' lc) !! i = lru_caches_ lc !! i)
    by (intros c' i Hi; by apply list_lookup_insert_ne).
  destruct op as [k v|now k|k]; cbn [op_key] in *; cbn [local_step];
    unfold local_insertCache, local_lookupCache, local_removeCache; rewrite Hc; cbn [obind].
  - destruct (within_insert max c k v Hmax Hfit Hw) as (c' & -> & Hw').
    eexists _, _. split; [done|]. split; [by apply local_inv_set|]. apply Hset.
  - eexists _, _. split; [done|]. split; [by apply local_inv_set, within_lookup|]. apply Hset.
  - eexists _, _. split; [done|]. split; [by apply local_inv_set, within_remove|]. apply Hset.
Qed.

Lemma local_inv_new max : 0 <= max ->
  local_inv (max / 16) (new_LocalCache (Some max)).
Proof.
  intros Hmax. split; [done|]. cbn [new_LocalCache lru_caches_ default].
  unfold cache_list_number_. apply Forall_forall. intros c Hc.
  apply list_elem_of_In, repeat_spec in Hc. subst c. apply within_new. by apply Z.div_pos.
Qed.

Lemma local_inv_length max lc :
  0 <= max < 2 ^ 64 -> local_inv max lc -> local_cacheLength lc <= 16 * max.
Proof.
  intros Hmax [Hlen HF]. unfold local_cacheLength.
  enough (foldr (fun c z => cache_length_ c + z) 0 (lru_caches_ lc)
          <= Z.of_nat (length (lru_caches_ lc)) * max) by lia.
  clear Hlen. induction HF as [|c cs Hc _ IH]; [done|].
  pose proof (within_length _ _ Hmax Hc). cbn [foldr length].
  rewrite Nat2Z.inj_succ, Z.mul_succ_l. lia.
Qed.

Lemma local_run_inv max ops lc :
  0 <= max -> Forall (op_fits max) ops -> local_inv max lc ->
  exists outs lc', local_run ops lc = Ok (outs, lc') /\ local_inv max lc' /\
    forall i, Forall (fun op => key_index (op_key op) ≠ i) ops ->
      lru_caches_ lc' !! i = lru_caches_ lc !! i.
Proof.
  intros Hmax HF. revert lc. induction HF as [|op ops Hop HF IH]; intros lc Hinv.
  - exists [], lc. by split_and!.
  - destruct (local_step_inv max op lc Hmax Hop Hinv) as (r & lc1 & Hs & H1 & Hi1).
    destruct (IH lc1 H1) as (outs & lc2 & Hr & H2 & Hi2).
    exists (r :: outs), lc2. cbn [local_run]. rewrite Hs. cbn [obind snd]. rewrite Hr.
    split_and!; [done..|]. intros i [Hne Hrest]%Forall_cons. rewrite Hi2 by done. apply Hi1. congruence.
Qed.

End Local.
Arguments LocalCache E : clear implicits.
End Local.

Import HttpEntry Local.

(** The entries of the witnesses: responses without headers. *)
#[local] Instance sample_entry : CacheEntry (HttpCacheEntry alist) :=
  HttpCacheEntry_CacheEntry (fun _ => "").

Definition sample_response (text : string) (expire : Z) : HttpCacheEntry alist :=
  new_entry (Some {| headers := []; body := text |}) expire.

(** An entry just inserted, before and after it expires. *)
Lemma insert_then_lookup {E} `{CacheEntryLaws E} (c : LruCacheImpl) (l : list (nat * (string * E)))
    (k : string) (v : E) (now : Z) :
  0 <= max_cache_length_ c -> Rep c l -> cacheLength v <= max_cache_length_ c ->
  exists c' c'' l'',
    Lru.insert k v c = Ok c' /\ Rep c'' l'' /\
    (now < cacheExpire v -> Lru.lookup now k c' = (createCopy v, c'') /\ k ∈ l''.*2.*1) /\
    (cacheExpire v <= now -> Lru.lookup now k c' = (None, c'') /\ k ∉ l''.*2.*1).
Proof.
  intros Hmax R Hfit.
  destruct (Rep_insert c l k v Hmax R) as (c' & l' & Hi & R' & Ha & _ & Hm & _).
  pose proof (evict_head (S (length ((k, v) :: spec_remove k (l.*2)))) (max_cache_length_ c)
    (k, v) (spec_remove k (l.*2)) Hfit) as Hhead.
  fold (spec_insert (max_cache_length_ c) k v (l.*2)) in Hhead. rewrite <-Ha in Hhead.
  destruct (Rep_lookup_step now k c' l' R') as (l'' & R'' & Hs & _).
  exists c', (Lru.lookup now k c').2, l''. split_and!; [done|done|..]; intros Hnow.
  all: assert (spec_find k (l'.*2) = Some v) as Hf.
  1,3: apply (spec_find_elem k v _ (rep_keys _ _ R'));
       destruct (l'.*2); [done|]; injection Hhead as ->; left.
  all: unfold spec_lookup in Hs; rewrite Hf in Hs.
  - rewrite decide_False in Hs by lia. injection Hs as Hs1 Hs2. rewrite <-Hs1, Hs2.
    split; [by destruct (Lru.lookup now k c')|]. left.
  - rewrite decide_True in Hs by lia. injection Hs as Hs1 Hs2. rewrite <-Hs1, Hs2.
    split; [by destruct (Lru.lookup now k c')|].
    intros (p & Heq & Hin)%list_elem_of_fmap. unfold spec_remove in Hin.
    apply list_elem_of_filter in Hin as [Hne _]. congruence.
Qed.

(** The local cache keeps the promise of the interface. *)
#[global] Instance LocalCache_CommonCacheLaws {E} `{CacheEntryLaws E} :
  CommonCacheLaws E (LocalCache E).
Proof.
  refine {| cache_good e lc := exists max, 0 <= max /\ local_inv max lc /\ cacheLength e <= max |}.
  intros now k e lc (max & Hmax & Hinv & Hfit).
  destruct (local_inv_at max lc k Hinv) as (c & Hc & Hm & l & R & _).
  cbn [insertCache lookupCache LocalCache_CommonCacheBase].
  destruct (Rep_insert c l k e ltac:(lia) R) as (c' & _ & Hi & _).
  exists (set_cache (key_index k) c' lc). unfold local_insertCache. rewrite Hc, Hi. split; [done|].
  intros now' Hnow. unfold local_lookupCache. cbn [lru_caches_ set_cache].
  rewrite list_lookup_insert_eq by by eapply lookup_lt_Some.
  destruct (insert_then_lookup c l k e now' ltac:(lia) R ltac:(lia)) as (c1 & c2 & l2 & Hi' & _ & Hhit & _).
  rewrite Hi in Hi'. injection Hi' as <-. destruct (Hhit Hnow) as [-> _]. eexists. reflexivity.
Defined.

(** Sixteen LRU caches that represent lists of entries, whatever their sizes. *)
Definition represented {E} `{CacheEntry E} (c : LruCacheImpl (E := E)) : Prop :=
  0 <= max_cache_length_ c /\ exists l, Rep c l.

Definition holding {E} `{CacheEntry E} (P : string -> E -> Prop) (lc : LocalCache E) : Prop :=
  length (lru_caches_ lc) = 16%nat /\ Forall (fun c => represented c /\ entries_all P c) (lru_caches_ lc).

Lemma holding_at {E} `{CacheEntry E} P (lc : LocalCache E) k :
  holding P lc -> exists c, lru_caches_ lc !! key_index k = Some c /\ represented c /\ entries_all P c.
Proof.
  intros [Hlen HF]. pose proof (key_index_lt k).
  destruct (lookup_lt_is_Some_2 (lru_caches_ lc) (key_index k)) as [c Hc]; [lia|].
  exists c. split; [done|]. by eapply (Forall_lookup_1 _ _ _ _ HF).
Qed.

Lemma holding_set {E} `{CacheEntry E} P (lc : LocalCache E) i c :
  holding P lc -> represented c -> entries_all P c -> holding P (set_cache i c lc).
Proof.
  intros [Hlen HF] Hr Hc. split; cbn [lru_caches_ set_cache]; [by rewrite length_insert|]. by apply Forall_insert.
Qed.

Lemma holding_new {E} `{CacheEntry E} P (max : Z) : 0 <= max -> holding (E := E) P (new_LocalCache (Some max)).
Proof.
  intros Hmax. split; [done|]. cbn [new_LocalCache lru_caches_ default]. unfold cache_list_number_. apply Forall_forall. intros c Hc.
  apply list_elem_of_In, repeat_spec in Hc. subst c. split; [|by apply map_Forall_empty].
  split; [by apply Z.div_pos|]. eexists. apply Rep_new.
Qed.

(** ... and what it holds is what was inserted. *)
#[global] Instance LocalCache_CommonCacheSafety {E} `{CacheEntryLaws E} : CommonCacheSafety E (LocalCache E).
Proof.
  refine {| holds_only := holding |}.
  - intros P Q lc HPQ [Hlen HF]. split; [done|]. eapply Forall_impl; [exact HF|]. intros c [Hr Hc]. split; [done|].
    eapply map_Forall_impl; eauto.
  - intros P now k e lc Hlc Hk. destruct (holding_at P lc k Hlc) as (c & Hc & (Hm & l & R) & Hall).
    destruct (Rep_insert c l k e Hm R) as (c' & l' & Hi & R' & _ & _ & Hm' & _).
    cbn [insertCache LocalCache_CommonCacheBase]. unfold local_insertCache. rewrite Hc, Hi. eexists. split; [done|].
    apply holding_set; [done| |by eapply entries_all_insert]. split; [lia|by exists l'].
  - intros P k lc Hlc. destruct (holding_at P lc k Hlc) as (c & Hc & (Hm & l & R) & Hall).
    cbn [removeCache LocalCache_CommonCacheBase]. unfold local_removeCache. rewrite Hc. eexists. split; [done|].
    apply holding_set; [done| |by apply entries_all_remove]. split; [|exists (drop_key k l); by apply Rep_removeImpl].
    unfold Lru.remove, removeImpl. by repeat case_match.
  - intros P now k lc Hlc. destruct (holding_at P lc k Hlc) as (c & Hc & (Hm & l & R) & Hall).
    destruct (entries_all_lookup P now k c Hall) as [Hall' Hfound].
    destruct (Rep_lookup_step now k c l R) as (l' & R' & _ & Hm').
    cbn [lookupCache LocalCache_CommonCacheBase]. unfold local_lookupCache. rewrite Hc. eexists _, _. split; [done|].
    split; [|done]. apply holding_set; [done| |done]. split; [lia|by exists l'].
Defined.

(** C10. Every history of insertions, lookups and removals on a fresh LRU cache
    runs to its end, and every lookup returns what the specification, a plain
    list of entries with the most recently used first, returns; the final
    contents are those of the specification. *)
Theorem lru_refines_spec {E} `{CacheEntryLaws E} (max : Z) (ops : list (lru_op (E := E))) :
  0 <= max ->
  exists outs c l,
    lru_run ops (new_LruCacheImpl max) = Ok (outs, c) /\ Rep c l /\
    spec_run max ops [] = (outs, l.*2).
Proof.
  intros Hmax. exact (lru_run_refines ops (new_LruCacheImpl max) [] Hmax (Rep_new max)).
Qed.

Lemma lru_refines_spec_witness :
  exists outs c l,
    lru_run [OpInsert "k" (sample_response "abc" 9); OpLookup 5 "k"; OpLookup 9 "k"]
      (new_LruCacheImpl 100) = Ok (outs, c) /\ Rep c l /\
    spec_run 100 [OpInsert "k" (sample_response "abc" 9); OpLookup 5 "k"; OpLookup 9 "k"] []
      = (outs, l.*2).
Proof.
  apply (lru_refines_spec 100
    [OpInsert "k" (sample_response "abc" 9); OpLookup 5 "k"; OpLookup 9 "k"]). lia.
Defined.

(** Inserting an entry always terminates within the fuel of the loop,
    leaves at most [max_cache_length_] bytes, drops only entries at the least
    recently used end, and keeps the new entry in front whenever that entry
    fits into an empty cache. *)
Theorem lru_insert_correct {E} `{CacheEntryLaws E} (c : LruCacheImpl) (l : list (nat * (string * E)))
    (k : string) (v : E) :
  0 <= max_cache_length_ c ->
  max_cache_length_ c + cacheLength v < 2 ^ 64 ->
  Rep c l -> total_length (l.*2) <= max_cache_length_ c ->
  exists c' l',
    Lru.insert k v c = Ok c' /\ Rep c' l' /\
    total_length (l'.*2) <= max_cache_length_ c /\
    l'.*2 `prefix_of` (k, v) :: spec_remove k (l.*2) /\
    (cacheLength v <= max_cache_length_ c -> head (l'.*2) = Some (k, v)).
Proof.
  intros Hmax Hv R Ht.
  destruct (Rep_insert c l k v Hmax R) as (c' & l' & Hi & R' & Ha & Hp & Hm & Hb).
  exists c', l'. apply (prefix_fmap snd) in Hp. rewrite fmap_cons, drop_key_snd in Hp.
  pose proof (total_length_prefix _ _ Hp) as Hle.
  pose proof (total_length_spec_remove k (l.*2)).
  change (total_length ((next_node c, (k, v)).2 :: spec_remove k (l.*2)))
    with (cacheLength v + total_length (spec_remove k (l.*2))) in Hle.
  split_and!; [done|done| |done|].
  - rewrite <-(Rep_cache_length _ _ R') by lia. lia.
  - intros Hfit. rewrite Ha. by apply evict_head.
Qed.

Lemma lru_insert_correct_witness :
  exists c' l',
    Lru.insert "k" (sample_response "abc" 9) (new_LruCacheImpl 100) = Ok c' /\ Rep c' l' /\
    total_length (l'.*2) <= 100 /\
    l'.*2 `prefix_of` [("k", sample_response "abc" 9)] /\
    (cacheLength (sample_response "abc" 9) <= 100 -> head (l'.*2) = Some ("k", sample_response "abc" 9)).
Proof.
  apply (lru_insert_correct (new_LruCacheImpl 100) [] "k" (sample_response "abc" 9)).
  - vm_compute. discriminate.
  - vm_compute. reflexivity.
  - apply Rep_new.
  - vm_compute. discriminate.
Defined.

(** An entry that fits is found again: a lookup right after the insertion,
    before the entry expires, returns a copy of it; at or after the expiry the
    lookup misses and the key is gone from the cache. *)
Theorem lru_insert_lookup {E} `{CacheEntryLaws E} (c : LruCacheImpl) (l : list (nat * (string * E)))
    (k : string) (v : E) (now : Z) :
  0 <= max_cache_length_ c -> Rep c l -> cacheLength v <= max_cache_length_ c ->
  exists c' c'' l'',
    Lru.insert k v c = Ok c' /\ Rep c'' l'' /\
    (now < cacheExpire v -> Lru.lookup now k c' = (createCopy v, c'') /\ k ∈ l''.*2.*1) /\
    (cacheExpire v <= now -> Lru.lookup now k c' = (None, c'') /\ k ∉ l''.*2.*1).
Proof. apply insert_then_lookup. Qed.

Lemma lru_insert_lookup_witness :
  exists c' c'' l'',
    Lru.insert "k" (sample_response "abc" 9) (new_LruCacheImpl 100) = Ok c' /\
    Rep c'' l'' /\
    (5 < cacheExpire (sample_response "abc" 9) -> Lru.lookup 5 "k" c' = (createCopy (sample_response "abc" 9), c'') /\ "k" ∈ l''.*2.*1) /\
    (cacheExpire (sample_response "abc" 9) <= 5 -> Lru.lookup 5 "k" c' = (None, c'') /\ "k" ∉ l''.*2.*1).
Proof.
  apply (lru_insert_lookup (new_LruCacheImpl 100) [] "k" (sample_response "abc" 9) 5).
  - vm_compute. discriminate.
  - apply Rep_new.
  - vm_compute. discriminate.
Defined.

(** C36. For every history of calls on a fresh local cache of [max] bytes, every
    call succeeds, the sixteen LRU caches together never account for more than
    [max] bytes, and an LRU cache that no key of the history selects is left
    as it was. *)
Theorem local_cache_bounded {E} `{CacheEntryLaws E} (max : Z) (ops : list (lru_op (E := E))) :
  0 <= max < 2 ^ 64 -> Forall (op_fits max) ops ->
  exists outs lc,
    local_run ops (new_LocalCache (Some max)) = Ok (outs, lc) /\
    local_cacheLength lc <= max /\
    forall i, Forall (fun op => key_index (op_key op) ≠ i) ops ->
      lru_caches_ lc !! i = lru_caches_ (new_LocalCache (E := E) (Some max)) !! i.
Proof.
  intros Hmax HF. pose proof (Z.div_mod max 16 ltac:(lia)).
  pose proof (Z.mod_pos_bound max 16 ltac:(lia)).
  destruct (local_run_inv (max / 16) ops (new_LocalCache (Some max))) as (outs & lc & Hr & Hinv & Hi).
  - lia.
  - eapply Forall_impl; [exact HF|]. intros [k v|now k|k]; cbn; lia.
  - apply local_inv_new. lia.
  - exists outs, lc. split_and!; [done| |done].
    pose proof (local_inv_length (max / 16) lc ltac:(lia) Hinv). lia.
Qed.

Lemma local_cache_bounded_witness :
  exists outs lc,
    local_run [OpInsert "k" (sample_response "abc" 9); OpLookup 5 "k"] (new_LocalCache (Some 1000))
      = Ok (outs, lc) /\
    local_cacheLength lc <= 1000 /\
    forall i, Forall (fun op => key_index (op_key op) ≠ i)
        [OpInsert "k" (sample_response "abc" 9); OpLookup 5 "k"] ->
      lru_caches_ lc !! i
      = lru_caches_ (new_LocalCache (E := HttpCacheEntry alist) (Some 1000)) !! i.
Proof.
  apply (local_cache_bounded 1000 [OpInsert "k" (sample_response "abc" 9); OpLookup 5 "k"]).
  - lia.
  - repeat constructor.
Defined.
