(* ===== verification/RedisCache.v ===== *)
(** * The Redis cache and its client
      (source/common/redis/async_client.{h,cc}, source/common/cache/redis_cache_impl.{h,cc})

    [AsyncClient] keeps one hiredis context, a map of the callbacks of the GET
    commands in flight, and reconnects.  hiredis is a library: what it does is the
    events of [redis_step], in any order that its documentation allows, namely each
    context reports at most one connection result, replies only to commands that
    were issued on it, answers all of them with a null reply before it reports
    that a connection was lost, and reports nothing to a client whose context it
    no longer is ([data] is null).  [RedisCache] stores and finds entries through
    the client and answers lookups on the dispatcher. *)

From S2P Require Import Prelude Decimal Json Http CacheBase HttpCacheEntry.
From Stdlib Require Import Ascii.
From stdpp Require Import base gmap strings numbers list.
#[local] Open Scope Z_scope.

(** ** The client *)

Inductive Status := NOT_INIT | INIT_ERROR | CONNECTING | CONNECTED | WORKING | COMPLETED.

#[global] Instance Status_eq_dec : EqDecision Status.
Proof. solve_decision. Defined.

(** Seconds and microseconds. *)
Definition setTimeval (value : Z) : Z * Z := (value / 1000, (value mod 1000) * 1000).

(** A command; the period is printed with [%lld], names with [%s]. *)
Inductive command :=
| SET (key value : string) (expire_ms : Z)
| GET (key : string) (command_id : Z)
| DEL (key : string)
| AUTH (password : string).

Definition as_int64 (z : Z) : Z := if z <? 2 ^ 63 then z else z - 2 ^ 64.

(** What [redisAsyncConnectWithOptions] and the setting of the callbacks give:
    nothing, a context with an error, a context that refuses a callback, or a
    context that is connecting. *)
Inductive connect_result := ContextNull | ContextError | ContextRefused | ContextOk.

Section Client.
(** The callbacks of the user of the client. *)
Context {CB : Type}.

Record AsyncClient := {
  client_status_ : Status;
  next_command_id_ : Z;
  commands_map_ : gmap Z CB;
  password_ : string;
  should_reconnect_ : bool;
  try_reconnecting_ : bool;
  max_reconnect_count_ : Z;
  reconnect_count_ : Z;
  reconnect_event_ : bool;
  reconnect_interval_ : Z * Z;
  connect_timeout_ : Z * Z;
  command_timeout_ : Z * Z;
  redis_async_context_ : option nat;
}.

(** What the client does to hiredis, libevent and its user. *)
Inductive effect :=
| Connecting (c : nat)
| Issue (c : nat) (cmd : command)
| FreeContext (c : nat)
| StartTimer (interval : Z * Z)
| StopTimer
| Call (cb : CB) (reply error : option string).

Definition set_status (st : Status) (s : AsyncClient) : AsyncClient :=
  {| client_status_ := st; next_command_id_ := next_command_id_ s; commands_map_ := commands_map_ s;
     password_ := password_ s; should_reconnect_ := should_reconnect_ s;
     try_reconnecting_ := try_reconnecting_ s; max_reconnect_count_ := max_reconnect_count_ s;
     reconnect_count_ := reconnect_count_ s; reconnect_event_ := reconnect_event_ s;
     reconnect_interval_ := reconnect_interval_ s; connect_timeout_ := connect_timeout_ s;
     command_timeout_ := command_timeout_ s; redis_async_context_ := redis_async_context_ s |}.

Definition set_context (c : option nat) (s : AsyncClient) : AsyncClient :=
  {| client_status_ := client_status_ s; next_command_id_ := next_command_id_ s;
     commands_map_ := commands_map_ s; password_ := password_ s; should_reconnect_ := should_reconnect_ s;
     try_reconnecting_ := try_reconnecting_ s; max_reconnect_count_ := max_reconnect_count_ s;
     reconnect_count_ := reconnect_count_ s; reconnect_event_ := reconnect_event_ s;
     reconnect_interval_ := reconnect_interval_ s; connect_timeout_ := connect_timeout_ s;
     command_timeout_ := command_timeout_ s; redis_async_context_ := c |}.

Definition set_commands (next : Z) (m : gmap Z CB) (s : AsyncClient) : AsyncClient :=
  {| client_status_ := client_status_ s; next_command_id_ := next; commands_map_ := m;
     password_ := password_ s; should_reconnect_ := should_reconnect_ s;
     try_reconnecting_ := try_reconnecting_ s; max_reconnect_count_ := max_reconnect_count_ s;
     reconnect_count_ := reconnect_count_ s; reconnect_event_ := reconnect_event_ s;
     reconnect_interval_ := reconnect_interval_ s; connect_timeout_ := connect_timeout_ s;
     command_timeout_ := command_timeout_ s; redis_async_context_ := redis_async_context_ s |}.

Definition set_reconnect (should try event : bool) (count : Z) (s : AsyncClient) : AsyncClient :=
  {| client_status_ := client_status_ s; next_command_id_ := next_command_id_ s;
     commands_map_ := commands_map_ s; password_ := password_ s; should_reconnect_ := should;
     try_reconnecting_ := try; max_reconnect_count_ := max_reconnect_count_ s;
     reconnect_count_ := count; reconnect_event_ := event;
     reconnect_interval_ := reconnect_interval_ s; connect_timeout_ := connect_timeout_ s;
     command_timeout_ := command_timeout_ s; redis_async_context_ := redis_async_context_ s |}.

(** [disconnecting]: hiredis is tearing the context down itself. *)
Definition resetAsyncContext (new_status : Status) (disconnecting : bool) (s : AsyncClient) :
  AsyncClient * list effect :=
  (set_commands (next_command_id_ s) ∅ (set_context None (set_status new_status s)),
   match redis_async_context_ s with
   | Some to_free => if disconnecting then [] else [FreeContext to_free]
   | None => []
   end ++ map (fun cb => Call cb.2 None None) (map_to_list (commands_map_ s))).

Definition waitingToReconnect (s : AsyncClient) : AsyncClient * list effect :=
  if try_reconnecting_ s then (s, [])
  else if negb (should_reconnect_ s) then
    (set_status COMPLETED (set_reconnect false (try_reconnecting_ s) (reconnect_event_ s) (reconnect_count_ s) s), [])
  else
    let count := u32 (reconnect_count_ s + 1) in
    if max_reconnect_count_ s <? reconnect_count_ s then
      (set_status COMPLETED (set_reconnect false (try_reconnecting_ s) (reconnect_event_ s) count s), [])
    else
      (set_status CONNECTING (set_reconnect true true true count s), [StartTimer (reconnect_interval_ s)]).

(** [c]: the context hiredis creates, if it does. *)
Definition connect (result : connect_result) (c : nat) (s : AsyncClient) : AsyncClient * list effect :=
  match result with
  | ContextNull => resetAsyncContext INIT_ERROR false (set_context None s)
  | ContextError | ContextRefused => resetAsyncContext INIT_ERROR false (set_context (Some c) s)
  | ContextOk => (set_context (Some c) s, [Connecting c])
  end.

Definition new_AsyncClient (password : string) (timeout_ms : Z) (reconnect : bool) (max_reconnect : Z)
    (result : connect_result) (c : nat) : AsyncClient * list effect :=
  connect result c
    {| client_status_ := NOT_INIT; next_command_id_ := 0; commands_map_ := ∅; password_ := password;
       should_reconnect_ := reconnect; try_reconnecting_ := false; max_reconnect_count_ := max_reconnect;
       reconnect_count_ := 0; reconnect_event_ := false; reconnect_interval_ := (30, 0);
       connect_timeout_ := setTimeval timeout_ms; command_timeout_ := setTimeval timeout_ms;
       redis_async_context_ := None |}.

Definition delete_AsyncClient (s : AsyncClient) : AsyncClient * list effect :=
  let r := resetAsyncContext COMPLETED false s in
  (set_reconnect (should_reconnect_ r.1) false false (reconnect_count_ r.1) r.1,
   r.2 ++ (if reconnect_event_ r.1 then [StopTimer] else [])).

Definition client_set (key value : string) (expire_ms : Z) (s : AsyncClient) : list effect :=
  match redis_async_context_ s with
  | Some c =>
      if decide (client_status_ s = WORKING) then
        if expire_ms =? 0 then [] else [Issue c (SET (c_str key) value (as_int64 expire_ms))]
      else []
  | None => []
  end.

Definition client_get (key : string) (callback : CB) (s : AsyncClient) : AsyncClient * list effect :=
  match redis_async_context_ s with
  | Some c =>
      if decide (client_status_ s = WORKING) then
        let command_id := next_command_id_ s in
        (set_commands (u64 (command_id + 1)) (<[command_id := callback]> (commands_map_ s)) s,
         [Issue c (GET (c_str key) command_id)])
      else (s, [])
  | None => (s, [])
  end.

Definition client_del (key : string) (s : AsyncClient) : list effect :=
  match redis_async_context_ s with
  | Some c => if decide (client_status_ s = WORKING) then [Issue c (DEL (c_str key))] else []
  | None => []
  end.

(** [c->data] is the client exactly while [c] is its context. *)
Definition data (c : nat) (s : AsyncClient) : bool := bool_decide (redis_async_context_ s = Some c).

Definition authenticate (c : nat) (s : AsyncClient) : list effect := [Issue c (AUTH (c_str (password_ s)))].

(** A reply is null, or has a text ([None]: a null text). *)
Definition authenticateCb (c : nat) (reply : option (option string)) (disconnecting : bool) (s : AsyncClient) :
  outcome (AsyncClient * list effect) :=
  if negb (data c s) then Ok (s, [])
  else match reply with
  | Some None => Undefined "strncmp of a null pointer"
  | Some (Some str) =>
      if String.prefix "OK" str then Ok (set_status WORKING s, [])
      else Ok (resetAsyncContext COMPLETED disconnecting
                 (set_reconnect false (try_reconnecting_ s) (reconnect_event_ s) (reconnect_count_ s) s))
  | None =>
      Ok (resetAsyncContext COMPLETED disconnecting
            (set_reconnect false (try_reconnecting_ s) (reconnect_event_ s) (reconnect_count_ s) s))
  end.

Definition connectCb (c : nat) (ok : bool) (s : AsyncClient) : AsyncClient * list effect :=
  if negb (data c s) then (s, [])
  else
    let s := if try_reconnecting_ s then
               set_reconnect (should_reconnect_ s) false false (if ok then 0 else reconnect_count_ s) s
             else s in
    if ok then
      if decide (password_ s = "") then (set_status WORKING s, [])
      else (set_status CONNECTED s, authenticate c s)
    else waitingToReconnect (set_context None (set_status NOT_INIT s)).

Definition disconnectCb (c : nat) (ok : bool) (s : AsyncClient) : AsyncClient * list effect :=
  if ok || negb (data c s) then (s, [])
  else waitingToReconnect (set_context None (set_status NOT_INIT s)).

Definition reconnectCb (result : connect_result) (c : nat) (s : AsyncClient) : AsyncClient * list effect :=
  connect result c s.

Definition commandCb (c : nat) (reply : option (option string)) (errstr : option string) (command_id : Z)
    (s : AsyncClient) : AsyncClient * list effect :=
  if negb (data c s) then (s, [])
  else match commands_map_ s !! command_id with
  | None => (s, [])
  | Some callback =>
      (set_commands (next_command_id_ s) (delete command_id (commands_map_ s)) s,
       [match reply with
        | Some (Some str) => Call callback (Some str) None
        | _ => Call callback None errstr
        end])
  end.
End Client.

(** ** The cache *)

Section Cache.
Context {E : Type} `{EC : CacheEntry E} {CB : Type}.
(** [creator()] and [loadFromString]. *)
Variable loadFromString : string -> outcome E.
#[local] Abbreviation client := (AsyncClient (CB := CB)).

(** A callback of a lookup called through the dispatcher, with its two arguments. *)
Record posted := { posted_cb : CB; posted_error : string; posted_entry : option E }.

Definition redis_insertCache (now : Z) (key : string) (value : E) (s : client) : list (effect (CB := CB)) :=
  if decide (client_status_ s = WORKING) then
    let ttl_count := u64 (cacheExpire value - now) in
    if ttl_count <=? 0 then []
    else match serializeAsString value with
         | None => []
         | Some string_value => client_set key string_value ttl_count s
         end
  else [].

Definition redis_removeCache (key : string) (s : client) : list (effect (CB := CB)) :=
  if decide (client_status_ s = WORKING) then client_del key s else [].

(** The callback given to the client: the text is loaded before anything is posted. *)
Definition lookup_reply (callback : CB) (reply error : option string) : outcome posted :=
  match error, reply with
  | None, Some text =>
      obind (loadFromString text) (fun entry =>
      Ok {| posted_cb := callback; posted_error := ""; posted_entry := Some entry |})
  | _, _ => Ok {| posted_cb := callback; posted_error := ""; posted_entry := None |}
  end.

Definition redis_lookupCache (key : string) (callback : CB) (s : client) :
  client * list (effect (CB := CB)) * list posted :=
  if decide (client_status_ s = WORKING) then (client_get key callback s, [])
  else (s, [], [{| posted_cb := callback; posted_error := "NO CONNECTION TO REDIS"; posted_entry := None |}]).

(** ** hiredis around the client *)

(** GET commands in flight, the context that is connecting, an AUTH in flight, the
    timer; contexts are numbered as they are created. *)
Record redis_world := {
  the_client : client;
  in_flight : list Z;
  connecting : bool;
  authenticating : bool;
  timer : bool;
  next_context : nat;
  alive : bool;
}.

Definition set_client (s : client) (w : redis_world) : redis_world :=
  {| the_client := s; in_flight := in_flight w; connecting := connecting w;
     authenticating := authenticating w; timer := timer w; next_context := next_context w;
     alive := alive w |}.

(** hiredis and libevent carry out what the client does. *)
Definition apply_effect (w : redis_world) (e : effect (CB := CB)) : redis_world :=
  let upd f c a t := {| the_client := the_client w; in_flight := f; connecting := c; authenticating := a;
                        timer := t; next_context := next_context w; alive := alive w |} in
  match e with
  | Connecting _ => upd [] true false (timer w)
  | Issue _ (GET _ id) => upd (in_flight w ++ [id]) (connecting w) (authenticating w) (timer w)
  | Issue _ (AUTH _) => upd (in_flight w) (connecting w) true (timer w)
  | Issue _ _ => w
  | FreeContext _ => upd [] false false (timer w)
  | StartTimer _ => upd (in_flight w) (connecting w) (authenticating w) true
  | StopTimer => upd (in_flight w) (connecting w) (authenticating w) false
  | Call _ _ _ => w
  end.

(** What the client's calls of its callbacks post; a failing callback ends them. *)
Fixpoint posts (es : list (effect (CB := CB))) : outcome (list posted) :=
  match es with
  | [] => Ok []
  | Call cb reply error :: es' =>
      obind (lookup_reply cb reply error) (fun p => obind (posts es') (fun ps => Ok (p :: ps)))
  | _ :: es' => posts es'
  end.

(** A client operation and its effects. *)
Definition run_effects (r : client * list (effect (CB := CB))) (w : redis_world) : outcome (redis_world * list posted) :=
  obind (posts r.2) (fun ps => Ok (fold_left apply_effect r.2 (set_client r.1 w), ps)).

Inductive redis_event :=
| EvLookup (key : string) (callback : CB)
| EvInsert (now : Z) (key : string) (value : E)
| EvRemove (key : string)
| EvReply (reply : option (option string)) (errstr : option string)
| EvConnected (ok : bool)
| EvAuthenticated (reply : option (option string))
| EvDisconnected (errstr : option string)
| EvTimer (result : connect_result)
| EvDestroyed.

(** A lost connection: null replies for everything in flight, then the report. *)
Fixpoint null_replies (c : nat) (errstr : option string) (ids : list Z) (s : client) :
  client * list (effect (CB := CB)) :=
  match ids with
  | [] => (s, [])
  | id :: ids' =>
      let r := commandCb c None errstr id s in
      let r' := null_replies c errstr ids' r.1 in
      (r'.1, r.2 ++ r'.2)
  end.

Definition lost_connection (c : nat) (errstr : option string) (w : redis_world) :
  outcome (client * list (effect (CB := CB))) :=
  let r := null_replies c errstr (in_flight w) (the_client w) in
  obind (if authenticating w then authenticateCb c None true r.1 else Ok (r.1, [])) (fun r' =>
  let r'' := disconnectCb c false r'.1 in
  Ok (r''.1, r.2 ++ r'.2 ++ r''.2)).

Definition hiredis_gone (w : redis_world) : redis_world :=
  {| the_client := the_client w; in_flight := []; connecting := false; authenticating := false;
     timer := timer w; next_context := next_context w; alive := alive w |}.

Definition redis_step (e : redis_event) (w : redis_world) : outcome (redis_world * list posted) :=
  let s := the_client w in
  if negb (alive w) then Ok (w, [])
  else match e with
  | EvLookup key callback =>
      let r := redis_lookupCache key callback s in
      obind (run_effects r.1 w) (fun r' => Ok (r'.1, r'.2 ++ r.2))
  | EvInsert now key value => run_effects (s, redis_insertCache now key value s) w
  | EvRemove key => run_effects (s, redis_removeCache key s) w
  | EvReply reply errstr =>
      match redis_async_context_ s, in_flight w with
      | Some c, id :: rest =>
          run_effects (commandCb c reply errstr id s)
                {| the_client := s; in_flight := rest; connecting := connecting w;
                   authenticating := authenticating w; timer := timer w;
                   next_context := next_context w; alive := alive w |}
      | _, _ => Ok (w, [])
      end
  | EvConnected ok =>
      match redis_async_context_ s with
      | Some c =>
          if connecting w then
            run_effects (connectCb c ok s)
                  {| the_client := s; in_flight := in_flight w; connecting := false;
                     authenticating := authenticating w; timer := timer w;
                     next_context := next_context w; alive := alive w |}
          else Ok (w, [])
      | None => Ok (w, [])
      end
  | EvAuthenticated reply =>
      match redis_async_context_ s with
      | Some c =>
          if authenticating w then
            obind (authenticateCb c reply false s) (fun r =>
            run_effects r
                  {| the_client := s; in_flight := in_flight w; connecting := connecting w;
                     authenticating := false; timer := timer w;
                     next_context := next_context w; alive := alive w |})
          else Ok (w, [])
      | None => Ok (w, [])
      end
  | EvDisconnected errstr =>
      match redis_async_context_ s with
      | Some c =>
          if connecting w then Ok (w, [])
          else obind (lost_connection c errstr w) (fun r => run_effects r (hiredis_gone w))
      | None => Ok (w, [])
      end
  | EvTimer result =>
      if timer w then
        run_effects (reconnectCb result (next_context w) s)
              {| the_client := s; in_flight := in_flight w; connecting := connecting w;
                 authenticating := authenticating w; timer := false;
                 next_context := S (next_context w); alive := alive w |}
      else Ok (w, [])
  | EvDestroyed =>
      obind (run_effects (delete_AsyncClient s) w) (fun r =>
      Ok ({| the_client := the_client r.1; in_flight := in_flight r.1; connecting := connecting r.1;
             authenticating := authenticating r.1; timer := timer r.1;
             next_context := next_context r.1; alive := false |}, r.2))
  end.

Fixpoint redis_run (es : list redis_event) (w : redis_world) : outcome (redis_world * list posted) :=
  match es with
  | [] => Ok (w, [])
  | e :: es' =>
      obind (redis_step e w) (fun r =>
      obind (redis_run es' r.1) (fun r' => Ok (r'.1, r.2 ++ r'.2)))
  end.

Definition new_redis_world (password : string) (timeout_ms : Z) (reconnect : bool) (max_reconnect : Z)
    (result : connect_result) : redis_world :=
  let r := new_AsyncClient password timeout_ms reconnect max_reconnect result 0 in
  fold_left apply_effect r.2
    {| the_client := r.1; in_flight := []; connecting := false; authenticating := false; timer := false;
       next_context := 1; alive := true |}.
End Cache.

(** ** Lemmas *)

Section Lemmas.
Context {E : Type} `{EC : CacheEntry E} {CB : Type}.
Variable loadFromString : string -> outcome E.
#[local] Abbreviation client := (AsyncClient (CB := CB)).
#[local] Abbreviation world := (redis_world (CB := CB)).
#[local] Abbreviation event := (redis_event (E := E) (CB := CB)).

(** Callbacks that wait, and callbacks that were called. *)
Definition waiting_callbacks (s : client) : list CB := (map_to_list (commands_map_ s)).*2.
Definition called (ps : list (posted (E := E) (CB := CB))) : list CB := map posted_cb ps.

Definition only_calls (es : list (effect (CB := CB))) : Prop :=
  Forall (fun e => match e with Call _ _ _ => True | _ => False end) es.

(** The callbacks the client calls; [silent] when none of them gets a text. *)
Definition calls_of (es : list (effect (CB := CB))) : list CB :=
  es ≫= fun e => match e with Call cb _ _ => [cb] | _ => [] end.
Definition silent (es : list (effect (CB := CB))) : Prop :=
  Forall (fun e => match e with Call _ (Some _) _ => False | _ => True end) es.

Lemma called_app ps qs : called (ps ++ qs) = called ps ++ called qs.
Proof. apply map_app. Qed.

Lemma calls_app es es' : calls_of (es ++ es') = calls_of es ++ calls_of es'.
Proof. apply bind_app. Qed.

Lemma called_posts (es : list (effect (CB := CB))) ps : posts loadFromString es = Ok ps -> called ps = calls_of es.
Proof.
  revert ps. induction es as [|e es IH]; intros ps; cbn [posts]; [by intros [= <-]|].
  change (calls_of (e :: es)) with (calls_of ([e] ++ es)). rewrite calls_app.
  destruct e; try (by intros Hp; apply IH in Hp).
  intros Hp. invert_bind Hp. invert_bind Hp. injection Hp as <-. specialize (IH _ eq_refl).
  unfold called in *. cbn. rewrite IH. f_equal.
  unfold lookup_reply in E0. destruct error, reply; cbn in E0; try (by injection E0 as <-).
  by destruct (loadFromString _); [injection E0 as <-|..].
Qed.

Lemma silent_posts es : silent es -> exists ps, posts loadFromString es = Ok ps.
Proof.
  intros Hs. induction Hs as [|e es He _ [ps IH]]; cbn [posts]; [by eexists|].
  destruct e; try (by exists ps). destruct reply; [done|]. rewrite IH.
  unfold lookup_reply. destruct error; cbn; by eexists.
Qed.

Lemma quiet_posts_app es es' : silent es -> silent es' -> silent (es ++ es').
Proof. intros H1 H2. by apply Forall_app. Qed.

Lemma apply_calls es (w : world) : only_calls es -> fold_left apply_effect es w = w.
Proof. intros HF. induction HF as [|e es He _ IH]; [done|]. cbn. by destruct e. Qed.

(** The calls a reset makes. *)
Lemma reset_calls (m : gmap Z CB) :
  only_calls (map (fun cb => Call cb.2 None None) (map_to_list m)) /\
  silent (map (fun cb => Call cb.2 None None) (map_to_list m)) /\
  calls_of (map (fun cb => Call cb.2 None None) (map_to_list m)) = (map_to_list m).*2.
Proof.
  induction (map_to_list m) as [|x l (IH1 & IH2 & IH3)]; [by split_and!; try constructor|].
  cbn. split_and!; [by constructor..|]. unfold calls_of in IH3. by rewrite IH3.
Qed.

Lemma commandCb_spec c reply errstr id (s : client) callback :
  data c s = true -> commands_map_ s !! id = Some callback ->
  exists e, commandCb c reply errstr id s
      = (set_commands (next_command_id_ s) (delete id (commands_map_ s)) s, [e]) /\
    only_calls [e] /\ calls_of [e] = [callback] /\ (reply = None -> silent [e]) /\
    waiting_callbacks s ≡ₚ callback :: (map_to_list (delete id (commands_map_ s))).*2.
Proof.
  intros Hd Hm. unfold commandCb. rewrite Hd, Hm. cbn [negb].
  eexists. split; [done|].
  destruct reply as [[str|]|]; (split; [by repeat constructor|]); (split; [done|]); (split; [done || by repeat constructor|]);
    unfold waiting_callbacks; by rewrite <-(map_to_list_delete _ _ _ Hm).
Qed.

Lemma null_replies_spec c errstr ids (s : client) :
  data c s = true -> NoDup ids -> (forall id, id ∈ ids -> is_Some (commands_map_ s !! id)) ->
  exists m es, null_replies c errstr ids s = (set_commands (next_command_id_ s) m s, es) /\
    only_calls es /\ silent es /\ calls_of es ++ (map_to_list m).*2 ≡ₚ waiting_callbacks s /\
    forall id, m !! id = if decide (id ∈ ids) then None else commands_map_ s !! id.
Proof.
  intros Hd Hnd. revert s Hd. induction Hnd as [|id ids Hid Hnd IH]; intros s Hd Hin; cbn [null_replies].
  - exists (commands_map_ s), []. split; [by destruct s|]. split; [constructor|]. split; [constructor|]. split; [done|]. done.
  - destruct (Hin id ltac:(by left)) as [callback Hcb].
    destruct (commandCb_spec c None errstr id s callback Hd Hcb) as (e & -> & He & Hcalled & Hsil & Hw). cbn [fst snd].
    set (s1 := set_commands _ _ s). destruct (IH s1 Hd) as (m & es & -> & Hes & Hsils & Hperm & Hm).
    { intros id' Hid'. cbn. rewrite lookup_delete_ne by (intros ->; done). apply Hin. by right. }
    exists m, (e :: es). split; [done|]. split; [inversion He; by constructor|].
    split; [apply (quiet_posts_app [e] es); [by apply Hsil|done]|]. split.
    + change (e :: es) with ([e] ++ es). rewrite calls_app, Hcalled, Hw.
      cbn [app]. f_equiv. exact Hperm.
    + intros id'. rewrite Hm. cbn. destruct (decide (id' = id)) as [->|Hne].
      * rewrite decide_False by done. rewrite lookup_delete_eq. by rewrite decide_True by (by left).
      * rewrite lookup_delete_ne by done. destruct (decide (id' ∈ ids)).
        -- by rewrite decide_True by (by right).
        -- rewrite decide_False; [done|]. by intros [?|?]%elem_of_cons.
Qed.

(** ** The invariant *)

Record redis_inv (w : world) : Prop := {
  inv_flight : forall id, id ∈ in_flight w <-> is_Some (commands_map_ (the_client w) !! id);
  inv_nodup : NoDup (in_flight w);
  inv_next : Forall (fun id => id < next_command_id_ (the_client w)) (in_flight w);
  inv_range : 0 <= next_command_id_ (the_client w);
  inv_busy : in_flight w ≠ [] -> client_status_ (the_client w) = WORKING;
  inv_up : client_status_ (the_client w) = WORKING \/ client_status_ (the_client w) = CONNECTED ->
           connecting w = false /\ redis_async_context_ (the_client w) ≠ None;
  inv_auth : authenticating w = true -> client_status_ (the_client w) = CONNECTED;
  inv_down : redis_async_context_ (the_client w) = None -> connecting w = false;
  inv_timer : timer w = true -> redis_async_context_ (the_client w) = None;
}.

(** Nothing is in flight: no callback waits. *)
Lemma idle_no_callbacks (w : world) : redis_inv w -> in_flight w = [] -> commands_map_ (the_client w) = ∅.
Proof.
  intros Hi Hf. apply map_eq. intros id. rewrite lookup_empty. apply eq_None_not_Some. intros Hs.
  apply (inv_flight w Hi) in Hs. rewrite Hf in Hs. by apply elem_of_nil in Hs.
Qed.

Lemma idle_inv (w : world) :
  in_flight w = [] -> commands_map_ (the_client w) = ∅ -> 0 <= next_command_id_ (the_client w) ->
  (client_status_ (the_client w) = WORKING \/ client_status_ (the_client w) = CONNECTED ->
     connecting w = false /\ redis_async_context_ (the_client w) ≠ None) ->
  (authenticating w = true -> client_status_ (the_client w) = CONNECTED) ->
  (redis_async_context_ (the_client w) = None -> connecting w = false) ->
  (timer w = true -> redis_async_context_ (the_client w) = None) -> redis_inv w.
Proof.
  intros Hf Hm H0 Hup Ha Hd Ht. split; try done; rewrite ?Hf, ?Hm; try done; try constructor.
  - intros Hx. by apply elem_of_nil in Hx.
  - intros [? Hx]. by rewrite lookup_empty in Hx.
Qed.

(** A client that is neither connected nor working has nothing in flight. *)
Lemma not_working_idle (w : world) :
  redis_inv w -> client_status_ (the_client w) ≠ WORKING ->
  in_flight w = [] /\ commands_map_ (the_client w) = ∅.
Proof.
  intros Hi Hs. assert (Hf : in_flight w = []).
  { destruct (in_flight w) eqn:Hf; [done|]. exfalso. apply Hs, (inv_busy w Hi). by rewrite Hf. }
  split; [done|by apply idle_no_callbacks].
Qed.

(** What a step must do: keep the invariant, and lose or invent no callback;
    if [idle], no callback waits afterwards. *)
Definition step_good (idle : bool) (asked : list CB) (w : world) (o : outcome (world * list (posted (E := E)))) : Prop :=
  exists w' ps, o = Ok (w', ps) /\ alive w' = true /\ redis_inv w' /\
    next_command_id_ (the_client w') <= next_command_id_ (the_client w) + 1 /\
    called ps ++ waiting_callbacks (the_client w') ≡ₚ asked ++ waiting_callbacks (the_client w) /\
    (idle = true -> commands_map_ (the_client w') = ∅).

Lemma unchanged_good asked w ps :
  alive w = true -> redis_inv w -> called ps = asked -> step_good false asked w (Ok (w, ps)).
Proof. intros Ha Hi Hp. exists w, ps. split_and!; [done|done|done|lia|by rewrite Hp|done]. Qed.

Lemma unchanged_idle w :
  alive w = true -> redis_inv w -> client_status_ (the_client w) ≠ WORKING -> step_good true [] w (Ok (w, [])).
Proof.
  intros Ha Hi Hs. exists w, []. split_and!; [done|done|done|lia|done|].
  intros _. by apply not_working_idle.
Qed.

(** A step that leaves nothing in flight and no callback waiting. *)
Lemma idle_good idle w w' ps :
  alive w' = true -> in_flight w' = [] -> commands_map_ (the_client w') = ∅ ->
  next_command_id_ (the_client w') = next_command_id_ (the_client w) ->
  0 <= next_command_id_ (the_client w) ->
  (client_status_ (the_client w') = WORKING \/ client_status_ (the_client w') = CONNECTED ->
     connecting w' = false /\ redis_async_context_ (the_client w') ≠ None) ->
  (authenticating w' = true -> client_status_ (the_client w') = CONNECTED) ->
  (redis_async_context_ (the_client w') = None -> connecting w' = false) ->
  (timer w' = true -> redis_async_context_ (the_client w') = None) ->
  called ps ≡ₚ waiting_callbacks (the_client w) ->
  step_good idle [] w (Ok (w', ps)).
Proof.
  intros Ha Hf Hm Hn H0 Hup Hau Hd Ht Hp. exists w', ps. split; [done|]. split; [done|]. split.
  - apply idle_inv; try done. by rewrite Hn.
  - split; [lia|]. split; [|done]. unfold waiting_callbacks at 1.
    rewrite Hm, map_to_list_empty. cbn. by rewrite app_nil_r.
Qed.

(** A step whose callbacks get no text posts for each of them. *)
Lemma run_effects_good idle asked w r w0 :
  silent r.2 ->
  (forall ps, called ps = calls_of r.2 -> step_good idle asked w (Ok (fold_left apply_effect r.2 (set_client r.1 w0), ps))) ->
  step_good idle asked w (run_effects loadFromString r w0).
Proof.
  intros Hs Hgood. unfold run_effects. destruct (silent_posts _ Hs) as [ps Hps]. rewrite Hps. cbn [obind].
  apply Hgood. by apply called_posts.
Qed.

Lemma waiting_empty (s : client) : commands_map_ s = ∅ -> waiting_callbacks s = [].
Proof. unfold waiting_callbacks. intros ->. by rewrite map_to_list_empty. Qed.

(** Waiting for the next attempt: the timer runs, or the client has given up. *)
Lemma waitingToReconnect_spec (s : client) :
  client_status_ s = NOT_INIT ->
  exists s' es, waitingToReconnect s = (s', es) /\
    (client_status_ s' ≠ WORKING /\ client_status_ s' ≠ CONNECTED) /\
    redis_async_context_ s' = redis_async_context_ s /\ commands_map_ s' = commands_map_ s /\
    next_command_id_ s' = next_command_id_ s /\
    (es = [] \/ exists i, es = [StartTimer i]).
Proof.
  intros Hs. unfold waitingToReconnect.
  destruct (try_reconnecting_ s); [|destruct (negb (should_reconnect_ s)); [|destruct (_ <? _)]];
    eexists _, _; (split; [done|]); cbn; rewrite ?Hs; (split; [by split|]); (split; [done|]);
    (split; [done|]); (split; [done|]); eauto.
Qed.

(** The same from a world where hiredis is done with the context. *)
Lemma reconnect_good idle (w w0 : world) (s s' : client) es ps :
  waitingToReconnect s = (s', es) -> client_status_ s = NOT_INIT -> redis_async_context_ s = None ->
  commands_map_ s = ∅ -> next_command_id_ s = next_command_id_ (the_client w) ->
  0 <= next_command_id_ (the_client w) ->
  alive w0 = true -> in_flight w0 = [] -> connecting w0 = false -> authenticating w0 = false ->
  called ps ≡ₚ waiting_callbacks (the_client w) ->
  step_good idle [] w (Ok (fold_left apply_effect es (set_client s' w0), ps)).
Proof.
  intros Heq Hs Hc Hm Hn H0 Ha Hf Hco Hau Hp.
  destruct (waitingToReconnect_spec s Hs) as (s1 & es1 & Heq1 & [Hw1 Hw2] & Hc1 & Hm1 & Hn1 & Hes).
  rewrite Heq in Heq1. injection Heq1 as <- <-.
  assert (Hbad : client_status_ s' = WORKING \/ client_status_ s' = CONNECTED -> False) by (by intros [?|?]).
  destruct Hes as [->|[i ->]]; apply idle_good; cbn; try done; try congruence.
  all: try (by intros; exfalso; apply Hbad). all: by rewrite ?Hau.
Qed.

Lemma lookup_good key callback (w : world) :
  alive w = true -> redis_inv w -> next_command_id_ (the_client w) + 1 < 2 ^ 64 ->
  step_good false [callback] w (redis_step loadFromString (EvLookup key callback) w).
Proof.
  intros Ha Hi Hlt. unfold redis_step. rewrite Ha. cbn [negb]. unfold redis_lookupCache.
  destruct (decide (client_status_ (the_client w) = WORKING)) as [Hs|Hs].
  - destruct (inv_up w Hi) as [Hco Hctx]; [by left|].
    destruct (redis_async_context_ (the_client w)) as [c|] eqn:Hc; [clear Hctx|done].
    unfold client_get. rewrite Hc, decide_True by done. unfold run_effects. cbn [fst snd fold_left app posts obind].
    set (id := next_command_id_ (the_client w)) in *.
    assert (Hnone : commands_map_ (the_client w) !! id = None).
    { apply eq_None_not_Some. intros Hx. apply (inv_flight w Hi) in Hx.
      pose proof (inv_next w Hi) as HF. rewrite Forall_forall in HF. specialize (HF id Hx). unfold id in HF. lia. }
    pose proof (inv_range w Hi) as H0.
    assert (Hu : u64 (id + 1) = id + 1) by (apply u64_small; unfold id in *; lia).
    eexists _, _. split; [done|]. cbn [fst snd fold_left apply_effect set_client].
    split; [done|]. split; [|split].
    + split; cbn; rewrite ?Hu.
      * intros id'. rewrite elem_of_app, (inv_flight w Hi), list_elem_of_singleton.
        destruct (decide (id' = id)) as [->|Hne].
        -- rewrite lookup_insert_eq. naive_solver.
        -- rewrite lookup_insert_ne by done. naive_solver.
      * apply NoDup_app. split; [apply (inv_nodup w Hi)|]. split; [|apply NoDup_singleton].
        intros x Hx Hy%list_elem_of_singleton. subst x. apply (inv_flight w Hi) in Hx.
        rewrite Hnone in Hx. by destruct Hx.
      * apply Forall_app. split; [|constructor; [lia|constructor]].
        eapply Forall_impl; [apply (inv_next w Hi)|]. cbn. fold id. lia.
      * fold id in H0. lia.
      * done.
      * intros _. by rewrite Hc.
      * intros Hau. apply (inv_auth w Hi) in Hau. congruence.
      * by rewrite Hc.
      * intros Ht. apply (inv_timer w Hi) in Ht. congruence.
    + cbn. rewrite Hu. fold id. lia.
    + split; [|done]. unfold waiting_callbacks. cbn. by rewrite (map_to_list_insert _ _ _ Hnone).
  - unfold run_effects. cbn [fst snd fold_left app posts obind]. replace (set_client (the_client w) w) with w by (by destruct w).
    by apply unchanged_good.
Qed.

(** A reply has no text, or one that can be loaded. *)
Definition loadable (e : event) : Prop :=
  match e with EvReply (Some (Some text)) _ => is_ok (loadFromString text) = true | _ => True end.

Lemma reply_posts c reply errstr id (s : client) r :
  commandCb c reply errstr id s = r -> loadable (EvReply reply errstr) -> exists ps, posts loadFromString r.2 = Ok ps.
Proof.
  intros <- Hl. unfold commandCb. destruct (negb _); [by eexists|]. destruct (commands_map_ s !! id); [|by eexists].
  destruct reply as [[text|]|]; cbn in *; [|by destruct errstr; eexists..].
  destruct (loadFromString text); [by eexists|done..].
Qed.

Lemma reply_good reply errstr (w : world) :
  alive w = true -> redis_inv w ->
  loadable (EvReply reply errstr) \/ is_ok (redis_step loadFromString (EvReply reply errstr) w) = true ->
  step_good false [] w (redis_step loadFromString (EvReply reply errstr) w).
Proof.
  intros Ha Hi Hl. unfold redis_step in *. rewrite Ha in *. cbn [negb] in *.
  destruct (redis_async_context_ (the_client w)) as [c|] eqn:Hc; [|by apply unchanged_good].
  destruct (in_flight w) as [|id rest] eqn:Hf; [by apply unchanged_good|].
  destruct (proj1 (inv_flight w Hi id)) as [callback Hcb]; [rewrite Hf; by left|].
  pose proof (inv_nodup w Hi) as Hnd. rewrite Hf in Hnd. apply NoDup_cons in Hnd as [Hid Hnd].
  pose proof (inv_next w Hi) as HF. rewrite Hf in HF. apply Forall_cons in HF as [Hlt HF].
  destruct (commandCb_spec c reply errstr id (the_client w) callback) as (e & Hcmd & He & Hcalled & _ & Hw);
    [unfold data; by apply bool_decide_eq_true|done|]. rewrite Hcmd in *.
  assert (Hs : client_status_ (the_client w) = WORKING) by (apply (inv_busy w Hi); by rewrite Hf).
  unfold run_effects in *. cbn [fst snd] in *. rewrite apply_calls by done.
  assert (Hps : exists ps, posts loadFromString [e] = Ok ps).
  { destruct Hl as [Hl|Hl]; [by eapply (reply_posts _ _ _ _ _ _ Hcmd)|].
    destruct (posts loadFromString [e]); [by eexists|done..]. }
  destruct Hps as [ps Hps]. rewrite Hps. cbn [obind]. rewrite <- (called_posts _ _ Hps) in Hcalled.
  eexists _, _. split; [done|]. cbn [set_client alive]. split; [done|]. split; [|split; [cbn; lia|]].
  - split; cbn; try done.
    + intros id'. pose proof (inv_flight w Hi id') as Hx. rewrite Hf, elem_of_cons in Hx.
      destruct (decide (id' = id)) as [->|Hne].
      * rewrite lookup_delete_eq. split; [done|]. by intros [? ?].
      * rewrite lookup_delete_ne by done. naive_solver.
    + apply (inv_range w Hi).
    + apply (inv_up w Hi).
    + apply (inv_auth w Hi).
    + intros Hx. congruence.
    + apply (inv_timer w Hi).
  - split; [|done]. rewrite Hcalled. cbn [the_client]. rewrite Hw. done.
Qed.

Lemma authenticating_context (w : world) c :
  redis_inv w -> redis_async_context_ (the_client w) = Some c -> timer w = false.
Proof.
  intros Hi Hc. destruct (timer w) eqn:Ht; [|done]. apply (inv_timer w Hi) in Ht. congruence.
Qed.

Lemma reset_spec st disconnecting (s : client) :
  exists es, resetAsyncContext st disconnecting s
      = (set_commands (next_command_id_ s) ∅ (set_context None (set_status st s)), es) /\
    calls_of es = waiting_callbacks s /\ silent es /\
    forall w, in_flight w = [] -> connecting w = false -> authenticating w = false ->
      fold_left apply_effect es w = w.
Proof.
  destruct (reset_calls (commands_map_ s)) as (Hc & Hsil & Hp).
  eexists. split; [done|]. split; [|split].
  - rewrite calls_app, Hp. by destruct (redis_async_context_ s), disconnecting.
  - apply quiet_posts_app; [|done]. destruct (redis_async_context_ s), disconnecting; by repeat constructor.
  - intros w Hf Hco Hau. rewrite fold_left_app, apply_calls by done.
    destruct w as [? ? ? ? ? ? ?]; cbn in *; subst.
    by destruct (redis_async_context_ s), disconnecting.
Qed.

Lemma connected_good ok (w : world) :
  alive w = true -> redis_inv w -> step_good false [] w (redis_step loadFromString (EvConnected ok) w).
Proof.
  intros Ha Hi. unfold redis_step. rewrite Ha. cbn [negb].
  destruct (redis_async_context_ (the_client w)) as [c|] eqn:Hc; [|by apply unchanged_good].
  destruct (connecting w) eqn:Hco; [|by apply unchanged_good].
  assert (Hs : client_status_ (the_client w) ≠ WORKING /\ client_status_ (the_client w) ≠ CONNECTED).
  { split; intros Hs; destruct (inv_up w Hi); auto; congruence. }
  destruct Hs as [Hs Hs']. destruct (not_working_idle w Hi Hs) as [Hf Hm].
  assert (Hau : authenticating w = false).
  { destruct (authenticating w) eqn:Hau; [|done]. by apply (inv_auth w Hi) in Hau. }
  pose proof (authenticating_context w c Hi Hc) as Ht. pose proof (inv_range w Hi) as H0.
  unfold connectCb, data. rewrite bool_decide_eq_true_2 by done. cbn [negb].
  set (s1 := if try_reconnecting_ _ then _ else _).
  assert (Hs1 : redis_async_context_ s1 = Some c /\ commands_map_ s1 = ∅ /\
    next_command_id_ s1 = next_command_id_ (the_client w)).
  { unfold s1. by destruct (try_reconnecting_ (the_client w)). }
  destruct Hs1 as (H1 & H2 & H3). destruct ok; [destruct (decide (password_ s1 = ""))|].
  - apply run_effects_good; [constructor|]. intros ps Hps.
    apply idle_good; cbn; try done; try congruence; [by rewrite H1|by rewrite Hps, waiting_empty].
  - apply run_effects_good; [by repeat constructor|]. intros ps Hps.
    apply idle_good; cbn; try done; try congruence; [by rewrite H1|by rewrite Hps, waiting_empty].
  - set (s2 := set_context None (set_status NOT_INIT s1)).
    destruct (waitingToReconnect_spec s2 eq_refl) as (s3 & es & Heq & _ & _ & _ & _ & Hes).
    rewrite Heq. apply run_effects_good; [destruct Hes as [->|[i ->]]; by repeat constructor|].
    intros ps Hps. cbn [fst snd] in *.
    apply (reconnect_good false w _ s2 s3 es _ Heq);
      [done|done|exact H2|exact H3|done|done|done|done|done|].
    rewrite waiting_empty, Hps by done. by destruct Hes as [->|[i ->]].
Qed.

Lemma authenticated_good reply (w : world) :
  alive w = true -> redis_inv w -> reply ≠ Some None ->
  step_good false [] w (redis_step loadFromString (EvAuthenticated reply) w).
Proof.
  intros Ha Hi Hr. unfold redis_step. rewrite Ha. cbn [negb].
  destruct (redis_async_context_ (the_client w)) as [c|] eqn:Hc; [|by apply unchanged_good].
  destruct (authenticating w) eqn:Hau; [|by apply unchanged_good].
  pose proof (inv_auth w Hi Hau) as Hs. destruct (not_working_idle w Hi) as [Hf Hm]; [congruence|].
  destruct (inv_up w Hi) as [Hco _]; [by right|].
  pose proof (authenticating_context w c Hi Hc) as Ht. pose proof (inv_range w Hi) as H0.
  unfold authenticateCb, data. rewrite bool_decide_eq_true_2 by done. cbn [negb].
  set (s1 := set_reconnect false _ _ _ _).
  assert (Hreset : forall w0, in_flight w0 = [] -> connecting w0 = false -> authenticating w0 = false ->
    alive w0 = true -> timer w0 = false ->
    step_good false [] w (run_effects loadFromString (resetAsyncContext COMPLETED false s1) w0)).
  { intros w0 ? ? ? ? Ht0. destruct (reset_spec COMPLETED false s1) as (es & -> & Hcalled & Hsil & Hes).
    apply run_effects_good; [done|]. intros ps Hps. cbn [fst snd] in *. rewrite Hes by done.
    apply idle_good; cbn; try done; try congruence.
    - intros [?|?]; done.
    - by rewrite Hps, Hcalled, !waiting_empty. }
  destruct reply as [[str|]|]; [|done|].
  - destruct (String.prefix "OK" str); cbn [obind]; [|by apply Hreset].
    apply run_effects_good; [constructor|]. intros ps Hps.
    apply idle_good; cbn; try done; try congruence; [by rewrite Hc|by rewrite Hps, waiting_empty].
  - cbn [obind]. by apply Hreset.
Qed.

Lemma disconnected_good errstr (w : world) :
  alive w = true -> redis_inv w -> step_good true [] w (redis_step loadFromString (EvDisconnected errstr) w).
Proof.
  intros Ha Hi. unfold redis_step. rewrite Ha. cbn [negb].
  destruct (redis_async_context_ (the_client w)) as [c|] eqn:Hc.
  2: { apply unchanged_idle; [done..|]. intros Hs. by destruct (inv_up w Hi) as [_ ?]; [left|]. }
  destruct (connecting w) eqn:Hco.
  { apply unchanged_idle; [done..|]. intros Hs. destruct (inv_up w Hi) as [? _]; [by left|congruence]. }
  pose proof (inv_range w Hi) as H0. pose proof (authenticating_context w c Hi Hc) as Ht.
  assert (Hd : data c (the_client w) = true) by (unfold data; by apply bool_decide_eq_true).
  destruct (null_replies_spec c errstr (in_flight w) (the_client w) Hd (inv_nodup w Hi))
    as (m & es & Heq & Hcalls & Hsil & Hperm & Hm); [intros id; apply (inv_flight w Hi)|].
  assert (m = ∅) as ->.
  { apply map_eq. intros id. rewrite Hm, lookup_empty. destruct (decide (id ∈ in_flight w)) as [|Hn]; [done|].
    apply eq_None_not_Some. intros Hx. by apply Hn, (inv_flight w Hi). }
  rewrite map_to_list_empty in Hperm. cbn in Hperm. rewrite app_nil_r in Hperm.
  unfold lost_connection. rewrite Heq. cbn [fst snd].
  set (s1 := set_commands _ ∅ _). assert (Hd1 : data c s1 = true) by exact Hd.
  assert (Hreconnect : forall s2 es2, waitingToReconnect (set_context None (set_status NOT_INIT s1)) = (s2, es2) ->
    step_good true [] w (run_effects loadFromString (s2, es ++ [] ++ es2) (hiredis_gone w))).
  { intros s2 es2 Heq2.
    destruct (waitingToReconnect_spec (set_context None (set_status NOT_INIT s1)) eq_refl)
      as (s3 & es3 & Heq3 & _ & _ & _ & _ & Hes).
    rewrite Heq2 in Heq3. injection Heq3 as <- <-.
    apply run_effects_good.
    { cbn [snd app]. apply quiet_posts_app; [done|]. destruct Hes as [->|[i ->]]; by repeat constructor. }
    intros ps Hps. cbn [fst snd app] in *. rewrite fold_left_app, (apply_calls es) by done.
    apply (reconnect_good true w _ _ s2 es2 _ Heq2); try done.
    rewrite Hps, calls_app, Hperm. destruct Hes as [->|[i ->]]; by rewrite app_nil_r. }
  destruct (authenticating w) eqn:Hau.
  - unfold authenticateCb. rewrite Hd1. cbn [negb].
    set (s2 := set_reconnect false _ _ _ s1).
    destruct (reset_spec COMPLETED true s2) as (es2 & -> & Hcalled & Hsil2 & Hes2). cbn [obind fst snd].
    unfold disconnectCb, data. cbn [orb]. rewrite bool_decide_eq_false_2 by done. cbn [negb fst snd].
    rewrite app_nil_r. apply run_effects_good; [by apply quiet_posts_app|]. intros ps Hps. cbn [fst snd] in *.
    rewrite fold_left_app, (apply_calls es), Hes2 by done.
    apply idle_good; cbn; try done; try congruence.
    + intros [?|?]; done.
    + rewrite Hps, calls_app, Hcalled, Hperm. rewrite (waiting_empty s2) by done. by rewrite app_nil_r.
  - cbn [obind fst snd]. unfold disconnectCb. cbn [orb]. rewrite Hd1. cbn [negb].
    destruct (waitingToReconnect _) as [s2 es2] eqn:Heq2. cbn [fst snd]. by apply Hreconnect.
Qed.

Lemma timer_good result (w : world) :
  alive w = true -> redis_inv w -> step_good false [] w (redis_step loadFromString (EvTimer result) w).
Proof.
  intros Ha Hi. unfold redis_step. rewrite Ha. cbn [negb].
  destruct (timer w) eqn:Ht; [|by apply unchanged_good].
  pose proof (inv_timer w Hi Ht) as Hc. pose proof (inv_down w Hi Hc) as Hco. pose proof (inv_range w Hi) as H0.
  assert (Hs : client_status_ (the_client w) ≠ WORKING /\ client_status_ (the_client w) ≠ CONNECTED).
  { split; intros Hs; destruct (inv_up w Hi); auto; congruence. }
  destruct Hs as [Hs Hs']. destruct (not_working_idle w Hi Hs) as [Hf Hm].
  assert (Hau : authenticating w = false).
  { destruct (authenticating w) eqn:Hau; [|done]. by apply (inv_auth w Hi) in Hau. }
  unfold reconnectCb, connect. destruct result.
  - destruct (reset_spec INIT_ERROR false (set_context None (the_client w))) as (es & -> & Hcalled & Hsil & Hes).
    apply run_effects_good; [done|]. intros ps Hps. cbn [fst snd] in *. rewrite Hes by done.
    apply idle_good; cbn; try done; try congruence; [by intros [?|?]|]. by rewrite Hps, Hcalled.
  - destruct (reset_spec INIT_ERROR false (set_context (Some (next_context w)) (the_client w))) as (es & -> & Hcalled & Hsil & Hes).
    apply run_effects_good; [done|]. intros ps Hps. cbn [fst snd] in *. rewrite Hes by done.
    apply idle_good; cbn; try done; try congruence; [by intros [?|?]|]. by rewrite Hps, Hcalled.
  - destruct (reset_spec INIT_ERROR false (set_context (Some (next_context w)) (the_client w))) as (es & -> & Hcalled & Hsil & Hes).
    apply run_effects_good; [done|]. intros ps Hps. cbn [fst snd] in *. rewrite Hes by done.
    apply idle_good; cbn; try done; try congruence; [by intros [?|?]|]. by rewrite Hps, Hcalled.
  - apply run_effects_good; [by repeat constructor|]. intros ps Hps.
    apply idle_good; cbn; try done; try congruence; [by intros [?|?]|]. by rewrite Hps, waiting_empty.
Qed.

(** The lookups made while the client exists. *)
Fixpoint asked (es : list event) : list CB :=
  match es with
  | [] => []
  | EvDestroyed :: _ => []
  | EvLookup _ callback :: es' => callback :: asked es'
  | _ :: es' => asked es'
  end.

(** Redis answers an AUTH with a text. *)
Definition texted (e : event) : Prop := e ≠ EvAuthenticated (Some None).

Lemma effects_unchanged (w : world) es :
  (es = [] \/ exists c cmd, es = [Issue c cmd] /\ forall k id p, cmd ≠ GET k id /\ cmd ≠ AUTH p) ->
  run_effects loadFromString (the_client w, es) w = Ok (w, []).
Proof.
  intros [->|(c & cmd & -> & Hcmd)]; unfold run_effects; cbn [fst snd fold_left apply_effect posts obind].
  - by destruct w.
  - destruct cmd; try by destruct w.
    + by destruct (Hcmd key command_id "").
    + by destruct (Hcmd "" 0 password).
Qed.

Lemma insert_effects now key (value : E) (s : client) :
  redis_insertCache now key value s = [] \/
  exists c cmd, redis_insertCache now key value s = [Issue c cmd] /\ forall k id p, cmd ≠ GET k id /\ cmd ≠ AUTH p.
Proof.
  unfold redis_insertCache, client_set. repeat case_match; try (by left).
  all: right; eexists _, _; (split; [reflexivity|]); intros; by split.
Qed.

Lemma remove_effects key (s : client) :
  redis_removeCache key s = [] \/
  exists c cmd, redis_removeCache key s = [Issue c cmd] /\ forall k id p, cmd ≠ GET k id /\ cmd ≠ AUTH p.
Proof.
  unfold redis_removeCache, client_del. repeat case_match; try (by left).
  right; eexists _, _; (split; [reflexivity|]); intros; by split.
Qed.

Lemma event_good (e : event) (w : world) :
  alive w = true -> redis_inv w -> next_command_id_ (the_client w) + 1 < 2 ^ 64 -> texted e ->
  e ≠ EvDestroyed -> loadable e \/ is_ok (redis_step loadFromString e w) = true -> step_good false (asked [e]) w (redis_step loadFromString e w).
Proof.
  intros Ha Hi Hn Ht Hd Hl. destruct e; cbn [asked].
  - by apply lookup_good.
  - unfold redis_step. rewrite Ha. cbn [negb].
    rewrite effects_unchanged by apply insert_effects. by apply unchanged_good.
  - unfold redis_step. rewrite Ha. cbn [negb].
    rewrite effects_unchanged by apply remove_effects. by apply unchanged_good.
  - by apply reply_good.
  - by apply connected_good.
  - apply authenticated_good; [done..|]. intros ->. by apply Ht.
  - destruct (disconnected_good errstr w Ha Hi) as (w' & ps & H1 & H2 & H3 & H4 & H5 & _).
    by exists w', ps.
  - by apply timer_good.
  - done.
Qed.

Lemma destroyed_good (w : world) :
  alive w = true -> exists w' ps, redis_step loadFromString (EvDestroyed (E := E)) w = Ok (w', ps) /\
    alive w' = false /\ called ps = waiting_callbacks (the_client w).
Proof.
  intros Ha. unfold redis_step. rewrite Ha. cbn [negb].
  unfold delete_AsyncClient. destruct (reset_spec COMPLETED false (the_client w)) as (es & -> & Hc & Hsil & _).
  unfold run_effects. cbn [fst snd]. set (last := if reconnect_event_ _ then _ else _).
  destruct (silent_posts (es ++ last)) as [ps Hps].
  { apply quiet_posts_app; [done|]. unfold last. destruct (reconnect_event_ _); by repeat constructor. }
  rewrite Hps. cbn [obind fst snd]. eexists _, _. split; [done|]. split; [done|].
  rewrite (called_posts _ _ Hps), calls_app, Hc. unfold last. destruct (reconnect_event_ _); cbn; by rewrite app_nil_r.
Qed.

Lemma dead_run (es : list event) (w : world) : alive w = false -> redis_run loadFromString es w = Ok (w, []).
Proof.
  intros Ha. induction es as [|e es IH]; [done|]. cbn [redis_run]. unfold redis_step at 1. rewrite Ha.
  cbn [negb obind fst snd]. by rewrite IH.
Qed.

Lemma asked_cons e (es : list event) : e ≠ EvDestroyed -> asked (e :: es) = asked [e] ++ asked es.
Proof. by destruct e. Qed.

Lemma perm_insert (a b c d e : list CB) : a ++ b ≡ₚ c ++ d -> a ++ (e ++ b) ≡ₚ (c ++ e) ++ d.
Proof.
  intros Hp. rewrite (Permutation_app_comm e b), app_assoc, Hp, <-!app_assoc.
  f_equiv. apply Permutation_app_comm.
Qed.

(** Any run that ends, as one does whose replies can be loaded: the callbacks called and those that wait are those of
    the lookups. *)
Lemma run_good (es : list event) (w : world) :
  alive w = true -> redis_inv w ->
  next_command_id_ (the_client w) + Z.of_nat (length es) < 2 ^ 64 -> Forall texted es ->
  Forall loadable es \/ is_ok (redis_run loadFromString es w) = true ->
  exists w' ps, redis_run loadFromString es w = Ok (w', ps) /\
    ((alive w' = true /\ redis_inv w' /\
      next_command_id_ (the_client w') <= next_command_id_ (the_client w) + Z.of_nat (length es) /\
      called ps ++ waiting_callbacks (the_client w') ≡ₚ asked es ++ waiting_callbacks (the_client w)) \/
     (alive w' = false /\ EvDestroyed ∈ es /\
      called ps ≡ₚ asked es ++ waiting_callbacks (the_client w))).
Proof.
  intros Ha Hi Hn HF. revert w Ha Hi Hn. induction HF as [|e es He HF IH]; intros w Ha Hi Hn Hl.
  - exists w, []. split; [done|]. left. split_and!; [done|done|lia|done].
  - cbn [length] in Hn. cbn [redis_run].
    assert (Hdec : e = EvDestroyed \/ e ≠ EvDestroyed) by (destruct e; auto).
    destruct Hdec as [->|Hd].
    + destruct (destroyed_good w Ha) as (w' & ps & -> & Hdead & Hc). cbn [obind fst snd].
      rewrite dead_run by done. cbn [obind fst snd]. rewrite app_nil_r. eexists _, _. split; [done|]. right.
      split; [done|]. split; [by left|]. cbn [asked app]. by rewrite Hc.
    + destruct (event_good e w Ha Hi ltac:(lia) He Hd) as (w1 & ps1 & Hstep & Ha1 & Hi1 & Hn1 & Hp1 & _).
      { destruct Hl as [Hl|Hl]; [left; by inversion Hl|right]. cbn [redis_run] in Hl.
        by destruct (redis_step loadFromString e w). }
      destruct (IH w1 Ha1 Hi1 ltac:(lia)) as (w2 & ps2 & Hrun & Hcase).
      { destruct Hl as [Hl|Hl]; [left; by inversion Hl|right]. cbn [redis_run] in Hl. rewrite Hstep in Hl.
        cbn [obind fst snd] in Hl. by destruct (redis_run loadFromString es w1). }
      rewrite Hstep. cbn [obind fst snd]. rewrite Hrun.
      cbn [obind fst snd]. eexists _, _. split; [done|]. rewrite asked_cons by done. rewrite called_app.
      destruct Hcase as [(Ha2 & Hi2 & Hn2 & Hp2)|(Ha2 & Hin & Hp2)]; [left|right].
      * split_and!; [done|done|cbn [length]; lia|]. rewrite <-app_assoc, Hp2.
        by apply perm_insert.
      * split; [done|]. split; [by right|]. rewrite Hp2.
        by apply perm_insert.
Qed.

Lemma run_app (es es' : list event) (w : world) :
  redis_run loadFromString (es ++ es') w
    = obind (redis_run loadFromString es w) (fun r =>
      obind (redis_run loadFromString es' r.1) (fun r' => Ok (r'.1, r.2 ++ r'.2))).
Proof.
  revert w. induction es as [|e es IH]; intros w; cbn [app redis_run].
  - cbn. by destruct (redis_run _ es' w) as [[? ?]|?|?|].
  - destruct (redis_step loadFromString e w) as [r|?|?|]; cbn [obind]; [|done..].
    rewrite IH. destruct (redis_run _ es r.1) as [r1|?|?|]; cbn [obind fst snd]; [|done..].
    destruct (redis_run _ es' r1.1) as [r2|?|?|]; cbn; [|done..]. by rewrite app_assoc.
Qed.

Lemma new_world_inv password timeout_ms reconnect max_reconnect result :
  let w := new_redis_world (CB := CB) password timeout_ms reconnect max_reconnect result in
  alive w = true /\ redis_inv w /\ next_command_id_ (the_client w) = 0 /\ waiting_callbacks (the_client w) = [].
Proof.
  destruct result; cbn; (split; [done|]); (split; [|done]); by apply idle_inv; cbn; try done; intros [?|?].
Qed.
End Lemmas.

(** Failing connections, one after the other. *)
Fixpoint failing {E CB : Type} (k : nat) : list (redis_event (E := E) (CB := CB)) :=
  match k with
  | O => []
  | S k' => EvTimer ContextOk :: EvConnected false :: failing k'
  end.

(** Waiting for the timer after [n] counted failures, or given up. *)
Definition retrying {CB : Type} (m n : Z) (w : redis_world (CB := CB)) : Prop :=
  timer w = true /\ alive w = true /\ max_reconnect_count_ (the_client w) = m /\
  reconnect_count_ (the_client w) = n /\ client_status_ (the_client w) = CONNECTING /\
  try_reconnecting_ (the_client w) = true /\ should_reconnect_ (the_client w) = true.
Definition given_up {CB : Type} (w : redis_world (CB := CB)) : Prop :=
  timer w = false /\ client_status_ (the_client w) = COMPLETED /\
  redis_async_context_ (the_client w) = None.

Lemma failing_cycle {E CB : Type} `{EC : CacheEntry E} (load : string -> outcome E) m n (w : redis_world (CB := CB)) :
  retrying m n w -> 0 <= n -> n + 1 < 2 ^ 32 ->
  exists w', redis_run load (failing 1) w = Ok (w', []) /\
    if m <? n then given_up w' else retrying m (n + 1) w'.
Proof.
  intros (Ht & Ha & Hm & Hn & Hs & Htry & Hshould) H0 Hlt.
  assert (Hu : u32 (n + 1) = n + 1) by (by autorewrite with width).
  cbn [failing redis_run]. unfold redis_step at 1. rewrite Ha, Ht. cbn.
  rewrite ?Ha. cbn. unfold connectCb, data. cbn [redis_async_context_ set_context].
  rewrite bool_decide_eq_true_2 by done. cbn. rewrite Htry. cbn. unfold waitingToReconnect. cbn.
  rewrite Hshould, Hn, Hm, Hu. cbn. destruct (Z.ltb_spec m n); cbn; eexists; (split; [done|]).
  - by split_and!.
  - by split_and!.
Qed.

Lemma failing_idle {E CB : Type} `{EC : CacheEntry E} (load : string -> outcome E) k (w : redis_world (CB := CB)) :
  given_up w -> redis_run load (failing k) w = Ok (w, []).
Proof.
  intros (Ht & _ & Hc). induction k as [|k IH]; [done|]. cbn [failing redis_run].
  assert (H1 : redis_step load (EvTimer (E := E) ContextOk) w = Ok (w, []))
    by (unfold redis_step; rewrite Ht; by destruct (alive w)).
  assert (H2 : redis_step load (EvConnected (E := E) false) w = Ok (w, []))
    by (unfold redis_step; rewrite Hc; by destruct (alive w)).
  rewrite H1. cbn [obind fst snd]. rewrite H2. cbn [obind fst snd]. by rewrite IH.
Qed.

Lemma failing_run {E CB : Type} `{EC : CacheEntry E} (load : string -> outcome E) m k n (w : redis_world (CB := CB)) :
  retrying m n w -> 0 <= n -> m + 2 < 2 ^ 32 -> n <= m + 1 ->
  exists w', redis_run load (failing k) w = Ok (w', []) /\
    if Z.of_nat k + n <=? m + 1 then retrying m (Z.of_nat k + n) w' else given_up w'.
Proof.
  revert n w. induction k as [|k IH]; intros n w Hr H0 Hm Hn.
  - exists w. split; [done|]. by destruct (Z.leb_spec (Z.of_nat 0 + n) (m + 1)); [|lia].
  - change (failing (S k)) with (failing 1 ++ failing (E := E) (CB := CB) k). rewrite run_app.
    destruct (failing_cycle load m n w Hr H0 ltac:(lia)) as (w1 & -> & Hw1). cbn [obind fst snd].
    destruct (Z.ltb_spec m n) as [Hlt|Hge].
    + rewrite failing_idle by done. cbn. exists w1. split; [done|].
      by destruct (Z.leb_spec (Z.of_nat (S k) + n) (m + 1)); [lia|].
    + destruct (IH (n + 1) w1 Hw1 ltac:(lia) Hm ltac:(lia)) as (w2 & -> & Hw2). cbn. exists w2. split; [done|].
      by replace (Z.of_nat (S k) + n) with (Z.of_nat k + (n + 1)) by lia.
Qed.

(** ** Properties *)

(** C18. No lookup in Redis is forgotten or answered twice: whatever happens to the connection, the callbacks called so
    far and those that wait for a reply are exactly those of the lookups made, and once the connection is lost or the
    client destroyed all of them have been called.  This is so in every run that ends, and every run ends whose replies
    can be loaded; a text that cannot be loaded fails before anything is posted.  Redis answers AUTH with a text,
    and there are fewer events than the 2^64 numbers of commands. *)
Theorem redis_lookup_answered {E CB : Type} `{EC : CacheEntry E} (load : string -> outcome E) (password : string) (timeout_ms : Z)
    (reconnect : bool) (max_reconnect : Z) (result : connect_result)
    (es : list (redis_event (E := E) (CB := CB))) :
  Forall texted es -> Z.of_nat (length es) + 1 < 2 ^ 64 ->
  let w0 := new_redis_world password timeout_ms reconnect max_reconnect result in
  (Forall (loadable load) es -> is_ok (redis_run load es w0) = true) /\
  forall w ps, redis_run load es w0 = Ok (w, ps) ->
    called ps ++ (if alive w then waiting_callbacks (the_client w) else []) ≡ₚ asked es /\
    forall e, e = EvDestroyed \/ (exists errstr, e = EvDisconnected errstr) ->
      exists w ps, redis_run load (es ++ [e]) w0 = Ok (w, ps) /\ called ps ≡ₚ asked es.
Proof.
  intros HF Hlen w0.
  destruct (new_world_inv (CB := CB) password timeout_ms reconnect max_reconnect result)
    as (Ha & Hi & Hn & Hw). fold w0 in Ha, Hi, Hn, Hw. split.
  { intros Hl. by destruct (run_good load es w0 Ha Hi ltac:(lia) HF (or_introl Hl)) as (w & ps & -> & _). }
  intros w ps Hrun. destruct (run_good load es w0 Ha Hi ltac:(lia) HF) as (w1 & ps1 & Hrun1 & Hcase);
    [right; by rewrite Hrun|]. rewrite Hrun in Hrun1. injection Hrun1 as <- <-.
  rewrite Hw, !app_nil_r in Hcase. split.
  - destruct Hcase as [(-> & _ & _ & Hp)|(-> & _ & Hp)]; [done|]. by rewrite app_nil_r.
  - intros e He. rewrite run_app, Hrun. cbn [obind fst snd redis_run].
    destruct Hcase as [(Ha' & Hi' & _ & Hp)|(Ha' & _ & Hp)].
    + destruct He as [->|[errstr ->]].
      * destruct (destroyed_good load w Ha') as (w' & ps' & -> & _ & Hc). cbn. eexists _, _. split; [done|].
        by rewrite !app_nil_r, called_app, Hc.
      * destruct (disconnected_good load errstr w Ha' Hi') as (w' & ps' & -> & _ & _ & _ & Hp' & Hm).
        cbn. eexists _, _. split; [done|]. rewrite waiting_empty, app_nil_r in Hp' by auto.
        rewrite app_nil_r, called_app, Hp'. done.
    + unfold redis_step. rewrite Ha'. cbn. eexists _, _. split; [done|]. by rewrite !app_nil_r.
Qed.

(** A reply that cannot be loaded: the callback fails, nothing is posted, and whoever asked gets no answer. *)
Lemma redis_lookup_lost {E CB : Type} `{EC : CacheEntry E} (load : string -> outcome E) (text : string)
    (errstr : option string) (c : nat) (id : Z) (callback : CB) (rest : list Z) (w : redis_world (CB := CB)) :
  alive w = true -> redis_async_context_ (the_client w) = Some c -> in_flight w = id :: rest ->
  commands_map_ (the_client w) !! id = Some callback -> is_ok (load text) = false ->
  is_ok (redis_step load (EvReply (Some (Some text)) errstr) w) = false.
Proof.
  intros Ha Hc Hf Hm Hl. unfold redis_step. rewrite Ha, Hc, Hf. cbn [negb]. unfold commandCb, data.
  rewrite bool_decide_eq_true_2, Hm by done. unfold run_effects. cbn. by destruct (load text).
Qed.

(** An entry is stored with its remaining life as the period, in milliseconds,
    unless that is zero; the remaining life of an entry that is already expired is
    taken modulo 2^64 and is sent as a negative period. *)
Theorem redis_insert_ttl {E CB : Type} `{EC : CacheEntry E} (now : Z) (key text : string) (value : E)
    (c : nat) (s : AsyncClient (CB := CB)) :
  client_status_ s = WORKING -> redis_async_context_ s = Some c -> serializeAsString value = Some text ->
  0 <= now < 2 ^ 63 -> 0 <= cacheExpire value < 2 ^ 63 ->
  redis_insertCache now key value s =
    if cacheExpire value =? now then [] else [Issue c (SET (c_str key) text (cacheExpire value - now))].
Proof.
  intros Hs Hc Ht Hn He. unfold redis_insertCache, client_set. rewrite Hs, Hc, Ht.
  rewrite !decide_True by done. set (d := cacheExpire value - now).
  destruct (Z.eqb_spec (cacheExpire value) now) as [Heq|Hne].
  - replace d with 0 by lia. done.
  - assert (Hd : u64 d = if d <? 0 then d + 2 ^ 64 else d).
    { destruct (Z.ltb_spec d 0); [|apply u64_small; lia].
      rewrite <-(u64_small (d + 2 ^ 64)) by lia. unfold u64. by rewrite <-(Z.mod_add d 1) by lia. }
    unfold as_int64. rewrite Hd. destruct (Z.ltb_spec d 0).
    + destruct (Z.leb_spec (d + 2 ^ 64) 0); [lia|]. destruct (Z.eqb_spec (d + 2 ^ 64) 0); [lia|].
      destruct (Z.ltb_spec (d + 2 ^ 64) (2 ^ 63)); [lia|]. do 3 f_equal. lia.
    + destruct (Z.leb_spec d 0); [lia|]. destruct (Z.eqb_spec d 0); [lia|].
      by destruct (Z.ltb_spec d (2 ^ 63)); [|lia].
Qed.

(** When every attempt to connect fails, the client tries again after each
    failure, [max_reconnect] plus one times in all, and then gives up for good:
    its status is final and no timer is left. *)
Theorem redis_reconnect_bound {E CB : Type} `{EC : CacheEntry E} (load : string -> outcome E) (password : string)
    (timeout_ms m : Z) (k : nat) :
  0 <= m -> m + 2 < 2 ^ 32 ->
  exists w, redis_run load (EvConnected false :: failing k)
      (new_redis_world (CB := CB) password timeout_ms true m ContextOk) = Ok (w, []) /\
    if Z.of_nat k <=? m then retrying m (Z.of_nat k + 1) w else given_up w.
Proof.
  intros H0 Hm. change (EvConnected false :: failing k) with ([EvConnected (E := E) (CB := CB) false] ++ failing k).
  rewrite run_app. set (w0 := new_redis_world _ _ _ _ _).
  assert (Hfirst : exists w1, redis_run load [EvConnected false] w0 = Ok (w1, []) /\ retrying m 1 w1).
  { unfold w0, new_redis_world. cbn. unfold connectCb, data. cbn [redis_async_context_ set_context].
    rewrite bool_decide_eq_true_2 by done. cbn. unfold waitingToReconnect. cbn.
    destruct (Z.ltb_spec m 0); [lia|]. cbn. eexists. split; [done|]. by split_and!. }
  destruct Hfirst as (w1 & -> & Hr). cbn [obind fst snd].
  destruct (failing_run load m k 1 w1 Hr ltac:(lia) Hm ltac:(lia)) as (w2 & -> & Hw2).
  cbn. exists w2. split; [done|]. destruct (Z.leb_spec (Z.of_nat k) m), (Z.leb_spec (Z.of_nat k + 1) (m + 1)); auto; lia.
Qed.

(** A connection that is lost while the password is checked looks like a wrong
    password: the client gives up and never connects again. *)
Lemma redis_lost_while_authenticating {E CB : Type} `{EC : CacheEntry E} (load : string -> outcome E)
    (password : string) (timeout_ms m : Z) (errstr : option string) :
  password ≠ "" ->
  exists w, redis_run load [EvConnected true; EvDisconnected errstr]
      (new_redis_world (CB := CB) password timeout_ms true m ContextOk) = Ok (w, []) /\ given_up w.
Proof.
  intros Hp. cbn [redis_run]. unfold redis_step at 1, new_redis_world. cbn.
  unfold connectCb, data. cbn. destruct (decide (password = "")); [done|]. cbn.
  eexists. split; [done|]. by split_and!.
Qed.

(** ** Witnesses *)

Import HttpEntry.
#[local] Instance redis_entries : CacheEntry (HttpCacheEntry alist) := HttpCacheEntry_CacheEntry (fun _ => "{}").

(** A parser that reads nothing. *)
Definition redis_load (text : string) : outcome (HttpCacheEntry alist) :=
  loadFromString (fun _ => None) to_lower text empty_entry.

Definition redis_events : list (redis_event (E := HttpCacheEntry alist) (CB := nat)) :=
  [EvLookup "a" 1; EvConnected true; EvAuthenticated (Some (Some "OK")); EvLookup "b" 2; EvLookup "c" 3;
   EvReply (Some (Some "{}")) None]%nat.

Lemma redis_lookup_answered_witness :
  exists w ps, redis_run redis_load (redis_events ++ [EvDisconnected (Some "closed")])
      (new_redis_world "secret" 20 true 3 ContextOk) = Ok (w, ps) /\
    called ps ≡ₚ [1; 2; 3]%nat.
Proof.
  destruct (redis_lookup_answered redis_load "secret" 20 true 3 ContextOk redis_events) as [Hends Hall];
    [repeat constructor; discriminate|vm_compute; reflexivity|].
  destruct (redis_run redis_load redis_events (new_redis_world "secret" 20 true 3 ContextOk)) as [[w ps]|?|?|] eqn:Hrun;
    [|discriminate (Hends ltac:(repeat constructor))..].
  apply (proj2 (Hall w ps eq_refl)). right. by eexists.
Defined.

Definition redis_client : AsyncClient (CB := nat) :=
  the_client (new_redis_world "" 20 true 3 ContextOk).
Definition working_client : AsyncClient (CB := nat) := set_status WORKING redis_client.
Definition expired_entry : HttpCacheEntry alist :=
  new_entry (Some {| headers := [(":status", "200")]; body := "abc" |}) 1000.

(** An entry that expired 5 milliseconds ago. *)
Lemma redis_insert_ttl_witness :
  redis_insertCache 1005 "k" expired_entry working_client = [Issue 0 (SET "k" "{}" (-5))].
Proof.
  rewrite (redis_insert_ttl 1005 "k" "{}" expired_entry 0 working_client);
    [reflexivity|reflexivity|reflexivity|reflexivity|lia|cbn; lia].
Defined.

Lemma redis_reconnect_bound_witness :
  exists w, redis_run redis_load (EvConnected false :: failing 4)
      (new_redis_world (CB := nat) "" 20 true 3 ContextOk) = Ok (w, []) /\ given_up w.
Proof. apply (redis_reconnect_bound redis_load "" 20 3 4); lia. Defined.
