(* ===== verification/CacheSender.v ===== *)
(** * The two-level cache sender (source/common/sender/cache_request_sender.{h,cc})

    [CacheGetterSetter] looks a key up in the configured caches one after the
    other, each lookup answering through a callback, and fills the caches above
    the one that answered.  [CacheRequestSender] puts HTTP messages on top.  The
    caches are used through the interface [CommonCacheBase]. *)

From S2P Require Import Prelude Decimal Json Http CacheBase HttpCacheEntry LocalCache.
From Stdlib Require Import Ascii.
From stdpp Require Import base gmap strings numbers list.
Import HttpEntry.
#[local] Open Scope Z_scope.

(** ** Keys and times to live *)

Record HttpCacheKeyMaker := {
  exclude_host : bool;
  exclude_path : bool;
  ignore_case : bool;
  query_params : list string;
  headers_keys : list string;
}.

Record CacheTTL := { ttl_default : Z; ttl_customs : list (string * Z) }.

Definition RedisCacheName : string := "RedisCache".
Definition LocalCacheName : string := "LocalCache".
Definition isRedisCache (name : string) : bool :=
  bool_decide (name = RedisCacheName \/ name = "RedisHttpCache").
Definition isLocalCache (name : string) : bool :=
  bool_decide (name = LocalCacheName \/ name = "LocalHttpCache").

Section Keys.
Context {H : Type} `{HM : HeaderMap H}.
Variable removeQueryAndFragment : string -> string.
Variable parseQueryString : string -> list (string * string).
Variable md5_hex : string -> string.

Definition entry_of (k : string) (h : H) : outcome string :=
  match hm_get k h with v :: _ => Ok v | [] => Undefined "null header entry" end.

Definition query_value (q : string) (l : list (string * string)) : option string :=
  snd <$> head (filter (fun p => p.1 = q) l).

(** The text [HttpCacheUtil::cacheKey] hashes. *)
Definition cacheKey_raw (config : HttpCacheKeyMaker) (h : H) (prefix : string) : outcome string :=
  obind (if exclude_path config then Ok "" else entry_of ":method" h) (fun method =>
  obind (if exclude_host config then Ok "" else entry_of ":authority" h) (fun host =>
  obind (entry_of ":path" h) (fun path =>
  let path_part := if exclude_path config then "" else removeQueryAndFragment path in
  let params := parseQueryString path in
  let raw := prefix +:+ method +:+ host +:+ path_part in
  let raw := fold_left (fun raw query =>
    match query_value query params with Some v => raw +:+ query +:+ v | None => raw end)
    (query_params config) raw in
  let raw := fold_left (fun raw header =>
    match hm_get (to_lower header) h with
    | [] => raw
    | v :: _ => raw +:+ to_lower header +:+ v
    end) (headers_keys config) raw in
  Ok (if ignore_case config then to_lower raw else raw)))).

Definition cacheKey (config : HttpCacheKeyMaker) (h : H) (prefix : string) : outcome string :=
  obind (cacheKey_raw config h prefix) (fun raw => Ok (md5_hex raw)).
End Keys.

(** [SpecificCacheConfig]: the proto map comes in key order; old names are
    accepted for the two caches. *)
Definition ttl_name (name : string) : string :=
  if isRedisCache name then RedisCacheName
  else if isLocalCache name then LocalCacheName else name.

Definition add_ttl (m : gmap string CacheTTL) (proto_ttl : string * CacheTTL) : gmap string CacheTTL :=
  let cache_name := ttl_name proto_ttl.1 in
  <[cache_name := {| ttl_default := ttl_default proto_ttl.2;
                     ttl_customs := match m !! cache_name with
                                    | Some t => ttl_customs t | None => [] end
                                    ++ ttl_customs proto_ttl.2 |}]> m.

Record SpecificCacheConfig := {
  cache_ttls_ : gmap string CacheTTL;
  cache_key_prefix_ : string;
  key_maker_config_ : HttpCacheKeyMaker;
}.

Definition new_SpecificCacheConfig (key_maker : HttpCacheKeyMaker)
    (proto_ttls : list (string * CacheTTL)) : SpecificCacheConfig :=
  {| cache_ttls_ := fold_left add_ttl proto_ttls ∅; cache_key_prefix_ := "v1";
     key_maker_config_ := key_maker |}.

(** [std::regex_match(code, regex)]. *)
Definition cacheTTL (regex_match : string -> string -> bool) (config : SpecificCacheConfig)
    (name code : string) : Z :=
  match cache_ttls_ config !! name with
  | None => 0
  | Some ttl =>
      match filter (fun c => regex_match code c.1 = true) (ttl_customs ttl) with
      | c :: _ => c.2
      | [] => ttl_default ttl
      end
  end.

(** [CacheGetterSetterConfig]: the first cache of each type that can be created. *)
Inductive ProtoCache := kRedis | kLocal | CACHE_TYPE_NOT_SET.

Section Config.
Context {P C : Type}.
Variable cache_type_case : P -> ProtoCache.
(** [CacheConfig::create] may throw or give a null pointer. *)
Variable create : P -> outcome (option C).

Fixpoint new_caches (used_names : list string) (caches : list P) : outcome (list (string * C)) :=
  match caches with
  | [] => Ok []
  | it :: rest =>
      match cache_type_case it with
      | CACHE_TYPE_NOT_SET => Throw "Error cache type and should never run here"
      | type =>
          let name := match type with kRedis => RedisCacheName | _ => LocalCacheName end in
          if decide (name ∈ used_names) then new_caches used_names rest
          else obind (create it) (fun cache =>
               match cache with
               | None => new_caches (name :: used_names) rest
               | Some cache => obind (new_caches (name :: used_names) rest) (fun l => Ok ((name, cache) :: l))
               end)
      end
  end.
End Config.

(** ** Looking up *)

Section Lookup.
Context {H : Type} `{HM : HeaderMap H}.
#[local] Abbreviation entry := (HttpCacheEntry H).

(** The number of caches in [used_caches_]. *)
Variable used_caches_size : nat.

(** What the sender asks of a cache, and what it tells the filter. *)
Inductive call :=
| AskCache (i : nat) (key : string)
| OriginSuccess (message : Message H)
| OriginFailure
| NullOrigin.

Record CacheRequestSender := {
  has_cache_key_ : bool;
  cache_key_ : string;
  lookup_cache_over_ : bool;
  lookup_cache_stop_ : bool;
  hit_in_cache_ : Z;
  current_cache_ : nat;
  callback_ : bool;
  origin_callback_ : bool;
  (** callbacks that caches hold and have not called *)
  pending : nat;
}.

Definition new_CacheRequestSender : CacheRequestSender :=
  {| has_cache_key_ := false; cache_key_ := ""; lookup_cache_over_ := false;
     lookup_cache_stop_ := false; hit_in_cache_ := -1; current_cache_ := 0; callback_ := false;
     origin_callback_ := false; pending := 0 |}.

Definition setCacheKey (key : string) (s : CacheRequestSender) : CacheRequestSender :=
  if has_cache_key_ s then s
  else {| has_cache_key_ := true; cache_key_ := key; lookup_cache_over_ := lookup_cache_over_ s;
          lookup_cache_stop_ := lookup_cache_stop_ s; hit_in_cache_ := hit_in_cache_ s;
          current_cache_ := current_cache_ s; callback_ := callback_ s;
          origin_callback_ := origin_callback_ s; pending := pending s |}.

Definition set_callbacks (cb origin : bool) (s : CacheRequestSender) : CacheRequestSender :=
  {| has_cache_key_ := has_cache_key_ s; cache_key_ := cache_key_ s;
     lookup_cache_over_ := lookup_cache_over_ s; lookup_cache_stop_ := lookup_cache_stop_ s;
     hit_in_cache_ := hit_in_cache_ s; current_cache_ := current_cache_ s; callback_ := cb;
     origin_callback_ := origin; pending := pending s |}.

Definition set_stop (s : CacheRequestSender) : CacheRequestSender :=
  {| has_cache_key_ := has_cache_key_ s; cache_key_ := cache_key_ s;
     lookup_cache_over_ := lookup_cache_over_ s; lookup_cache_stop_ := true;
     hit_in_cache_ := hit_in_cache_ s; current_cache_ := current_cache_ s;
     callback_ := callback_ s; origin_callback_ := origin_callback_ s; pending := pending s |}.

Definition set_hit (s : CacheRequestSender) : CacheRequestSender :=
  {| has_cache_key_ := has_cache_key_ s; cache_key_ := cache_key_ s;
     lookup_cache_over_ := true; lookup_cache_stop_ := lookup_cache_stop_ s;
     hit_in_cache_ := Z.of_nat (current_cache_ s); current_cache_ := current_cache_ s;
     callback_ := callback_ s; origin_callback_ := origin_callback_ s; pending := pending s |}.

Definition set_current (i p : nat) (s : CacheRequestSender) : CacheRequestSender :=
  {| has_cache_key_ := has_cache_key_ s; cache_key_ := cache_key_ s;
     lookup_cache_over_ := lookup_cache_over_ s; lookup_cache_stop_ := lookup_cache_stop_ s;
     hit_in_cache_ := hit_in_cache_ s; current_cache_ := i; callback_ := callback_ s;
     origin_callback_ := origin_callback_ s; pending := p |}.

Definition cancelLookup (s : CacheRequestSender) : CacheRequestSender :=
  set_callbacks false (origin_callback_ s) (set_stop s).

(** [CacheRequestSender::onSuccess] and [onFailure]; the caller resets
    [callback_] afterwards. *)
Definition sender_onSuccess (e : entry) (s : CacheRequestSender) : CacheRequestSender * list call :=
  if origin_callback_ s then
    match cache_message_ e with
    | None => (set_callbacks (callback_ s) false s, [OriginFailure])
    | Some message => (set_callbacks false (origin_callback_ s) s, [OriginSuccess message])
    end
  else (s, [NullOrigin]).

Definition sender_onFailure (s : CacheRequestSender) : CacheRequestSender * list call :=
  if origin_callback_ s then (set_callbacks (callback_ s) false s, [OriginFailure])
  else (s, [NullOrigin]).

Definition lookupCacheOnce (s : CacheRequestSender) : CacheRequestSender * list call :=
  if lookup_cache_over_ s || lookup_cache_stop_ s || negb (callback_ s) then (s, [])
  else if (used_caches_size <=? current_cache_ s)%nat then
    let r := sender_onFailure (set_stop s) in
    (set_callbacks false (origin_callback_ r.1) r.1, r.2)
  else (set_current (current_cache_ s) (S (pending s)) s, [AskCache (current_cache_ s) (cache_key_ s)]).

(** The callback given to a cache. *)
Definition cache_lookup_callback (answer : option entry) (s : CacheRequestSender) :
  CacheRequestSender * list call :=
  if lookup_cache_over_ s || lookup_cache_stop_ s || negb (callback_ s) then (s, [])
  else match answer with
  | None => lookupCacheOnce (set_current (S (current_cache_ s)) (pending s) s)
  | Some e =>
      let r := sender_onSuccess e (set_hit s) in
      (set_callbacks false (origin_callback_ r.1) r.1, r.2)
  end.

Inductive CacheLookupStatus := FAILED | ONCALL.

Definition getter_lookupCache (s : CacheRequestSender) :
  CacheRequestSender * list call * CacheLookupStatus :=
  if (used_caches_size =? 0)%nat || negb (has_cache_key_ s) then (s, [], FAILED)
  else (lookupCacheOnce (set_callbacks true (origin_callback_ s) s), ONCALL).

(** [sendRequest] with a message, a callback and a route configuration; [key] is
    the key of the message. *)
Definition sendRequest (key : string) (s : CacheRequestSender) :
  CacheRequestSender * list call * CacheLookupStatus :=
  getter_lookupCache (setCacheKey key (set_callbacks (callback_ s) true s)).

(** What happens to a sender: caches answer in any order of the callbacks they
    hold, the filter is destroyed. *)
Inductive lookup_event := CacheAnswer (answer : option entry) | CancelLookup.

Definition take_callback (s : CacheRequestSender) : CacheRequestSender :=
  set_current (current_cache_ s) (pred (pending s)) s.

Definition lookup_step (s : CacheRequestSender) (e : lookup_event) : CacheRequestSender * list call :=
  match e with
  | CacheAnswer answer =>
      if (pending s =? 0)%nat then (s, []) else cache_lookup_callback answer (take_callback s)
  | CancelLookup => (cancelLookup s, [])
  end.

Fixpoint lookup_run (s : CacheRequestSender) (es : list lookup_event) :
  CacheRequestSender * list call :=
  match es with
  | [] => (s, [])
  | e :: es' =>
      let r := lookup_step s e in
      let r' := lookup_run r.1 es' in
      (r'.1, r.2 ++ r'.2)
  end.

(** A sender used the way the filter does: one request, then answers. *)
Definition send_and_run (key : string) (es : list lookup_event) : CacheRequestSender * list call :=
  let r := sendRequest key new_CacheRequestSender in
  let r' := lookup_run r.1.1 es in
  (r'.1, r.1.2 ++ r'.2).

(** Reference: the calls a lookup makes, from cache [i] on. *)
Fixpoint lookup_calls (key : string) (i : nat) (answers : list (option entry)) : list call :=
  match answers with
  | [] => [OriginFailure]
  | Some e :: _ =>
      [AskCache i key; match cache_message_ e with Some m => OriginSuccess m | None => OriginFailure end]
  | None :: rest => AskCache i key :: lookup_calls key (S i) rest
  end.

(** The index of the first answer. *)
Fixpoint first_answer (i : nat) (answers : list (option entry)) : Z :=
  match answers with
  | [] => -1
  | Some _ :: _ => Z.of_nat i
  | None :: rest => first_answer (S i) rest
  end.

Definition is_terminal (c : call) : bool :=
  match c with AskCache _ _ => false | _ => true end.

Definition terminals (cs : list call) : nat := length (List.filter is_terminal cs).

(** ** Lemmas *)

Lemma terminals_app cs cs' : terminals (cs ++ cs') = (terminals cs + terminals cs')%nat.
Proof. unfold terminals. by rewrite List.filter_app, length_app. Qed.

#[local] Arguments Nat.leb : simpl never.
#[local] Arguments Nat.ltb : simpl never.

(** A sender that waits for the answer of cache [i]. *)
Definition waiting (key : string) (i : nat) (s : CacheRequestSender) : Prop :=
  lookup_cache_over_ s = false /\ lookup_cache_stop_ s = false /\ callback_ s = true /\
  origin_callback_ s = true /\ pending s = 1%nat /\ current_cache_ s = i /\ cache_key_ s = key /\
  hit_in_cache_ s = -1.

(** A sender that has nothing more to say. *)
Definition finished (s : CacheRequestSender) : Prop :=
  lookup_cache_over_ s || lookup_cache_stop_ s || negb (callback_ s) = true.

Lemma finished_step s e : finished s -> finished (lookup_step s e).1 /\ (lookup_step s e).2 = [] /\
  hit_in_cache_ (lookup_step s e).1 = hit_in_cache_ s.
Proof.
  unfold finished, lookup_step, cache_lookup_callback. intros Hf. destruct e; cbn.
  - destruct (pending s =? 0)%nat; [done|]. cbn. by rewrite Hf.
  - by rewrite !orb_true_r.
Qed.

Lemma finished_run s es : finished s -> (lookup_run s es).2 = [] /\
  hit_in_cache_ (lookup_run s es).1 = hit_in_cache_ s.
Proof.
  revert s. induction es as [|e es IH]; intros s Hf; cbn [lookup_run fst snd]; [done|].
  destruct (finished_step s e Hf) as (Hf' & -> & Hh). destruct (IH _ Hf') as [-> ->]. done.
Qed.

Lemma waiting_answer key i s a :
  waiting key i s -> (i < used_caches_size)%nat ->
  let r := lookup_step s (CacheAnswer a) in
  match a with
  | Some e => finished r.1 /\ hit_in_cache_ r.1 = Z.of_nat i /\
      r.2 = [match cache_message_ e with Some m => OriginSuccess m | None => OriginFailure end]
  | None =>
      if (S i <? used_caches_size)%nat then waiting key (S i) r.1 /\ r.2 = [AskCache (S i) key]
      else finished r.1 /\ hit_in_cache_ r.1 = -1 /\ r.2 = [OriginFailure]
  end.
Proof.
  intros (Ho & Hs & Hc & Hor & Hp & Hi & Hk & Hh) Hlt. unfold lookup_step. rewrite Hp. cbn [Nat.eqb].
  unfold cache_lookup_callback. cbn [take_callback set_current lookup_cache_over_ lookup_cache_stop_ callback_].
  rewrite Ho, Hs, Hc. cbn [orb negb]. destruct a as [e|].
  - unfold sender_onSuccess. cbn. rewrite Hor. unfold finished.
    destruct (cache_message_ e); cbn; rewrite Hi; by split_and!.
  - unfold lookupCacheOnce. cbn. rewrite Ho, Hs, Hc, Hi, Hk, Hp. cbn [orb negb].
    destruct (Nat.ltb_spec (S i) used_caches_size) as [Hl|Hl].
    + destruct (Nat.leb_spec used_caches_size (S i)); [lia|]. unfold waiting. cbn. by repeat split.
    + destruct (Nat.leb_spec used_caches_size (S i)); [|lia]. unfold sender_onFailure, finished. cbn.
      rewrite Hor. cbn. rewrite Ho. by repeat split.
Qed.

Lemma sent_waiting key :
  (0 < used_caches_size)%nat ->
  waiting key 0 (sendRequest key new_CacheRequestSender).1.1 /\
  (sendRequest key new_CacheRequestSender).1.2 = [AskCache 0 key].
Proof.
  intros Hn. unfold sendRequest, getter_lookupCache, lookupCacheOnce.
  destruct (Nat.eqb_spec used_caches_size 0); [lia|]. cbn.
  destruct (Nat.leb_spec used_caches_size 0); [lia|]. unfold waiting. by cbn.
Qed.

Lemma answers_run key i s answers more :
  waiting key i s -> (i + length answers = used_caches_size)%nat -> answers ≠ [] ->
  let r := lookup_run s (map CacheAnswer answers ++ more) in
  AskCache i key :: r.2 = lookup_calls key i answers /\
  hit_in_cache_ r.1 = first_answer i answers.
Proof.
  revert i s. induction answers as [|a answers IH]; intros i s Hw Hlen Hne; [done|].
  cbn [length] in Hlen. pose proof (waiting_answer key i s a Hw ltac:(lia)) as Ha.
  cbn [map app lookup_run fst snd]. cbn zeta in Ha. destruct a as [e|].
  - destruct Ha as (Hf & Hh & ->). destruct (finished_run _ (map CacheAnswer answers ++ more) Hf) as [-> ->].
    by rewrite Hh.
  - destruct (Nat.ltb_spec (S i) used_caches_size) as [Hl|Hl].
    + destruct Ha as [Hw' ->]. destruct (IH (S i) _ Hw' ltac:(lia)) as [Hc Hh].
      { intros ->. cbn in Hlen. lia. }
      cbn zeta in *. cbn [app lookup_calls first_answer]. rewrite Hh. split; [by rewrite <-Hc|done].
    + destruct Ha as (Hf & Hh & ->). destruct (finished_run _ (map CacheAnswer answers ++ more) Hf) as [-> ->].
      destruct answers; [by rewrite Hh|cbn in Hlen; lia].
Qed.

(** Any order of events: waiting for some cache, or finished. *)
Lemma any_run key i s es :
  waiting key i s -> (i < used_caches_size)%nat ->
  (terminals (lookup_run s es).2 <= 1)%nat.
Proof.
  revert i s. induction es as [|e es IH]; intros i s Hw Hi; cbn [lookup_run fst snd]; [cbn; lia|].
  rewrite terminals_app. destruct e as [a|].
  - pose proof (waiting_answer key i s a Hw Hi) as Ha. cbn zeta in Ha. destruct a as [e|].
    + destruct Ha as (Hf & _ & ->). destruct (finished_run _ es Hf) as [-> _].
      destruct (cache_message_ e); cbn; lia.
    + destruct (Nat.ltb_spec (S i) used_caches_size) as [Hl|Hl].
      * destruct Ha as [Hw' ->]. specialize (IH (S i) _ Hw' Hl). cbn in *. lia.
      * destruct Ha as (Hf & _ & ->). destruct (finished_run _ es Hf) as [-> _]. cbn. lia.
  - assert (Hf : finished (lookup_step s CancelLookup).1) by (unfold finished; cbn; by rewrite orb_true_r).
    destruct (finished_run _ es Hf) as [-> _]. cbn. lia.
Qed.

Lemma cancelled_run s before after_ :
  (lookup_run (lookup_run s (before ++ [CancelLookup])).1 after_).2 = [].
Proof.
  assert (Hf : finished (lookup_run s (before ++ [CancelLookup])).1).
  { revert s. induction before as [|e before IH]; intros s; cbn [app lookup_run fst].
    - unfold finished. cbn. by rewrite orb_true_r.
    - apply IH. }
  by destruct (finished_run _ after_ Hf).
Qed.
End Lookup.

(** ** Filling and removing *)

Section Fill.
Context {H : Type} `{HM : HeaderMap H}.
#[local] Abbreviation entry := (HttpCacheEntry H).
Context `{EC : CacheEntry entry} {C : Type} `{CC : CommonCacheBase entry C}.
Variable regex_match : string -> string -> bool.

#[local] Abbreviation CacheList := (list (string * C)).

(** The loop of [insertCache] from level [i] on, over the levels still to fill;
    [now] is the time stamp taken before the loop, [clock i] the time level [i]
    reads itself. *)
Fixpoint insert_loop (config : SpecificCacheConfig) (now : Z) (clock : nat -> Z) (key key_for_ttl : string)
    (insert_number i : nat) (e : entry) (caches : CacheList) : outcome CacheList :=
  match caches with
  | [] => Ok []
  | level :: rest =>
      if (i <? insert_number)%nat then
        let entry_copy := if (i =? insert_number - 1)%nat then Some e else createCopy e in
        let lifetime := cacheTTL regex_match config level.1 key_for_ttl in
        obind
          match entry_copy with
          | Some copy =>
              if lifetime =? 0 then Ok level.2
              else insertCache (clock i) key (setCacheExpire (u64 (now + lifetime)) copy) level.2
          | None => Ok level.2
          end (fun c =>
        obind (insert_loop config now clock key key_for_ttl insert_number (S i) e rest) (fun l =>
        Ok ((level.1, c) :: l)))
      else Ok (level :: rest)
  end.

Definition insert_entry (config : SpecificCacheConfig) (now : Z) (clock : nat -> Z)
    (s : CacheRequestSender) (e : entry) (key_for_ttl : string) (caches : CacheList) :
  outcome CacheList :=
  let insert_number :=
    if hit_in_cache_ s =? -1 then length caches else Z.to_nat (hit_in_cache_ s) in
  insert_loop config now clock (cache_key_ s) key_for_ttl insert_number 0 e caches.

Definition MAX_CACHE_ENTRY_SIZE : Z := 512 * 1024.

Definition insertResponse (config : SpecificCacheConfig) (now : Z) (clock : nat -> Z)
    (cache_key : string) (message : Message H) (s : CacheRequestSender) (caches : CacheList) :
  outcome (CacheRequestSender * CacheList) :=
  let s := setCacheKey cache_key s in
  if MAX_CACHE_ENTRY_SIZE <? message_length message then Ok (s, caches)
  else
    let status := match hm_get ":status" (headers message) with v :: _ => v | [] => "" end in
    obind (insert_entry config now clock s (new_entry (Some message) 0) status caches) (fun l =>
    Ok (s, l)).

Fixpoint remove_all (key : string) (caches : CacheList) : outcome CacheList :=
  match caches with
  | [] => Ok []
  | level :: rest =>
      obind (removeCache key level.2) (fun c =>
      obind (remove_all key rest) (fun l => Ok ((level.1, c) :: l)))
  end.

Definition removeResponse (cache_key : string) (s : CacheRequestSender) (caches : CacheList) :
  outcome (CacheRequestSender * CacheList) :=
  let s := setCacheKey cache_key s in
  obind (remove_all (cache_key_ s) caches) (fun l => Ok (s, l)).

(** What a fill does to the cache at level [i]. *)
Definition filled (config : SpecificCacheConfig) (now : Z) (key key_for_ttl : string)
    (insert_number i : nat) (e : entry) (old new : string * C) : Prop :=
  new.1 = old.1 /\
  let lifetime := cacheTTL regex_match config old.1 key_for_ttl in
  let copy := if (i =? insert_number - 1)%nat then Some e else createCopy e in
  match copy with
  | Some copy =>
      if (i <? insert_number)%nat && negb (lifetime =? 0) then
        exists clock, insertCache clock key (setCacheExpire (u64 (now + lifetime)) copy) old.2 = Ok new.2
      else new.2 = old.2
  | None => new.2 = old.2
  end.

Lemma insert_loop_filled config now clock key code n i e caches caches' :
  insert_loop config now clock key code n i e caches = Ok caches' ->
  length caches' = length caches /\
  forall j old, caches !! j = Some old ->
    exists new, caches' !! j = Some new /\ filled config now key code n (i + j) e old new.
Proof.
  revert i caches'. induction caches as [|level rest IH]; intros i caches'; cbn [insert_loop].
  - intros [= <-]. by split.
  - destruct (Nat.ltb_spec i n) as [Hi|Hi].
    + match goal with |- obind ?x _ = _ -> _ => destruct x as [c|?|?|] eqn:Hins end;
        cbn [obind]; [|done..].
      destruct (insert_loop _ _ _ _ _ _ _ _ rest) as [l|?|?|] eqn:Hl; cbn [obind]; [|done..].
      intros [= <-]. destruct (IH _ _ Hl) as [Hlen Hall]. split; [cbn; by rewrite Hlen|].
      intros [|j] old; cbn [lookup list_lookup].
      * intros [= <-]. eexists. split; [done|]. unfold filled. cbn [fst snd]. split; [done|].
        rewrite Nat.add_0_r. destruct (Nat.ltb_spec i n); [|lia]. cbn [andb].
        revert Hins. case_match; intros Hins; [|congruence].
        destruct (_ =? 0); cbn [negb]; [congruence|eauto].
      * intros Hj. destruct (Hall j old Hj) as (new & Hn & Hf). exists new. split; [done|].
        by rewrite Nat.add_succ_r.
    + intros [= <-]. split; [done|]. intros j old Hj. exists old. split; [done|].
      unfold filled. split; [done|]. cbn zeta. destruct (Nat.ltb_spec (i + j) n); [lia|]. cbn [andb].
      by case_match.
Qed.
End Fill.

(** ** Properties *)

(** C23. The caches are asked one after the other, each only after the one before
    it missed; the first that has the key answers the request and its index is
    remembered; when all miss the filter is told once.  Answers that come later,
    from any source, change nothing. *)
Theorem cache_lookup_first_hit {H : Type} (n : nat) (key : string)
    (answers : list (option (HttpCacheEntry H))) (more : list lookup_event) :
  length answers = n -> (0 < n)%nat ->
  (send_and_run n key (map CacheAnswer answers ++ more)).2 = lookup_calls key 0 answers /\
  hit_in_cache_ (send_and_run n key (map CacheAnswer answers ++ more)).1 = first_answer 0 answers.
Proof.
  intros Hlen Hn. destruct (sent_waiting (H:=H) n key Hn) as [Hw Hc].
  unfold send_and_run. rewrite Hc. cbn [fst snd].
  destruct (answers_run n key 0 _ answers more Hw) as [H1 H2]; [lia|by intros ->; cbn in *; lia|].
  split; [exact H1|exact H2].
Qed.

Definition sample_entry_of (text : string) : HttpCacheEntry alist :=
  new_entry (Some {| headers := [(":status", "200")]; body := text |}) 0.

Lemma cache_lookup_first_hit_witness :
  (send_and_run 2 "k" (map CacheAnswer [None; Some (sample_entry_of "abc")] ++ [CacheAnswer None])).2
    = [AskCache 0 "k"; AskCache 1 "k";
       OriginSuccess {| headers := [(":status", "200")]; body := "abc" |}] /\
  hit_in_cache_ (send_and_run 2 "k"
    (map CacheAnswer [None; Some (sample_entry_of "abc")] ++ [CacheAnswer None])).1 = 1.
Proof.
  apply (cache_lookup_first_hit 2 "k" [None; Some (sample_entry_of "abc")] [CacheAnswer None]); [done|lia].
Defined.

(** Whatever the order of answers and of the destruction of the filter, the
    filter hears of its lookup at most once, and not at all after it cancelled
    it. *)
Theorem cache_lookup_once {H : Type} (n : nat) (key : string)
    (before after_ : list (lookup_event (H := H))) :
  (terminals (send_and_run n key before).2 <= 1)%nat /\
  (lookup_run n (send_and_run n key (before ++ [CancelLookup])).1 after_).2 = [].
Proof.
  split.
  - destruct (decide (n = 0%nat)) as [->|Hn].
    + unfold send_and_run. cbn [sendRequest getter_lookupCache Nat.eqb orb fst snd app].
      destruct (finished_run (H:=H) 0 (setCacheKey key (set_callbacks (callback_ new_CacheRequestSender) true
        new_CacheRequestSender)) before) as [-> _]; [done|]. cbn. lia.
    + destruct (sent_waiting (H:=H) n key ltac:(lia)) as [Hw Hc]. unfold send_and_run. rewrite Hc.
      change (terminals ([AskCache 0 key] ++ ?l)) with (terminals l). apply (any_run (H:=H) n key 0); [done|lia].
  - apply cancelled_run.
Qed.

(** A fill stores the entry, with the expiry of the time to live of that cache
    and status code, in exactly the caches above the one that answered (in all of
    them after a miss) whose time to live is not zero; the others are left
    alone. *)
Theorem cache_fill_levels {H : Type} `{HM : HeaderMap H} `{EC : CacheEntry (HttpCacheEntry H)}
    {C : Type} `{CC : CommonCacheBase (HttpCacheEntry H) C}
    (regex_match : string -> string -> bool) (config : SpecificCacheConfig) (now : Z)
    (clock : nat -> Z) (s : CacheRequestSender) (message : Message H) (caches caches' : list (string * C))
    (s' : CacheRequestSender) :
  has_cache_key_ s = true -> message_length message <= MAX_CACHE_ENTRY_SIZE ->
  insertResponse regex_match config now clock "" message s caches = Ok (s', caches') ->
  s' = s /\ length caches' = length caches /\
  forall j old, caches !! j = Some old -> exists new, caches' !! j = Some new /\
    filled regex_match config now (cache_key_ s)
      (match hm_get ":status" (headers message) with v :: _ => v | [] => "" end)
      (if hit_in_cache_ s =? -1 then length caches else Z.to_nat (hit_in_cache_ s)) j
      (new_entry (Some message) 0) old new.
Proof.
  intros Hk Hsize. unfold insertResponse, setCacheKey. rewrite Hk.
  destruct (Z.ltb_spec MAX_CACHE_ENTRY_SIZE (message_length message)); [lia|].
  unfold insert_entry. destruct (insert_loop _ _ _ _ _ _ _ _ _ _) as [l|?|?|] eqn:Hl; cbn [obind]; [|done..].
  intros [= <- <-]. split; [done|]. by apply insert_loop_filled in Hl.
Qed.

(** What was stored is served: after a miss, a response that is stored in a
    cache with a time to live is found there by every lookup before it expires,
    with the headers and the body of the response. *)
Theorem cache_fill_then_hit {H : Type} `{HM : HeaderMap H} `{EC : CacheEntry (HttpCacheEntry H)}
    {C : Type} `{CC : CommonCacheBase (HttpCacheEntry H) C} `{!CommonCacheLaws (HttpCacheEntry H) C}
    (regex_match : string -> string -> bool) (config : SpecificCacheConfig) (now : Z)
    (clock : nat -> Z) (s : CacheRequestSender) (message : Message H) (name : string) (c : C) (later : Z) :
  has_cache_key_ s = true -> hit_in_cache_ s = -1 -> message_length message <= MAX_CACHE_ENTRY_SIZE ->
  let status := match hm_get ":status" (headers message) with v :: _ => v | [] => "" end in
  let expire := u64 (now + cacheTTL regex_match config name status) in
  let e := setCacheExpire expire (new_entry (Some message) 0) in
  cacheTTL regex_match config name status ≠ 0 -> cache_good e c -> later < cacheExpire e ->
  exists c' c'', insertResponse regex_match config now clock "" message s [(name, c)] = Ok (s, [(name, c')]) /\
    lookupCache later (cache_key_ s) c' = Ok (createCopy e, c'').
Proof.
  intros Hk Hh Hsize status expire e Httl Hgood Hlater.
  destruct (insert_found (clock 0%nat) (cache_key_ s) e c Hgood) as (c' & Hins & Hfound).
  destruct (Hfound later Hlater) as (c'' & Hlook). exists c', c''. split; [|done].
  unfold insertResponse, setCacheKey. rewrite Hk.
  destruct (Z.ltb_spec MAX_CACHE_ENTRY_SIZE (message_length message)); [lia|].
  unfold insert_entry. rewrite Hh. cbn [Z.eqb Pos.eqb length insert_loop Nat.sub Nat.eqb fst snd].
  change (0 <? 1)%nat with true. cbn match. fold status.
  destruct (Z.eqb_spec (cacheTTL regex_match config name status) 0) as [|_]; [done|].
  fold expire e. by rewrite Hins.
Qed.

Import Local.
#[local] Instance example_entries : CacheEntry (HttpCacheEntry alist) :=
  HttpCacheEntry_CacheEntry (fun _ => "").

Definition example_sender : CacheRequestSender := setCacheKey "k" new_CacheRequestSender.
Definition example_ttl : SpecificCacheConfig :=
  new_SpecificCacheConfig
    {| exclude_host := false; exclude_path := false; ignore_case := false; query_params := [];
       headers_keys := [] |} [("LocalHttpCache", {| ttl_default := 60; ttl_customs := [("5..", 0)] |})].
Definition example_message : Message alist := {| headers := [(":status", "200")]; body := "abc" |}.
Definition example_caches : list (string * LocalCache (HttpCacheEntry alist)) :=
  [("LocalCache", new_LocalCache (Some 1600))].

Lemma cache_fill_levels_witness :
  exists s' caches',
    insertResponse (fun _ _ => false) example_ttl 1000 (fun _ => 1000) "" example_message example_sender
      example_caches = Ok (s', caches') /\
    s' = example_sender /\ length caches' = length example_caches /\
    forall j old, example_caches !! j = Some old -> exists new, caches' !! j = Some new /\
      filled (fun _ _ => false) example_ttl 1000 "k" "200" 1 j (new_entry (Some example_message) 0) old new.
Proof.
  destruct (insertResponse (fun _ _ => false) example_ttl 1000 (fun _ => 1000) "" example_message
    example_sender example_caches) as [[s' caches']|w|w|] eqn:Hi; [|vm_compute in Hi; discriminate Hi..].
  exists s', caches'. split; [done|].
  apply (cache_fill_levels (fun _ _ => false) example_ttl 1000 (fun _ => 1000) example_sender
    example_message example_caches caches' s'); [reflexivity|vm_compute; discriminate|exact Hi].
Defined.

Lemma cache_fill_then_hit_witness :
  exists c' c'',
    insertResponse (fun _ _ => false) example_ttl 1000 (fun _ => 1000) "" example_message example_sender
      [("LocalCache", new_LocalCache (Some 1600))] = Ok (example_sender, [("LocalCache", c')]) /\
    lookupCache 1059 "k" c'
      = Ok (createCopy (setCacheExpire 1060 (new_entry (Some example_message) 0)), c'').
Proof.
  apply (cache_fill_then_hit (fun _ _ => false) example_ttl 1000 (fun _ => 1000) example_sender
    example_message "LocalCache" (new_LocalCache (Some 1600)) 1059);
    [reflexivity|reflexivity|vm_compute; discriminate|vm_compute; discriminate| |vm_compute; reflexivity].
  exists 100. split; [lia|]. split; [by apply (local_inv_new 1600)|vm_compute; discriminate].
Defined.

(** Two queries, as a parser of query strings reads them. *)
Definition example_query (path : string) : list (string * string) :=
  if decide (path = "/p?a=bc") then [("a", "bc")]
  else if decide (path = "/p?ab=c") then [("ab", "c")] else [].
Definition example_key_maker (no_path : bool) : HttpCacheKeyMaker :=
  {| exclude_host := false; exclude_path := no_path; ignore_case := false;
     query_params := ["a"; "ab"]; headers_keys := [] |}.
Definition example_request (method path : string) : alist :=
  [(":method", method); (":authority", "h"); (":path", path)].

(** Different requests may share a key, because names and values are strung
    together without separators and the method counts as a part of the path: with
    the query parameters "a" and "ab" in the key, "?a=bc" and "?ab=c" get the same
    key, and so do GET and HEAD when the path is left out, for every hash. *)
Theorem cache_key_collisions (md5_hex removeQuery : string -> string) :
  removeQuery "/p?a=bc" = removeQuery "/p?ab=c" ->
  cacheKey removeQuery example_query md5_hex (example_key_maker false) (example_request "GET" "/p?a=bc") "v1"
    = cacheKey removeQuery example_query md5_hex (example_key_maker false) (example_request "GET" "/p?ab=c") "v1" /\
  cacheKey removeQuery example_query md5_hex (example_key_maker true) (example_request "GET" "/p") "v1"
    = cacheKey removeQuery example_query md5_hex (example_key_maker true) (example_request "HEAD" "/p") "v1".
Proof.
  intros Hrm. split; [|reflexivity]. unfold cacheKey, cacheKey_raw.
  assert (Hm : forall p, entry_of ":method" (example_request "GET" p) = Ok "GET") by done.
  assert (Ha : forall p, entry_of ":authority" (example_request "GET" p) = Ok "h") by done.
  assert (Hp : forall p, entry_of ":path" (example_request "GET" p) = Ok p) by done.
  rewrite !Hm, !Ha, !Hp. cbn [obind exclude_path exclude_host example_key_maker]. rewrite Hrm.
  change (example_query "/p?a=bc") with [("a", "bc")]. change (example_query "/p?ab=c") with [("ab", "c")].
  reflexivity.
Qed.

Lemma cache_key_collisions_witness :
  cacheKey (fun _ => "/p") example_query (fun s => s) (example_key_maker false) (example_request "GET" "/p?a=bc") "v1"
    = cacheKey (fun _ => "/p") example_query (fun s => s) (example_key_maker false) (example_request "GET" "/p?ab=c") "v1" /\
  cacheKey (fun _ => "/p") example_query (fun s => s) (example_key_maker true) (example_request "GET" "/p") "v1"
    = cacheKey (fun _ => "/p") example_query (fun s => s) (example_key_maker true) (example_request "HEAD" "/p") "v1".
Proof. apply (cache_key_collisions (fun s => s) (fun _ => "/p")). reflexivity. Defined.
