(* ===== verification/CircuitBreaker.v ===== *)
(** * The circuit breaker filter
      (source/common/stats/rolling_number.{h,cc}, source/filters/http/circuit_breaker)

    A rolling number keeps a bucket per second; a circuit breaker watches
    slow requests in a row and the share of errors in the window; the manager
    keeps one breaker per route; the filter answers requests of an open breaker
    itself.  Clock readings are nanoseconds, durations of the
    configuration milliseconds, values binary64 numbers. *)

From S2P Require Import Prelude Json Http.
From Stdlib Require Import Ascii SpecFloat Sorted.
From stdpp Require Import base gmap strings numbers list.
#[local] Open Scope Z_scope.

(** ** Rolling numbers *)

Definition fadd : double -> double -> double := SFadd 53 1024.
Definition fmul : double -> double -> double := SFmul 53 1024.
Definition fdiv : double -> double -> double := SFdiv 53 1024.
Definition fzero : double := S754_zero false.

Record RollingNumber := {
  window_size_ : Z;
  buckets_ : list (Z * double);
}.

Definition new_RollingNumber (window_size : Z) : RollingNumber :=
  {| window_size_ := Z.quot window_size 1000; buckets_ := [] |}.

(** [duration_cast<seconds>] *)
Definition unixTimeNowSeconds (now : Z) : Z := Z.quot now 1000000000.

(** [getCurrentBucket] and the addition to it, in a map ordered by its keys. *)
Fixpoint add_at (tick : Z) (i : double) (l : list (Z * double)) : list (Z * double) :=
  match l with
  | [] => [(tick, fadd fzero i)]
  | b :: l' =>
      if b.1 =? tick then (b.1, fadd b.2 i) :: l'
      else if tick <? b.1 then (tick, fadd fzero i) :: b :: l'
      else b :: add_at tick i l'
  end.

Definition removeOldBuckets (clock : Z) (r : RollingNumber) : RollingNumber :=
  let tick := unixTimeNowSeconds clock - window_size_ r in
  {| window_size_ := window_size_ r; buckets_ := filter (fun b => tick <= b.1) (buckets_ r) |}.

(** The clock is read for the bucket and again for the removal. *)
Definition Increment (i : double) (now clock : Z) (r : RollingNumber) : RollingNumber :=
  removeOldBuckets clock
    {| window_size_ := window_size_ r;
       buckets_ := add_at (unixTimeNowSeconds now) i (buckets_ r) |}.

Definition sum_from (cutoff : Z) (l : list (Z * double)) : double :=
  fold_left (fun sum b => fadd sum b.2) (filter (fun b => cutoff < b.1) l) fzero.

Definition Sum (now clock : Z) (r : RollingNumber) : double * RollingNumber :=
  (sum_from (unixTimeNowSeconds now - window_size_ r) (buckets_ r), removeOldBuckets clock r).

(** ** Settings *)

Record CircuitBreakerProto := {
  average_response_time : option Z;
  error_percent_threshold : option double;
  proto_consecutive_slow_requests : Z;
  proto_min_request_amount : Z;
  proto_break_duration : Z;
  proto_lookback_duration : option Z;
  response_http_status : Z;
  response_headers : list (string * string);
  inline_bytes : string;
  inline_string : string;
  proto_wait_body : bool;
}.

Record CircuitBreakerSettings := {
  consecutive_slow_requests_ : Z;
  average_response_time_threshold_ : option Z;
  percentage_ : double;
  min_request_amount_ : Z;
  break_duration_ : Z;
  lookback_duration_ : Z;
  http_status_ : Z;
  http_headers_ : list (string * string);
  http_body_ : string;
  wait_body_setting_ : bool;
}.

Definition defaultLookbackDuration : Z := 10000.
Definition maxBodySize : nat := 4096.

Definition new_CircuitBreakerSettings (proto_config : CircuitBreakerProto) : CircuitBreakerSettings :=
  let temp := if decide (inline_bytes proto_config = "") then inline_string proto_config
              else inline_bytes proto_config in
  {| consecutive_slow_requests_ := proto_consecutive_slow_requests proto_config;
     average_response_time_threshold_ := average_response_time proto_config;
     percentage_ := default fzero (error_percent_threshold proto_config);
     min_request_amount_ := proto_min_request_amount proto_config;
     break_duration_ := proto_break_duration proto_config;
     lookback_duration_ := default defaultLookbackDuration (proto_lookback_duration proto_config);
     http_status_ := response_http_status proto_config;
     http_headers_ := response_headers proto_config;
     http_body_ := if (String.length temp <=? maxBodySize)%nat then temp else "";
     wait_body_setting_ := proto_wait_body proto_config |}.

(** The route-specific configuration. *)
Record CircuitBreakerRoute := { uuid : string; route_settings : CircuitBreakerSettings }.

(** [random]: the uuid the random generator gives. *)
Definition createRouteSpecificFilterConfigTyped (random : string) (proto_config : CircuitBreakerProto) :
  outcome CircuitBreakerRoute :=
  let has {A} (o : option A) := match o with Some _ => true | None => false end in
  if negb (has (average_response_time proto_config)) && negb (has (error_percent_threshold proto_config))
  then Throw "at least one of average_response_time and error_percent_threshold must be set"
  else if has (error_percent_threshold proto_config) && (proto_min_request_amount proto_config =? 0)
  then Throw "min_request_amount must be greater than 0 when error_percent_threshold is set"
  else if has (average_response_time proto_config) && (proto_consecutive_slow_requests proto_config =? 0)
  then Throw "consecutive_slow_requests must be greater than 0 when consecutive_slow_requests is set"
  else Ok {| uuid := random; route_settings := new_CircuitBreakerSettings proto_config |}.

(** ** One breaker *)

Record CircuitBreakerImpl := {
  settings_ : CircuitBreakerSettings;
  consecutive_slow_request_count_ : Z;
  errors_ : RollingNumber;
  response_times_ : RollingNumber;
  requests_ : RollingNumber;
  valid_time_ : option Z;
}.

Definition new_CircuitBreakerImpl (settings : CircuitBreakerSettings) : CircuitBreakerImpl :=
  {| settings_ := settings; consecutive_slow_request_count_ := 0;
     errors_ := new_RollingNumber (lookback_duration_ settings);
     response_times_ := new_RollingNumber (lookback_duration_ settings);
     requests_ := new_RollingNumber (lookback_duration_ settings); valid_time_ := None |}.

Definition isOpen (now : Z) (c : CircuitBreakerImpl) : bool * CircuitBreakerImpl :=
  match valid_time_ c with
  | None => (false, c)
  | Some valid_time =>
      if valid_time <? now then
        (false, {| settings_ := settings_ c; consecutive_slow_request_count_ := 0;
                   errors_ := errors_ c; response_times_ := response_times_ c;
                   requests_ := requests_ c; valid_time_ := None |})
      else (true, c)
  end.

(** The comparisons of doubles. *)
Definition fltb : double -> double -> bool := SFltb.
Definition fleb : double -> double -> bool := SFleb.

(** All the clock readings of one call are [now], except that time may have gone
    on to [clock] when old buckets are removed. *)
Definition updateMetrics (error : bool) (rt_milliseconds : Z) (now clock : Z)
    (c : CircuitBreakerImpl) : CircuitBreakerImpl :=
  let s := settings_ c in
  let rt := double_of_Z rt_milliseconds in
  let requests := Increment (double_of_Z 1) now clock (requests_ c) in
  let response_times := Increment rt now clock (response_times_ c) in
  let errors := if error then Increment (double_of_Z 1) now clock (errors_ c) else errors_ c in
  let count :=
    match average_response_time_threshold_ s with
    | None => consecutive_slow_request_count_ c
    | Some threshold =>
        if fltb (double_of_Z threshold) rt then u32 (consecutive_slow_request_count_ c + 1) else 0
    end in
  let slow := (0 <? consecutive_slow_requests_ s) && (consecutive_slow_requests_ s <=? count) in
  let check := (0 <? min_request_amount_ s) && fltb fzero (percentage_ s) in
  let total := Sum now clock requests in
  let failed := Sum now clock errors in
  let many_errors :=
    check && (fleb (double_of_Z (min_request_amount_ s)) total.1 &&
              fleb (percentage_ s) (fmul (fdiv failed.1 total.1) (double_of_Z 100))) in
  {| settings_ := s; consecutive_slow_request_count_ := count;
     errors_ := if check then failed.2 else errors;
     response_times_ := response_times;
     requests_ := if check then total.2 else requests;
     valid_time_ := if slow || many_errors then Some (now + break_duration_ s * 1000000) else valid_time_ c |}.

(** ** The manager: one breaker per route *)

Abbreviation CircuitBreakerManager := (gmap string CircuitBreakerImpl).

Definition manager_isOpen (now : Z) (uuid : string) (cb : CircuitBreakerImpl)
    (m : CircuitBreakerManager) : bool * CircuitBreakerManager :=
  let c := default cb (m !! uuid) in
  let r := isOpen now c in
  (r.1, <[uuid := r.2]> m).

Definition manager_updateMetrics (uuid : string) (error : bool) (rt now clock : Z)
    (m : CircuitBreakerManager) : CircuitBreakerManager :=
  match m !! uuid with
  | None => m
  | Some c => <[uuid := updateMetrics error rt now clock c]> m
  end.

(** ** The filter *)

Record CircuitBreakerFilter := {
  route_uuid_ : string;
  start_time_ : Z;
  local_replied_ : bool;
  wait_body_ : bool;
  route_config_ : option CircuitBreakerRoute;
}.

Definition new_CircuitBreakerFilter : CircuitBreakerFilter :=
  {| route_uuid_ := ""; start_time_ := 0; local_replied_ := false; wait_body_ := false;
     route_config_ := None |}.

(** [sendLocalReply] as the filter calls it; the header callback adds the
    configured headers and sets the last one. *)
Definition abortWithHTTPStatus (settings : CircuitBreakerSettings) : LocalReply :=
  {| reply_code := http_status_ settings;
     reply_body := if decide (http_body_ settings = "") then "circuit breaker filter abort"
                   else http_body_ settings;
     reply_headers := filter (fun p => p.1 ≠ "x-envoy-circuitbreaking")
                        (map (fun p => (to_lower p.1, p.2)) (http_headers_ settings))
                      ++ [("x-envoy-circuitbreaking", "true")];
     reply_details := "" |}.

(** The route the filter finds: none, or one with or without configuration.
    [upgrade]: the request is a web socket or HTTP/2 upgrade. *)
Definition decodeHeaders (now : Z) (route : option (option CircuitBreakerRoute))
    (upgrade end_stream : bool) (f : CircuitBreakerFilter) (m : CircuitBreakerManager) :
  FilterHeadersStatus * CircuitBreakerFilter * CircuitBreakerManager * list LocalReply :=
  match route with
  | None | Some None => (Continue, f, m, [])
  | Some (Some per_route_config) =>
      let id := if decide (route_uuid_ f = "") then uuid per_route_config else route_uuid_ f in
      let r := manager_isOpen now id (new_CircuitBreakerImpl (route_settings per_route_config)) m in
      let f1 := {| route_uuid_ := id; start_time_ := now; local_replied_ := local_replied_ f;
                   wait_body_ := wait_body_ f; route_config_ := route_config_ f |} in
      if r.1 then
        if wait_body_setting_ (route_settings per_route_config) && negb (end_stream || upgrade) then
          (StopIteration, {| route_uuid_ := id; start_time_ := now; local_replied_ := local_replied_ f;
                             wait_body_ := true; route_config_ := Some per_route_config |}, r.2, [])
        else
          (StopIteration, {| route_uuid_ := id; start_time_ := now; local_replied_ := true;
                             wait_body_ := false; route_config_ := route_config_ f |}, r.2,
           [abortWithHTTPStatus (route_settings per_route_config)])
      else (Continue, f1, r.2, [])
  end.

Definition decodeData (end_stream : bool) (f : CircuitBreakerFilter) :
  outcome (FilterDataStatus * CircuitBreakerFilter * list LocalReply) :=
  if negb (wait_body_ f) then Ok (DataContinue, f, [])
  else if end_stream then
    match route_config_ f with
    | None => Undefined "route_config_ is null"
    | Some route =>
        Ok (StopIterationNoBuffer,
            {| route_uuid_ := route_uuid_ f; start_time_ := start_time_ f; local_replied_ := true;
               wait_body_ := wait_body_ f; route_config_ := route_config_ f |},
            [abortWithHTTPStatus (route_settings route)])
    end
  else Ok (StopIterationNoBuffer, f, []).

(** The timing of the upstream request, if there is one: the first bytes received
    and sent. *)
Definition encodeHeaders (now clock : Z) (route : option (option CircuitBreakerRoute)) (status_code : Z)
    (upstream_info : option (option Z * option Z)) (f : CircuitBreakerFilter)
    (m : CircuitBreakerManager) : FilterHeadersStatus * CircuitBreakerManager :=
  if local_replied_ f then (Continue, m)
  else match route with
  | None | Some None => (Continue, m)
  | Some (Some per_route_config) =>
      let error := (500 <=? status_code) && (status_code <? 600) in
      let rt_milliseconds :=
        match upstream_info, average_response_time_threshold_ (route_settings per_route_config) with
        | Some (received, sent), Some threshold =>
            match received, sent with
            | Some rx, Some tx => Z.quot (rx - tx) 1000000
            | _, _ => if error then threshold + 1 else Z.quot (now - start_time_ f) 1000000
            end
        | _, _ => 0
        end in
      (Continue, manager_updateMetrics (route_uuid_ f) error rt_milliseconds now clock m)
  end.

(** The body of a request, piece by piece. *)
Fixpoint decode_body (ends : list bool) (f : CircuitBreakerFilter) :
  outcome (list FilterDataStatus * CircuitBreakerFilter * list LocalReply) :=
  match ends with
  | [] => Ok ([], f, [])
  | e :: ends' =>
      obind (decodeData e f) (fun r =>
      obind (decode_body ends' r.1.2) (fun r' =>
      Ok (r.1.1 :: r'.1.1, r'.1.2, r.2 ++ r'.2)))
  end.

(** ** Reference: all increments, no removal *)

(** An increment: its value and the two clock readings. *)
Record increment := { inc_value : double; inc_now : Z; inc_clock : Z }.

Definition run_increments (w : Z) (log : list increment) : RollingNumber :=
  fold_left (fun r i => Increment (inc_value i) (inc_now i) (inc_clock i) r) log (new_RollingNumber w).

Definition all_buckets (log : list increment) : list (Z * double) :=
  fold_left (fun l i => add_at (unixTimeNowSeconds (inc_now i)) (inc_value i) l) log [].

(** ** Lemmas on buckets *)

Definition keys_sorted (l : list (Z * double)) : Prop := StronglySorted Z.lt l.*1.

Abbreviation keep cutoff l := (filter (fun b : Z * double => cutoff < b.1) l).

Lemma keep_high cutoff (l : list (Z * double)) :
  Forall (fun b => cutoff < b.1) l -> keep cutoff l = l.
Proof. apply filter_all. Qed.

Lemma sorted_tail b (l : list (Z * double)) :
  keys_sorted (b :: l) -> keys_sorted l /\ Forall (fun c => b.1 < c.1) l.
Proof.
  unfold keys_sorted. cbn [fmap list_fmap]. intros H. inversion H as [|k ks Hs Hf]; subst.
  split; [done|]. by rewrite Forall_fmap in Hf.
Qed.

Lemma add_at_keys tick i l c : Forall (fun b => c < b.1) l -> c < tick -> Forall (fun b => c < b.1) (add_at tick i l).
Proof.
  intros HF Ht. induction HF as [|b l Hb Hl IH]; cbn [add_at]; [by constructor|].
  destruct (Z.eqb_spec b.1 tick); [by constructor|].
  destruct (tick <? b.1); constructor; cbn [fst]; auto.
Qed.

Lemma add_at_sorted tick i l : keys_sorted l -> keys_sorted (add_at tick i l).
Proof.
  induction l as [|b l IH]; intros Hs; cbn [add_at]; [by repeat constructor|].
  destruct (sorted_tail b l Hs) as [Hs' Hf].
  destruct (Z.eqb_spec b.1 tick) as [He|Hne]; [exact Hs|].
  destruct (Z.ltb_spec tick b.1) as [Hlt|Hge].
  - unfold keys_sorted in *. cbn [fmap list_fmap fst]. constructor; [exact Hs|].
    constructor; [done|]. rewrite Forall_fmap. eapply Forall_impl; [exact Hf|]. cbn. lia.
  - unfold keys_sorted in *. cbn [fmap list_fmap]. constructor; [by apply IH|].
    rewrite Forall_fmap. apply (add_at_keys tick i l b.1); [exact Hf|lia].
Qed.

Lemma keep_sorted cutoff (l : list (Z * double)) :
  keys_sorted l -> Forall (fun b => cutoff < b.1) l \/
  exists b l', l = b :: l' /\ b.1 <= cutoff.
Proof.
  intros Hs. destruct l as [|b l]; [by left|]. destruct (sorted_tail b l Hs) as [_ Hf].
  destruct (Z.lt_ge_cases cutoff b.1); [left|right; eauto].
  constructor; [done|]. eapply Forall_impl; [exact Hf|]. cbn. lia.
Qed.

(** Adding to a bucket above the cutoff or below it. *)
Lemma keep_add cutoff tick i l :
  keys_sorted l ->
  keep cutoff (add_at tick i l) = if cutoff <? tick then add_at tick i (keep cutoff l) else keep cutoff l.
Proof.
  intros Hs. induction l as [|b l IH].
  - cbn [add_at]. rewrite filter_nil, filter_cons. cbn [fst].
    destruct (Z.ltb_spec cutoff tick); case_decide; rewrite ?filter_nil; done || lia.
  - destruct (sorted_tail b l Hs) as [Hs' Hf]. cbn [add_at].
    destruct (Z.eqb_spec b.1 tick) as [He|Hne].
    + rewrite !filter_cons. cbn [fst]. rewrite He. destruct (Z.ltb_spec cutoff tick).
      * rewrite !decide_True by done. cbn [add_at]. by rewrite He, Z.eqb_refl.
      * rewrite !decide_False by lia. done.
    + destruct (Z.ltb_spec tick b.1) as [Hlt|Hge].
      * rewrite (filter_cons _ (tick, _)). cbn [fst]. destruct (Z.ltb_spec cutoff tick) as [Hc|Hc].
        -- rewrite decide_True by done. rewrite (keep_high cutoff (b :: l)).
           ++ cbn [add_at]. destruct (Z.eqb_spec b.1 tick); [lia|]. by destruct (Z.ltb_spec tick b.1); [|lia].
           ++ constructor; [lia|]. eapply Forall_impl; [exact Hf|]. cbn. lia.
        -- rewrite decide_False by lia. done.
      * rewrite !filter_cons, (IH Hs'). destruct (decide (cutoff < b.1)) as [Hb|Hb].
        -- destruct (Z.ltb_spec cutoff tick); [|lia]. cbn [add_at].
           destruct (Z.eqb_spec b.1 tick); [done|]. by destruct (Z.ltb_spec tick b.1); [lia|].
        -- done.
Qed.

(** Removing what is older than the window loses nothing above a later cutoff. *)
Lemma keep_removed cutoff tick (l : list (Z * double)) :
  tick <= cutoff + 1 -> keep cutoff (filter (fun b => tick <= b.1) l) = keep cutoff l.
Proof.
  intros Ht. rewrite list_filter_filter. apply list_filter_iff. intros b. lia.
Qed.

Lemma filter_sorted (P : Z * double -> Prop) `{!forall b, Decision (P b)} l :
  keys_sorted l -> keys_sorted (filter P l).
Proof.
  induction l as [|b l IH]; intros Hs; [done|]. destruct (sorted_tail b l Hs) as [Hs' Hf].
  rewrite filter_cons. case_decide; [|by apply IH]. unfold keys_sorted. cbn [fmap list_fmap].
  constructor; [by apply IH|]. rewrite Forall_fmap. by apply Forall_filter.
Qed.

Lemma seconds_mono a b : a <= b -> unixTimeNowSeconds a <= unixTimeNowSeconds b.
Proof. intros H. unfold unixTimeNowSeconds. apply Z.quot_le_mono; lia. Qed.

Lemma increments_inv w log now :
  Forall (fun i => inc_clock i <= now) log ->
  let r := run_increments w log in
  window_size_ r = Z.quot w 1000 /\ keys_sorted (buckets_ r) /\ keys_sorted (all_buckets log) /\
  keep (unixTimeNowSeconds now - Z.quot w 1000) (buckets_ r)
    = keep (unixTimeNowSeconds now - Z.quot w 1000) (all_buckets log).
Proof.
  unfold run_increments, all_buckets. induction log as [|i log IH] using rev_ind; intros HF.
  - cbn. by repeat constructor.
  - apply Forall_app in HF as [HF Hi]. apply Forall_cons in Hi as [Hi _].
    rewrite !fold_left_app. cbn [fold_left]. destruct (IH HF) as (Hw & Hs & Hs' & Hk). cbn zeta in *.
    set (r := fold_left _ log (new_RollingNumber w)) in *. set (a := fold_left _ log []) in *.
    unfold Increment, removeOldBuckets. cbn [window_size_ buckets_]. rewrite Hw.
    split_and!; [done|by apply filter_sorted, add_at_sorted|by apply add_at_sorted|].
    rewrite keep_removed.
    + rewrite !keep_add by done. by rewrite Hk.
    + pose proof (seconds_mono _ _ Hi). lia.
Qed.

(** ** Lemmas on breakers *)

(** Slow requests in a row. *)
Fixpoint slow_requests (rts : list (Z * Z * Z)) (c : CircuitBreakerImpl) : CircuitBreakerImpl :=
  match rts with
  | [] => c
  | x :: rts' => slow_requests rts' (updateMetrics false x.1.1 x.1.2 x.2 c)
  end.

Lemma slow_step rt now clock c threshold :
  average_response_time_threshold_ (settings_ c) = Some threshold ->
  fltb (double_of_Z threshold) (double_of_Z rt) = true ->
  let c' := updateMetrics false rt now clock c in
  settings_ c' = settings_ c /\
  consecutive_slow_request_count_ c' = u32 (consecutive_slow_request_count_ c + 1) /\
  (0 < consecutive_slow_requests_ (settings_ c) <= u32 (consecutive_slow_request_count_ c + 1) ->
   valid_time_ c' = Some (now + break_duration_ (settings_ c) * 1000000)).
Proof.
  intros Ht Hs. unfold updateMetrics. rewrite Ht, Hs. cbn [settings_ consecutive_slow_request_count_ valid_time_].
  split_and!; [done..|]. intros [H1 H2].
  destruct (Z.ltb_spec 0 (consecutive_slow_requests_ (settings_ c))); [|lia].
  by destruct (Z.leb_spec (consecutive_slow_requests_ (settings_ c)) (u32 (consecutive_slow_request_count_ c + 1))); [|lia].
Qed.

Lemma slow_count rts c threshold :
  average_response_time_threshold_ (settings_ c) = Some threshold ->
  Forall (fun x => fltb (double_of_Z threshold) (double_of_Z x.1.1) = true) rts ->
  0 <= consecutive_slow_request_count_ c ->
  consecutive_slow_request_count_ c + Z.of_nat (length rts) < 2 ^ 32 ->
  settings_ (slow_requests rts c) = settings_ c /\
  consecutive_slow_request_count_ (slow_requests rts c)
    = consecutive_slow_request_count_ c + Z.of_nat (length rts).
Proof.
  intros Ht HF. revert c Ht. induction HF as [|x rts Hx _ IH]; intros c Ht H0 Hlt;
    cbn [slow_requests length] in *; [split; [done|lia]|].
  destruct (slow_step x.1.1 x.1.2 x.2 c threshold Ht Hx) as (Hs & Hc & _). cbn zeta in *.
  assert (Hu : u32 (consecutive_slow_request_count_ c + 1) = consecutive_slow_request_count_ c + 1)
    by (by autorewrite with width).
  rewrite Hu in Hc. destruct (IH (updateMetrics false x.1.1 x.1.2 x.2 c)) as [H1 H2];
    [by rewrite Hs|lia|lia|]. rewrite H1, H2, Hs, Hc. split; [done|lia].
Qed.

Lemma manager_isOpen_known now id cb m c :
  m !! id = Some c -> manager_isOpen now id cb m = ((isOpen now c).1, <[id := (isOpen now c).2]> m).
Proof. intros Hm. unfold manager_isOpen. by rewrite Hm. Qed.

(** ** Properties *)

(** A rolling number sums exactly what was recorded within its window: dropping
    old buckets never changes a sum that is taken later, so that it equals the
    sum over the buckets of all increments ever made that are younger than the
    window, and the buckets kept are within one second of the window. *)
Theorem rolling_sum_window (w : Z) (log : list increment) (now clock : Z) :
  Forall (fun i => inc_clock i <= now) log ->
  (Sum now clock (run_increments w log)).1
    = sum_from (unixTimeNowSeconds now - Z.quot w 1000) (all_buckets log) /\
  Forall (fun b => unixTimeNowSeconds clock - Z.quot w 1000 <= b.1)
    (buckets_ (Sum now clock (run_increments w log)).2).
Proof.
  intros HF. destruct (increments_inv w log now HF) as (Hw & _ & _ & Hk). cbn zeta in *.
  unfold Sum, sum_from. cbn [fst snd]. rewrite Hw, Hk. split; [done|].
  unfold removeOldBuckets. cbn [buckets_]. rewrite Hw. apply Forall_forall.
  intros b Hb. by apply list_elem_of_filter in Hb as [? _].
Qed.

Definition example_log : list increment :=
  [{| inc_value := double_of_Z 1; inc_now := 1000000000; inc_clock := 1000000000 |};
   {| inc_value := double_of_Z 2; inc_now := 9000000000; inc_clock := 9000000000 |};
   {| inc_value := double_of_Z 4; inc_now := 12000000000; inc_clock := 12000000000 |}].

Lemma rolling_sum_window_witness :
  (Sum 12500000000 12500000000 (run_increments 10000 example_log)).1 = double_of_Z 6.
Proof.
  destruct (rolling_sum_window 10000 example_log 12500000000 12500000000) as [H _].
  - repeat constructor; vm_compute; discriminate.
  - rewrite H. vm_compute. reflexivity.
Defined.

(** C32. As many slow requests in a row as configured open a breaker; it then
    refuses every request up to and including the end of the break duration after
    the last of them, and accepts again, with the count reset, after that. *)
Theorem breaker_opens_on_slow (s : CircuitBreakerSettings) (threshold : Z) (rts : list (Z * Z * Z))
    (last : Z * Z * Z) (now : Z) :
  average_response_time_threshold_ s = Some threshold ->
  0 < consecutive_slow_requests_ s -> Z.of_nat (length rts) + 1 < 2 ^ 32 ->
  Forall (fun x => fltb (double_of_Z threshold) (double_of_Z x.1.1) = true) (rts ++ [last]) ->
  consecutive_slow_requests_ s <= Z.of_nat (length rts) + 1 ->
  let c := slow_requests (rts ++ [last]) (new_CircuitBreakerImpl s) in
  let until := last.1.2 + break_duration_ s * 1000000 in
  (now <= until -> isOpen now c = (true, c)) /\
  (until < now -> (isOpen now c).1 = false /\ consecutive_slow_request_count_ (isOpen now c).2 = 0 /\
     valid_time_ (isOpen now c).2 = None).
Proof.
  intros Ht Hn Hlen HF Hcount. apply Forall_app in HF as [HF Hl]. apply Forall_cons in Hl as [Hl _].
  destruct (slow_count rts (new_CircuitBreakerImpl s) threshold Ht HF) as [Hset Hc]; [done|cbn; lia|].
  cbn [consecutive_slow_request_count_ new_CircuitBreakerImpl settings_] in Hc, Hset.
  assert (Happ : forall c, slow_requests (rts ++ [last]) c
    = updateMetrics false last.1.1 last.1.2 last.2 (slow_requests rts c)).
  { clear. induction rts as [|x rts IH]; intros c; [done|]. apply IH. }
  cbn zeta. rewrite Happ.
  destruct (slow_step last.1.1 last.1.2 last.2 (slow_requests rts (new_CircuitBreakerImpl s)) threshold)
    as (_ & _ & Hv); [by rewrite Hset|done|]. cbn zeta in Hv. rewrite Hset, Hc in Hv.
  set (c := updateMetrics _ _ _ _ _) in *. unfold isOpen.
  rewrite Hv by (by autorewrite with width).
  destruct (Z.ltb_spec (last.1.2 + break_duration_ s * 1000000) now); split; intros; try lia; done.
Qed.

Definition example_settings : CircuitBreakerSettings :=
  {| consecutive_slow_requests_ := 2; average_response_time_threshold_ := Some 100;
     percentage_ := fzero; min_request_amount_ := 0; break_duration_ := 5000;
     lookback_duration_ := 10000; http_status_ := 503; http_headers_ := [("X-A", "b")];
     http_body_ := ""; wait_body_setting_ := true |}.

Lemma breaker_opens_on_slow_witness :
  let c := slow_requests ([(101, 0, 0)] ++ [(500, 1000000, 1000000)]) (new_CircuitBreakerImpl example_settings) in
  let until := 1000000 + 5000 * 1000000 in
  (until <= until -> isOpen until c = (true, c)) /\
  (until < until -> (isOpen until c).1 = false /\ consecutive_slow_request_count_ (isOpen until c).2 = 0 /\
     valid_time_ (isOpen until c).2 = None).
Proof.
  apply (breaker_opens_on_slow example_settings 100 [(101, 0, 0)] (500, 1000000, 1000000)
    (1000000 + 5000 * 1000000)); [reflexivity|vm_compute; reflexivity..| |vm_compute; discriminate].
  repeat constructor; vm_compute; reflexivity.
Defined.

(** An open breaker lets nothing of a request pass and answers it exactly once
    with the configured reply: at once, or, when it waits for the body, at the end
    of the body; and that reply is not counted as a response of the upstream. *)
Theorem breaker_open_rejects (now : Z) (route : CircuitBreakerRoute) (upgrade : bool) (pieces : nat)
    (c : CircuitBreakerImpl) (m : CircuitBreakerManager) :
  m !! uuid route = Some c -> uuid route ≠ "" -> (isOpen now c).1 = true ->
  let waits := wait_body_setting_ (route_settings route) && negb upgrade in
  exists f m' replies,
    decodeHeaders now (Some (Some route)) upgrade false new_CircuitBreakerFilter m
      = (StopIteration, f, m', replies) /\
    (waits = false -> replies = [abortWithHTTPStatus (route_settings route)] /\ local_replied_ f = true) /\
    (waits = true -> replies = [] /\
       exists f', decode_body (repeat false pieces ++ [true]) f
         = Ok (repeat StopIterationNoBuffer (S pieces), f', [abortWithHTTPStatus (route_settings route)]) /\
       local_replied_ f' = true) /\
    forall f' now' clock status info, local_replied_ f' = true ->
      encodeHeaders now' clock (Some (Some route)) status info f' m' = (Continue, m').
Proof.
  intros Hm Hid Hopen waits. unfold decodeHeaders. cbn [route_uuid_ new_CircuitBreakerFilter].
  rewrite (decide_True (P := "" = "")) by done.
  rewrite (manager_isOpen_known _ _ _ _ c Hm). cbn [fst snd]. rewrite Hopen.
  cbn [orb]. fold waits. destruct waits eqn:Hw.
  - eexists _, _, _. split; [reflexivity|]. split; [done|]. split.
    + intros _. split; [done|]. set (f := {| wait_body_ := true |}).
      assert (Hb : exists f', decode_body (repeat false pieces ++ [true]) f
         = Ok (repeat StopIterationNoBuffer (S pieces), f', [abortWithHTTPStatus (route_settings route)]) /\
         local_replied_ f' = true).
      { induction pieces as [|n IH].
        - eexists. split; reflexivity.
        - destruct IH as (f' & Hd & Hr). exists f'. cbn [repeat app decode_body].
          change (decodeData false f) with (Ok (StopIterationNoBuffer, f, @nil LocalReply)).
          cbn [obind fst snd]. rewrite Hd. done. }
      exact Hb.
    + intros f' ? ? ? ? Hr. unfold encodeHeaders. by rewrite Hr.
  - eexists _, _, _. split; [reflexivity|]. split; [done|]. split; [done|].
    intros f' ? ? ? ? Hr. unfold encodeHeaders. by rewrite Hr.
Qed.

Definition example_route : CircuitBreakerRoute := {| uuid := "u"; route_settings := example_settings |}.
Definition example_open : CircuitBreakerImpl :=
  slow_requests [(101, 0, 0); (500, 1000000, 1000000)] (new_CircuitBreakerImpl example_settings).

Lemma breaker_open_rejects_witness :
  let waits := true in
  exists f m' replies,
    decodeHeaders 5 (Some (Some example_route)) false false new_CircuitBreakerFilter {[ "u" := example_open ]}
      = (StopIteration, f, m', replies) /\
    (waits = false -> replies = [abortWithHTTPStatus example_settings] /\ local_replied_ f = true) /\
    (waits = true -> replies = [] /\
       exists f', decode_body (repeat false 3 ++ [true]) f
         = Ok (repeat StopIterationNoBuffer 4, f', [abortWithHTTPStatus example_settings]) /\
       local_replied_ f' = true) /\
    forall f' now' clock status info, local_replied_ f' = true ->
      encodeHeaders now' clock (Some (Some example_route)) status info f' m' = (Continue, m').
Proof.
  apply (breaker_open_rejects 5 example_route false 3 example_open {[ "u" := example_open ]}).
  - apply lookup_singleton_eq.
  - discriminate.
  - vm_compute. reflexivity.
Defined.
