(* ===== verification/CacheConfig.v ===== *)
(** * The caches of a configuration
      (source/common/cache/cache_config.cc, the constructors of RedisCache and CacheGetterSetterConfig)

    The configuration of a filter lists caches; [CacheConfig::create] makes each, a local one in place and a client
    of Redis in each thread, and the sender keeps the first of each type. *)

From S2P Require Import Prelude Json Http CacheBase HttpCacheEntry LruCache LocalCache RedisCache CacheSender.
From stdpp Require Import base gmap strings numbers list.
#[local] Open Scope Z_scope.

Import Local.

Definition DEFAULT_REDIS_TIMEOUT : Z := 5.

(** [general]: host and port, when the type of the Redis is that. *)
Record RedisConfig := { general : option (string * Z); redis_password : string; timeout : option Z }.
Inductive CacheMessage := RedisMessage (c : RedisConfig) | LocalMessage (max_cache_size : option Z) | NoMessage.

Definition cache_type_case (m : CacheMessage) : ProtoCache :=
  match m with RedisMessage _ => kRedis | LocalMessage _ => kLocal | NoMessage => CACHE_TYPE_NOT_SET end.

(** What the client of each thread is made with: endpoint, password, timeout. *)
Record RedisThreads := { endpoint : string * Z; client_password : string; client_timeout : Z }.

Definition new_RedisCache (c : RedisConfig) : outcome RedisThreads :=
  match general c with
  | None => Throw "Unsupported redis mode and please check your config."
  | Some ep => Ok {| endpoint := ep; client_password := redis_password c; client_timeout := default DEFAULT_REDIS_TIMEOUT (timeout c) |}
  end.

(** The client of a thread, with the defaults of its constructor. *)
Definition thread_client {CB} (r : RedisThreads) (result : connect_result) (c : nat) :=
  new_AsyncClient (CB := CB) (client_password r) (client_timeout r) true 4294967295 result c.

(** A lookup that waits for its answer is not supported. *)
Definition redis_lookupCache_sync {E : Type} (key : string) (r : RedisThreads) : option E := None.

Inductive Cache (E : Type) := RedisCacheOf (r : RedisThreads) | LocalCacheOf (c : LocalCache E).
Arguments RedisCacheOf {E} _.
Arguments LocalCacheOf {E} _.

Section Config.
Context {E : Type}.

Definition create (m : CacheMessage) : outcome (option (Cache E)) :=
  match m with
  | RedisMessage c => obind (new_RedisCache c) (fun r => Ok (Some (RedisCacheOf r)))
  | LocalMessage max_cache_size => Ok (Some (LocalCacheOf (new_LocalCache max_cache_size)))
  | NoMessage => Throw "Error cache type and should never run here"
  end.

Definition new_CacheGetterSetterConfig (caches : list CacheMessage) : outcome (list (string * Cache E)) :=
  new_caches cache_type_case create [] caches.

(** ** What is configured *)

Definition message_name (m : CacheMessage) : option string :=
  match cache_type_case m with kRedis => Some RedisCacheName | kLocal => Some LocalCacheName | CACHE_TYPE_NOT_SET => None end.

(** The first message of each name. *)
Fixpoint first_messages (used : list string) (l : list CacheMessage) : list (string * CacheMessage) :=
  match l with
  | [] => []
  | m :: l' =>
      match message_name m with
      | Some name => if decide (name ∈ used) then first_messages used l' else (name, m) :: first_messages (name :: used) l'
      | None => first_messages used l'
      end
  end.

Lemma first_messages_names used l : NoDup (first_messages used l).*1 /\ forall x, x ∈ (first_messages used l).*1 -> x ∉ used.
Proof.
  revert used. induction l as [|m l IH]; intros used; cbn [first_messages]; [by split; [constructor|set_solver]|].
  destruct (message_name m) as [name|]; [|apply IH]. case_decide as Hu; [apply IH|].
  destruct (IH (name :: used)) as [Hnd Hx]. rewrite fmap_cons. split.
  - constructor; [|done]. intros Hin. apply Hx in Hin. set_solver.
  - intros x [->|Hin]%elem_of_cons; [done|]. apply Hx in Hin. set_solver.
Qed.

Lemma new_caches_named used m name caches : message_name m = Some name ->
  new_caches cache_type_case create used (m :: caches) =
    if decide (name ∈ used) then new_caches cache_type_case create used caches
    else obind (create m) (fun cache => match cache with
      | None => new_caches cache_type_case create (name :: used) caches
      | Some cache => obind (new_caches cache_type_case create (name :: used) caches) (fun l => Ok ((name, cache) :: l))
      end).
Proof. unfold message_name. by destruct m; intros [= <-]. Qed.

(** The caches are made from the first message of each type, in the order of the messages; a message without a type
    throws, and a Redis of a type that is not supported throws if it is the first one. *)
Lemma configured_caches (caches : list CacheMessage) :
  Forall (fun m => cache_type_case m <> CACHE_TYPE_NOT_SET) caches ->
  Forall (fun x => match x.2 with RedisMessage c => is_Some (general c) | _ => True end) (first_messages [] caches) ->
  exists l, new_CacheGetterSetterConfig caches = Ok l /\ NoDup l.*1 /\
    Forall2 (fun x c => x.1 = c.1 /\ create x.2 = Ok (Some c.2)) (first_messages [] caches) l.
Proof.
  intros Htype. unfold new_CacheGetterSetterConfig. generalize (@nil string) as used.
  induction Htype as [|m caches Hm _ IH]; intros used; cbn [first_messages new_caches].
  { intros _. exists []. split_and!; constructor. }
  destruct (message_name m) as [name|] eqn:Hn; [|by unfold message_name in Hn; destruct (cache_type_case m)].
  pose proof (new_caches_named used m name caches Hn) as Hnew. cbn [new_caches] in Hnew. rewrite Hnew. clear Hnew.
  case_decide as Hu; [apply IH|]. intros HF. apply Forall_cons in HF as [Hred HF]. cbn [snd] in Hred.
  assert (Hmade : exists c, create m = Ok (Some c)).
  { destruct m as [c|s|]; [|by eexists|done]. destruct Hred as [ep Hep]. cbn. unfold new_RedisCache. rewrite Hep. by eexists. }
  destruct Hmade as [c Hc]. rewrite Hc. cbn [obind].
  destruct (IH (name :: used) HF) as (l & -> & Hnd & Hall). cbn [obind]. exists ((name, c) :: l). split; [done|]. split; [|by constructor].
  rewrite fmap_cons. constructor; [|done]. cbn [fst]. intros Hin.
  assert (Hl : l.*1 = (first_messages (name :: used) caches).*1).
  { clear - Hall. induction Hall as [|x y l1 l2 [Hxy _] _ IHl]; [done|]. rewrite !fmap_cons. by f_equal. }
  rewrite Hl in Hin. apply first_messages_names in Hin. set_solver.
Qed.
End Config.

Lemma configured_caches_witness :
  exists l, new_CacheGetterSetterConfig (E := nat) [LocalMessage (Some 1600); RedisMessage {| general := Some ("redis", 6379); redis_password := "";
      timeout := None |}; LocalMessage None] = Ok l /\ NoDup l.*1 /\
    Forall2 (fun x c => x.1 = c.1 /\ create x.2 = Ok (Some c.2))
      [("LocalCache", LocalMessage (Some 1600)); ("RedisCache", RedisMessage {| general := Some ("redis", 6379); redis_password := ""; timeout := None |})] l.
Proof.
  apply (configured_caches (E := nat) [LocalMessage (Some 1600); RedisMessage {| general := Some ("redis", 6379); redis_password := "";
      timeout := None |}; LocalMessage None]); repeat constructor; try done. by eexists.
Defined.
