(* ===== verification/SuperCache.v ===== *)
(** * The response cache filter
      (source/filters/http/super_cache/cache_filter.{h,cc},
       [md5StringOrNot] of source/common/common/proxy_utility.cc)

    A request the filter admits is looked up through a [CacheRequestSender]; a hit
    answers it, a miss lets it pass, and the response is then recorded and stored.
    The administration handler removes keys from all caches; [CommonCacheConfig]
    installs it and takes it down. *)

From S2P Require Import Prelude Decimal Json Http CacheBase HttpCacheEntry LocalCache CacheSender.
From Stdlib Require Import Ascii.
From stdpp Require Import base gmap strings numbers list.
Import HttpEntry.
#[local] Open Scope Z_scope.

(** ** Keys given to the administration handler *)

Definition hex_digit (ch : ascii) : bool :=
  let n := nat_of_ascii ch in
  ((48 <=? n) && (n <=? 57) || (97 <=? n) && (n <=? 102) || (65 <=? n) && (n <=? 70))%nat.

Definition md5StringOrNot (md5_string : string) : bool :=
  (String.length md5_string =? 32)%nat && string_forallb hex_digit md5_string.

(** Insertion into a [std::set] of strings, kept in order. *)
Fixpoint set_insert (key : string) (l : list string) : list string :=
  match l with
  | [] => [key]
  | x :: l' =>
      match String.compare key x with
      | Eq => l
      | Lt => key :: l
      | Gt => x :: set_insert key l'
      end
  end.

(** [getStringArray] gives the member "cache_keys" of the parsed text, or throws. *)
Definition readCacheKeys (getStringArray : string -> outcome (list string)) (json_body : string) :
  list string :=
  let cache_keys := match getStringArray json_body with Ok keys => keys | _ => [] end in
  fold_left (fun unique_cache_keys key =>
    if md5StringOrNot key then set_insert (to_lower key) unique_cache_keys else unique_cache_keys)
    cache_keys [].

(** ** The filter *)

Section Filter.
Context {H : Type} `{HM : HeaderMap H}.
#[local] Abbreviation entry := (HttpCacheEntry H).
Context `{EC : CacheEntry entry} {C : Type} `{CC : CommonCacheBase entry C}.
(** Header matchers, and the library's use of them. *)
Context {HeaderMatcher : Type}.
Variable matchHeaders : H -> list HeaderMatcher -> bool.
Variable caseFindToken : string -> string -> string -> bool.
Variable removeQueryAndFragment : string -> string.
Variable parseQueryString : string -> list (string * string).
Variable md5_hex : string -> string.
Variable regex_match : string -> string -> bool.

#[local] Abbreviation CacheList := (list (string * C)).

Definition inline_value (k : string) (h : H) : option string := head (hm_get k h).

Definition isCacheableRequest (h : H) : bool :=
  match inline_value ":method" h, inline_value ":path" h, inline_value ":authority" h with
  | Some method, Some _, Some _ => bool_decide (method = "GET" \/ method = "HEAD")
  | _, _, _ => false
  end.

Definition isCacheableResponse (h : H) : bool :=
  match hm_get "cache-control" h with
  | v :: _ => negb (caseFindToken v "," "private")
  | [] => true
  end.

Record RouteProtoConfig := {
  enable_rqx : list HeaderMatcher;
  enable_rpx : list HeaderMatcher;
  low_level_fill : bool;
  key_maker : HttpCacheKeyMaker;
  cache_ttls : list (string * CacheTTL);
}.

Record RouteCacheConfig := {
  enable_rqx_ : list HeaderMatcher;
  enable_rpx_ : list HeaderMatcher;
  low_level_fill_ : bool;
  cache_config_ : SpecificCacheConfig;
}.

Definition new_RouteCacheConfig (config : RouteProtoConfig) : RouteCacheConfig :=
  {| enable_rqx_ := enable_rqx config; enable_rpx_ := enable_rpx config;
     low_level_fill_ := low_level_fill config;
     cache_config_ := new_SpecificCacheConfig (key_maker config) (cache_ttls config) |}.

Inductive EnableType := RQ | RP.

Definition checkEnable (config : RouteCacheConfig) (h : H) (type : EnableType) : bool :=
  let enable := match type with RQ => enable_rqx_ config | RP => enable_rpx_ config end in
  match enable with [] => true | _ => matchHeaders h enable end.

(** The caches of the filter's configuration ([None]: a null pointer) and its
    counters. *)
Record CacheWorld := {
  used_caches_ : option CacheList;
  hit_count : Z;
  miss_count : Z;
}.

Record HttpCacheFilter := {
  response_to_cache_ : option (Message H);
  cache_suspend_ : bool;
  enable_caches_ : bool;
  hit_in_caches_ : bool;
  route_config_ : option RouteCacheConfig;
  request_sender_ : option CacheRequestSender;
}.

Definition new_HttpCacheFilter : HttpCacheFilter :=
  {| response_to_cache_ := None; cache_suspend_ := false; enable_caches_ := false;
     hit_in_caches_ := false; route_config_ := None; request_sender_ := None |}.

Definition set_response (m : option (Message H)) (f : HttpCacheFilter) : HttpCacheFilter :=
  {| response_to_cache_ := m; cache_suspend_ := cache_suspend_ f; enable_caches_ := enable_caches_ f;
     hit_in_caches_ := hit_in_caches_ f; route_config_ := route_config_ f;
     request_sender_ := request_sender_ f |}.

Definition set_sender (s : option CacheRequestSender) (f : HttpCacheFilter) : HttpCacheFilter :=
  {| response_to_cache_ := response_to_cache_ f; cache_suspend_ := cache_suspend_ f;
     enable_caches_ := enable_caches_ f; hit_in_caches_ := hit_in_caches_ f;
     route_config_ := route_config_ f; request_sender_ := s |}.

(** What the filter asks of the proxy. *)
Inductive output :=
| EncodeHeaders (h : H) (end_stream : bool)
| EncodeData (data : string) (end_stream : bool)
| ContinueDecoding.

(** [route]: the route ([None]: none), with its configuration for this filter. *)
Definition decodeHeaders (route : option (option RouteCacheConfig)) (h : H) (end_stream : bool)
    (f : HttpCacheFilter) (w : CacheWorld) :
  outcome (FilterHeadersStatus * HttpCacheFilter * list (call (H := H))) :=
  if negb (isCacheableRequest h) then Ok (Continue, f, [])
  else match route with
  | None => Ok (Continue, f, [])
  | Some route_config =>
      match route_config with
      | Some config =>
          if negb (checkEnable config h RQ) then
            Ok (Continue, {| response_to_cache_ := response_to_cache_ f; cache_suspend_ := cache_suspend_ f;
                             enable_caches_ := enable_caches_ f; hit_in_caches_ := hit_in_caches_ f;
                             route_config_ := Some config; request_sender_ := request_sender_ f |}, [])
          else
            match used_caches_ w with
            | None => Undefined "the configuration of the sender is null"
            | Some caches =>
                obind (cacheKey removeQueryAndFragment parseQueryString md5_hex
                  (key_maker_config_ (cache_config_ config)) h (cache_key_prefix_ (cache_config_ config)))
                (fun key =>
                let r := sendRequest (length caches) key new_CacheRequestSender in
                let suspended := match r.2 with ONCALL => cache_suspend_ f | FAILED => true end in
                let f' := {| response_to_cache_ := response_to_cache_ f; cache_suspend_ := suspended;
                             enable_caches_ := true; hit_in_caches_ := hit_in_caches_ f;
                             route_config_ := Some config; request_sender_ := Some r.1.1 |} in
                match r.2 with
                | ONCALL =>
                    Ok (if end_stream then StopIteration else StopAllIterationAndWatermark, f', r.1.2)
                | FAILED => Ok (Continue, f', r.1.2)
                end)
            end
      | None =>
          Ok (Continue, {| response_to_cache_ := response_to_cache_ f; cache_suspend_ := cache_suspend_ f;
                           enable_caches_ := enable_caches_ f; hit_in_caches_ := hit_in_caches_ f;
                           route_config_ := None; request_sender_ := request_sender_ f |}, [])
      end
  end.

(** [request_sender_->insertResponse("", std::move(response_to_cache_))]; [now] and
    [clock] are the times read for the expiry and by the caches.  A message that is
    too large is not taken out of [response_to_cache_]. *)
Definition store_response (now : Z) (clock : nat -> Z) (message : Message H) (config : RouteCacheConfig)
    (f : HttpCacheFilter) (w : CacheWorld) : outcome (HttpCacheFilter * CacheWorld) :=
  match request_sender_ f, used_caches_ w with
  | Some sender, Some caches =>
      obind (insertResponse regex_match (cache_config_ config) now clock "" message sender caches) (fun r =>
      Ok (set_response (if MAX_CACHE_ENTRY_SIZE <? message_length message then Some message else None)
            (set_sender (Some r.1) f),
          {| used_caches_ := Some r.2; hit_count := hit_count w; miss_count := miss_count w |}))
  | _, _ => Undefined "request_sender_ is null"
  end.

(** The status is always [Continue]. *)
Definition encodeHeaders (now : Z) (clock : nat -> Z) (h : H) (end_stream : bool)
    (f : HttpCacheFilter) (w : CacheWorld) : outcome (H * HttpCacheFilter * CacheWorld) :=
  let disabled := Ok (h, {| response_to_cache_ := response_to_cache_ f; cache_suspend_ := cache_suspend_ f;
                            enable_caches_ := false; hit_in_caches_ := hit_in_caches_ f;
                            route_config_ := route_config_ f; request_sender_ := request_sender_ f |}, w) in
  if negb (enable_caches_ f) || negb (isCacheableResponse h) then disabled
  else match route_config_ f with
  | None => Undefined "route_config_ is null"
  | Some config =>
      if negb (checkEnable config h RP) then disabled
      else
        obind
          (if low_level_fill_ config || negb (hit_in_caches_ f) then
             let headers_copy := hm_remove "x-envoy-upstream-service-time" h in
             let message := {| headers := headers_copy; body := "" |} in
             if end_stream then store_response now clock message config f w
             else Ok (set_response (Some message) f, w)
           else Ok (f, w)) (fun r =>
        match request_sender_ r.1 with
        | None => Undefined "request_sender_ is null"
        | Some sender =>
            let h1 := hm_addCopy "x-cache-key" (cache_key_ sender) h in
            if hit_in_caches_ r.1 then Ok (h1, r.1, r.2)
            else Ok (hm_addCopy "x-cache-status" "MISS" h1, r.1,
                     {| used_caches_ := used_caches_ r.2; hit_count := hit_count r.2;
                        miss_count := miss_count r.2 + 1 |})
        end)
  end.

Definition encodeData (now : Z) (clock : nat -> Z) (data : string) (end_stream : bool)
    (f : HttpCacheFilter) (w : CacheWorld) : outcome (HttpCacheFilter * CacheWorld) :=
  match enable_caches_ f, response_to_cache_ f with
  | true, Some message =>
      let message' := {| headers := headers message; body := body message +:+ data |} in
      if end_stream then
        match route_config_ f with
        | None => Undefined "route_config_ is null"
        | Some config => store_response now clock message' config f w
        end
      else Ok (set_response (Some message') f, w)
  | _, _ => Ok (f, w)
  end.

(** [reqeustHitInCache] *)
Definition reqeustHitInCache (s : CacheRequestSender) (caches : CacheList) : outcome string :=
  if hit_in_cache_ s =? -1 then Ok ""
  else match caches !! Z.to_nat (hit_in_cache_ s) with
       | Some c => Ok c.1
       | None => Undefined "used_caches_ out of range"
       end.

(** The response goes through the encoder filters, and so through [encodeHeaders]
    and [encodeData] of this filter. *)
Definition onSuccess (now : Z) (clock : nat -> Z) (response : Message H) (f : HttpCacheFilter)
    (w : CacheWorld) : outcome (HttpCacheFilter * CacheWorld * list output) :=
  match request_sender_ f, used_caches_ w with
  | Some sender, Some caches =>
      obind (reqeustHitInCache sender caches) (fun name =>
      let f1 := {| response_to_cache_ := response_to_cache_ f; cache_suspend_ := cache_suspend_ f;
                   enable_caches_ := enable_caches_ f; hit_in_caches_ := true;
                   route_config_ := route_config_ f; request_sender_ := request_sender_ f |} in
      let w1 := {| used_caches_ := used_caches_ w; hit_count := hit_count w + 1;
                   miss_count := miss_count w |} in
      let response_headers :=
        hm_addCopy "x-cache-hit" name (hm_addCopy "x-cache-status" "HIT" (headers response)) in
      let end_stream := bool_decide (body response = "") in
      obind (encodeHeaders now clock response_headers end_stream f1 w1) (fun r =>
      if end_stream then Ok (r.1.2, r.2, [EncodeHeaders r.1.1 true])
      else obind (encodeData now clock (body response) true r.1.2 r.2) (fun r' =>
           Ok (r'.1, r'.2, [EncodeHeaders r.1.1 false; EncodeData (body response) true]))))
  | _, _ => Undefined "request_sender_ is null"
  end.

Definition onFailure : list output := [ContinueDecoding].

Definition onDestroy (f : HttpCacheFilter) : HttpCacheFilter :=
  match request_sender_ f with
  | Some s => set_sender (Some (cancelLookup s)) f
  | None => f
  end.

(** The calls of the sender, carried out. *)
Definition run_call (now : Z) (clock : nat -> Z) (c : call (H := H)) (f : HttpCacheFilter)
    (w : CacheWorld) : outcome (HttpCacheFilter * CacheWorld * list output) :=
  match c with
  | AskCache _ _ => Ok (f, w, [])
  | OriginSuccess message => onSuccess now clock message f w
  | OriginFailure => Ok (f, w, onFailure)
  | NullOrigin => Undefined "origin_callback_ is null"
  end.

Fixpoint run_calls (now : Z) (clock : nat -> Z) (cs : list (call (H := H))) (f : HttpCacheFilter)
    (w : CacheWorld) : outcome (HttpCacheFilter * CacheWorld * list output) :=
  match cs with
  | [] => Ok (f, w, [])
  | c :: cs' =>
      obind (run_call now clock c f w) (fun r =>
      obind (run_calls now clock cs' r.1.1 r.1.2) (fun r' => Ok (r'.1.1, r'.1.2, r.2 ++ r'.2)))
  end.

(** An answer of a cache, or the end of the stream. *)
Definition filter_event (now : Z) (clock : nat -> Z) (e : lookup_event (H := H)) (f : HttpCacheFilter)
    (w : CacheWorld) : outcome (HttpCacheFilter * CacheWorld * list output) :=
  match e, request_sender_ f, used_caches_ w with
  | CancelLookup, _, _ => Ok (onDestroy f, w, [])
  | CacheAnswer _, Some sender, Some caches =>
      let r := lookup_step (length caches) sender e in
      run_calls now clock r.2 (set_sender (Some r.1) f) w
  | _, _, _ => Ok (f, w, [])
  end.

Fixpoint filter_events (now : Z) (clock : nat -> Z) (es : list (lookup_event (H := H)))
    (f : HttpCacheFilter) (w : CacheWorld) : outcome (HttpCacheFilter * CacheWorld * list output) :=
  match es with
  | [] => Ok (f, w, [])
  | e :: es' =>
      obind (filter_event now clock e f w) (fun r =>
      obind (filter_events now clock es' r.1.1 r.1.2) (fun r' => Ok (r'.1.1, r'.1.2, r.2 ++ r'.2)))
  end.

(** A response with its body in pieces, the last of which ends the stream. *)
Fixpoint encode_body (now : Z) (clock : nat -> Z) (pieces : list string) (last : string)
    (f : HttpCacheFilter) (w : CacheWorld) : outcome (HttpCacheFilter * CacheWorld) :=
  match pieces with
  | [] => encodeData now clock last true f w
  | p :: pieces' =>
      obind (encodeData now clock p false f w) (fun r => encode_body now clock pieces' last r.1 r.2)
  end.

(** ** The administration handler *)

(** The text of an object with one string member. *)
Definition json_text (name value : string) : string :=
  let quoted t := String "034"%char t +:+ String "034"%char "" in
  "{" +:+ quoted name +:+ ":" +:+ quoted value +:+ "}".

Inductive admin_code := BadRequest | AdminOK.

Definition remove_key (key : string) (caches : CacheList) : outcome CacheList :=
  obind (removeResponse key new_CacheRequestSender caches) (fun r => Ok r.2).

Fixpoint remove_keys (keys : list string) (caches : CacheList) : outcome CacheList :=
  match keys with
  | [] => Ok caches
  | key :: keys' => obind (remove_key key caches) (remove_keys keys')
  end.

(** The handler, given the query parameter "action" and the body of the request. *)
Definition admin_handler (getStringArray : string -> outcome (list string)) (action : option string)
    (string_body : option string) (caches : CacheList) : outcome (admin_code * string * CacheList) :=
  if bool_decide (default "" action ≠ "remove")
  then Ok (BadRequest, json_text "error" "no action or unsupported action.", caches)
  else if bool_decide (default "" string_body = "")
  then Ok (BadRequest, json_text "error" "empty body is unsupported.", caches)
  else obind (remove_keys (readCacheKeys getStringArray (default "" string_body)) caches) (fun caches' =>
       Ok (AdminOK, json_text "info" "ok", caches')).
End Filter.

(** ** Installing and removing the handler *)

(** The handlers of a filter are installed below a [root] of its own; the dynamic downgrade filter
    has the same code with another root (DynamicDowngrade). *)
Definition super_cache_root : string := "/httpfilter/super_cache/".

(** Prefixes to the configuration (its random id) whose handler is installed there,
    and [ADMIN_HANDLER_UUID_MAP]. *)
Record AdminState := {
  admin_handlers : gmap string nat;
  ADMIN_HANDLER_UUID_MAP : gmap string nat;
}.

(** [final_apis_prefix_] and [admin_handler_uuid_]. *)
Record HandlerConfig := { final_apis_prefix_ : string; admin_handler_uuid_ : nat }.

Definition new_CommonCacheConfig (root apis_prefix : string) (has_caches : bool) (random : nat) (a : AdminState) :
  HandlerConfig * AdminState :=
  if bool_decide (apis_prefix = "") || negb has_caches
  then ({| final_apis_prefix_ := ""; admin_handler_uuid_ := random |}, a)
  else
    let prefix := root +:+ apis_prefix in
    ({| final_apis_prefix_ := prefix; admin_handler_uuid_ := random |},
     {| admin_handlers := <[prefix := random]> (delete prefix (admin_handlers a));
        ADMIN_HANDLER_UUID_MAP := <[prefix := random]> (ADMIN_HANDLER_UUID_MAP a) |}).

Definition delete_CommonCacheConfig (c : HandlerConfig) (a : AdminState) : AdminState :=
  if decide (final_apis_prefix_ c = "") then a
  else if decide (ADMIN_HANDLER_UUID_MAP a !! final_apis_prefix_ c = Some (admin_handler_uuid_ c)) then
    {| admin_handlers := delete (final_apis_prefix_ c) (admin_handlers a);
       ADMIN_HANDLER_UUID_MAP := delete (final_apis_prefix_ c) (ADMIN_HANDLER_UUID_MAP a) |}
  else a.

(** What happens to configurations: one is created with a fresh random id, one that
    is alive is destroyed.  [used] are the ids given out so far. *)
Record AdminWorld := {
  admin : AdminState;
  live : list HandlerConfig;
  used_ids : list nat;
}.

Definition new_AdminWorld : AdminWorld :=
  {| admin := {| admin_handlers := ∅; ADMIN_HANDLER_UUID_MAP := ∅ |}; live := []; used_ids := [] |}.

Inductive admin_step (root : string) : AdminWorld -> AdminWorld -> Prop :=
| config_created apis_prefix has_caches random w :
    random ∉ used_ids w ->
    let r := new_CommonCacheConfig root apis_prefix has_caches random (admin w) in
    admin_step root w {| admin := r.2; live := r.1 :: live w; used_ids := random :: used_ids w |}
| config_destroyed before c after_ w :
    live w = before ++ c :: after_ ->
    admin_step root w {| admin := delete_CommonCacheConfig c (admin w); live := before ++ after_;
                    used_ids := used_ids w |}.

(** ** Lemmas on keys *)

Lemma hex_digit_lower ch : hex_digit ch = true -> hex_digit (lower_ascii ch) = true.
Proof. by destruct ch as [[] [] [] [] [] [] [] []]. Qed.

Lemma md5_lower key : md5StringOrNot key = true -> md5StringOrNot (to_lower key) = true.
Proof.
  unfold md5StringOrNot. intros [Hl Hf]%andb_prop. apply andb_true_intro. split.
  - rewrite <-Hl. f_equal. clear. induction key as [|a s IH]; [done|]. cbn. by rewrite IH.
  - clear Hl. induction key as [|a s IH]; [done|]. cbn in *. apply andb_prop in Hf as [Ha Hs].
    rewrite hex_digit_lower by done. auto.
Qed.

Lemma set_insert_elem key l k : k ∈ set_insert key l <-> k = key \/ k ∈ l.
Proof.
  induction l as [|x l IH]; cbn [set_insert]; [set_solver|].
  destruct (String.compare key x) eqn:Hc; [|set_solver..].
  apply String.compare_eq_iff in Hc as ->. set_solver.
Qed.

Lemma insert_keys_elem keys l k :
  k ∈ fold_left (fun unique_cache_keys key =>
    if md5StringOrNot key then set_insert (to_lower key) unique_cache_keys else unique_cache_keys) keys l
  <-> k ∈ l \/ exists key, key ∈ keys /\ md5StringOrNot key = true /\ k = to_lower key.
Proof.
  revert l. induction keys as [|x keys IH]; intros l; cbn [fold_left]; [set_solver|].
  rewrite IH. destruct (md5StringOrNot x) eqn:Hx; rewrite ?set_insert_elem; [set_solver|].
  split; [set_solver|]. intros [?|(key & Hk & Hm & ->)]; [by left|right].
  apply elem_of_cons in Hk as [->|?]; [congruence|eauto].
Qed.

(** The keys the handler removes are the keys named by the text in lower case, each
    of 32 hexadecimal digits; a text that cannot be read names none. *)
Lemma readCacheKeys_elem getStringArray json_body k :
  k ∈ readCacheKeys getStringArray json_body <->
  exists keys key, getStringArray json_body = Ok keys /\ key ∈ keys /\
    md5StringOrNot key = true /\ md5StringOrNot k = true /\ k = to_lower key.
Proof.
  unfold readCacheKeys. rewrite insert_keys_elem. destruct (getStringArray json_body) as [keys|?|?|];
    [|set_solver..]. split.
  - intros [Hk|(key & Hk & Hm & ->)]; [set_solver|]. eauto 10 using md5_lower.
  - intros (keys' & key & [= <-] & Hk & Hm & _ & ->). eauto.
Qed.

(** ** Lemmas on the filter *)

Section Marks.
Context {H : Type} `{HM : HeaderMap H}.

(** [h] is [h0] marked as an answer of the cache [name]. *)
Definition marked_hit (name : string) (h0 h : H) : Prop :=
  hm_get "x-cache-status" h = hm_get "x-cache-status" h0 ++ ["HIT"] /\
  hm_get "x-cache-hit" h = hm_get "x-cache-hit" h0 ++ [name] /\
  forall k, k ∉ ["x-cache-status"; "x-cache-hit"; "x-cache-key"] -> hm_get k h = hm_get k h0.

Lemma marked_hit_added `{!HeaderMapLaws H} name (h0 : H) :
  marked_hit name h0 (hm_addCopy "x-cache-hit" name (hm_addCopy "x-cache-status" "HIT" h0)).
Proof.
  split; [|split].
  - by rewrite get_add_ne, get_add_own by set_solver.
  - by rewrite get_add_own, get_add_ne by set_solver.
  - intros k Hk. rewrite !get_add_ne; [done|set_solver..].
Qed.

Lemma marked_hit_key `{!HeaderMapLaws H} name (h0 h : H) v :
  marked_hit name h0 h -> marked_hit name h0 (hm_addCopy "x-cache-key" v h).
Proof.
  intros (H1 & H2 & H3). split; [|split].
  - by rewrite get_add_ne by done.
  - by rewrite get_add_ne by done.
  - intros k Hk. rewrite get_add_ne by set_solver. auto.
Qed.
End Marks.

Section Lemmas.
Context {H : Type} `{HM : HeaderMap H}.
#[local] Abbreviation entry := (HttpCacheEntry H).
Context `{EC : CacheEntry entry} {C : Type} `{CC : CommonCacheBase entry C}.
Context {HeaderMatcher : Type}.
Variable matchHeaders : H -> list HeaderMatcher -> bool.
Variable caseFindToken : string -> string -> string -> bool.
Variable regex_match : string -> string -> bool.
#[local] Abbreviation filter := (HttpCacheFilter (H := H) (HeaderMatcher := HeaderMatcher)).
#[local] Abbreviation world := (CacheWorld (C := C)).

(** A filter that records a cacheable response: [h] may be stored. *)
Definition recording (h : H) (config : RouteCacheConfig) (s : CacheRequestSender)
    (caches : list (string * C)) (f : filter) (w : world) : Prop :=
  enable_caches_ f = true /\ isCacheableResponse caseFindToken h = true /\
  route_config_ f = Some config /\ checkEnable matchHeaders config h RP = true /\
  request_sender_ f = Some s /\ used_caches_ w = Some caches /\
  low_level_fill_ config || negb (hit_in_caches_ f) = true.

(** A body sent in pieces. *)
Definition whole_body (pieces : list string) (last : string) : string :=
  foldr String.append last pieces.

(** The caches after a run. *)
Definition caches_after {A} (o : outcome (A * world)) : outcome (option (list (string * C))) :=
  obind o (fun r => Ok (used_caches_ r.2)).

Lemma caches_after_store now clock message config s caches (f : filter) (w : world) :
  request_sender_ f = Some s -> used_caches_ w = Some caches ->
  caches_after (store_response regex_match now clock message config f w)
    = obind (insertResponse regex_match (cache_config_ config) now clock "" message s caches)
        (fun r => Ok (Some r.2)).
Proof.
  intros Hs Hc. unfold store_response, caches_after. rewrite Hs, Hc.
  by destruct (insertResponse _ _ _ _ _ _ _ _).
Qed.

Lemma encode_body_stores now clock pieces last message config s caches (f : filter) (w : world) :
  enable_caches_ f = true -> response_to_cache_ f = Some message -> route_config_ f = Some config ->
  request_sender_ f = Some s -> used_caches_ w = Some caches ->
  caches_after (encode_body regex_match now clock pieces last f w)
    = obind (insertResponse regex_match (cache_config_ config) now clock ""
               {| headers := headers message; body := body message +:+ whole_body pieces last |}
               s caches) (fun r => Ok (Some r.2)).
Proof.
  revert f message. induction pieces as [|p pieces IH]; intros f message He Hr Hc Hs Hw; cbn [encode_body].
  - unfold encodeData. rewrite He, Hr, Hc. by apply caches_after_store.
  - unfold encodeData at 1. rewrite He, Hr. cbn [obind fst snd].
    rewrite (IH _ {| headers := headers message; body := body message +:+ p |}) by done.
    cbn [headers body]. by rewrite string_app_assoc.
Qed.

(** The answer the caches give: the first of them that has the key. *)
Fixpoint first_hit (i : nat) (answers : list (option entry)) : option (nat * entry) :=
  match answers with
  | [] => None
  | Some e :: _ => Some (i, e)
  | None :: rest => first_hit (S i) rest
  end.

Definition served (m : Message H) (h : H) : list (output (H := H)) :=
  if bool_decide (body m = "") then [EncodeHeaders h true]
  else [EncodeHeaders h false; EncodeData (body m) true].

(** What the filter does with the answers. *)
Definition answered (caches : list (string * C)) (hit : option (nat * entry)) (w w' : world)
    (outs : list (output (H := H))) : Prop :=
  used_caches_ w' = used_caches_ w /\ miss_count w' = miss_count w /\
  match hit with
  | None => outs = [ContinueDecoding] /\ hit_count w' = hit_count w
  | Some (i, e) =>
      match cache_message_ e with
      | None => outs = [ContinueDecoding] /\ hit_count w' = hit_count w
      | Some m => exists level h, caches !! i = Some level /\ outs = served m h /\
                    marked_hit level.1 (headers m) h /\ hit_count w' = hit_count w + 1
      end
  end.

#[local] Abbreviation on_success := (onSuccess matchHeaders caseFindToken regex_match).
#[local] Abbreviation events := (filter_events matchHeaders caseFindToken regex_match).

Lemma onSuccess_serves `{!HeaderMapLaws H} now clock m name s caches config (f : filter) (w : world) :
  request_sender_ f = Some s -> used_caches_ w = Some caches -> route_config_ f = Some config ->
  low_level_fill_ config = false -> response_to_cache_ f = None ->
  reqeustHitInCache s caches = Ok name ->
  exists f' h, on_success now clock m f w
      = Ok (f', {| used_caches_ := Some caches; hit_count := hit_count w + 1; miss_count := miss_count w |},
            served m h) /\
    request_sender_ f' = Some s /\ marked_hit name (headers m) h.
Proof.
  intros Hs Hc Hr Hl Hn Hname. unfold onSuccess. rewrite Hs, Hc, Hname. cbn [obind].
  set (h0 := hm_addCopy "x-cache-hit" name _).
  pose proof (marked_hit_added name (headers m)) as H0. fold h0 in H0.
  pose proof (marked_hit_key name (headers m) h0 (cache_key_ s) H0) as H1.
  unfold encodeHeaders, encodeData, served.
  cbn [enable_caches_ route_config_ hit_in_caches_ request_sender_]. rewrite ?Hs, Hr, Hl, Hn. cbn [orb negb].
  destruct (negb (enable_caches_ f) || negb (isCacheableResponse caseFindToken h0)); cbn [obind fst snd];
    [|destruct (negb (checkEnable matchHeaders config h0 RP)); cbn [obind fst snd]].
  all: destruct (bool_decide (body m = "")); cbn [obind fst snd enable_caches_ response_to_cache_ set_sender];
    rewrite ?Hn; cbn [obind fst snd];
    try (destruct (enable_caches_ f)); cbn [obind fst snd];
    eexists _, _; (split; [by rewrite ?Hc|split; [done|]]); assumption.
Qed.

(** A sender that is finished makes the filter do nothing more. *)
Lemma events_finished now clock es s (f : filter) (w : world) :
  request_sender_ f = Some s -> finished s ->
  exists f', events now clock es f w = Ok (f', w, []).
Proof.
  revert s f. induction es as [|e es IH]; intros s f Hs Hf; cbn [filter_events]; [by eexists|].
  assert (He : exists f' s', filter_event matchHeaders caseFindToken regex_match now clock e f w = Ok (f', w, []) /\
                 request_sender_ f' = Some s' /\ finished s').
  { unfold filter_event. destruct e as [a|].
    - rewrite Hs. destruct (used_caches_ w) as [caches|]; [|by eexists _, _].
      destruct (finished_step (length caches) s (CacheAnswer a) Hf) as (Hf' & -> & _).
      eexists _, _. by split.
    - unfold onDestroy. rewrite Hs. eexists _, _. split; [done|]. split; [done|].
      unfold finished. cbn. by rewrite !orb_true_r. }
  destruct He as (f' & s' & -> & Hs' & Hf'). cbn [obind fst snd].
  destruct (IH s' f' Hs' Hf') as [f'' ->]. by eexists.
Qed.

(** A filter that waits for the answer of cache [i]. *)
Definition filter_waiting (key : string) (i : nat) (caches : list (string * C)) (f : filter) (w : world) : Prop :=
  used_caches_ w = Some caches /\ response_to_cache_ f = None /\
  (exists config, route_config_ f = Some config /\ low_level_fill_ config = false) /\
  exists s, request_sender_ f = Some s /\ waiting key i s.

Lemma events_answered `{!HeaderMapLaws H} now clock key i caches answers more (f : filter) (w : world) :
  filter_waiting key i caches f w -> (i + length answers = length caches)%nat -> answers ≠ [] ->
  exists f' w' outs, events now clock (map CacheAnswer answers ++ more) f w = Ok (f', w', outs) /\
    answered caches (first_hit i answers) w w' outs.
Proof.
  revert i f. induction answers as [|a answers IH]; intros i f Hw Hlen Hne; [done|].
  destruct Hw as (Hc & Hn & (config & Hr & Hl) & s & Hs & Hw). cbn [length] in Hlen.
  pose proof (waiting_answer (length caches) key i s a Hw ltac:(lia)) as Ha. cbn zeta in Ha.
  cbn [map app filter_events]. unfold filter_event. rewrite Hs, Hc.
  set (r := lookup_step _ s _) in *. set (f1 := set_sender (Some r.1) f).
  assert (Hf1 : request_sender_ f1 = Some r.1) by done.
  destruct a as [e|]; cbn [first_hit].
  - destruct Ha as (Hf & Hh & ->). destruct (cache_message_ e) as [m|] eqn:Hm; cbn [run_calls run_call].
    + destruct (lookup_lt_is_Some_2 caches i ltac:(lia)) as [level Hlevel].
      destruct (onSuccess_serves now clock m level.1 r.1 caches config f1 w) as (f2 & h & -> & Hs2 & Hmark);
        [done..| |].
      { unfold reqeustHitInCache. rewrite Hh, Nat2Z.id, Hlevel. by destruct (Z.eqb_spec (Z.of_nat i) (-1)); [lia|]. }
      cbn [obind fst snd]. destruct (events_finished now clock (map CacheAnswer answers ++ more) r.1 f2
        {| used_caches_ := Some caches; hit_count := hit_count w + 1; miss_count := miss_count w |} Hs2 Hf) as [f3 ->].
      cbn [obind fst snd]. rewrite !app_nil_r. eexists _, _, _. split; [done|].
      unfold answered. rewrite Hm. cbn. split_and!; [done..|]. exists level, h. by split_and!.
    + cbn [obind fst snd]. destruct (events_finished now clock (map CacheAnswer answers ++ more) r.1 f1 w Hf1 Hf) as [f3 ->].
      eexists _, _, _. split; [done|]. unfold answered. rewrite Hm. by split_and!.
  - destruct (Nat.ltb_spec (S i) (length caches)) as [Hlt|Hge].
    + destruct Ha as [Hw' ->]. cbn [run_calls run_call obind fst snd app].
      destruct (IH (S i) f1) as (f' & w' & outs & -> & Ho).
      * unfold filter_waiting. split_and!; [done|done|by eexists|by eexists].
      * lia.
      * intros ->. cbn in Hlen. lia.
      * cbn [obind fst snd]. by eexists _, _, _.
    + destruct Ha as (Hf & Hh & ->). cbn [run_calls run_call obind fst snd].
      destruct (events_finished now clock (map CacheAnswer answers ++ more) r.1 f1 w Hf1 Hf) as [f3 ->].
      eexists _, _, _. split; [done|]. destruct answers; [|cbn in Hlen; lia]. by unfold answered.
Qed.

(** What the filter admits has a key. *)
Lemma admitted_key rm pq md5 maker (h : H) prefix :
  isCacheableRequest h = true -> exists key, cacheKey rm pq md5 maker h prefix = Ok key.
Proof.
  unfold isCacheableRequest, inline_value, cacheKey, cacheKey_raw, entry_of.
  destruct (hm_get ":method" h), (hm_get ":path" h), (hm_get ":authority" h); cbn [head]; try done.
  intros _. destruct (exclude_path maker), (exclude_host maker); by eexists.
Qed.
End Lemmas.

(** ** Lemmas on handlers *)

(** Every handler is that of a configuration that is alive, and the map of ids
    agrees with the handlers. *)
Definition admin_inv (w : AdminWorld) : Prop :=
  ADMIN_HANDLER_UUID_MAP (admin w) = admin_handlers (admin w) /\
  NoDup (admin_handler_uuid_ <$> live w) /\
  Forall (fun c => admin_handler_uuid_ c ∈ used_ids w) (live w) /\
  admin_handlers (admin w) !! "" = None /\
  forall p u, admin_handlers (admin w) !! p = Some u ->
    exists c, c ∈ live w /\ final_apis_prefix_ c = p /\ admin_handler_uuid_ c = u.

Lemma app_not_empty root p : p ≠ "" -> root +:+ p ≠ "".
Proof. by destruct root. Qed.

Lemma admin_inv_step root w w' : admin_inv w -> admin_step root w w' -> admin_inv w'.
Proof.
  intros (Hmap & Hnd & Hused & Hempty & Hlive) Hstep. destruct Hstep as [p has random w Hfresh r|before c after_ w Heq].
  - subst r. unfold admin_inv. cbn [admin live used_ids].
    assert (Hnew : forall c, admin_handler_uuid_ c = random ->
      NoDup (admin_handler_uuid_ <$> c :: live w) /\
      Forall (fun c => admin_handler_uuid_ c ∈ random :: used_ids w) (c :: live w)).
    { intros c Hc. cbn. rewrite Hc. split.
      - constructor; [|done]. intros Hin. apply list_elem_of_fmap in Hin as (c' & -> & Hc').
        rewrite Forall_forall in Hused. by apply Hfresh, Hused.
      - constructor; [rewrite Hc; by left|]. eapply Forall_impl; [exact Hused|]. intros. by right. }
    unfold new_CommonCacheConfig. destruct (bool_decide (p = "") || negb has) eqn:Hb; cbn [fst snd].
    + split_and!; [done|by apply Hnew|by apply Hnew|done|]. intros p' u Hp.
      destruct (Hlive p' u Hp) as (c & Hc & ? & ?). exists c. split; [by right|done].
    + cbn [admin_handlers ADMIN_HANDLER_UUID_MAP]. rewrite Hmap. split_and!; [|by apply Hnew|by apply Hnew| |].
      * by rewrite insert_delete_eq.
      * apply orb_false_elim in Hb as [Hb _]. apply bool_decide_eq_false in Hb.
        rewrite lookup_insert_ne by (by apply app_not_empty). rewrite lookup_delete_ne by (by apply app_not_empty). done.
      * intros p' u. rewrite insert_delete_eq, lookup_insert_Some. intros [[<- <-]|[Hne Hp]].
        -- eexists. split; [by left|done].
        -- destruct (Hlive p' u Hp) as (c & Hc & ? & ?). exists c. split; [by right|done].
  - unfold admin_inv, delete_CommonCacheConfig. cbn [admin live used_ids]. rewrite Heq in *.
    assert (Hsub : NoDup (admin_handler_uuid_ <$> before ++ after_) /\
      Forall (fun c => admin_handler_uuid_ c ∈ used_ids w) (before ++ after_)).
    { rewrite fmap_app in *. rewrite fmap_cons in Hnd. apply NoDup_app in Hnd as (H1 & H2 & H3).
      apply NoDup_cons in H3 as [_ H3]. apply Forall_app in Hused as [H4 H5].
      apply Forall_cons in H5 as [_ H5]. split; [|by apply Forall_app].
      apply NoDup_app. split_and!; [done| |done]. intros x Hx Hx'. apply (H2 x Hx). by right. }
    destruct Hsub as [Hnd' Hused'].
    assert (Hothers : forall p u, admin_handlers (admin w) !! p = Some u -> p ≠ final_apis_prefix_ c \/ u ≠ admin_handler_uuid_ c ->
      exists c', c' ∈ before ++ after_ /\ final_apis_prefix_ c' = p /\ admin_handler_uuid_ c' = u).
    { intros p u Hp Hne. destruct (Hlive p u Hp) as (c' & Hc' & H1 & H2). exists c'. split; [|done].
      apply elem_of_app in Hc' as [?|Hc']; [set_solver|]. apply elem_of_cons in Hc' as [->|?]; [|set_solver].
      destruct Hne; congruence. }
    destruct (decide (final_apis_prefix_ c = "")) as [He|He]; [|case_decide as Hu]; cbn [admin_handlers ADMIN_HANDLER_UUID_MAP].
    + split_and!; [done..|]. intros p u Hp. apply Hothers; [done|]. left. rewrite He. intros ->. congruence.
    + rewrite Hmap. split_and!; [done|done|done|by rewrite lookup_delete_ne|].
      intros p u. rewrite lookup_delete_Some. intros [Hne Hp]. apply Hothers; [done|]. by left.
    + split_and!; [done..|]. intros p u Hp. apply Hothers; [done|].
      destruct (decide (p = final_apis_prefix_ c)) as [->|]; [|by left]. right. intros ->.
      apply Hu. by rewrite Hmap.
Qed.

Lemma admin_inv_reachable root w : rtc (admin_step root) new_AdminWorld w -> admin_inv w.
Proof.
  apply (rtc_ind_r (fun w => admin_inv w)).
  - split_and!; cbn; [done|constructor|constructor|done|]. intros p u. by rewrite lookup_empty.
  - intros. by eapply admin_inv_step.
Qed.

(** ** Properties *)

Section Properties.
Context {H : Type} `{HM : HeaderMap H}.
Context `{EC : CacheEntry (HttpCacheEntry H)} {C : Type} `{CC : CommonCacheBase (HttpCacheEntry H) C}.
Context {HeaderMatcher : Type}.
Variable matchHeaders : H -> list HeaderMatcher -> bool.
Variable caseFindToken : string -> string -> string -> bool.
Variable removeQueryAndFragment : string -> string.
Variable parseQueryString : string -> list (string * string).
Variable md5_hex : string -> string.
Variable regex_match : string -> string -> bool.

(** C34. A response that missed is stored once, as it came from the upstream: its
    headers without the service time and its whole body, however the body was cut
    into pieces; the client gets it with the cache key and the status MISS added. *)
Theorem super_cache_records (now : Z) (clock : nat -> Z) (h : H) (pieces : list string) (last : string)
    (config : RouteCacheConfig) (s : CacheRequestSender) (caches : list (string * C))
    (f : HttpCacheFilter) (w : CacheWorld) :
  recording matchHeaders caseFindToken h config s caches f w -> hit_in_caches_ f = false ->
  let stored b := insertResponse regex_match (cache_config_ config) now clock ""
    {| headers := hm_remove "x-envoy-upstream-service-time" h; body := b |} s caches in
  (exists f' w',
    encodeHeaders matchHeaders caseFindToken regex_match now clock h false f w
      = Ok (hm_addCopy "x-cache-status" "MISS" (hm_addCopy "x-cache-key" (cache_key_ s) h), f', w') /\
    used_caches_ w' = Some caches /\ miss_count w' = miss_count w + 1 /\
    caches_after (encode_body regex_match now clock pieces last f' w')
      = obind (stored (whole_body pieces last)) (fun r => Ok (Some r.2))) /\
  caches_after (encodeHeaders matchHeaders caseFindToken regex_match now clock h true f w)
    = obind (stored "") (fun r => Ok (Some r.2)).
Proof.
  intros (He & Hc & Hr & Hen & Hs & Hw & Hfill) Hhit stored. unfold encodeHeaders.
  rewrite He, Hc, Hr, Hen, Hfill. cbn [orb negb]. split.
  - cbn [obind fst snd set_response request_sender_ hit_in_caches_]. rewrite Hs, Hhit.
    eexists _, _. split; [done|]. split; [done|]. split; [done|].
    by rewrite (encode_body_stores regex_match now clock pieces last _ config s caches) by done.
  - unfold store_response. rewrite Hs, Hw. fold (stored ""). unfold caches_after.
    destruct (stored "") as [r|?|?|]; cbn; [|done..]. by rewrite Hhit.
Qed.

(** C22. A request the filter admits waits for the caches, and is then either
    answered once by the first cache that has its key, with that response, marked
    HIT and with the name of the cache, or sent upstream once when no cache has
    it; nothing happens twice and late answers change nothing. *)
Theorem super_cache_answers `{!HeaderMapLaws H} (now : Z) (clock : nat -> Z) (h : H) (end_stream : bool)
    (config : RouteCacheConfig) (caches : list (string * C)) (w : CacheWorld)
    (answers : list (option (HttpCacheEntry H))) (more : list lookup_event) :
  isCacheableRequest h = true -> checkEnable matchHeaders config h RQ = true ->
  low_level_fill_ config = false -> used_caches_ w = Some caches ->
  length answers = length caches -> caches ≠ [] ->
  exists key f, decodeHeaders matchHeaders removeQueryAndFragment parseQueryString md5_hex
      (Some (Some config)) h end_stream new_HttpCacheFilter w
    = Ok (if end_stream then StopIteration else StopAllIterationAndWatermark, f, [AskCache 0 key]) /\
  exists f' w' outs,
    filter_events matchHeaders caseFindToken regex_match now clock (map CacheAnswer answers ++ more) f w
      = Ok (f', w', outs) /\
    answered caches (first_hit 0 answers) w w' outs.
Proof.
  intros Hreq Hen Hl Hw Hlen Hne.
  destruct (admitted_key removeQueryAndFragment parseQueryString md5_hex (key_maker_config_ (cache_config_ config))
    h (cache_key_prefix_ (cache_config_ config)) Hreq) as [key Hkey].
  destruct (sent_waiting (H := H) (length caches) key) as [Hwait Hask]; [destruct caches; cbn; [done|lia]|].
  unfold decodeHeaders. rewrite Hreq, Hen, Hw, Hkey. cbn [negb obind].
  rewrite Hask. destruct (sendRequest (length caches) key new_CacheRequestSender).2 eqn:Hst.
  { unfold sendRequest, getter_lookupCache in Hst. destruct caches; [done|]. cbn in Hst. done. }
  eexists key, _. split; [done|]. apply (events_answered _ _ _ _ _ key 0).
  - split_and!; [done|done|by eexists|by eexists].
  - done.
  - intros ->. by destruct caches.
Qed.

(** With low level fill a response answered by a lower cache is stored in the
    caches above with the mark of this hit among its headers, so that the next
    answer from there carries two statuses and two cache names. *)
Theorem super_cache_fill_marks `{!HeaderMapLaws H} (now : Z) (clock : nat -> Z) (m : Message H) (name : string)
    (config : RouteCacheConfig) (s : CacheRequestSender) (caches : list (string * C))
    (f : HttpCacheFilter) (w : CacheWorld) :
  reqeustHitInCache s caches = Ok name -> low_level_fill_ config = true ->
  recording matchHeaders caseFindToken
    (hm_addCopy "x-cache-hit" name (hm_addCopy "x-cache-status" "HIT" (headers m))) config s caches f w ->
  exists stored,
    caches_after (obind (onSuccess matchHeaders caseFindToken regex_match now clock m f w)
        (fun r => Ok (r.2, r.1.2)))
      = obind (insertResponse regex_match (cache_config_ config) now clock "" stored s caches)
          (fun r => Ok (Some r.2)) /\
    body stored = body m /\
    hm_get "x-cache-status" (headers stored) = hm_get "x-cache-status" (headers m) ++ ["HIT"] /\
    hm_get "x-cache-hit" (headers stored) = hm_get "x-cache-hit" (headers m) ++ [name].
Proof.
  intros Hname Hfill (He & Hc & Hr & Hen & Hs & Hw & _).
  set (h := hm_addCopy "x-cache-hit" name _) in *.
  exists {| headers := hm_remove "x-envoy-upstream-service-time" h; body := body m |}.
  destruct (marked_hit_added name (headers m)) as (H1 & H2 & _). fold h in H1, H2.
  split; [|cbn [headers body]; by rewrite !get_remove_ne by done].
  unfold onSuccess, encodeHeaders, encodeData. rewrite Hs, Hw, Hname. cbn [obind]. fold h.
  cbn [enable_caches_ route_config_ request_sender_ hit_in_caches_]. rewrite He, Hc, Hr, Hen, Hfill.
  cbn [orb negb]. case_bool_decide as Hb.
  - unfold store_response. cbn [request_sender_ used_caches_]. rewrite Hb. unfold caches_after.
    by destruct (insertResponse _ _ _ _ _ _ _ _).
  - cbn. rewrite ?He, ?Hr. unfold store_response, caches_after. cbn [request_sender_ used_caches_ set_response].
    by destruct (insertResponse _ _ _ _ _ _ _ _).
Qed.
End Properties.

(** C38. Whatever configurations come and go, every administration handler that is
    installed belongs to a configuration that is alive, and it stays installed
    until that configuration is destroyed or a newer one takes its prefix: an old
    configuration never takes down the handler of its successor. *)
Theorem admin_handlers_live (root : string) (w w' : AdminWorld) (p : string) (u : nat) :
  rtc (admin_step root) new_AdminWorld w -> admin_handlers (admin w) !! p = Some u ->
  (exists c, c ∈ live w /\ final_apis_prefix_ c = p /\ admin_handler_uuid_ c = u) /\
  (admin_step root w w' ->
   admin_handlers (admin w') !! p = Some u \/
   (exists c, live w' = c :: live w /\ final_apis_prefix_ c = p) \/
   u ∉ admin_handler_uuid_ <$> live w').
Proof.
  intros Hr Hp. destruct (admin_inv_reachable root w Hr) as (Hmap & Hnd & _ & _ & Hlive).
  split; [by apply Hlive|]. intros Hstep. destruct Hstep as [p' has random w Hfresh r|before c after_ w Heq].
  - subst r. cbn [admin live]. unfold new_CommonCacheConfig. destruct (_ || _); cbn [fst snd admin_handlers];
      [by left|]. destruct (decide (p = root +:+ p')) as [->|Hne].
    + right. left. eexists. split; done.
    + left. by rewrite lookup_insert_ne, lookup_delete_ne.
  - cbn [admin live]. unfold delete_CommonCacheConfig. case_decide; [by left|].
    case_decide as Hu; cbn [admin_handlers]; [|by left].
    destruct (decide (p = final_apis_prefix_ c)) as [->|Hne]; [|left; by rewrite lookup_delete_ne].
    right. right. rewrite Hmap, Hp in Hu. injection Hu as ->. rewrite Heq in Hnd.
    rewrite fmap_app, fmap_cons in Hnd. apply NoDup_app in Hnd as (_ & H2 & H3).
    apply NoDup_cons in H3 as [H3 _]. rewrite fmap_app, elem_of_app. intros [Hx|Hx]; [|done].
    apply (H2 _ Hx). by left.
Qed.

(** ** Witnesses *)

Import Local.
#[local] Instance witness_entries : CacheEntry (HttpCacheEntry alist) :=
  HttpCacheEntry_CacheEntry (fun _ => "").

Definition no_match (h : alist) (l : list unit) : bool := false.
Definition no_token (s sep token : string) : bool := false.
Definition no_regex (s regex : string) : bool := false.

Definition witness_route (fill : bool) : RouteCacheConfig (HeaderMatcher := unit) :=
  {| enable_rqx_ := []; enable_rpx_ := []; low_level_fill_ := fill; cache_config_ := example_ttl |}.

Definition witness_caches : list (string * LocalCache (HttpCacheEntry alist)) :=
  [("LocalCache", new_LocalCache (Some 1600)); ("RedisCache", new_LocalCache (Some 1600))].
Definition witness_world : CacheWorld :=
  {| used_caches_ := Some witness_caches; hit_count := 0; miss_count := 0 |}.

Definition witness_filter (fill hit : bool) (s : CacheRequestSender) : HttpCacheFilter (H := alist) :=
  {| response_to_cache_ := None; cache_suspend_ := false; enable_caches_ := true; hit_in_caches_ := hit;
     route_config_ := Some (witness_route fill); request_sender_ := Some s |}.

Definition witness_response : alist :=
  [(":status", "200"); ("x-envoy-upstream-service-time", "7"); ("a", "b")].

Lemma super_cache_records_witness :
  caches_after (encodeHeaders no_match no_token no_regex 1000 (fun _ => 1000) witness_response true
      (witness_filter false false example_sender) witness_world)
    = obind (insertResponse no_regex example_ttl 1000 (fun _ => 1000) ""
        {| headers := [(":status", "200"); ("a", "b")]; body := "" |} example_sender witness_caches)
        (fun r => Ok (Some r.2)).
Proof.
  refine (proj2 (super_cache_records no_match no_token no_regex 1000 (fun _ => 1000) witness_response
    ["x"] "y" (witness_route false) example_sender witness_caches (witness_filter false false example_sender)
    witness_world _ eq_refl)).
  by split_and!.
Defined.

Definition witness_request : alist := [(":method", "GET"); (":authority", "h"); (":path", "/p")].

Lemma super_cache_answers_witness :
  exists key f, decodeHeaders (HeaderMatcher := unit) no_match (fun p => p) (fun _ => []) (fun s => s)
      (Some (Some (witness_route false))) witness_request true new_HttpCacheFilter witness_world
    = Ok (StopIteration, f, [AskCache 0 key]) /\
  exists f' w' outs,
    filter_events no_match no_token no_regex 1000 (fun _ => 1000)
        (map CacheAnswer [None; Some (sample_entry_of "abc")] ++ [CacheAnswer None; CancelLookup]) f witness_world
      = Ok (f', w', outs) /\
    answered witness_caches (first_hit 0 [None; Some (sample_entry_of "abc")]) witness_world w' outs.
Proof.
  apply (super_cache_answers no_match no_token (fun p => p) (fun _ => []) (fun s => s) no_regex 1000
    (fun _ => 1000) witness_request true (witness_route false) witness_caches witness_world
    [None; Some (sample_entry_of "abc")] [CacheAnswer None; CancelLookup]); done.
Defined.

(** A sender that found its key in the second cache. *)
Definition hit_sender : CacheRequestSender :=
  {| has_cache_key_ := true; cache_key_ := "k"; lookup_cache_over_ := true; lookup_cache_stop_ := false;
     hit_in_cache_ := 1; current_cache_ := 1; callback_ := true; origin_callback_ := true; pending := 0 |}.
Definition cached_response : Message alist :=
  {| headers := [(":status", "200"); ("x-cache-status", "HIT"); ("x-cache-hit", "LocalCache")]; body := "abc" |}.

Lemma super_cache_fill_marks_witness :
  exists stored,
    caches_after (obind (onSuccess no_match no_token no_regex 1000 (fun _ => 1000) cached_response
        (witness_filter true false hit_sender) witness_world) (fun r => Ok (r.2, r.1.2)))
      = obind (insertResponse no_regex example_ttl 1000 (fun _ => 1000) "" stored hit_sender witness_caches)
          (fun r => Ok (Some r.2)) /\
    body stored = "abc" /\
    hm_get "x-cache-status" (headers stored) = hm_get "x-cache-status" (headers cached_response) ++ ["HIT"] /\
    hm_get "x-cache-hit" (headers stored) = hm_get "x-cache-hit" (headers cached_response) ++ ["RedisCache"].
Proof.
  apply (super_cache_fill_marks no_match no_token no_regex 1000 (fun _ => 1000) cached_response "RedisCache"
    (witness_route true) hit_sender witness_caches (witness_filter true false hit_sender) witness_world);
    [reflexivity|reflexivity|by split_and!].
Defined.

Definition handler_config (u : nat) : HandlerConfig :=
  {| final_apis_prefix_ := "/httpfilter/super_cache/p"; admin_handler_uuid_ := u |}.
Definition two_configs : AdminWorld :=
  {| admin := (new_CommonCacheConfig super_cache_root "p" true 2 (new_CommonCacheConfig super_cache_root "p" true 1 (admin new_AdminWorld)).2).2;
     live := [handler_config 2; handler_config 1]; used_ids := [2; 1]%nat |}.

Lemma admin_handlers_live_witness :
  (exists c, c ∈ live two_configs /\ final_apis_prefix_ c = "/httpfilter/super_cache/p" /\
     admin_handler_uuid_ c = 2%nat) /\
  (admin_step super_cache_root two_configs
     {| admin := delete_CommonCacheConfig (handler_config 1) (admin two_configs);
        live := [handler_config 2]; used_ids := [2; 1]%nat |} ->
   admin_handlers (delete_CommonCacheConfig (handler_config 1) (admin two_configs))
     !! "/httpfilter/super_cache/p" = Some 2%nat \/
   (exists c, [handler_config 2] = c :: live two_configs /\ final_apis_prefix_ c = "/httpfilter/super_cache/p") \/
   (2 ∉ admin_handler_uuid_ <$> [handler_config 2])%nat).
Proof.
  apply (admin_handlers_live super_cache_root two_configs
    {| admin := delete_CommonCacheConfig (handler_config 1) (admin two_configs);
       live := [handler_config 2]; used_ids := [2; 1]%nat |} "/httpfilter/super_cache/p" 2).
  - eapply rtc_l; [apply (config_created super_cache_root "p" true 1); cbn; set_solver|].
    eapply rtc_l; [apply (config_created super_cache_root "p" true 2); cbn; set_solver|]. apply rtc_refl.
  - vm_compute. reflexivity.
Defined.
