(* ===== verification/CacheService.v ===== *)
(** * The response cache as a service
      (source/filters/http/super_cache, source/common/sender, source/common/cache together)

    Many streams share the caches of a configuration.  A stream looks its request up, cache after
    cache; what a cache finds is posted and delivered later, in any order with the responses of other
    streams, with their destruction and with the removal of keys.  The caches are used through their
    interface.  The theorems are about every interleaving: what is served was recorded whole for a
    request with the same key, no stream waits for nothing, and no event fails. *)

From S2P Require Import Prelude Decimal Json Http CacheBase HttpCacheEntry LocalCache CacheSender SuperCache.
From stdpp Require Import base gmap strings numbers list.
Import HttpEntry.
#[local] Open Scope Z_scope.

Section Service.
Context {H : Type} `{HM : HeaderMap H} `{HL : !HeaderMapLaws H}.
#[local] Abbreviation entry := (HttpCacheEntry H).
Context (write : list wevent -> string).
#[local] Instance service_entries : CacheEntry entry := HttpCacheEntry_CacheEntry write.
Context {C : Type} `{CC : CommonCacheBase entry C}.
Context {HeaderMatcher : Type}.
Variable matchHeaders : H -> list HeaderMatcher -> bool.
Variable caseFindToken : string -> string -> string -> bool.
Variable removeQueryAndFragment : string -> string.
Variable parseQueryString : string -> list (string * string).
Variable md5_hex : string -> string.
Variable regex_match : string -> string -> bool.

#[local] Abbreviation CacheList := (list (string * C)).
#[local] Abbreviation filter := (HttpCacheFilter (H := H) (HeaderMatcher := HeaderMatcher)).
#[local] Abbreviation RouteConfig := (RouteCacheConfig (HeaderMatcher := HeaderMatcher)).

(** ** Streams *)

(** Waiting for the caches; sent upstream; with the headers and the part of the body that have come
    from there; answered or gone. *)
Inductive Phase := Looking | Passed | Replying (h : H) (part : string) | Over.

Record Stream := {
  request_ : H;
  filter_ : filter;
  posted_ : list (option entry);
  phase_ : Phase;
}.

(** [responses_]: the responses that came whole, each with its request and the key it was recorded under. *)
Record Service := {
  world_ : CacheWorld (C := C);
  streams_ : gmap nat Stream;
  responses_ : list (H * string * Message H);
}.

Definition caches_of (w : CacheWorld (C := C)) : CacheList := default [] (used_caches_ w).
Definition set_caches (l : CacheList) (w : CacheWorld (C := C)) : CacheWorld :=
  match used_caches_ w with
  | Some _ => {| used_caches_ := Some l; hit_count := hit_count w; miss_count := miss_count w |}
  | None => w
  end.

(** The lookups a sender asks for, at time [now]; the results are posted to its thread. *)
Fixpoint ask_caches (now : Z) (cs : list (call (H := H))) (caches : CacheList) :
  outcome (list (option entry) * CacheList) :=
  match cs with
  | [] => Ok ([], caches)
  | AskCache i key :: cs' =>
      match caches !! i with
      | Some level =>
          obind (lookupCache now key level.2) (fun r =>
          obind (ask_caches now cs' (<[i := (level.1, r.2)]> caches)) (fun r' => Ok (r.1 :: r'.1, r'.2)))
      | None => Undefined "used_caches_ out of range"
      end
  | _ :: cs' => ask_caches now cs' caches
  end.

(** ** Events *)

Inductive event :=
| Request (id : nat) (h : H) (route : option (option RouteConfig)) (end_stream : bool)
| Deliver (id : nat)
| ResponseHeaders (id : nat) (h : H) (end_stream : bool)
| ResponseData (id : nat) (data : string) (end_stream : bool)
| Destroy (id : nat)
| RemoveKeys (keys : list string).

Definition put (id : nat) (st : Stream) (w : CacheWorld) (rs : list (H * string * Message H)) (s : Service) : Service :=
  {| world_ := w; streams_ := <[id := st]> (streams_ s); responses_ := rs |}.

Definition recorded (st : Stream) (h : H) (b : string) (s : Service) : list (H * string * Message H) :=
  match request_sender_ (filter_ st) with
  | Some sender => (request_ st, cache_key_ sender, {| headers := h; body := b |}) :: responses_ s
  | None => responses_ s
  end.

Definition phase_after (outs : list (output (H := H))) (p : Phase) : Phase :=
  match outs with
  | ContinueDecoding :: _ => Passed
  | EncodeHeaders _ _ :: _ => Over
  | _ => p
  end.

(** What the sender of a stream asks for when it gets an answer. *)
Definition asked_after (a : option entry) (f : filter) (w : CacheWorld (C := C)) : list (call (H := H)) :=
  match request_sender_ f, used_caches_ w with
  | Some sender, Some caches => (lookup_step (length caches) sender (CacheAnswer a)).2
  | _, _ => []
  end.

(** Events the host does not deliver change nothing: a second request of a stream, parts of a response
    that did not start, a response to a stream that waits for the caches. *)
Definition service_step (now : Z) (clock : nat -> Z) (e : event) (s : Service) :
  outcome (Service * list (output (H := H))) :=
  match e with
  | Request id h route end_stream =>
      match streams_ s !! id with
      | Some _ => Ok (s, [])
      | None =>
          obind (decodeHeaders matchHeaders removeQueryAndFragment parseQueryString md5_hex route h end_stream
                   new_HttpCacheFilter (world_ s)) (fun r =>
          obind (ask_caches now r.2 (caches_of (world_ s))) (fun q =>
          Ok (put id {| request_ := h; filter_ := r.1.2; posted_ := q.1;
                        phase_ := if decide (r.1.1 = Continue) then Passed else Looking |}
                (set_caches q.2 (world_ s)) (responses_ s) s, [])))
      end
  | Deliver id =>
      match streams_ s !! id with
      | Some st =>
          match posted_ st with
          | a :: rest =>
              obind (filter_event matchHeaders caseFindToken regex_match now clock (CacheAnswer a) (filter_ st) (world_ s))
                (fun r =>
              obind (ask_caches now (asked_after a (filter_ st) (world_ s)) (caches_of r.1.2)) (fun q =>
              Ok (put id {| request_ := request_ st; filter_ := r.1.1; posted_ := rest ++ q.1;
                            phase_ := phase_after r.2 (phase_ st) |}
                    (set_caches q.2 r.1.2) (responses_ s) s, r.2)))
          | [] => Ok (s, [])
          end
      | None => Ok (s, [])
      end
  | ResponseHeaders id h end_stream =>
      match streams_ s !! id with
      | Some st =>
          match phase_ st with
          | Passed =>
              obind (encodeHeaders matchHeaders caseFindToken regex_match now clock h end_stream (filter_ st) (world_ s))
                (fun r =>
              Ok (put id {| request_ := request_ st; filter_ := r.1.2; posted_ := posted_ st;
                            phase_ := if end_stream then Over else Replying h "" |}
                    r.2 (if end_stream then recorded st h "" s else responses_ s) s, [EncodeHeaders r.1.1 end_stream]))
          | _ => Ok (s, [])
          end
      | None => Ok (s, [])
      end
  | ResponseData id data end_stream =>
      match streams_ s !! id with
      | Some st =>
          match phase_ st with
          | Replying h part =>
              obind (encodeData regex_match now clock data end_stream (filter_ st) (world_ s)) (fun r =>
              Ok (put id {| request_ := request_ st; filter_ := r.1; posted_ := posted_ st;
                            phase_ := if end_stream then Over else Replying h (part +:+ data) |}
                    r.2 (if end_stream then recorded st h (part +:+ data) s else responses_ s) s,
                  [EncodeData data end_stream]))
          | _ => Ok (s, [])
          end
      | None => Ok (s, [])
      end
  | Destroy id =>
      match streams_ s !! id with
      | Some st =>
          Ok (put id {| request_ := request_ st; filter_ := onDestroy (filter_ st); posted_ := posted_ st; phase_ := Over |}
                (world_ s) (responses_ s) s, [])
      | None => Ok (s, [])
      end
  | RemoveKeys keys =>
      obind (remove_keys keys (caches_of (world_ s))) (fun l =>
      Ok ({| world_ := set_caches l (world_ s); streams_ := streams_ s; responses_ := responses_ s |}, []))
  end.

Definition new_Service (caches : CacheList) : Service :=
  {| world_ := {| used_caches_ := Some caches; hit_count := 0; miss_count := 0 |}; streams_ := ∅; responses_ := [] |}.

(** ** Genuine entries *)

Context `{CS : !CommonCacheSafety entry C}.

(** What the filter and the caches change of a response. *)
Definition volatile : list string :=
  ["x-cache-status"; "x-cache-hit"; "x-cache-key"; "x-envoy-upstream-service-time"; "content-length"; "transfer-encoding"].

Definition same_headers (h0 h : H) : Prop := forall k, k ∉ volatile -> hm_get k h = hm_get k h0.

Definition genuine (rs : list (H * string * Message H)) (key : string) (m : Message H) : Prop :=
  exists r m0, (r, key, m0) ∈ rs /\ same_headers (headers m0) (headers m) /\ body m = body m0.
Definition genuine_entry (rs : list (H * string * Message H)) (key : string) (e : entry) : Prop :=
  exists m, cache_message_ e = Some m /\ genuine rs key m.

Lemma same_headers_refl h : same_headers h h.
Proof. done. Qed.
Lemma same_headers_trans h1 h2 h3 : same_headers h1 h2 -> same_headers h2 h3 -> same_headers h1 h3.
Proof. intros H12 H23 k Hk. by rewrite H23, H12. Qed.
Lemma same_headers_add k v h : k ∈ volatile -> same_headers h (hm_addCopy k v h).
Proof. intros Hk k' Hk'. apply get_add_ne. by intros ->. Qed.
Lemma same_headers_set k v h : k ∈ volatile -> same_headers h (hm_set k v h).
Proof. intros Hk k' Hk'. apply get_set_ne. by intros ->. Qed.
Lemma same_headers_remove k h : k ∈ volatile -> same_headers h (hm_remove k h).
Proof. intros Hk k' Hk'. apply get_remove_ne. by intros ->. Qed.

Lemma genuine_same rs key h h' b :
  genuine rs key {| headers := h; body := b |} -> same_headers h h' -> genuine rs key {| headers := h'; body := b |}.
Proof. intros (r & m0 & Hin & Hh & Hb) Hs. exists r, m0. split_and!; [done| |done]. by eapply same_headers_trans. Qed.

Lemma genuine_more rs rs' key m : rs ⊆ rs' -> genuine rs key m -> genuine rs' key m.
Proof. intros Hsub (r & m0 & Hin & Hrest). exists r, m0. split; [by apply Hsub|done]. Qed.

Lemma genuine_copy rs key e e' : genuine_entry rs key e -> createCopy e = Some e' -> genuine_entry rs key e'.
Proof.
  intros (m & Hm & Hg) Hc. cbn in Hc. unfold entry_createCopy in Hc. rewrite Hm in Hc. injection Hc as <-.
  exists (makeMessageCopy m). split; [done|]. destruct m as [h b]. unfold makeMessageCopy. cbn [headers body].
  assert (Hs : forall v, same_headers h (hm_set "content-length" v (hm_remove "transfer-encoding" h))).
  { intros v. eapply same_headers_trans; [apply same_headers_remove|apply same_headers_set]; unfold volatile; set_solver. }
  destruct b as [|a b]; [exact (genuine_same _ _ _ _ _ Hg (Hs _))|].
  destruct (Z.leb_spec (Z.of_nat (String.length (String a b))) 0) as [Hle|_]; [cbn in Hle; lia|exact (genuine_same _ _ _ _ _ Hg (Hs _))].
Qed.

Lemma genuine_expire rs key z e : genuine_entry rs key e -> genuine_entry rs key (setCacheExpire z e).
Proof. done. Qed.

(** ** Caches that hold genuine entries *)

Definition caches_ok (rs : list (H * string * Message H)) (caches : CacheList) : Prop :=
  Forall (fun level => holds_only (genuine_entry rs) level.2) caches.

Definition world_ok (rs : list (H * string * Message H)) (n : nat) (w : CacheWorld (C := C)) : Prop :=
  exists caches, used_caches_ w = Some caches /\ length caches = n /\ caches_ok rs caches.

Lemma caches_more rs rs' caches : rs ⊆ rs' -> caches_ok rs caches -> caches_ok rs' caches.
Proof.
  intros Hsub HF. eapply Forall_impl; [exact HF|]. intros level. apply holds_weaken.
  intros k e (m & Hm & Hg). exists m. split; [done|]. by eapply genuine_more.
Qed.

Lemma insert_loop_safe rs config now clock key code n i e caches :
  caches_ok rs caches -> genuine_entry rs key e ->
  exists l, insert_loop regex_match config now clock key code n i e caches = Ok l /\
    length l = length caches /\ caches_ok rs l.
Proof.
  intros Hc He. revert i. induction Hc as [|level rest Hl Hr IH]; intros i; cbn [insert_loop]; [by eexists; split_and!; [..|constructor]|].
  destruct (i <? n)%nat; [|eexists; split; [done|]; split; [done|by constructor]].
  set (copy := if (i =? n - 1)%nat then Some e else createCopy e).
  assert (Hcopy : forall e', copy = Some e' -> genuine_entry rs key e').
  { unfold copy. intros e'. destruct (i =? n - 1)%nat; [by intros [= <-]|]. by apply genuine_copy. }
  destruct (IH (S i)) as (l & -> & Hlen & Hl').
  assert (Hins : exists c, match copy with
      | Some copy => if cacheTTL regex_match config level.1 code =? 0 then Ok level.2
                     else insertCache (clock i) key (setCacheExpire (u64 (now + cacheTTL regex_match config level.1 code)) copy) level.2
      | None => Ok level.2
      end = Ok c /\ holds_only (genuine_entry rs) c).
  { destruct copy as [e'|]; [|by eexists]. destruct (_ =? 0); [by eexists|].
    apply holds_insert; [done|]. by apply genuine_expire, Hcopy. }
  destruct Hins as (c & -> & Hc'). cbn [obind]. eexists. split; [done|]. split; [by cbn; rewrite Hlen|by constructor].
Qed.

Lemma insertResponse_safe rs config now clock message s caches :
  caches_ok rs caches -> has_cache_key_ s = true -> genuine rs (cache_key_ s) message ->
  exists l, insertResponse regex_match config now clock "" message s caches = Ok (s, l) /\
    length l = length caches /\ caches_ok rs l.
Proof.
  intros Hc Hk Hg. unfold insertResponse, setCacheKey. rewrite Hk. destruct (_ <? _); [by eexists; split_and!|].
  unfold insert_entry.
  edestruct (insert_loop_safe rs config now clock (cache_key_ s)) as (l & -> & Hl); [done|by exists message|].
  cbn [obind]. by eexists.
Qed.

Lemma store_response_safe rs n now clock message config s (f : filter) (w : CacheWorld (C := C)) :
  world_ok rs n w -> request_sender_ f = Some s -> has_cache_key_ s = true -> genuine rs (cache_key_ s) message ->
  exists m w', store_response regex_match now clock message config f w = Ok (set_response m (set_sender (Some s) f), w') /\
    world_ok rs n w'.
Proof.
  intros (caches & Hu & Hn & Hc) Hs Hk Hg. unfold store_response. rewrite Hs, Hu.
  edestruct (insertResponse_safe rs (cache_config_ config) now clock message s caches) as (l & -> & Hl & Hok); [done..|].
  cbn [obind fst snd]. eexists _, _. split; [done|]. exists l. split_and!; [done|congruence|done].
Qed.

Lemma remove_keys_safe rs keys caches :
  caches_ok rs caches -> exists l, remove_keys keys caches = Ok l /\ length l = length caches /\ caches_ok rs l.
Proof.
  revert caches. induction keys as [|key keys IH]; intros caches Hc; cbn [remove_keys]; [by eexists; split_and!|].
  assert (Hall : forall key, exists l, remove_all key caches = Ok l /\ length l = length caches /\ caches_ok rs l).
  { intros k. clear IH. induction Hc as [|level rest Hl _ IHc]; cbn [remove_all]; [by eexists; split_and!; [..|constructor]|].
    destruct (holds_remove _ k _ Hl) as (c & -> & Hc). destruct IHc as (l & -> & Hlen & Hok). cbn [obind].
    eexists. split; [done|]. split; [by cbn; rewrite Hlen|by constructor]. }
  unfold remove_key, removeResponse.
  destruct (Hall (cache_key_ (setCacheKey key new_CacheRequestSender))) as (l & -> & Hlen & Hok). cbn [obind snd].
  destruct (IH l Hok) as (l' & -> & Hlen' & Hok'). exists l'. split_and!; [done|congruence|done].
Qed.

Lemma ask_one rs now i key caches :
  caches_ok rs caches -> (i < length caches)%nat ->
  exists a l, ask_caches now [AskCache i key] caches = Ok ([a], l) /\ length l = length caches /\ caches_ok rs l /\
    forall e, a = Some e -> genuine_entry rs key e.
Proof.
  intros Hc Hi. destruct (lookup_lt_is_Some_2 caches i Hi) as [level Hlevel]. cbn [ask_caches]. rewrite Hlevel.
  destruct (holds_lookup _ now key level.2 (Forall_lookup_1 _ _ _ _ Hc Hlevel)) as (a & c & -> & Hc' & Ha). cbn [obind fst snd].
  eexists _, _. split; [done|]. split; [by rewrite length_insert|]. split; [by apply Forall_insert|].
  intros e He. destruct (Ha e He) as (e0 & Hg & Hcopy & _). by eapply genuine_copy.
Qed.

Lemma ask_none now cs caches : Forall (fun c => is_terminal c = true) cs -> ask_caches now cs caches = Ok ([], caches).
Proof. induction 1 as [|c cs Hc _ IH]; [done|]. by destruct c. Qed.
(** ** What the filter does with caches that are right *)

Definition keyed (f : filter) : Prop := forall s, request_sender_ f = Some s -> has_cache_key_ s = true.
Definition ready (f : filter) : Prop :=
  enable_caches_ f = true -> is_Some (request_sender_ f) /\ is_Some (route_config_ f).
Definition kept_filter (f f' : filter) : Prop :=
  request_sender_ f' = request_sender_ f /\ route_config_ f' = route_config_ f /\
  (enable_caches_ f' = true -> enable_caches_ f = true).

Lemma kept_refl f : kept_filter f f.
Proof. done. Qed.
Lemma kept_trans f1 f2 f3 : kept_filter f1 f2 -> kept_filter f2 f3 -> kept_filter f1 f3.
Proof. intros (H1 & H2 & H3) (H4 & H5 & H6). split_and!; [congruence|congruence|auto]. Qed.
Lemma kept_ready f f' : kept_filter f f' -> ready f -> ready f'.
Proof. intros (Hs & Hr & He) Hf Hen. rewrite Hs, Hr. auto. Qed.
Lemma kept_keyed f f' : kept_filter f f' -> keyed f -> keyed f'.
Proof. intros (Hs & _) Hf s. rewrite Hs. apply Hf. Qed.

Definition stored_headers (h : H) : H := hm_remove "x-envoy-upstream-service-time" h.
Lemma stored_same h : same_headers h (stored_headers h).
Proof. apply same_headers_remove. unfold volatile. set_solver. Qed.

(** A whole response, as it is stored. *)
Definition whole (rs : list (H * string * Message H)) (f : filter) (h : H) (b : string) : Prop :=
  forall s, request_sender_ f = Some s -> genuine rs (cache_key_ s) {| headers := h; body := b |}.

Lemma whole_same rs f h h' b : whole rs f h b -> same_headers h h' -> whole rs f h' b.
Proof. intros Hw Hs s Hf. eapply genuine_same; [by apply Hw|done]. Qed.

Lemma whole_kept rs f f' h b : kept_filter f f' -> whole rs f h b -> whole rs f' h b.
Proof. intros (Hs & _) Hw s. rewrite Hs. apply Hw. Qed.

Lemma set_same_sender s (f : filter) : request_sender_ f = Some s -> set_sender (Some s) f = f.
Proof. destruct f; cbn. by intros ->. Qed.

Lemma encodeHeaders_safe rs n now clock h es (f : filter) (w : CacheWorld (C := C)) :
  world_ok rs n w -> ready f -> keyed f -> (es = true -> whole rs f h "") ->
  exists h' f' w', encodeHeaders matchHeaders caseFindToken regex_match now clock h es f w = Ok (h', f', w') /\
    world_ok rs n w' /\ kept_filter f f' /\ same_headers h h' /\
    (exists l, hm_get "x-cache-status" h' = hm_get "x-cache-status" h ++ l) /\
    (es = false -> response_to_cache_ f' = response_to_cache_ f \/
       enable_caches_ f' = true /\ response_to_cache_ f' = Some {| headers := stored_headers h; body := "" |}).
Proof.
  intros Hw Hready Hkeyed Hwhole. unfold encodeHeaders.
  destruct (enable_caches_ f) eqn:Hen; cbn [negb orb]; [|eexists _, _, _; split_and!; [done..|exists []; by rewrite app_nil_r|by left]].
  destruct (Hready Hen) as [[s Hs] [config Hr]]. rewrite Hr.
  destruct (negb (isCacheableResponse caseFindToken h)); [eexists _, _, _; split_and!; [done..|exists []; by rewrite app_nil_r|by left]|].
  destruct (negb (checkEnable matchHeaders config h RP)); [eexists _, _, _; split_and!; [done..|exists []; by rewrite app_nil_r|by left]|].
  set (stored := if low_level_fill_ config || negb (hit_in_caches_ f) then _ else _).
  assert (Hstored : exists f1 w1, stored = Ok (f1, w1) /\ world_ok rs n w1 /\ kept_filter f f1 /\ enable_caches_ f1 = true /\
    (es = false -> response_to_cache_ f1 = response_to_cache_ f \/
                   response_to_cache_ f1 = Some {| headers := stored_headers h; body := "" |})).
  { unfold stored. destruct (_ || _); [|eexists _, _; split_and!; [done|done|done|done|by left]]. destruct es.
    - edestruct (store_response_safe rs n now clock {| headers := stored_headers h; body := "" |} config s f w)
        as (m & w' & Heq & Hw'); [done|done|by apply Hkeyed| |].
      + eapply genuine_same; [by apply Hwhole|apply stored_same].
      + rewrite (set_same_sender s) in Heq by done. exists (set_response m f), w'. by split_and!.
    - eexists _, _. split_and!; [done|done|done|done|by right]. }
  destruct Hstored as (f1 & w1 & -> & Hw1 & Hk & Hen1 & Hresp). cbn [obind fst snd].
  destruct Hk as (Hs1 & Hr1 & He1). rewrite Hs1, Hs.
  assert (Hkey : same_headers h (hm_addCopy "x-cache-key" (cache_key_ s) h)) by (apply same_headers_add; unfold volatile; set_solver).
  destruct (hit_in_caches_ f1); (eexists _, _, _; split_and!; [done| | | | |intros Hes; destruct (Hresp Hes); [by left|by right]]).
  - done.
  - by split_and!.
  - done.
  - exists []. by rewrite get_add_ne, app_nil_r by done.
  - destruct Hw1 as (caches & Hu & Hrest). by exists caches.
  - by split_and!.
  - eapply same_headers_trans; [exact Hkey|]. apply same_headers_add. unfold volatile. set_solver.
  - exists ["MISS"]. by rewrite get_add_own, get_add_ne by set_solver.
Qed.

Lemma encodeData_safe rs n now clock data es (f : filter) (w : CacheWorld (C := C)) :
  world_ok rs n w -> ready f -> keyed f ->
  (es = true -> forall m, response_to_cache_ f = Some m -> enable_caches_ f = true ->
     whole rs f (headers m) (body m +:+ data)) ->
  exists f' w', encodeData regex_match now clock data es f w = Ok (f', w') /\
    world_ok rs n w' /\ kept_filter f f' /\ enable_caches_ f' = enable_caches_ f /\
    (es = false -> enable_caches_ f = true ->
       response_to_cache_ f' = (fun m => {| headers := headers m; body := body m +:+ data |}) <$> response_to_cache_ f) /\
    (enable_caches_ f = false -> response_to_cache_ f' = response_to_cache_ f).
Proof.
  intros Hw Hready Hkeyed Hwhole. unfold encodeData.
  destruct (enable_caches_ f) eqn:Hen; [|eexists _, _; by split_and!].
  destruct (response_to_cache_ f) as [m|] eqn:Hm; [|exists f, w; split_and!; try done; by rewrite Hm].
  destruct es; [|eexists _, _; by split_and!].
  destruct (Hready Hen) as [[s Hs] [config Hr]]. rewrite Hr.
  edestruct (store_response_safe rs n now clock {| headers := headers m; body := body m +:+ data |} config s f w)
    as (m' & w' & Heq & Hw'); [done|done|by apply Hkeyed|by eapply Hwhole|].
  rewrite (set_same_sender s) in Heq by done. exists (set_response m' f), w'. by split_and!.
Qed.

(** What a stream sends when a cache had its key: a genuine response, marked. *)
Definition serves (rs : list (H * string * Message H)) (key : string) (outs : list (output (H := H))) : Prop :=
  exists h b, genuine rs key {| headers := h; body := b |} /\ hm_get "x-cache-status" h <> [] /\
    outs = if bool_decide (b = "") then [EncodeHeaders h true] else [EncodeHeaders h false; EncodeData b true].

Lemma onSuccess_safe rs n now clock m s i (f : filter) (w : CacheWorld (C := C)) :
  world_ok rs n w -> request_sender_ f = Some s -> has_cache_key_ s = true -> is_Some (route_config_ f) ->
  response_to_cache_ f = None -> genuine rs (cache_key_ s) m -> hit_in_cache_ s = Z.of_nat i -> (i < n)%nat ->
  exists f' w' outs, onSuccess matchHeaders caseFindToken regex_match now clock m f w = Ok (f', w', outs) /\
    world_ok rs n w' /\ request_sender_ f' = Some s /\ is_Some (route_config_ f') /\ serves rs (cache_key_ s) outs.
Proof.
  intros Hw Hs Hk Hroute Hnone Hg Hhit Hi. unfold onSuccess. destruct Hw as (caches & Hu & Hn & Hc). rewrite Hs, Hu.
  destruct (lookup_lt_is_Some_2 caches i) as [level Hlevel]; [lia|].
  assert (Hname : reqeustHitInCache s caches = Ok level.1).
  { unfold reqeustHitInCache. rewrite Hhit, Nat2Z.id, Hlevel. by destruct (Z.eqb_spec (Z.of_nat i) (-1)); [lia|]. }
  rewrite Hname. cbn [obind].
  set (f1 := Build_HttpCacheFilter _ _ _ _ _ _). set (w1 := Build_CacheWorld _ _ _).
  set (h1 := hm_addCopy "x-cache-hit" level.1 _).
  assert (Hw1 : world_ok rs n w1) by (by exists caches).
  assert (Hready : ready f1) by (unfold ready, f1; cbn; rewrite ?Hs; by eauto).
  assert (Hkeyed : keyed f1) by (unfold keyed, f1; intros s'; cbn; rewrite ?Hs; by intros [= <-]).
  assert (Hsame : same_headers (headers m) h1).
  { eapply same_headers_trans; apply same_headers_add; unfold volatile; set_solver. }
  assert (Hmark : hm_get "x-cache-status" h1 <> []).
  { unfold h1. rewrite get_add_ne, get_add_own by set_solver. by destruct (hm_get _ _). }
  assert (Hwhole : whole rs f1 h1 (body m)).
  { unfold whole, f1. intros s'. cbn. rewrite ?Hs. intros [= <-]. destruct m as [h b]. by eapply genuine_same. }
  edestruct (encodeHeaders_safe rs n now clock h1 (bool_decide (body m = "")) f1 w1)
    as (h' & f2 & w2 & -> & Hw2 & Hkept & Hsame' & (l & Hl) & Hresp); [done..| |].
  { intros Hb. apply bool_decide_eq_true in Hb. by rewrite <- Hb. }
  cbn [obind fst snd]. assert (Hserved : genuine rs (cache_key_ s) {| headers := h'; body := body m |}).
  { eapply genuine_same; [apply (Hwhole s eq_refl)|done]. }
  assert (Hmark' : hm_get "x-cache-status" h' <> []) by (rewrite Hl; by destruct (hm_get "x-cache-status" h1)).
  destruct Hkept as (Hs2 & Hr2 & He2). destruct (bool_decide (body m = "")) eqn:Hb.
  - eexists f2, w2, _. split_and!; [done|done|by rewrite Hs2|by rewrite Hr2|]. exists h', (body m). by rewrite Hb.
  - edestruct (encodeData_safe rs n now clock (body m) true f2 w2) as (f3 & w3 & -> & Hw3 & (Hs3 & Hr3 & _) & _).
    + done.
    + by apply (kept_ready f1).
    + by apply (kept_keyed f1).
    + intros _ m' Hm' Hen'. destruct (Hresp eq_refl) as [Hno|[_ Hyes]].
      * rewrite Hno in Hm'. cbn in Hm'. by rewrite Hnone in Hm'.
      * rewrite Hyes in Hm'. injection Hm' as <-. cbn [headers body].
        intros s'. rewrite Hs2. intros Hs'. eapply genuine_same; [by apply Hwhole|apply stored_same].
    + cbn [obind fst snd]. eexists f3, w3, _. split_and!; [done|done|by rewrite Hs3, Hs2|by rewrite Hr3, Hr2|].
      exists h', (body m). by rewrite Hb.
Qed.

(** ** The invariant of the service *)

Definition key_of (config : RouteConfig) (r : H) : outcome string :=
  cacheKey removeQueryAndFragment parseQueryString md5_hex (key_maker_config_ (cache_config_ config)) r
    (cache_key_prefix_ (cache_config_ config)).

Definition quiet (f : filter) : Prop := forall s, request_sender_ f = Some s -> finished s.

Definition own_key (r : H) (f : filter) : Prop :=
  forall s, request_sender_ f = Some s -> has_cache_key_ s = true /\ exists config, key_of config r = Ok (cache_key_ s).

Definition posted_ok (rs : list (H * string * Message H)) (f : filter) (a : option entry) : Prop :=
  forall e, a = Some e -> exists s, request_sender_ f = Some s /\ genuine_entry rs (cache_key_ s) e.

Definition phase_ok (n : nat) (f : filter) (posted : list (option entry)) (p : Phase) : Prop :=
  match p with
  | Looking => is_Some (route_config_ f) /\ response_to_cache_ f = None /\
      exists s i a, request_sender_ f = Some s /\ waiting (cache_key_ s) i s /\ (i < n)%nat /\ posted = [a]
  | Passed => quiet f /\ response_to_cache_ f = None
  | Replying h part => quiet f /\
      forall m, response_to_cache_ f = Some m -> enable_caches_ f = true /\ m = {| headers := stored_headers h; body := part |}
  | Over => quiet f
  end.

Definition stream_ok (rs : list (H * string * Message H)) (n : nat) (st : Stream) : Prop :=
  ready (filter_ st) /\ own_key (request_ st) (filter_ st) /\ Forall (posted_ok rs (filter_ st)) (posted_ st) /\
  phase_ok n (filter_ st) (posted_ st) (phase_ st).

Definition keys_right (rs : list (H * string * Message H)) : Prop :=
  Forall (fun x => exists config, key_of config x.1.1 = Ok x.1.2) rs.

Definition service_ok (n : nat) (s : Service) : Prop :=
  world_ok (responses_ s) n (world_ s) /\ map_Forall (fun _ => stream_ok (responses_ s) n) (streams_ s) /\
  keys_right (responses_ s).

Lemma own_keyed r f : own_key r f -> keyed f.
Proof. intros Hf s Hs. by apply Hf. Qed.

Lemma posted_more rs rs' f a : rs ⊆ rs' -> posted_ok rs f a -> posted_ok rs' f a.
Proof.
  intros Hsub Ha e He. destruct (Ha e He) as (s & Hs & m & Hm & Hg). exists s. split; [done|].
  exists m. split; [done|]. by eapply genuine_more.
Qed.

Lemma stream_more rs rs' n st : rs ⊆ rs' -> stream_ok rs n st -> stream_ok rs' n st.
Proof.
  intros Hsub (H1 & H2 & H3 & H4). split_and!; [done|done| |done].
  eapply Forall_impl; [exact H3|]. intros a. by apply posted_more.
Qed.

Lemma world_more rs rs' n w : rs ⊆ rs' -> world_ok rs n w -> world_ok rs' n w.
Proof. intros Hsub (caches & Hu & Hn & Hc). exists caches. split_and!; [done|done|by eapply caches_more]. Qed.

(** An event of one stream: the others only see that more responses have been recorded. *)
Lemma put_ok n id st w rs s :
  service_ok n s -> responses_ s ⊆ rs -> world_ok rs n w -> stream_ok rs n st -> keys_right rs ->
  service_ok n (put id st w rs s).
Proof.
  intros (_ & Hst & _) Hsub Hw Hok Hk. split_and!; [done| |done]. cbn [put streams_ responses_].
  apply map_Forall_insert_2; [done|]. eapply map_Forall_impl; [exact Hst|]. intros ? st'. by apply stream_more.
Qed.

(** ** Events keep the invariant *)

#[local] Abbreviation step := (service_step).

(** What an event shows the client: only a delivery to a stream that waits answers from the caches. *)
Definition shows (s : Service) (e : event) (outs : list (output (H := H))) : Prop :=
  match e with
  | Deliver id =>
      outs = [] \/ exists st sender, streams_ s !! id = Some st /\ phase_ st = Looking /\
        request_sender_ (filter_ st) = Some sender /\
        (outs = [ContinueDecoding] \/ serves (responses_ s) (cache_key_ sender) outs)
  | _ => True
  end.

Lemma lookup_step_key n (s : CacheRequestSender) (e : lookup_event (H := H)) :
  cache_key_ (lookup_step n s e).1 = cache_key_ s /\ has_cache_key_ (lookup_step n s e).1 = has_cache_key_ s.
Proof.
  unfold lookup_step, cache_lookup_callback, lookupCacheOnce, sender_onSuccess, sender_onFailure.
  repeat (case_match; cbn; try done).
Qed.

Lemma sent_key n key : has_cache_key_ (sendRequest (H := H) n key new_CacheRequestSender).1.1 = true.
Proof. unfold sendRequest, getter_lookupCache, lookupCacheOnce, sender_onFailure. by repeat (case_match; cbn). Qed.

Lemma set_caches_own (w : CacheWorld (C := C)) : set_caches (caches_of w) w = w.
Proof. unfold set_caches, caches_of. destruct w as [[l|] a b]; done. Qed.

(** A request that the filter lets pass without a lookup. *)
Lemma passed_ok now n s id h (f : filter) :
  service_ok n s -> request_sender_ f = None -> enable_caches_ f = false -> response_to_cache_ f = None ->
  exists s' outs, obind (Ok (Continue, f, [])) (fun r =>
      obind (ask_caches now r.2 (caches_of (world_ s))) (fun q =>
      Ok (put id {| request_ := h; filter_ := r.1.2; posted_ := q.1;
                    phase_ := if decide (r.1.1 = Continue) then Passed else Looking |}
            (set_caches q.2 (world_ s)) (responses_ s) s, []))) = Ok (s', outs : list (output (H := H))) /\ service_ok n s'.
Proof.
  intros (Hw & Hst & Hk) Hs Hen Hr. cbn [obind fst snd ask_caches]. rewrite set_caches_own. eexists _, _. split; [done|].
  apply put_ok; [done|done|done| |done]. unfold stream_ok, ready, own_key, quiet. cbn.
  unfold quiet. rewrite Hs, Hen. split_and!; try done. rewrite decide_True by done. cbn. unfold quiet. by rewrite Hs.
Qed.

Lemma request_ok now clock n s id h route es :
  service_ok n s -> exists s' outs, service_step now clock (Request id h route es) s = Ok (s', outs) /\ service_ok n s'.
Proof.
  intros Hok. pose proof Hok as (Hw & Hst & Hk). cbn [service_step].
  destruct (streams_ s !! id) as [st|] eqn:Hid; [by eexists _, _|].
  destruct Hw as (caches & Hu & Hn & Hc).
  unfold decodeHeaders. destruct (isCacheableRequest h) eqn:Hreq; cbn [negb]; [|by apply passed_ok].
  destruct route as [[config|]|]; [|by apply passed_ok..].
  destruct (negb (checkEnable matchHeaders config h RQ)); [by apply passed_ok|]. rewrite Hu.
  destruct (admitted_key removeQueryAndFragment parseQueryString md5_hex (key_maker_config_ (cache_config_ config)) h
    (cache_key_prefix_ (cache_config_ config)) Hreq) as [key Hkey]. rewrite Hkey. cbn [obind].
  destruct (decide (n = 0%nat)) as [Hz|Hz].
  - (* no caches: the request goes on *)
    rewrite Hz in Hn. destruct caches; [|done]. cbn [length sendRequest getter_lookupCache Nat.eqb orb obind fst snd ask_caches].
    rewrite set_caches_own. eexists _, _. split; [done|]. apply put_ok; [done|done|by exists []| |done].
    split_and!; cbn; [by unfold ready; eauto|intros ? [= <-]; by eauto|by apply Forall_nil|].
    rewrite decide_True by done. split; [by intros ? [= <-]|done].
  - destruct (sent_waiting (H := H) (length caches) key) as [Hwait Hask]; [lia|].
    assert (Hst' : (sendRequest (H := H) (length caches) key new_CacheRequestSender).2 = ONCALL).
    { unfold sendRequest, getter_lookupCache. destruct (Nat.eqb_spec (length caches) 0); [lia|]. done. }
    assert (Hkey' : cache_key_ (sendRequest (H := H) (length caches) key new_CacheRequestSender).1.1 = key) by apply Hwait.
    rewrite Hst', Hask. cbn [obind fst snd]. unfold caches_of. rewrite Hu. change (default [] (Some caches)) with caches.
    destruct (ask_one (responses_ s) now 0 key caches) as (a & l & -> & Hlen & Hl & Ha); [done|lia|]. cbn [obind fst snd].
    unfold set_caches. rewrite Hu. eexists _, _. split; [done|].
    apply put_ok; [done|done|by exists l; split_and!; [done|congruence|done]| |done].
    set (sender := (sendRequest _ _ _).1.1) in *.
    split_and!; cbn [filter_ request_ posted_ phase_].
    + intros _. cbn. by eauto.
    + intros s'. cbn. intros [= <-]. split; [apply sent_key|]. exists config. by rewrite Hkey'.
    + constructor; [|constructor]. intros e He. exists sender. split; [done|]. rewrite Hkey'. by apply Ha.
    + rewrite decide_False by (by destruct es). split; [by eexists|]. split; [done|].
      exists sender, 0%nat, a. split_and!; [done|by rewrite Hkey'|lia|done].
Qed.

Lemma destroy_ok now clock n s id :
  service_ok n s -> exists s' outs, service_step now clock (Destroy id) s = Ok (s', outs) /\ service_ok n s'.
Proof.
  intros Hok. pose proof Hok as (Hw & Hst & Hk). cbn [service_step].
  destruct (streams_ s !! id) as [st|] eqn:Hid; [|by eexists _, _].
  eexists _, _. split; [done|]. apply put_ok; [done..| |done].
  destruct (map_Forall_lookup_1 _ _ _ _ Hst Hid) as (Hr & Ho & Hp & _). unfold onDestroy.
  destruct (request_sender_ (filter_ st)) as [sender|] eqn:Hs.
  - split_and!; cbn [filter_ request_ posted_ phase_].
    + intros Hen. cbn. split; [by eexists|]. by apply Hr.
    + intros s'. cbn. intros [= <-]. by apply (Ho sender).
    + eapply Forall_impl; [exact Hp|]. intros a Ha e He. destruct (Ha e He) as (s' & Hs' & Hg).
      rewrite Hs in Hs'. injection Hs' as <-. by exists (cancelLookup sender).
    + intros s'. cbn. intros [= <-]. unfold finished. cbn. by rewrite !orb_true_r.
  - split_and!; [done..|]. cbn. intros s'. by rewrite Hs.
Qed.

Lemma remove_ok now clock n s keys :
  service_ok n s -> exists s' outs, service_step now clock (RemoveKeys keys) s = Ok (s', outs) /\ service_ok n s'.
Proof.
  intros ((caches & Hu & Hn & Hc) & Hst & Hk). cbn [service_step]. unfold caches_of. rewrite Hu.
  change (default [] (Some caches)) with caches.
  destruct (remove_keys_safe (responses_ s) keys caches Hc) as (l & -> & Hlen & Hl). cbn [obind].
  eexists _, _. split; [done|]. split_and!; [|done|done]. cbn. unfold set_caches. rewrite Hu. exists l. split_and!; [done|congruence|done].
Qed.

(** What is recorded when a response is whole. *)
Lemma recorded_ok st h b s :
  keys_right (responses_ s) -> own_key (request_ st) (filter_ st) ->
  responses_ s ⊆ recorded st h b s /\ keys_right (recorded st h b s) /\ whole (recorded st h b s) (filter_ st) h b.
Proof.
  intros Hk Ho. unfold recorded, whole. destruct (request_sender_ (filter_ st)) as [sender|] eqn:Hs; [|done].
  split_and!.
  - set_solver.
  - constructor; [|done]. by apply (Ho sender).
  - intros s' [= <-]. eexists _, _. split; [by left|done].
Qed.

Lemma headers_ok now clock n s id h es :
  service_ok n s -> exists s' outs, service_step now clock (ResponseHeaders id h es) s = Ok (s', outs) /\ service_ok n s'.
Proof.
  intros Hok. pose proof Hok as (Hw & Hst & Hk). cbn [service_step].
  destruct (streams_ s !! id) as [st|] eqn:Hid; [|by eexists _, _].
  destruct (phase_ st) eqn:Hph; try (by eexists _, _).
  destruct (map_Forall_lookup_1 _ _ _ _ Hst Hid) as (Hr & Ho & Hp & Hphase). rewrite Hph in Hphase. destruct Hphase as [Hq Hnone].
  set (rs := if es then recorded st h "" s else responses_ s).
  assert (Hrs : responses_ s ⊆ rs /\ keys_right rs /\ (es = true -> whole rs (filter_ st) h "")).
  { unfold rs. destruct es; [|done]. destruct (recorded_ok st h "" s Hk Ho) as (H1 & H2 & H3). by split_and!. }
  destruct Hrs as (Hsub & Hk' & Hwhole).
  edestruct (encodeHeaders_safe rs n now clock h es (filter_ st) (world_ s)) as (h' & f' & w' & -> & Hw' & Hkept & _ & _ & Hresp);
    [by eapply world_more|done|by eapply own_keyed|done|].
  cbn [obind fst snd]. eexists _, _. split; [done|]. apply put_ok; [done..| |done].
  pose proof Hkept as (Hs & _). split_and!; cbn [filter_ request_ posted_ phase_].
  - by apply (kept_ready (filter_ st)).
  - unfold own_key. by rewrite Hs.
  - eapply Forall_impl; [exact Hp|]. intros a Ha. unfold posted_ok. rewrite Hs. by apply (posted_more (responses_ s)).
  - unfold quiet in Hq. destruct es; cbn; unfold quiet; rewrite Hs; [done|]. split; [done|]. intros m Hm.
    destruct (Hresp eq_refl) as [Hsame|[Hen Hsome]]; [by rewrite Hsame, Hnone in Hm|].
    rewrite Hsome in Hm. by injection Hm as <-.
Qed.

Lemma data_ok now clock n s id data es :
  service_ok n s -> exists s' outs, service_step now clock (ResponseData id data es) s = Ok (s', outs) /\ service_ok n s'.
Proof.
  intros Hok. pose proof Hok as (Hw & Hst & Hk). cbn [service_step].
  destruct (streams_ s !! id) as [st|] eqn:Hid; [|by eexists _, _].
  destruct (phase_ st) as [| |h part|] eqn:Hph; try (by eexists _, _).
  destruct (map_Forall_lookup_1 _ _ _ _ Hst Hid) as (Hr & Ho & Hp & Hphase). rewrite Hph in Hphase. destruct Hphase as [Hq Hpart].
  set (rs := if es then recorded st h (part +:+ data) s else responses_ s).
  assert (Hrs : responses_ s ⊆ rs /\ keys_right rs /\ (es = true -> whole rs (filter_ st) h (part +:+ data))).
  { unfold rs. destruct es; [|done]. destruct (recorded_ok st h (part +:+ data) s Hk Ho) as (H1 & H2 & H3). by split_and!. }
  destruct Hrs as (Hsub & Hk' & Hwhole).
  edestruct (encodeData_safe rs n now clock data es (filter_ st) (world_ s)) as (f' & w' & -> & Hw' & Hkept & Hen & Hresp & Hoff);
    [by eapply world_more|done|by eapply own_keyed| |].
  { intros Hes m Hm _. destruct (Hpart m Hm) as [_ ->]. cbn [headers body]. eapply whole_same; [by apply Hwhole|apply stored_same]. }
  cbn [obind fst snd]. eexists _, _. split; [done|]. apply put_ok; [done..| |done].
  pose proof Hkept as (Hs & _). split_and!; cbn [filter_ request_ posted_ phase_].
  - by apply (kept_ready (filter_ st)).
  - unfold own_key. by rewrite Hs.
  - eapply Forall_impl; [exact Hp|]. intros a Ha. unfold posted_ok. rewrite Hs. by apply (posted_more (responses_ s)).
  - unfold quiet in Hq. destruct es; cbn; unfold quiet; rewrite Hs; [done|]. split; [done|]. intros m Hm.
    destruct (enable_caches_ (filter_ st)) eqn:Hen'; [|rewrite Hoff in Hm by done; by destruct (Hpart m Hm)].
    rewrite Hresp in Hm by done. apply fmap_Some in Hm as (m0 & Hm0 & ->). destruct (Hpart m0 Hm0) as [_ ->]. by rewrite Hen.
Qed.

(** How many caches a stream may still wait for. *)
Definition left_of (n : nat) (st : Stream) : nat :=
  match phase_ st, request_sender_ (filter_ st) with
  | Looking, Some s => n - current_cache_ s
  | _, _ => 0
  end.

Lemma left_zero rs n st : stream_ok rs n st -> left_of n st = 0%nat -> phase_ st <> Looking.
Proof.
  intros (_ & _ & _ & Hp) Hl Hph. unfold left_of in Hl. rewrite Hph in Hl, Hp. destruct Hp as (_ & _ & s & i & a & Hs & Hw & Hi & _).
  rewrite Hs in Hl. destruct Hw as (_ & _ & _ & _ & _ & Hcur & _). lia.
Qed.

Lemma left_bound n st : (left_of n st <= n)%nat.
Proof. unfold left_of. case_match; [case_match; lia|lia..]. Qed.

(** An answer that comes to a stream that does not wait. *)
Lemma quiet_event rs n now clock a (f : filter) (w : CacheWorld (C := C)) :
  world_ok rs n w -> quiet f ->
  exists f', filter_event matchHeaders caseFindToken regex_match now clock (CacheAnswer a) f w = Ok (f', w, []) /\
    asked_after a f w = [] /\ (f' = f \/ exists s s', request_sender_ f = Some s /\ f' = set_sender (Some s') f /\
    finished s' /\ cache_key_ s' = cache_key_ s /\ has_cache_key_ s' = has_cache_key_ s).
Proof.
  intros (caches & Hu & _) Hq. unfold filter_event, asked_after. rewrite Hu.
  destruct (request_sender_ f) as [s|] eqn:Hs; [|exists f; by split_and!; [..|left]].
  destruct (finished_step (length caches) s (CacheAnswer a) (Hq s Hs)) as (Hf & -> & _).
  destruct (lookup_step_key (length caches) s (CacheAnswer a)) as [Hkey Hhas]. cbn [run_calls].
  eexists. split_and!; [done..|]. right. by exists s, (lookup_step (length caches) s (CacheAnswer a)).1.
Qed.

Lemma posted_sender rs (f : filter) s s' a :
  request_sender_ f = Some s -> cache_key_ s' = cache_key_ s -> posted_ok rs f a -> posted_ok rs (set_sender (Some s') f) a.
Proof.
  intros Hs Hk Ha e He. destruct (Ha e He) as (s0 & Hs0 & Hg). rewrite Hs in Hs0. injection Hs0 as <-.
  exists s'. by rewrite Hk.
Qed.

(** The answer a stream waits for: it is served from a cache, sent upstream, or waits for the next cache. *)
Lemma waited_event rs n now clock a i s (f : filter) (w : CacheWorld (C := C)) :
  world_ok rs n w -> is_Some (route_config_ f) -> response_to_cache_ f = None -> request_sender_ f = Some s ->
  has_cache_key_ s = true -> waiting (cache_key_ s) i s -> (i < n)%nat -> posted_ok rs f a ->
  exists f' w' outs q l s',
    filter_event matchHeaders caseFindToken regex_match now clock (CacheAnswer a) f w = Ok (f', w', outs) /\
    ask_caches now (asked_after a f w) (caches_of w') = Ok (q, l) /\ world_ok rs n (set_caches l w') /\
    request_sender_ f' = Some s' /\ cache_key_ s' = cache_key_ s /\ has_cache_key_ s' = true /\
    is_Some (route_config_ f') /\ Forall (posted_ok rs f') q /\
    (serves rs (cache_key_ s) outs /\ finished s' \/
     outs = [ContinueDecoding] /\ finished s' /\ response_to_cache_ f' = None \/
     outs = [] /\ response_to_cache_ f' = None /\ waiting (cache_key_ s') (S i) s' /\ (S i < n)%nat /\ exists a', q = [a']).
Proof.
  intros Hw Hroute Hnone Hs Hk Hwait Hi Ha. pose proof Hw as (caches & Hu & Hn & Hc).
  unfold filter_event, asked_after. rewrite Hs, Hu.
  destruct (lookup_step_key (length caches) s (CacheAnswer a)) as [Hkey Hhas].
  pose proof (waiting_answer (length caches) _ i s a Hwait ltac:(lia)) as Hans. cbn zeta in Hans.
  set (r := lookup_step (length caches) s (CacheAnswer a)) in *. destruct a as [e|].
  - destruct Hans as (Hfin & Hhit & ->). destruct (Ha e eq_refl) as (s0 & Hs0 & m & Hm & Hg).
    rewrite Hs in Hs0. injection Hs0 as <-. rewrite Hm. cbn [run_calls run_call].
    edestruct (onSuccess_safe rs n now clock m r.1 i (set_sender (Some r.1) f) w)
      as (f' & w' & outs & -> & Hw' & Hs' & Hr' & Hserve); [done|done|by rewrite Hhas|done|done|by rewrite Hkey|done|done|].
    cbn [obind fst snd]. eexists _, _, _, _, _, r.1.
    split_and!; [done|by rewrite ask_none by (by repeat constructor)|by rewrite set_caches_own|done|done|by rewrite Hhas|done|by apply Forall_nil|].
    left. rewrite app_nil_r, <- Hkey. done.
  - destruct (S i <? length caches)%nat eqn:Hlast.
    + apply Nat.ltb_lt in Hlast. destruct Hans as [Hwait' ->]. cbn [run_calls run_call obind fst snd app].
      destruct (ask_one rs now (S i) (cache_key_ s) caches) as (a' & l & Hask & Hlen & Hl & Ha'); [done|done|].
      eexists _, _, _, _, _, r.1. split_and!; [done|by unfold caches_of; rewrite Hu| |done|done|by rewrite Hhas|done| |].
      * exists l. unfold set_caches. rewrite Hu. split_and!; [done|congruence|done].
      * constructor; [|constructor]. intros e He. exists r.1. rewrite Hkey. split; [done|]. by apply Ha'.
      * right; right. split_and!; [done|done|by rewrite Hkey|lia|by eexists].
    + destruct Hans as (Hfin & _ & ->). cbn [run_calls run_call obind fst snd app].
      eexists _, _, _, _, _, r.1. split_and!; [done|by rewrite ask_none by (by repeat constructor)|by rewrite set_caches_own|done|done|by rewrite Hhas|done|by apply Forall_nil|].
      right; left. by split_and!.
Qed.

Definition is_deliver (id : nat) (e : event) : bool :=
  match e with Deliver id' => bool_decide (id' = id) | _ => false end.

(** A stream comes nearer to its answer with every delivery to it, and never goes back to waiting. *)
Definition nearer (n : nat) (e : event) (s s' : Service) : Prop :=
  forall id st, streams_ s !! id = Some st ->
    exists st', streams_ s' !! id = Some st' /\
      (left_of n st' <= if is_deliver id e then pred (left_of n st) else left_of n st)%nat.

Lemma nearer_same n e s s' : streams_ s' = streams_ s ->
  (forall id st, streams_ s !! id = Some st -> is_deliver id e = true -> left_of n st = 0%nat) -> nearer n e s s'.
Proof. intros Heq Hz id st Hst. rewrite Heq. exists st. split; [done|]. destruct (is_deliver id e) eqn:Hd; [by rewrite (Hz id st)|lia]. Qed.

Lemma nearer_put n e id st0 st w rs s : streams_ s !! id = Some st0 ->
  (left_of n st <= if is_deliver id e then pred (left_of n st0) else left_of n st0)%nat ->
  (forall id', id' <> id -> is_deliver id' e = false) -> nearer n e s (put id st w rs s).
Proof.
  intros H0 Hle Hne id' st' Hst'. cbn [put streams_]. destruct (decide (id' = id)) as [->|Hid].
  - rewrite lookup_insert_eq. exists st. split; [done|]. by assert (st' = st0) as -> by congruence.
  - rewrite lookup_insert_ne by done. exists st'. by rewrite Hne.
Qed.

Lemma step_nearer now clock n e s s' outs :
  service_step now clock e s = Ok (s', outs) -> (forall id, is_deliver id e = false) -> nearer n e s s'.
Proof.
  intros Hstep Hnd.
  assert (Hsame : forall s0, streams_ s0 = streams_ s -> nearer n e s s0).
  { intros s0 Heq. apply nearer_same; [done|]. intros id st _. by rewrite Hnd. }
  assert (Hzero : forall id st0 st w rs, streams_ s !! id = Some st0 -> phase_ st <> Looking -> nearer n e s (put id st w rs s)).
  { intros id st0 st w rs H0 Hph. apply (nearer_put n e id st0); [done| |done]. rewrite Hnd. unfold left_of at 1.
    by destruct (phase_ st); [|lia..]. }
  destruct e as [id h route es|id|id h es|id data es|id|keys]; cbn [service_step] in Hstep.
  - destruct (streams_ s !! id) eqn:Hid; [injection Hstep as <- _; by apply Hsame|].
    destruct (decodeHeaders _ _ _ _ _ _ _ _ _) as [r|?|?|]; try done; cbn [obind] in Hstep.
    destruct (ask_caches _ _ _) as [q|?|?|]; try done; cbn [obind] in Hstep. injection Hstep as <- _.
    intros id' st' Hst'. exists st'. rewrite Hnd. split; [|done]. cbn [put streams_]. rewrite lookup_insert_ne; [done|congruence].
  - specialize (Hnd id). cbn in Hnd. by rewrite bool_decide_true in Hnd.
  - destruct (streams_ s !! id) as [st|] eqn:Hid; [|injection Hstep as <- _; by apply Hsame].
    destruct (phase_ st); try (injection Hstep as <- _; by apply Hsame).
    destruct (encodeHeaders _ _ _ _ _ _ _ _ _) as [r|?|?|]; try done; cbn [obind] in Hstep. injection Hstep as <- _.
    eapply Hzero; [done|]. by destruct es.
  - destruct (streams_ s !! id) as [st|] eqn:Hid; [|injection Hstep as <- _; by apply Hsame].
    destruct (phase_ st); try (injection Hstep as <- _; by apply Hsame).
    destruct (encodeData _ _ _ _ _ _ _) as [r|?|?|]; try done; cbn [obind] in Hstep. injection Hstep as <- _.
    eapply Hzero; [done|]. by destruct es.
  - destruct (streams_ s !! id) as [st|] eqn:Hid; [|injection Hstep as <- _; by apply Hsame].
    injection Hstep as <- _. by eapply Hzero.
  - destruct (remove_keys _ _) as [l|?|?|]; try done; cbn [obind] in Hstep. injection Hstep as <- _. by apply Hsame.
Qed.

#[local] Abbreviation deliver_post now clock a rest id st s :=
  (obind (filter_event matchHeaders caseFindToken regex_match now clock (CacheAnswer a) (filter_ st) (world_ s)) (fun r =>
   obind (ask_caches now (asked_after a (filter_ st) (world_ s)) (caches_of r.1.2)) (fun q =>
   Ok (put id {| request_ := request_ st; filter_ := r.1.1; posted_ := rest ++ q.1; phase_ := phase_after r.2 (phase_ st) |}
         (set_caches q.2 r.1.2) (responses_ s) s, r.2)))).

Lemma deliver_self id : is_deliver id (Deliver id) = true.
Proof. cbn. by rewrite bool_decide_true. Qed.
Lemma deliver_other id id' : id' <> id -> is_deliver id' (Deliver id) = false.
Proof. intros Hne. cbn. by rewrite bool_decide_false by congruence. Qed.

(** A late answer is dropped. *)
Lemma deliver_quiet now clock n s id st a rest :
  service_ok n s -> streams_ s !! id = Some st -> posted_ st = a :: rest -> quiet (filter_ st) -> phase_ st <> Looking ->
  exists s', deliver_post now clock a rest id st s = Ok (s', []) /\ service_ok n s' /\ nearer n (Deliver id) s s'.
Proof.
  intros Hok Hid Hposted Hq Hnl. pose proof Hok as (Hw & Hst & Hk).
  destruct (map_Forall_lookup_1 _ _ _ _ Hst Hid) as (Hr & Ho & Hp & Hph). rewrite Hposted in Hp.
  apply Forall_cons in Hp as [_ Hrest].
  destruct (quiet_event (responses_ s) n now clock a (filter_ st) (world_ s) Hw Hq) as (f' & -> & -> & Hf').
  cbn [obind fst snd ask_caches phase_after]. rewrite set_caches_own, app_nil_r. eexists. split; [done|].
  split; [|apply (nearer_put n _ id st); [done|unfold left_of at 1; cbn; destruct (phase_ st); [done|lia..]|apply deliver_other]].
  apply put_ok; [done..| |done].
  destruct Hf' as [->|(sd & sd' & Hsd & -> & Hfin & Hkey & Hhas)].
  - split_and!; [done..|]. cbn. by destruct (phase_ st).
  - split_and!; cbn [filter_ request_ posted_ phase_].
    + intros Hen. split; [by eexists|]. by apply Hr.
    + intros s'. cbn. intros [= <-]. rewrite Hkey, Hhas. by apply Ho.
    + eapply Forall_impl; [exact Hrest|]. intros b. by apply (posted_sender _ _ sd).
    + destruct (phase_ st); [done| | |]; cbn in Hph |- *; unfold quiet; cbn; (split || idtac); try (by intros ? [= <-]); by apply Hph.
Qed.

(** The answer a stream waits for moves it on. *)
Lemma deliver_waiting now clock n s id st a rest :
  service_ok n s -> streams_ s !! id = Some st -> posted_ st = a :: rest -> phase_ st = Looking ->
  exists s' outs, deliver_post now clock a rest id st s = Ok (s', outs) /\ service_ok n s' /\
    shows s (Deliver id) outs /\ nearer n (Deliver id) s s'.
Proof.
  intros Hok Hid Hposted Hphase. pose proof Hok as (Hw & Hst & Hk).
  destruct (map_Forall_lookup_1 _ _ _ _ Hst Hid) as (Hr & Ho & Hp & Hph). rewrite Hphase, Hposted in Hph. rewrite Hposted in Hp.
  apply Forall_cons in Hp as [Ha _].
  destruct Hph as (Hroute & Hnone & sd & i & a' & Hsd & Hwait & Hi & Hq). injection Hq as -> ->.
  destruct (waited_event (responses_ s) n now clock a' i sd (filter_ st) (world_ s)) as
    (f' & w' & outs & q & l & sd' & -> & Hask & Hw' & Hsd' & Hkey & Hhas & Hroute' & Hq & Hcase); [done..|by apply Ho|done|done|done|].
  cbn [obind fst snd]. rewrite Hask. cbn [obind fst snd app]. eexists _, _. split; [done|].
  assert (Hleft : left_of n st = (n - i)%nat).
  { unfold left_of. rewrite Hphase, Hsd. by destruct Hwait as (_ & _ & _ & _ & _ & -> & _). }
  split_and!; [| |apply (nearer_put n _ id st); [done| |apply deliver_other]].
  - apply put_ok; [done..| |done]. split_and!; cbn [filter_ request_ posted_ phase_]; [by intros _| |done|].
    { intros s'. rewrite Hsd'. intros [= <-]. split; [done|]. rewrite Hkey. by apply (Ho sd). }
    rewrite Hphase. destruct Hcase as [[(h & b & _ & _ & ->) Hfin]|[(-> & Hfin & Hresp)|(-> & Hresp & Hwait' & Hi' & b & ->)]].
    + case_bool_decide; cbn; intros s'; rewrite Hsd'; by intros [= <-].
    + cbn. split; [|done]. intros s'. rewrite Hsd'. by intros [= <-].
    + cbn. split; [done|]. split; [done|]. by exists sd', (S i), b.
  - destruct Hcase as [[Hs _]|[[-> _]|[-> _]]]; [| |by left]; right; exists st, sd; split_and!; [done..|by right|done|done|done|by left].
  - rewrite deliver_self, Hleft, Hphase. unfold left_of. cbn [phase_ filter_]. rewrite Hsd'.
    destruct Hcase as [[(h & b & _ & _ & ->) Hfin]|[(-> & Hfin & Hresp)|(-> & Hresp & Hwait' & Hi' & b & ->)]].
    + case_bool_decide; cbn; lia.
    + cbn. lia.
    + cbn. destruct Hwait' as (_ & _ & _ & _ & _ & -> & _). lia.
Qed.

Lemma deliver_ok now clock n s id :
  service_ok n s -> exists s' outs, service_step now clock (Deliver id) s = Ok (s', outs) /\ service_ok n s' /\
    shows s (Deliver id) outs /\ nearer n (Deliver id) s s'.
Proof.
  intros Hok. cbn [service_step].
  assert (Hstay : (forall st, streams_ s !! id = Some st -> left_of n st = 0%nat) ->
    exists s' outs, Ok (s, []) = Ok (s', outs) /\ service_ok n s' /\ shows s (Deliver id) outs /\ nearer n (Deliver id) s s').
  { intros Hz. eexists _, _. split_and!; [done|done|by left|]. apply nearer_same; [done|]. intros id' st' Hst' Hd.
    apply bool_decide_eq_true in Hd as <-. by apply Hz. }
  destruct (streams_ s !! id) as [st|] eqn:Hid; [|by apply Hstay]. pose proof Hok as (_ & Hst & _).
  destruct (map_Forall_lookup_1 _ _ _ _ Hst Hid) as (_ & _ & _ & Hph).
  destruct (posted_ st) as [|a rest] eqn:Hposted.
  { apply Hstay. intros st' [= <-]. unfold left_of. destruct (phase_ st); [|done..].
    by destruct Hph as (_ & _ & ? & ? & ? & _ & _ & _ & Hq). }
  destruct (phase_ st) eqn:Hphase; [rewrite <- Hphase; by eapply deliver_waiting|..].
  all: destruct (deliver_quiet now clock n s id st a rest) as (s' & Heq & H1 & H2); [done|done|done|by apply Hph|by rewrite Hphase|].
  all: rewrite <- Hphase; exists s', []; split_and!; [done|done|by left|done].
Qed.

(** ** Every event *)

Lemma step_ok now clock n e s :
  service_ok n s -> exists s' outs, service_step now clock e s = Ok (s', outs) /\ service_ok n s' /\
    shows s e outs /\ nearer n e s s'.
Proof.
  intros Hok.
  assert (Hother : (forall id, is_deliver id e = false) ->
    (exists s' outs, service_step now clock e s = Ok (s', outs) /\ service_ok n s') ->
    exists s' outs, service_step now clock e s = Ok (s', outs) /\ service_ok n s' /\ shows s e outs /\ nearer n e s s').
  { intros Hnd (s' & outs & Hs & Hs'). exists s', outs. split_and!; [done|done| |by eapply step_nearer].
    destruct e; try done. specialize (Hnd id). by rewrite deliver_self in Hnd. }
  destruct e; [|by apply deliver_ok|..]; apply Hother; try done;
    [by apply request_ok|by apply headers_ok|by apply data_ok|by apply destroy_ok|by apply remove_ok].
Qed.

(** A run of the service: events, each with the times it reads. *)
Definition timed : Type := Z * (nat -> Z) * event.

Fixpoint service_run (es : list timed) (s : Service) : outcome (Service * list (list (output (H := H)))) :=
  match es with
  | [] => Ok (s, [])
  | (now, clock, e) :: es' =>
      obind (service_step now clock e s) (fun r =>
      obind (service_run es' r.1) (fun r' => Ok (r'.1, r.2 :: r'.2)))
  end.

(** The deliveries to a stream in a run. *)
Definition deliveries (id : nat) (es : list timed) : nat := length (List.filter (fun t => is_deliver id t.2) es).

Lemma service_run_ok n es s :
  service_ok n s -> exists s' outs, service_run es s = Ok (s', outs) /\ service_ok n s' /\
    forall id st, streams_ s !! id = Some st -> exists st', streams_ s' !! id = Some st' /\
      (left_of n st' <= left_of n st - deliveries id es)%nat.
Proof.
  revert s. induction es as [|[[now clock] e] es IH]; intros s Hok; cbn [service_run].
  - eexists _, _. split_and!; [done|done|]. intros id st Hst. exists st. split; [done|]. cbn. lia.
  - destruct (step_ok now clock n e s Hok) as (s1 & outs & -> & Hok1 & _ & Hnear). cbn [obind fst snd].
    destruct (IH s1 Hok1) as (s2 & outs2 & -> & Hok2 & Hleft). cbn [obind fst snd].
    eexists _, _. split_and!; [done|done|]. intros id st Hst.
    destruct (Hnear id st Hst) as (st1 & Hst1 & Hle). destruct (Hleft id st1 Hst1) as (st2 & Hst2 & Hle2).
    exists st2. split; [done|]. revert Hle. unfold deliveries in *. cbn [List.filter snd]. destruct (is_deliver id e); cbn [length]; lia.
Qed.

(** Caches that hold nothing. *)
Definition empty_caches (caches : CacheList) : Prop := Forall (fun level => holds_only (fun _ _ => False) level.2) caches.

Lemma start_ok caches : empty_caches caches -> service_ok (length caches) (new_Service caches).
Proof.
  intros He. split_and!; [|by apply map_Forall_empty|by apply Forall_nil]. exists caches. split_and!; [done|done|].
  eapply Forall_impl; [exact He|]. intros level. by apply holds_weaken.
Qed.

(** What a stream is answered with from the caches: nothing; the request goes on to the upstream host; or a
    response [h], [b] marked as coming from a cache, that came whole from upstream, up to the headers the
    filter and the caches set themselves, for a request [r] with the same key. *)
Definition answered_right (r0 : H) (rs : list (H * string * Message H)) (outs : list (output (H := H))) : Prop :=
  outs = [] \/ outs = [ContinueDecoding] \/
  exists h b r m key config config',
    outs = (if bool_decide (b = "") then [EncodeHeaders h true] else [EncodeHeaders h false; EncodeData b true]) /\
    hm_get "x-cache-status" h <> [] /\
    (r, key, m) ∈ rs /\ same_headers (headers m) h /\ b = body m /\
    key_of config r0 = Ok key /\ key_of config' r = Ok key.

Lemma shows_right n s id st outs :
  service_ok n s -> shows s (Deliver id) outs -> streams_ s !! id = Some st -> answered_right (request_ st) (responses_ s) outs.
Proof.
  intros (_ & Hst & Hk) [->|(st' & sender & Hid & _ & Hs & Hcase)] Hst'; [by left|]. assert (st' = st) as -> by congruence.
  destruct Hcase as [->|(h & b & (r & m & Hin & Hh & Hb) & Hmark & ->)]; [by right; left|]. right. right.
  destruct (map_Forall_lookup_1 _ _ _ _ Hst Hst') as (_ & Ho & _). destruct (Ho _ Hs) as (_ & config & Hkey).
  assert (Hr : exists config', key_of config' r = Ok (cache_key_ sender)).
  { unfold keys_right in Hk. rewrite Forall_forall in Hk. by apply (Hk _ Hin). }
  destruct Hr as [config' Hkey']. exists h, b, r, m, (cache_key_ sender), config, config'. by split_and!.
Qed.

(** ** Properties *)

(** C3. The response cache as a whole, whatever the interleaving of the events of all streams (requests,
    deliveries of lookups, parts of responses, destructions, removals of keys): started with empty caches, no
    event fails, and what a delivery makes a stream answer is nothing, passing the request on, or, marked, a
    response that came whole from upstream (one cut off by the end of its stream is never stored) for a request
    with the same cache key; body and headers are those that came, but for the headers the filter and the
    caches set themselves. *)
Theorem cache_service_safe (caches : CacheList) (es : list timed) :
  empty_caches caches ->
  exists s outs, service_run es (new_Service caches) = Ok (s, outs) /\
    forall now clock e, exists s' o, service_step now clock e s = Ok (s', o) /\
      forall id st, e = Deliver id -> streams_ s !! id = Some st -> answered_right (request_ st) (responses_ s) o.
Proof.
  intros He. destruct (service_run_ok _ es _ (start_ok _ He)) as (s & outs & Hrun & Hok & _).
  exists s, outs. split; [done|]. intros now clock e. destruct (step_ok now clock _ e s Hok) as (s' & o & Hstep & _ & Hshow & _).
  exists s', o. split; [done|]. intros id st -> Hst. by eapply shows_right.
Qed.

(** C6. No stream waits for ever: while a stream waits for the caches a lookup of its request is posted, and
    in every continuation in which as many posted lookups are delivered to it as there are caches, whatever else
    happens in between, it is answered, passed on or gone. *)
Theorem cache_service_never_stuck (caches : CacheList) (es es' : list timed) (s : Service)
    (outs : list (list (output (H := H)))) (id : nat) (st : Stream) :
  empty_caches caches -> service_run es (new_Service caches) = Ok (s, outs) -> streams_ s !! id = Some st ->
  (phase_ st = Looking -> posted_ st <> []) /\
  ((length caches <= deliveries id es')%nat ->
   exists s' outs' st', service_run es' s = Ok (s', outs') /\ streams_ s' !! id = Some st' /\ phase_ st' <> Looking).
Proof.
  intros He Hrun Hst. destruct (service_run_ok _ es _ (start_ok _ He)) as (s0 & outs0 & Hrun0 & Hok & _).
  assert (s0 = s) as -> by congruence. split.
  - intros Hl. destruct Hok as (_ & Hall & _). destruct (map_Forall_lookup_1 _ _ _ _ Hall Hst) as (_ & _ & _ & Hph).
    rewrite Hl in Hph. destruct Hph as (_ & _ & ? & ? & ? & _ & _ & _ & ->). done.
  - intros Hd. destruct (service_run_ok _ es' _ Hok) as (s' & outs' & Hrun' & Hok' & Hleft).
    destruct (Hleft id st Hst) as (st' & Hst' & Hle). exists s', outs', st'. split_and!; [done|done|].
    destruct Hok' as (_ & Hall & _). apply (left_zero (responses_ s') (length caches)); [exact (map_Forall_lookup_1 _ _ _ _ Hall Hst')|].
    pose proof (left_bound (length caches) st). lia.
Qed.
End Service.

(** ** A run *)

Import Local.
Definition no_write (l : list wevent) : string := "".
#[local] Instance run_entries : CacheEntry (HttpCacheEntry alist) := HttpCacheEntry_CacheEntry no_write.

(** Two streams with the same request; the first comes back before the second is looked up. *)
Definition run_caches : list (string * LocalCache (HttpCacheEntry alist)) := [("LocalCache", new_LocalCache (Some 1600))].
Definition run_request (id : nat) : timed (H := alist) (HeaderMatcher := unit) :=
  (1000, fun _ => 1000, Request id witness_request (Some (Some (witness_route false))) true).
Definition run_event (e : event (H := alist) (HeaderMatcher := unit)) : timed := (1000, fun _ => 1000, e).
Definition run_start : list (timed (H := alist) (HeaderMatcher := unit)) :=
  [run_request 1; run_event (Deliver 1); run_event (ResponseHeaders 1 [(":status", "200"); ("a", "b")] false);
   run_event (ResponseData 1 "ab" false); run_event (ResponseData 1 "c" true); run_request 2].

#[local] Abbreviation example_run := (service_run no_write no_match no_token (fun p => p) (fun _ => []) (fun s => s) no_regex).

Example run_serves :
  (fun r => r.2) <$> match example_run (run_start ++ [run_event (Deliver 2)]) (new_Service run_caches) with Ok r => Some r | _ => None end =
  Some [[]; [ContinueDecoding];
        [EncodeHeaders [(":status", "200"); ("a", "b"); ("x-cache-key", "v1GETh/p"); ("x-cache-status", "MISS")] false];
        [EncodeData "ab" false]; [EncodeData "c" true]; [];
        [EncodeHeaders [(":status", "200"); ("a", "b"); ("content-length", "3"); ("x-cache-status", "HIT");
                        ("x-cache-hit", "LocalCache"); ("x-cache-key", "v1GETh/p")] false; EncodeData "abc" true]].
Proof. vm_compute. reflexivity. Qed.

Lemma run_caches_empty : empty_caches no_write run_caches.
Proof. constructor; [|constructor]. by apply holding_new. Qed.

Lemma cache_service_safe_witness :
  exists s outs, example_run run_start (new_Service run_caches) = Ok (s, outs) /\
    forall now clock e, exists s' o,
      service_step no_write no_match no_token (fun p => p) (fun _ => []) (fun s => s) no_regex now clock e s = Ok (s', o) /\
      forall id st, e = Deliver id -> streams_ s !! id = Some st ->
        answered_right (HeaderMatcher := unit) (fun p => p) (fun _ => []) (fun s => s) (request_ st) (responses_ s) o.
Proof.
  apply (cache_service_safe no_write no_match no_token (fun p => p) (fun _ => []) (fun s => s) no_regex run_caches run_start).
  exact run_caches_empty.
Defined.

Lemma cache_service_never_stuck_witness :
  exists s outs st, example_run run_start (new_Service run_caches) = Ok (s, outs) /\ streams_ s !! 2%nat = Some st /\
    phase_ st = Looking /\
    exists s' outs' st', example_run [run_event (RemoveKeys ["v1GETh/p"]); run_event (Deliver 2)] s = Ok (s', outs') /\
      streams_ s' !! 2%nat = Some st' /\ phase_ st' <> Looking.
Proof.
  destruct (example_run run_start (new_Service run_caches)) as [[s outs]|?|?|] eqn:Hrun; [|vm_compute in Hrun; discriminate Hrun..].
  destruct (streams_ s !! 2%nat) as [st|] eqn:Hst; cycle 1.
  { vm_compute in Hrun. injection Hrun as <- _. discriminate Hst. }
  exists s, outs, st. split; [done|]. split; [done|]. split.
  { vm_compute in Hrun. injection Hrun as <- _. vm_compute in Hst. by injection Hst as <-. }
  refine (proj2 (cache_service_never_stuck no_write no_match no_token (fun p => p) (fun _ => []) (fun s => s) no_regex
    run_caches run_start [run_event (RemoveKeys ["v1GETh/p"]); run_event (Deliver 2)] s outs 2 st run_caches_empty Hrun Hst) _).
  reflexivity.
Defined.
