(* ===== verification/Factories.v ===== *)
(** * The factories of the HTTP filters
      (config.h, config.cc and *_factory.{h,cc} below source/filters/http)

    Each filter is registered under a name with a factory: the types of its configuration messages, the class
    its routes' configuration becomes, the filter it adds to the chain of a stream, and the name and class under
    which that filter looks for the configuration of its route.  A configuration is loaded into an empty
    message the factory gives and comes back to the factory as a message of any type, which it casts. *)

From S2P Require Import Prelude CircuitBreaker.
From stdpp Require Import base strings list.

(** A message: its type and what is in it. *)
Record ProtoMessage := { type_of : string; text_of : string }.

(** [dynamic_cast<const T&>(config)] *)
Definition dynamic_cast (T : string) (m : ProtoMessage) : outcome ProtoMessage :=
  if decide (type_of m = T) then Ok m else Throw "std::bad_cast".

(** A [RouteSpecificFilterConfig]: its class and the message it is made from. *)
Record RouteSpecificFilterConfig := { class_of : string; made_from : ProtoMessage }.

(** How a filter joins the chain of a stream. *)
Inductive AddedFilter := addStreamFilter | addStreamDecoderFilter | addStreamEncoderFilter.

(** [route_type]: [None] when [createEmptyRouteConfigProto] is not overridden and no second argument is given to
    the base class; [route_config]: the type the message is cast to ([None]: that of the base class) and the class
    that is made, if routes can be configured at all; [looks_up]: what the filter resolves on its route. *)
Record FilterFactory := {
  factory_name : string;
  config_type : string;
  route_type : option string;
  config_cast : option string;
  route_config : option (option string * string);
  adds : AddedFilter;
  looks_up : option (string * string);
}.

Definition CircuitBreakerFilterConfigFactory : FilterFactory :=
  {| factory_name := "proxy.filters.http.circuitbreaker";
     config_type := "proxy.filters.http.circuit_breaker.v2.CircuitBreaker";
     route_type := Some "proxy.filters.http.circuit_breaker.v2.CircuitBreakerPerRoute";
     config_cast := Some "proxy.filters.http.circuit_breaker.v2.CircuitBreaker";
     route_config := Some (None, "CircuitBreakerRouteSpecificFilterConfig");
     adds := addStreamFilter;
     looks_up := Some ("proxy.filters.http.circuitbreaker", "CircuitBreakerRouteSpecificFilterConfig") |}.

Definition DetailedStatsFactory : FilterFactory :=
  {| factory_name := "proxy.filters.http.detailed_stats";
     config_type := "proxy.filters.http.detailed_stats.v2.ProtoCommonConfig";
     route_type := Some "proxy.filters.http.detailed_stats.v2.ProtoRouterConfig";
     config_cast := Some "proxy.filters.http.detailed_stats.v2.ProtoCommonConfig";
     route_config := Some (None, "DetailedStats::RouterConfig");
     adds := addStreamEncoderFilter;
     looks_up := Some ("proxy.filters.http.detailed_stats", "DetailedStats::RouterConfig") |}.

(** Filters with alias names look their routes up under the alias. *)
Definition HeaderRestrictionFactory (ALIAS_NAME : string) : FilterFactory :=
  {| factory_name := ALIAS_NAME;
     config_type := "proxy.filters.http.header_restriction.v2.ProtoCommonConfig";
     route_type := Some "proxy.filters.http.header_restriction.v2.ProtoRouteConfig";
     config_cast := Some "proxy.filters.http.header_restriction.v2.ProtoCommonConfig";
     route_config := Some (None, "HeaderRestriction::RouteConfig");
     adds := addStreamFilter;
     looks_up := Some (ALIAS_NAME, "HeaderRestriction::RouteConfig") |}.

Definition header_restriction_aliases : list string :=
  ["proxy.filters.http.header_restriction"; "proxy.filters.http.ua_restriction"; "proxy.filters.http.referer_restriction"].

Definition HeaderRewriteFactory (ALIAS_NAME : string) : FilterFactory :=
  {| factory_name := ALIAS_NAME;
     config_type := "proxy.filters.http.header_rewrite.v2.ProtoCommonConfig";
     route_type := Some "proxy.filters.http.header_rewrite.v2.ProtoRouteConfig";
     config_cast := Some "proxy.filters.http.header_rewrite.v2.ProtoCommonConfig";
     route_config := Some (None, "HeaderRewrite::RouteConfig");
     adds := addStreamFilter;
     looks_up := Some (ALIAS_NAME, "HeaderRewrite::RouteConfig") |}.

Definition header_rewrite_aliases : list string :=
  ["proxy.filters.http.header_rewrite"; "proxy.filters.http.header_rewrite.request_headers_to_add";
   "proxy.filters.http.header_rewrite.traffic_mark"; "proxy.filters.http.path_rewrite"].

Definition CacheFilterFactory (ALIAS_NAME : string) : FilterFactory :=
  {| factory_name := ALIAS_NAME;
     config_type := "proxy.filters.http.super_cache.v2.HttpCache";
     route_type := Some "proxy.filters.http.super_cache.v2.CacheConfig";
     config_cast := Some "proxy.filters.http.super_cache.v2.HttpCache";
     route_config := Some (None, "RouteCacheConfig");
     adds := addStreamFilter;
     looks_up := Some (ALIAS_NAME, "RouteCacheConfig") |}.

Definition cache_aliases : list string :=
  ["proxy.filters.http.super_cache"; "proxy.filters.http.local_cache"; "proxy.filters.http.redis_cache"].

Definition HttpMetadataHubConfigFactory : FilterFactory :=
  {| factory_name := "proxy.filters.http.metadatahub";
     config_type := "proxy.filters.http.metadata_hub.v2.ProtoCommonConfig";
     route_type := None;
     config_cast := Some "proxy.filters.http.metadata_hub.v2.ProtoCommonConfig";
     route_config := None;
     adds := addStreamFilter;
     looks_up := None |}.

Definition RiderFilterConfigFactory : FilterFactory :=
  {| factory_name := "proxy.filters.http.rider";
     config_type := "proxy.filters.http.rider.v3alpha1.FilterConfig";
     route_type := Some "proxy.filters.http.rider.v3alpha1.RouteFilterConfig";
     config_cast := Some "proxy.filters.http.rider.v3alpha1.FilterConfig";
     route_config := Some (None, "Rider::RouteConfig");
     adds := addStreamFilter;
     looks_up := Some ("proxy.filters.http.rider", "Rider::RouteConfig") |}.

Definition ServiceDowngradeFactory : FilterFactory :=
  {| factory_name := "proxy.filters.http.service_downgrade";
     config_type := "proxy.filters.http.service_downgrade.v2.ProtoCommonConfig";
     route_type := Some "proxy.filters.http.service_downgrade.v2.ProtoRouteConfig";
     config_cast := Some "proxy.filters.http.service_downgrade.v2.ProtoCommonConfig";
     route_config := Some (None, "ServiceDowngrade::RouteConfig");
     adds := addStreamFilter;
     looks_up := Some ("proxy.filters.http.service_downgrade", "ServiceDowngrade::RouteConfig") |}.

(** Its base class is given one type only; it overrides [createRouteSpecificFilterConfig] itself, and its filter
    does not look at its routes. *)
Definition HttpTrafficMarkFilterFactory : FilterFactory :=
  {| factory_name := "proxy.filters.http.traffic_mark";
     config_type := "proxy.filters.http.traffic_mark.v2.ProtoCommonConfig";
     route_type := None;
     config_cast := Some "proxy.filters.http.traffic_mark.v2.ProtoCommonConfig";
     route_config := Some (Some "proxy.filters.http.traffic_mark.v2.ProtoRouteConfig", "TrafficMarkRouteConfig");
     adds := addStreamDecoderFilter;
     looks_up := None |}.

Definition WafFilterConfig : FilterFactory :=
  {| factory_name := "proxy.filters.http.waf";
     config_type := "proxy.filters.http.waf.v2.RuleSet";
     route_type := Some "proxy.filters.http.waf.v2.RuleSet";
     config_cast := Some "proxy.filters.http.waf.v2.RuleSet";
     route_config := Some (Some "proxy.filters.http.waf.v2.RuleSet", "RuleSetConfig");
     adds := addStreamFilter;
     looks_up := Some ("proxy.filters.http.waf", "RuleSetConfig") |}.

Definition HttpIpRestrictionFilterConfig : FilterFactory :=
  {| factory_name := "proxy.filters.http.iprestriction";
     config_type := "proxy.filters.http.iprestriction.v2.ListGlobalConfig";
     route_type := Some "proxy.filters.http.iprestriction.v2.BlackOrWhiteList";
     config_cast := Some "proxy.filters.http.iprestriction.v2.ListGlobalConfig";
     route_config := Some (Some "proxy.filters.http.iprestriction.v2.BlackOrWhiteList", "BlackOrWhiteListConfig");
     adds := addStreamDecoderFilter;
     looks_up := Some ("proxy.filters.http.iprestriction", "BlackOrWhiteListConfig") |}.

Definition HttpDynamicDowngradeFilterFactory : FilterFactory :=
  {| factory_name := "proxy.filters.http.dynamicdowngrade";
     config_type := "proxy.filters.http.dynamic_downgrade.v2.ProtoCommonConfig";
     route_type := Some "proxy.filters.http.dynamic_downgrade.v2.ProtoRouteConfig";
     config_cast := Some "proxy.filters.http.dynamic_downgrade.v2.ProtoCommonConfig";
     route_config := Some (Some "proxy.filters.http.dynamic_downgrade.v2.ProtoRouteConfig", "DynamicDowngradeRouteConfig");
     adds := addStreamFilter;
     looks_up := Some ("proxy.filters.http.dynamicdowngrade", "DynamicDowngradeRouteConfig") |}.

(** The static downgrade filter does not look at its own configuration. *)
Definition HttpStaticDowngradeFilterFactory : FilterFactory :=
  {| factory_name := "proxy.filters.http.staticdowngrade";
     config_type := "proxy.filters.http.static_downgrade.v2.ProtoCommonConfig";
     route_type := Some "proxy.filters.http.static_downgrade.v2.ProtoRouteConfig";
     config_cast := None;
     route_config := Some (Some "proxy.filters.http.static_downgrade.v2.ProtoRouteConfig", "StaticDowngradeRouteConfig");
     adds := addStreamFilter;
     looks_up := Some ("proxy.filters.http.staticdowngrade", "StaticDowngradeRouteConfig") |}.

Definition HttpLocalLimitFilterFactory : FilterFactory :=
  {| factory_name := "proxy.filters.http.locallimit";
     config_type := "proxy.filters.http.local_limit.v2.ProtoCommonConfig";
     route_type := Some "proxy.filters.http.local_limit.v2.ProtoRouteConfig";
     config_cast := Some "proxy.filters.http.local_limit.v2.ProtoCommonConfig";
     route_config := Some (Some "proxy.filters.http.local_limit.v2.ProtoRouteConfig", "LocalLimitRouteConfig");
     adds := addStreamDecoderFilter;
     looks_up := Some ("proxy.filters.http.locallimit", "LocalLimitRouteConfig") |}.

(** [REGISTER_FACTORY] *)
Definition registered : list FilterFactory :=
  [CircuitBreakerFilterConfigFactory; DetailedStatsFactory; HttpMetadataHubConfigFactory; RiderFilterConfigFactory;
   ServiceDowngradeFactory; HttpTrafficMarkFilterFactory; WafFilterConfig; HttpIpRestrictionFilterConfig;
   HttpDynamicDowngradeFilterFactory; HttpStaticDowngradeFilterFactory; HttpLocalLimitFilterFactory]
  ++ map HeaderRestrictionFactory header_restriction_aliases
  ++ map HeaderRewriteFactory header_rewrite_aliases
  ++ map CacheFilterFactory cache_aliases.

(** What the detailed stats factory registers before it makes its configuration. *)
Definition registerStatNamespaces (custom_stat_namespaces : list string) (registered_namespaces : list string) : list string :=
  fold_left (fun l ns => l ++ [ns]) custom_stat_namespaces registered_namespaces.

Section Base.
(** The type of a route's configuration in a factory that does not name one. *)
Variable inherited_route_type : string -> string.

Definition createEmptyConfigProto (f : FilterFactory) : ProtoMessage := {| type_of := config_type f; text_of := "" |}.

Definition createEmptyRouteConfigProto (f : FilterFactory) : ProtoMessage :=
  {| type_of := default (inherited_route_type (config_type f)) (route_type f); text_of := "" |}.

(** The filter chain gets the filter; a configuration of another type throws. *)
Definition createFilterFactoryFromProto (f : FilterFactory) (config : ProtoMessage) : outcome AddedFilter :=
  match config_cast f with
  | Some T => obind (dynamic_cast T config) (fun _ => Ok (adds f))
  | None => Ok (adds f)
  end.

(** [None]: a null pointer, what the base class gives. *)
Definition createRouteSpecificFilterConfig (f : FilterFactory) (config : ProtoMessage) :
  outcome (option RouteSpecificFilterConfig) :=
  match route_config f with
  | None => Ok None
  | Some (cast, class) =>
      obind (dynamic_cast (default (type_of (createEmptyRouteConfigProto f)) cast) config) (fun m =>
      Ok (Some {| class_of := class; made_from := m |}))
  end.

(** Loading: the text is parsed into the empty message. *)
Definition fill (text : string) (m : ProtoMessage) : ProtoMessage := {| type_of := type_of m; text_of := text |}.

Definition load_config (f : FilterFactory) (text : string) : outcome AddedFilter :=
  createFilterFactoryFromProto f (fill text (createEmptyConfigProto f)).

Definition load_route (f : FilterFactory) (text : string) : outcome (option RouteSpecificFilterConfig) :=
  createRouteSpecificFilterConfig f (fill text (createEmptyRouteConfigProto f)).

(** A route: the configurations of its filters by name; a filter resolves its own. *)
Definition resolveMostSpecificPerFilterConfig (class name : string) (route : list (string * RouteSpecificFilterConfig)) :
  option RouteSpecificFilterConfig :=
  match List.find (fun c => bool_decide (c.1 = name)) route with
  | Some c => if decide (class_of c.2 = class) then Some c.2 else None
  | None => None
  end.

Definition filter_route_config (f : FilterFactory) (route : list (string * RouteSpecificFilterConfig)) :
  option RouteSpecificFilterConfig :=
  match looks_up f with
  | Some (name, class) => resolveMostSpecificPerFilterConfig class name route
  | None => None
  end.

(** The configurations of a route, each loaded by the factory of its name. *)
Fixpoint load_route_filters (texts : list (string * string)) : outcome (list (string * RouteSpecificFilterConfig)) :=
  match texts with
  | [] => Ok []
  | (name, text) :: texts' =>
      match List.find (fun f => bool_decide (factory_name f = name)) registered with
      | None => Throw "no factory of this name"
      | Some f =>
          obind (load_route f text) (fun config =>
          obind (load_route_filters texts') (fun configs =>
          Ok (match config with Some c => (name, c) :: configs | None => configs end)))
      end
  end.

(** ** Lemmas *)

Definition is_traffic_mark (f : FilterFactory) : bool := bool_decide (factory_name f = "proxy.filters.http.traffic_mark").

(** What a factory casts a route's configuration to is the type of the empty message it gives, and its filter looks
    for the class it makes, under its name; or routes cannot be configured and the filter does not look. *)
Definition agrees (f : FilterFactory) : Prop :=
  match route_config f, looks_up f with
  | Some (cast, class), Some (name, class') =>
      default (type_of (createEmptyRouteConfigProto f)) cast = type_of (createEmptyRouteConfigProto f) /\
      name = factory_name f /\ class' = class
  | None, None => True
  | _, _ => False
  end.

Lemma registered_agree : Forall (fun f => is_traffic_mark f = false -> agrees f) registered.
Proof. repeat constructor; try done. Qed.

Lemma registered_names : NoDup (map factory_name registered).
Proof. apply (bool_decide_unpack _). vm_compute. exact I. Qed.

Lemma find_registered f : f ∈ registered -> List.find (fun g => bool_decide (factory_name g = factory_name f)) registered = Some f.
Proof.
  pose proof registered_names as Hnd. revert Hnd. generalize registered as l.
  induction l as [|g l IH]; intros Hnd Hin; [by apply not_elem_of_nil in Hin|]. cbn [List.find]. cbn [map] in Hnd.
  apply NoDup_cons in Hnd as [Hg Hnd]. apply elem_of_cons in Hin as [->|Hin]; [by rewrite bool_decide_true|].
  rewrite bool_decide_false; [by apply IH|]. intros Heq. apply Hg. rewrite Heq. by apply list_elem_of_fmap_2.
Qed.

(** The configuration a filter is to find on a route: what its factory made of the text. *)
Definition made (f : FilterFactory) (text : string) : option RouteSpecificFilterConfig :=
  match looks_up f with
  | Some (_, class) => Some {| class_of := class; made_from := fill text (createEmptyRouteConfigProto f) |}
  | None => None
  end.

Lemma agrees_load f text : agrees f -> load_route f text = Ok (made f text).
Proof.
  unfold agrees, load_route, createRouteSpecificFilterConfig, made.
  destruct (route_config f) as [[cast class]|], (looks_up f) as [[name class']|]; try done.
  intros (-> & _ & ->). unfold dynamic_cast. by rewrite decide_True.
Qed.

Lemma made_class f name class text : looks_up f = Some (name, class) ->
  made f text = Some {| class_of := class; made_from := fill text (createEmptyRouteConfigProto f) |}.
Proof. unfold made. by intros ->. Qed.

(** ** Properties *)

(** The configurations of a route reach their filters, but for that of the traffic mark filter: the filters are
    registered under different names, and for a route that configures filters by these names (each at most once,
    and the traffic mark filter not at all: its factory throws, see below) loading succeeds and each filter that
    looks for a configuration finds, under the name and with the class it resolves, the one its own factory made
    from the text. *)
Theorem route_configs_reach_filters (Hinherited : forall T, inherited_route_type T = T) (texts : list (FilterFactory * string)) :
  NoDup (map (fun c => factory_name c.1) texts) ->
  Forall (fun c => c.1 ∈ registered /\ is_traffic_mark c.1 = false) texts ->
  NoDup (map factory_name registered) /\
  exists route, load_route_filters (map (fun c => (factory_name c.1, c.2)) texts) = Ok route /\
    forall f text, (f, text) ∈ texts -> filter_route_config f route = made f text.
Proof.
  intros Hnd Hall. split; [exact registered_names|]. induction Hall as [|[f0 text0] texts [Hin Htm] Hall IH].
  { exists []. split; [done|]. intros f text Hc. by apply not_elem_of_nil in Hc. }
  cbn [map fst snd] in *. apply NoDup_cons in Hnd as [H0 Hnd]. destruct (IH Hnd) as (route & Hload & Hroute).
  assert (Hag : agrees f0).
  { pose proof registered_agree as HF. rewrite Forall_forall in HF. by apply HF. }
  cbn [load_route_filters]. rewrite (find_registered f0 Hin), (agrees_load f0 text0 Hag). cbn [obind]. rewrite Hload. cbn [obind].
  eexists. split; [done|]. intros f text. rewrite elem_of_cons. intros [[= -> ->]|Hc].
  - (* its own *)
    unfold filter_route_config, agrees in *. destruct (looks_up f0) as [[name class]|] eqn:Hl; [|by unfold made; rewrite Hl].
    rewrite (made_class f0 name class text0 Hl). destruct (route_config f0) as [[cast class']|]; [|done].
    destruct Hag as (_ & -> & _). unfold resolveMostSpecificPerFilterConfig. cbn [List.find fst].
    rewrite bool_decide_true by done. cbn. by rewrite decide_True.
  - (* one of the others *)
    rewrite <- (Hroute f text Hc). unfold filter_route_config. destruct (looks_up f) as [[name class]|] eqn:Hl; [|done].
    destruct (made f0 text0) as [c0|]; [|done]. unfold resolveMostSpecificPerFilterConfig. cbn [List.find fst].
    rewrite bool_decide_false; [done|]. intros Heq. apply H0.
    assert (name = factory_name f) as Hname.
    { rewrite Forall_forall in Hall. destruct (Hall _ Hc) as [Hf Hft]. pose proof registered_agree as HF. rewrite Forall_forall in HF.
      specialize (HF f Hf Hft). unfold agrees in HF. rewrite Hl in HF. destruct (route_config f) as [[cast class']|]; [|done]. by destruct HF as (_ & -> & _). }
    rewrite Heq, Hname. apply list_elem_of_fmap. by exists (f, text).
Qed.

(** The traffic mark filter excepted: its factory gives an empty message of the type of its own configuration and
    casts what comes back to the type of the route's, so that every route that configures it throws. *)
Theorem traffic_mark_route_throws (Hinherited : forall T, inherited_route_type T = T) (text : string) :
  load_route HttpTrafficMarkFilterFactory text = Throw "std::bad_cast".
Proof.
  unfold load_route, createRouteSpecificFilterConfig, createEmptyRouteConfigProto, dynamic_cast. cbn.
  rewrite Hinherited. by rewrite decide_False by done.
Qed.
End Base.

Lemma route_configs_reach_filters_witness :
  NoDup (map factory_name registered) /\
  exists route, load_route_filters (fun T => T)
      [("proxy.filters.http.ua_restriction", "ua"); ("proxy.filters.http.waf", "rules"); ("proxy.filters.http.redis_cache", "ttl")]
    = Ok route /\
  forall f text, (f, text) ∈ [(HeaderRestrictionFactory "proxy.filters.http.ua_restriction", "ua"); (WafFilterConfig, "rules");
      (CacheFilterFactory "proxy.filters.http.redis_cache", "ttl")] ->
    filter_route_config f route = made (fun T => T) f text.
Proof.
  apply (route_configs_reach_filters (fun T => T) (fun T => eq_refl)
    [(HeaderRestrictionFactory "proxy.filters.http.ua_restriction", "ua"); (WafFilterConfig, "rules");
     (CacheFilterFactory "proxy.filters.http.redis_cache", "ttl")]).
  - apply (bool_decide_unpack _). vm_compute. exact I.
  - assert (Hr : forall f, In f registered -> f ∈ registered) by (intros f; apply list_elem_of_In).
    repeat (apply Forall_cons; split; [split; [apply Hr; cbn; tauto|reflexivity]|]). apply Forall_nil. exact I.
Defined.

Lemma traffic_mark_route_throws_witness :
  load_route (fun T => T) HttpTrafficMarkFilterFactory "{}" = Throw "std::bad_cast".
Proof. apply (traffic_mark_route_throws (fun T => T) (fun T => eq_refl)). Defined.
