(* ===== verification/Regex.v ===== *)
(** * Regular expressions of the C++ standard library

    The filters use [std::regex_match] with patterns of character classes,
    alternatives, sequences and repetition; the anchors at the ends of a pattern
    say what [regex_match] asks for anyway.  A pattern is a value of [regex], the
    matcher takes derivatives, and [regex_match_spec] connects it with the
    language a pattern denotes.  A pattern without a star denotes a finite set,
    which [enum] lists. *)

From S2P Require Import Prelude.
From Stdlib Require Import Ascii.
From stdpp Require Import base gmap strings numbers list.

Inductive regex : Type :=
| Empty
| Eps
| Cls (ranges : list (ascii * ascii))
| Seq (r s : regex)
| Alt (r s : regex)
| Star (r : regex).

(** A class is a list of ranges. *)
Definition in_range (a : ascii) (p : ascii * ascii) : bool :=
  (nat_of_ascii p.1 <=? nat_of_ascii a)%nat && (nat_of_ascii a <=? nat_of_ascii p.2)%nat.
Definition in_class (cs : list (ascii * ascii)) (a : ascii) : bool := existsb (in_range a) cs.

(** [c], [r?], [r{n}], [r{1,n}] and [\d]. *)
Definition chr (c : ascii) : regex := Cls [(c, c)].
Fixpoint word (s : string) : regex :=
  match s with EmptyString => Eps | String a s' => Seq (chr a) (word s') end.
Definition opt (r : regex) : regex := Alt r Eps.
Fixpoint rep (n : nat) (r : regex) : regex :=
  match n with O => Eps | S n' => Seq r (rep n' r) end.
Fixpoint upto (n : nat) (r : regex) : regex :=
  match n with O => Empty | S n' => Alt (rep (S n') r) (upto n' r) end.
Definition digits : list (ascii * ascii) := [("0", "9")%char].

(** ** Matching *)

Fixpoint nullable (r : regex) : bool :=
  match r with
  | Empty | Cls _ => false
  | Eps | Star _ => true
  | Seq r s => nullable r && nullable s
  | Alt r s => nullable r || nullable s
  end.

(** What is left to match after the character [a]. *)
Fixpoint derive (a : ascii) (r : regex) : regex :=
  match r with
  | Empty | Eps => Empty
  | Cls cs => if in_class cs a then Eps else Empty
  | Seq r s =>
      let first := Seq (derive a r) s in
      if nullable r then Alt first (derive a s) else first
  | Alt r s => Alt (derive a r) (derive a s)
  | Star r => Seq (derive a r) (Star r)
  end.

Fixpoint regex_match (s : string) (r : regex) : bool :=
  match s with
  | EmptyString => nullable r
  | String a s' => regex_match s' (derive a r)
  end.

(** ** The language of a pattern *)

Inductive matches : regex -> string -> Prop :=
| m_eps : matches Eps ""
| m_cls cs a : in_class cs a = true -> matches (Cls cs) (String a "")
| m_seq r s t u : matches r t -> matches s u -> matches (Seq r s) (t +:+ u)
| m_alt_l r s t : matches r t -> matches (Alt r s) t
| m_alt_r r s t : matches s t -> matches (Alt r s) t
| m_star_nil r : matches (Star r) ""
| m_star_app r t u : matches r t -> matches (Star r) u -> matches (Star r) (t +:+ u).
Create HintDb regex.
#[export] Hint Constructors matches : regex.

Lemma matches_empty s : ~ matches Empty s.
Proof. inversion 1. Qed.

Lemma matches_eps s : matches Eps s <-> s = "".
Proof. split; [by inversion 1|intros ->; constructor]. Qed.

Lemma matches_cls cs s : matches (Cls cs) s <-> exists a, s = String a "" /\ in_class cs a = true.
Proof. split; [inversion 1; eauto|intros (a & -> & H); by constructor]. Qed.

Lemma matches_seq r s t :
  matches (Seq r s) t <-> exists u v, t = u +:+ v /\ matches r u /\ matches s v.
Proof. split; [inversion 1; eauto|intros (u & v & -> & H1 & H2); by constructor]. Qed.

Lemma matches_alt r s t : matches (Alt r s) t <-> matches r t \/ matches s t.
Proof. split; [inversion 1; auto|intros [H|H]; auto with regex]. Qed.

Lemma nullable_spec r : nullable r = true <-> matches r "".
Proof.
  induction r as [| |cs|r IHr s IHs|r IHr s IHs|r _]; cbn [nullable].
  - split; [done|]. by intros ?%matches_empty.
  - split; auto with regex.
  - split; [done|]. intros (a & [=] & _)%matches_cls.
  - rewrite andb_true_iff, IHr, IHs, matches_seq. split.
    + intros [H1 H2]. by exists "", "".
    + intros ([|??] & [|??] & [=] & H1 & H2); done.
  - by rewrite orb_true_iff, IHr, IHs, matches_alt.
  - split; auto with regex.
Qed.

(** A non empty match of a star begins with a non empty match of its body. *)
Lemma star_cons r a s :
  matches (Star r) (String a s) ->
  exists u v, s = u +:+ v /\ matches r (String a u) /\ matches (Star r) v.
Proof.
  remember (Star r) as q eqn:Eq. remember (String a s) as t eqn:Et. intros H.
  revert Eq Et. induction H as [| | | | | |r' t u H1 _ H2 IH]; intros [= ->] Et; [done|].
  destruct t as [|b t]; [by apply IH|]. injection Et as -> <-. by exists t, u.
Qed.

Lemma derive_spec a r : forall s, matches (derive a r) s <-> matches r (String a s).
Proof.
  induction r as [| |cs|r IHr q IHq|r IHr q IHq|r IHr]; intros s; cbn [derive].
  - split; by intros ?%matches_empty.
  - split; [by intros ?%matches_empty|]. by intros ?%matches_eps.
  - destruct (in_class cs a) eqn:E; rewrite ?matches_eps, matches_cls.
    + split; [intros ->; eauto|]. by intros (b & [= -> ->] & _).
    + split; [by intros ?%matches_empty|]. intros (b & [= -> ->] & Hb). congruence.
  - assert (Hfirst : matches (Seq (derive a r) q) s <->
      exists u v, s = u +:+ v /\ matches r (String a u) /\ matches q v).
    { rewrite matches_seq. setoid_rewrite IHr. done. }
    assert (Hseq : matches (Seq r q) (String a s) <->
      (matches r "" /\ matches q (String a s)) \/ matches (Seq (derive a r) q) s).
    { rewrite Hfirst, matches_seq. split.
      - intros ([|b u] & v & E & H1 & H2).
        + left. change (String a s = v) in E. by subst v.
        + right. injection E as -> ->. by exists u, v.
      - intros [[H1 H2]|(u & v & -> & H1 & H2)]; [by exists "", (String a s)|].
        by exists (String a u), v. }
    rewrite Hseq, <- nullable_spec. destruct (nullable r); [rewrite matches_alt, IHq|]; naive_solver.
  - by rewrite !matches_alt, IHr, IHq.
  - rewrite matches_seq. split.
    + intros (u & v & -> & H1 & H2). rewrite IHr in H1. exact (m_star_app r _ v H1 H2).
    + intros (u & v & -> & H1 & H2)%star_cons. exists u, v. by rewrite IHr.
Qed.

(** The matcher decides the language. *)
Lemma regex_match_spec s : forall r, regex_match s r = true <-> matches r s.
Proof.
  induction s as [|a s IH]; intros r; cbn [regex_match]; [apply nullable_spec|].
  by rewrite IH, derive_spec.
Qed.

Lemma regex_match_false s r : regex_match s r = false <-> ~ matches r s.
Proof. rewrite <- regex_match_spec. by destruct (regex_match s r). Qed.

(** ** Derived forms *)

Lemma matches_chr c s : matches (chr c) s <-> s = String c "".
Proof.
  unfold chr. rewrite matches_cls. unfold in_class, in_range. cbn [existsb fst snd]. split.
  - intros (a & -> & H). rewrite orb_false_r, andb_true_iff, !Nat.leb_le in H.
    f_equal. rewrite <- (ascii_nat_embedding a), <- (ascii_nat_embedding c). f_equal. lia.
  - intros ->. exists c. by rewrite Nat.leb_refl.
Qed.

Lemma matches_word w s : matches (word w) s <-> s = w.
Proof.
  revert s. induction w as [|a w IH]; intros s; cbn [word]; [apply matches_eps|].
  rewrite matches_seq. setoid_rewrite matches_chr. setoid_rewrite IH. naive_solver.
Qed.

(** [r{n}] is a sequence of [n] matches of [r]. *)
Lemma matches_rep n r s :
  matches (rep n r) s <-> exists l, length l = n /\ Forall (matches r) l /\ s = foldr String.append "" l.
Proof.
  revert s. induction n as [|n IH]; intros s; cbn [rep].
  - rewrite matches_eps. split; [intros ->; by exists []|]. by intros ([|??] & [=] & _ & ->).
  - rewrite matches_seq. setoid_rewrite IH. split.
    + intros (u & v & -> & Hu & l & Hl & HF & ->). exists (u :: l). simpl. eauto.
    + intros ([|u l] & [=] & HF & ->). apply Forall_cons in HF as [Hu HF].
      exists u, (foldr String.append "" l). eauto 6.
Qed.

Lemma matches_upto n r s : matches (upto n r) s <-> exists k, (1 <= k <= n)%nat /\ matches (rep k r) s.
Proof.
  induction n as [|n IH]; cbn [upto].
  - split; [by intros ?%matches_empty|]. intros (k & Hk & _). lia.
  - rewrite matches_alt, IH. split.
    + intros [H|(k & Hk & H)]; [exists (S n)|exists k]; (split; [lia|done]).
    + intros (k & Hk & H). destruct (decide (k = S n)) as [->|Hne]; [by left|]. right.
      exists k. split; [lia|done].
Qed.

Lemma matches_rep_cls n cs s :
  matches (rep n (Cls cs)) s <-> String.length s = n /\ string_forallb (in_class cs) s = true.
Proof.
  revert s. induction n as [|n IH]; intros s; cbn [rep].
  - rewrite matches_eps. destruct s; naive_solver.
  - rewrite matches_seq. setoid_rewrite matches_cls. setoid_rewrite IH. split.
    + intros (u & v & -> & (a & -> & Ha) & Hl & Hv). change (String a "" +:+ v) with (String a v).
      cbn [String.length string_forallb]. rewrite Ha. auto.
    + destruct s as [|a s]; cbn; [naive_solver|]. intros [[= Hl] [Ha Hs]%andb_prop].
      exists (String a ""), s. eauto 6.
Qed.

Lemma matches_upto_cls n cs s :
  matches (upto n (Cls cs)) s <->
  (1 <= String.length s <= n)%nat /\ string_forallb (in_class cs) s = true.
Proof. rewrite matches_upto. setoid_rewrite matches_rep_cls. naive_solver. Qed.

(** [(r c){n} r] is [n + 1] matches of [r] joined by [c]. *)
Lemma matches_joined n r c s :
  matches (Seq (rep n (Seq r (chr c))) r) s <->
  exists l, length l = S n /\ Forall (matches r) l /\ s = String.concat (String c "") l.
Proof.
  revert s. induction n as [|n IH]; intros s; cbn [rep].
  - rewrite matches_seq. setoid_rewrite matches_eps. split.
    + intros (u & v & -> & -> & Hv). exists [v]. simpl. auto.
    + intros ([|u [|??]] & [=] & [Hu _]%Forall_cons & ->). by exists "", u.
  - assert (Hcons : matches (Seq (Seq (Seq r (chr c)) (rep n (Seq r (chr c)))) r) s <->
      exists u v, s = u +:+ String c v /\ matches r u /\ matches (Seq (rep n (Seq r (chr c))) r) v).
    { split.
      - intros (? & z & -> & (? & y & -> & (u & ? & -> & Hu & ->%matches_chr)%matches_seq & Hy)%matches_seq
          & Hz)%matches_seq.
        exists u, (y +:+ z). rewrite !string_app_assoc. auto with regex.
      - intros (u & ? & -> & Hu & (y & z & -> & Hy & Hz)%matches_seq).
        replace (u +:+ String c (y +:+ z)) with (((u +:+ String c "") +:+ y) +:+ z)
          by by rewrite !string_app_assoc.
        pose proof (proj2 (matches_chr c _) eq_refl). auto with regex. }
    rewrite Hcons. setoid_rewrite IH. split.
    + intros (u & ? & -> & Hu & l & Hl & HF & ->). exists (u :: l).
      destruct l as [|u' l]; [done|]. simpl in *. auto.
    + intros ([|u [|u' l]] & [=] & [Hu HF]%Forall_cons & ->).
      exists u, (String.concat (String c "") (u' :: l)). split_and!; [done..|]. eexists (u' :: l). simpl. auto.
Qed.

Definition all_ascii : list ascii := ascii_of_nat <$> seq 0 256.

Lemma all_ascii_elem a : a ∈ all_ascii.
Proof.
  unfold all_ascii. rewrite <- (ascii_nat_embedding a). apply list_elem_of_fmap_2, elem_of_seq.
  split; [lia|]. pose proof (nat_ascii_bounded a). lia.
Qed.

(** The characters of a pattern satisfy [P]. *)
Fixpoint over (P : ascii -> bool) (r : regex) : bool :=
  match r with
  | Empty | Eps => true
  | Cls cs => forallb (fun a => implb (in_class cs a) (P a)) all_ascii
  | Seq r s | Alt r s => over P r && over P s
  | Star r => over P r
  end.

Lemma over_spec P r s : over P r = true -> matches r s -> string_forallb P s = true.
Proof.
  intros Hr Hm. induction Hm as [|cs a Ha|r s t u _ IH1 _ IH2|r s t _ IH|r s t _ IH| |r t u _ IH1 _ IH2];
    cbn [over] in Hr; rewrite ?string_forallb_app; try (by auto).
  - rewrite forallb_forall in Hr. specialize (Hr a (proj1 (list_elem_of_In _ _) (all_ascii_elem a))).
    rewrite Ha in Hr. cbn [implb] in Hr. cbn [string_forallb]. by rewrite Hr.
  - apply andb_prop in Hr as [Hr1 Hr2]. by rewrite IH1, IH2.
  - apply andb_prop in Hr as [Hr1 Hr2]. auto.
  - apply andb_prop in Hr as [Hr1 Hr2]. auto.
  - by rewrite IH1, IH2.
Qed.

(** ** Finite languages *)

Fixpoint star_free (r : regex) : bool :=
  match r with
  | Empty | Eps | Cls _ => true
  | Seq r s | Alt r s => star_free r && star_free s
  | Star _ => false
  end.

Fixpoint enum (r : regex) : list string :=
  match r with
  | Empty | Star _ => []
  | Eps => [""]
  | Cls cs => (fun a => String a "") <$> base.filter (fun a => in_class cs a = true) all_ascii
  | Seq r s => u ← enum r; v ← enum s; [u +:+ v]
  | Alt r s => enum r ++ enum s
  end.

Lemma enum_spec r s : star_free r = true -> s ∈ enum r <-> matches r s.
Proof.
  revert s. induction r as [| |cs|r IHr q IHq|r IHr q IHq|r IHr]; intros s; cbn [star_free enum]; intros H.
  - rewrite elem_of_nil. split; [done|]. by intros ?%matches_empty.
  - by rewrite list_elem_of_singleton, matches_eps.
  - rewrite list_elem_of_fmap, matches_cls. setoid_rewrite list_elem_of_filter.
    pose proof all_ascii_elem. naive_solver.
  - apply andb_prop in H as [Hr Hq]. rewrite matches_seq, list_elem_of_bind.
    setoid_rewrite list_elem_of_bind. setoid_rewrite list_elem_of_singleton.
    setoid_rewrite (fun u => IHr u Hr). setoid_rewrite (fun u => IHq u Hq). naive_solver.
  - apply andb_prop in H as [Hr Hq]. by rewrite elem_of_app, matches_alt, IHr, IHq.
  - done.
Qed.

(** A property of all matches of a finite pattern, by evaluation. *)
Lemma enum_forall r (P : string -> bool) s :
  star_free r = true -> forallb P (enum r) = true -> matches r s -> P s = true.
Proof.
  intros Hr HP Hs. apply enum_spec in Hs; [|done]. rewrite forallb_forall in HP.
  apply HP. by apply list_elem_of_In.
Qed.
