(* ===== verification/IpRestriction.v ===== *)
(** * The IP restriction filter (source/filters/http/ip_restriction)

    A route has a black or white list of addresses and address ranges.  Entries
    are classified by four regular expressions; the filter refuses a request
    whose address the list does not allow.  Addresses are objects of the proxy
    ([Network]); what their texts mean is stated by [NetworkLaws] in terms of
    numbers: 32 bits for IPv4, 128 bits for IPv6. *)

From S2P Require Import Prelude Decimal Http Regex.
From Stdlib Require Import Ascii.
From stdpp Require Import base gmap strings numbers list pretty.
#[local] Open Scope Z_scope.

(** ** Addresses *)

Inductive AddressType := Ip | Pipe | EnvoyInternal.
Inductive IpVersion := v4 | v6.
#[global] Instance IpVersion_eq_dec : EqDecision IpVersion.
Proof. solve_decision. Defined.

Class Network (Addr CidrRange : Type) := {
  Ipv4Instance : string -> outcome Addr;
  Ipv6Instance : string -> outcome Addr;
  addr_type : Addr -> AddressType;
  version : Addr -> IpVersion;
  ipv4_address : Addr -> Z;
  addressAsString : Addr -> string;
  CidrRange_create : Addr -> Z -> CidrRange;
  isInRange : CidrRange -> Addr -> bool;
  parseInternetAddress : string -> option Addr;
}.
(** ([parseInternetAddress] gives [None] where it throws.) *)

(** ** The regular expressions *)

Definition hex_digits : list (ascii * ascii) :=
  [("0", "9")%char; ("a", "f")%char; ("A", "F")%char].

(** [25[0-5]|2[0-4]\d|[01]?\d\d?] *)
Definition octet : regex :=
  Alt (Seq (word "25") (Cls [("0", "5")%char]))
 (Alt (Seq (chr "2") (Seq (Cls [("0", "4")%char]) (Cls digits)))
      (Seq (opt (Cls [("0", "1")%char])) (Seq (Cls digits) (opt (Cls digits))))).

Definition REGEXIPV4 : regex := Seq (rep 3 (Seq octet (chr "."))) octet.

(** [3[01]|[12]\d|\d] *)
Definition prefix_v4 : regex :=
  Alt (Seq (chr "3") (Cls [("0", "1")%char]))
 (Alt (Seq (Cls [("1", "2")%char]) (Cls digits)) (Cls digits)).

Definition IPV4WITHCIDR : regex := Seq REGEXIPV4 (Seq (chr "/") prefix_v4).

Definition hex_group : regex := upto 4 (Cls hex_digits).
Definition REGEXIPV6 : regex := Seq (rep 7 (Seq hex_group (chr ":"))) hex_group.

(** [1[012][0-7]|[1-9]\d|\d] *)
Definition prefix_v6 : regex :=
  Alt (Seq (chr "1") (Seq (Cls [("0", "2")%char]) (Cls [("0", "7")%char])))
 (Alt (Seq (Cls [("1", "9")%char]) (Cls digits)) (Cls digits)).

Definition IPV6WITHCIDR : regex := Seq REGEXIPV6 (Seq (chr "/") prefix_v6).

(** ** The list of a route *)

Inductive IpType := RAWIPV4 | RAWIPV6 | CIDRV4 | CIDRV6 | NONE.

Definition parseIpType (entry : string) : IpType :=
  if regex_match entry REGEXIPV4 then RAWIPV4
  else if regex_match entry IPV4WITHCIDR then CIDRV4
  else if regex_match entry REGEXIPV6 then RAWIPV6
  else if regex_match entry IPV6WITHCIDR then CIDRV6
  else NONE.

(** [entry.find_last_of("/")], the text before it and the text after it. *)
Fixpoint cut_last (c : ascii) (s : string) : option (string * string) :=
  match s with
  | EmptyString => None
  | String a s' =>
      match cut_last c s' with
      | Some (l, r) => Some (String a l, r)
      | None => if decide (a = c) then Some ("", s') else None
      end
  end.

(** [std::stoi] of a text that begins with digits. *)
Fixpoint leading_digits (s : string) : string :=
  match s with
  | EmptyString => ""
  | String a s' => if is_digit a then String a (leading_digits s') else ""
  end.
Definition stoi (s : string) : outcome Z :=
  let t := leading_digits s in
  if decide (t = "") then Throw "stoi"
  else if dec_value t <? 2 ^ 31 then Ok (dec_value t) else Throw "stoi".

(** An open enumeration of the protocol buffers. *)
Inductive ListType := BLACK | WHITE | UnknownListType (n : Z).

(** [isBlackList_] has no value until the constructor sets it. *)
Record BlackOrWhiteListConfig (CidrRange : Type) := {
  isBlackList_ : option bool;
  rawIpV4 : gset Z;
  rawIpV6 : gset string;
  cidrIpV4_ : list CidrRange;
  cidrIpV6_ : list CidrRange;
}.
Arguments isBlackList_ {_} _.
Arguments rawIpV4 {_} _.
Arguments rawIpV6 {_} _.
Arguments cidrIpV4_ {_} _.
Arguments cidrIpV6_ {_} _.

Section operations.
Context {Addr CidrRange : Type} `{!Network Addr CidrRange}.

#[local] Open Scope proxy_scope.

Abbreviation config := (BlackOrWhiteListConfig CidrRange).

Definition add_rawIpV4 (z : Z) (c : config) : config :=
  {| isBlackList_ := isBlackList_ c; rawIpV4 := {[ z ]} ∪ rawIpV4 c; rawIpV6 := rawIpV6 c;
     cidrIpV4_ := cidrIpV4_ c; cidrIpV6_ := cidrIpV6_ c |}.
Definition add_rawIpV6 (s : string) (c : config) : config :=
  {| isBlackList_ := isBlackList_ c; rawIpV4 := rawIpV4 c; rawIpV6 := {[ s ]} ∪ rawIpV6 c;
     cidrIpV4_ := cidrIpV4_ c; cidrIpV6_ := cidrIpV6_ c |}.
Definition add_cidrIpV4 (r : CidrRange) (c : config) : config :=
  {| isBlackList_ := isBlackList_ c; rawIpV4 := rawIpV4 c; rawIpV6 := rawIpV6 c;
     cidrIpV4_ := cidrIpV4_ c ++ [r]; cidrIpV6_ := cidrIpV6_ c |}.
Definition add_cidrIpV6 (r : CidrRange) (c : config) : config :=
  {| isBlackList_ := isBlackList_ c; rawIpV4 := rawIpV4 c; rawIpV6 := rawIpV6 c;
     cidrIpV4_ := cidrIpV4_ c; cidrIpV6_ := cidrIpV6_ c ++ [r] |}.

(** The two parts of an entry with a slash; without one, [find_last_of] gives
    [npos], which is -1 as an [int], and both are the whole entry. *)
Definition entry_parts (entry : string) : string * string :=
  default (entry, entry) (cut_last "/" entry).

Definition parseIpEntry (entry : string) (c : config) : outcome config :=
  if decide (entry = "") then Ok c
  else match parseIpType entry with
  | RAWIPV4 => let* temp := Ipv4Instance entry in Ok (add_rawIpV4 (ipv4_address temp) c)
  | RAWIPV6 => let* temp := Ipv6Instance entry in Ok (add_rawIpV6 (addressAsString temp) c)
  | CIDRV4 =>
      let* length := stoi (entry_parts entry).2 in
      let* address := Ipv4Instance (entry_parts entry).1 in
      Ok (add_cidrIpV4 (CidrRange_create address length) c)
  | CIDRV6 =>
      let* length := stoi (entry_parts entry).2 in
      let* address := Ipv6Instance (entry_parts entry).1 in
      Ok (add_cidrIpV6 (CidrRange_create address length) c)
  | NONE => Ok c
  end.

Fixpoint parseIpEntries (entries : list string) (c : config) : outcome config :=
  match entries with
  | [] => Ok c
  | e :: entries' => let* c' := parseIpEntry e c in parseIpEntries entries' c'
  end.

Definition new_BlackOrWhiteListConfig (type : ListType) (entries : list string) : outcome config :=
  parseIpEntries entries
    {| isBlackList_ := match type with BLACK => Some true | WHITE => Some false | _ => None end;
       rawIpV4 := ∅; rawIpV6 := ∅; cidrIpV4_ := []; cidrIpV6_ := [] |}.

Definition checkIpEntry (c : config) (address : Addr) : bool :=
  match version address with
  | v4 => bool_decide (ipv4_address address ∈ rawIpV4 c) ||
          existsb (fun r => isInRange r address) (cidrIpV4_ c)
  | v6 => bool_decide (addressAsString address ∈ rawIpV6 c) ||
          existsb (fun r => isInRange r address) (cidrIpV6_ c)
  end.

Definition isAllowed (c : config) (address : Addr) : outcome bool :=
  let result := checkIpEntry c address in
  match isBlackList_ c with
  | Some black => Ok ((result && negb black) || (negb result && black))
  | None => Undefined "isBlackList_ read before it is set"
  end.

(** ** The filter *)

Inductive effect :=
| ok_inc
| denied_inc
| sendLocalReply (r : LocalReply).

(** [route->routeEntry()] and the most specific configuration of the filter. *)
Record Route := { routeEntry : bool; listConfig : option config }.

Definition denied_reply : LocalReply :=
  {| reply_code := 403; reply_body := "Your IP is not allowed.";
     reply_headers := [("x-ip-restriction-denied", "true")];
     reply_details := "forbidden_by_ip_restriction" |}.

(** The address to look at: [None] when there is none. *)
Definition remote_address {H} `{HeaderMap H} (ip_source_header_ : string) (headers : H)
    (remoteAddress : option Addr) : option Addr :=
  if decide (ip_source_header_ = "") then remoteAddress
  else match hm_get ip_source_header_ headers with
  | [] => None
  | custom_address :: _ => parseInternetAddress custom_address
  end.

Definition decodeHeaders {H} `{HeaderMap H} (ip_source_header_ : string) (route : option Route)
    (remoteAddress : option Addr) (headers : H) : outcome (FilterHeadersStatus * list effect) :=
  match route with
  | Some {| routeEntry := true; listConfig := Some list |} =>
      match remote_address ip_source_header_ headers remoteAddress with
      | Some address =>
          match addr_type address with
          | Ip =>
              let* allowed := isAllowed list address in
              if allowed then Ok (Continue, [ok_inc])
              else Ok (StopIteration, [sendLocalReply denied_reply; denied_inc])
          | _ => Ok (Continue, [])
          end
      | None => Ok (Continue, [])
      end
  | _ => Ok (Continue, [])
  end.

End operations.

(** ** What entries mean *)

Definition octet_text (s : string) : Prop :=
  all_digits s = true /\ (1 <= String.length s <= 3)%nat /\ dec_value s <= 255.
Definition dotted_quad (s : string) (os : list string) : Prop :=
  length os = 4%nat /\ Forall octet_text os /\ s = String.concat "." os.
Definition quad_value (os : list string) : Z :=
  fold_left (fun acc o => 256 * acc + dec_value o) os 0.

Definition hex_value (a : ascii) : Z :=
  let n := Z.of_nat (nat_of_ascii a) in
  if n <? 58 then n - 48 else if n <? 71 then n - 55 else n - 87.
Fixpoint hex_number (acc : Z) (s : string) : Z :=
  match s with EmptyString => acc | String a s' => hex_number (16 * acc + hex_value a) s' end.
Definition group_text (s : string) : Prop :=
  (1 <= String.length s <= 4)%nat /\ string_forallb (in_class hex_digits) s = true.
Definition hex_groups (s : string) (gs : list string) : Prop :=
  length gs = 8%nat /\ Forall group_text gs /\ s = String.concat ":" gs.
Definition groups_value (gs : list string) : Z :=
  fold_left (fun acc g => 65536 * acc + hex_number 0 g) gs 0.

Definition width (v : IpVersion) : Z := match v with v4 => 32 | v6 => 128 end.
Definition text_denotes (v : IpVersion) (s : string) (z : Z) : Prop :=
  match v with
  | v4 => exists os, dotted_quad s os /\ z = quad_value os
  | v6 => exists gs, hex_groups s gs /\ z = groups_value gs
  end.

(** The prefix lengths the patterns accept. *)
Definition pattern_prefix (v : IpVersion) (n : Z) : bool :=
  match v with
  | v4 => (0 <=? n) && (n <=? 31)
  | v6 => (0 <=? n) && (n <=? 127) && ((n <? 100) || (n mod 10 <=? 7))
  end.

(** What an entry of a list means: an address, or an address, a slash and a prefix
    length of any size up to the width of the address. *)
Definition range_text (e : string) (v : IpVersion) (n y : Z) : Prop :=
  exists q, e = q +:+ String "/" (to_string_nonneg n) /\ 0 <= n <= width v /\ text_denotes v q y.
Definition entry_denotes (e : string) (v : IpVersion) (z : Z) : Prop :=
  text_denotes v e z \/
  exists n y, range_text e v n y /\ Z.shiftr z (width v - n) = Z.shiftr y (width v - n).

(** The ranges no pattern accepts. *)
Definition dropped_lengths (v : IpVersion) : list Z :=
  match v with v4 => [32] | v6 => [108; 109; 118; 119; 128] end.
Definition dropped (e : string) : Prop :=
  exists v n y, range_text e v n y /\ n ∈ dropped_lengths v.

(** What an entry means to the filter. *)
Definition entry_taken (e : string) (v : IpVersion) (z : Z) : Prop :=
  text_denotes v e z \/
  exists q n y, e = q +:+ String "/" (to_string_nonneg n) /\ pattern_prefix v n = true /\
    text_denotes v q y /\ Z.shiftr z (width v - n) = Z.shiftr y (width v - n).

(** The documented meaning of addresses and ranges; [bits] is the number of an address. *)
Class NetworkLaws (Addr CidrRange : Type) `{!Network Addr CidrRange} := {
  bits : Addr -> Z;
  ipv4_instance : forall s a, Ipv4Instance s = Ok a ->
    version a = v4 /\ forall z, text_denotes v4 s z -> bits a = z;
  ipv6_instance : forall s a, Ipv6Instance s = Ok a ->
    version a = v6 /\ forall z, text_denotes v6 s z -> bits a = z;
  ipv4_address_bits : forall a b, version a = v4 -> version b = v4 ->
    ipv4_address a = ipv4_address b <-> bits a = bits b;
  addressAsString_bits : forall a b, version a = v6 -> version b = v6 ->
    addressAsString a = addressAsString b <-> bits a = bits b;
  range_bits : forall a n b, 0 <= n <= width (version a) ->
    isInRange (CidrRange_create a n) b = true <->
    version b = version a /\
    Z.shiftr (bits b) (width (version a) - n) = Z.shiftr (bits a) (width (version a) - n);
}.

(** ** The patterns denote these texts *)

Lemma all_digits_forallb s : all_digits s = string_forallb (in_class digits) s.
Proof.
  induction s as [|a s IH]; [done|]. cbn [all_digits string_forallb]. rewrite IH. f_equal.
  unfold is_digit, digit_value, in_class, in_range, digits. cbn [existsb fst snd].
  change (nat_of_ascii "0"%char) with 48%nat. change (nat_of_ascii "9"%char) with 57%nat.
  rewrite orb_false_r. apply eq_true_iff_eq. rewrite !andb_true_iff, !Z.leb_le, !Nat.leb_le. lia.
Qed.

Lemma octet_match s : matches octet s <-> octet_text s.
Proof.
  split.
  - intros H. assert (HP : all_digits s && (1 <=? String.length s)%nat && (String.length s <=? 3)%nat
      && (dec_value s <=? 255) = true).
    { revert H. apply (enum_forall octet (fun s => all_digits s && (1 <=? String.length s)%nat
        && (String.length s <=? 3)%nat && (dec_value s <=? 255))); [done|by vm_compute]. }
    rewrite !andb_true_iff, !Nat.leb_le, Z.leb_le in HP. unfold octet_text. naive_solver.
  - intros (Hd & Hl & Hv). apply regex_match_spec.
    assert (HP : implb (dec_value s <=? 255) (regex_match s octet) = true).
    { apply (enum_forall (upto 3 (Cls digits)) (fun s => implb (dec_value s <=? 255) (regex_match s octet)));
        [done|by vm_compute|]. apply matches_upto_cls. by rewrite <- all_digits_forallb. }
    by rewrite (proj2 (Z.leb_le _ _) Hv) in HP.
Qed.

Lemma group_match s : matches hex_group s <-> group_text s.
Proof. apply matches_upto_cls. Qed.

Lemma REGEXIPV4_match s : matches REGEXIPV4 s <-> exists os, dotted_quad s os.
Proof.
  unfold REGEXIPV4. rewrite matches_joined. unfold dotted_quad. split; intros (l & Hl & HF & ->);
    (exists l; split_and!; [done| |done]); (eapply Forall_impl; [exact HF|]); intros; by apply octet_match.
Qed.

Lemma REGEXIPV6_match s : matches REGEXIPV6 s <-> exists gs, hex_groups s gs.
Proof.
  unfold REGEXIPV6. rewrite matches_joined. unfold hex_groups. split; intros (l & Hl & HF & ->);
    (exists l; split_and!; [done| |done]); (eapply Forall_impl; [exact HF|]); intros; by apply group_match.
Qed.

Definition prefix_regex (v : IpVersion) : regex := match v with v4 => prefix_v4 | v6 => prefix_v6 end.

(** The texts of the accepted prefix lengths are their canonical decimals. *)
Lemma prefix_match v s :
  matches (prefix_regex v) s <-> exists n, s = to_string_nonneg n /\ pattern_prefix v n = true.
Proof.
  split.
  - intros H. exists (dec_value s).
    assert (HP : String.eqb s (to_string_nonneg (dec_value s)) && pattern_prefix v (dec_value s) = true).
    { revert H. apply (enum_forall (prefix_regex v)
        (fun s => String.eqb s (to_string_nonneg (dec_value s)) && pattern_prefix v (dec_value s)));
        destruct v; done || by vm_compute. }
    apply andb_prop in HP as [HP1 HP2]. by apply String.eqb_eq in HP1.
  - intros (n & -> & Hn). apply regex_match_spec.
    assert (Hall : forallb (fun k => let n := Z.of_nat k in
        implb (pattern_prefix v n) (regex_match (to_string_nonneg n) (prefix_regex v))) (seq 0 128) = true)
      by (destruct v; by vm_compute).
    rewrite forallb_forall in Hall. specialize (Hall (Z.to_nat n)).
    assert (Hr : 0 <= n <= 127) by (destruct v; cbn [pattern_prefix] in Hn; lia).
    cbv zeta in Hall. rewrite Z2Nat.id, Hn in Hall by lia. apply Hall, in_seq. lia.
Qed.

Definition address_regex (v : IpVersion) : regex := match v with v4 => REGEXIPV4 | v6 => REGEXIPV6 end.

Lemma address_match v s : matches (address_regex v) s <-> exists z, text_denotes v s z.
Proof.
  destruct v; cbn [address_regex text_denotes]; rewrite ?REGEXIPV4_match, ?REGEXIPV6_match; naive_solver.
Qed.

Lemma cidr_match v s :
  matches (Seq (address_regex v) (Seq (chr "/") (prefix_regex v))) s <->
  exists q n y, s = q +:+ String "/" (to_string_nonneg n) /\ pattern_prefix v n = true /\ text_denotes v q y.
Proof.
  rewrite matches_seq. setoid_rewrite matches_seq. setoid_rewrite matches_chr.
  setoid_rewrite prefix_match. setoid_rewrite address_match. split.
  - intros (q & ? & -> & [y Hy] & ? & ? & -> & -> & n & -> & Hn). by exists q, n, y.
  - intros (q & n & y & -> & Hn & Hy). exists q, (String "/" (to_string_nonneg n)).
    split_and!; [done|eauto|]. by exists "/", (to_string_nonneg n); eauto 6.
Qed.

(** ** Which pattern an entry matches *)

Definition avoids (c : ascii) (s : string) : bool := string_forallb (fun a => bool_decide (a ≠ c)) s.

Lemma avoids_cons_false c s t : avoids c (s +:+ String c t) = false.
Proof.
  unfold avoids. rewrite string_forallb_app. cbn [string_forallb].
  rewrite bool_decide_eq_false_2 by (intros H; by apply H). by rewrite andb_false_r.
Qed.

Lemma address_avoids v s z : text_denotes v s z -> avoids "/" s = true.
Proof.
  intros Hz. assert (Hm : matches (address_regex v) s) by (apply address_match; eauto).
  revert Hm. apply over_spec. destruct v; by vm_compute.
Qed.

(** An IPv6 text has a colon, an IPv4 text and its ranges have none. *)
Lemma v6_not_v4 s r :
  over (fun a => bool_decide (a ≠ ":"%char)) r = true -> matches r s ->
  ~ matches REGEXIPV6 s /\ ~ matches IPV6WITHCIDR s.
Proof.
  intros Hr Hm%(over_spec _ _ _ Hr).
  assert (H6 : forall q rest, (exists gs, hex_groups q gs) -> s ≠ q +:+ rest).
  { intros q rest (gs & Hl & _ & ->) ->. destruct gs as [|g [|g' gs]]; [discriminate Hl..|]. clear Hl.
    cbn [String.concat] in Hm. change (g +:+ ":" +:+ String.concat ":" (g' :: gs)) with
      (g +:+ String ":" (String.concat ":" (g' :: gs))) in Hm.
    rewrite string_app_assoc in Hm. unfold avoids in Hm.
    pose proof (avoids_cons_false ":" g (String.concat ":" (g' :: gs) +:+ rest)) as Hf.
    exact (eq_true_false_abs _ Hm Hf). }
  split.
  - intros H%REGEXIPV6_match. apply (H6 s "" H). by rewrite string_app_nil.
  - intros (q & t & -> & Hq & _)%matches_seq. apply (H6 q t); [|done]. by apply REGEXIPV6_match.
Qed.

Definition raw_type (v : IpVersion) : IpType := match v with v4 => RAWIPV4 | v6 => RAWIPV6 end.
Definition cidr_type (v : IpVersion) : IpType := match v with v4 => CIDRV4 | v6 => CIDRV6 end.
Definition cidr_regex (v : IpVersion) : regex := match v with v4 => IPV4WITHCIDR | v6 => IPV6WITHCIDR end.

Lemma cidr_regex_match v s :
  matches (cidr_regex v) s <->
  exists q n y, s = q +:+ String "/" (to_string_nonneg n) /\ pattern_prefix v n = true /\ text_denotes v q y.
Proof. rewrite <- cidr_match. by destruct v. Qed.

Lemma raw_not_cidr v v' s : matches (address_regex v) s -> ~ matches (cidr_regex v') s.
Proof.
  intros [z Hz]%address_match (q & n & y & -> & _ & _)%cidr_regex_match.
  apply address_avoids in Hz. by rewrite avoids_cons_false in Hz.
Qed.

Lemma same_version v v' s :
  matches (address_regex v) s \/ matches (cidr_regex v) s ->
  matches (address_regex v') s \/ matches (cidr_regex v') s -> v = v'.
Proof.
  assert (H46 : forall s, matches REGEXIPV4 s \/ matches IPV4WITHCIDR s ->
      ~ matches REGEXIPV6 s /\ ~ matches IPV6WITHCIDR s).
  { intros t [H|H]; [apply (v6_not_v4 t REGEXIPV4)|apply (v6_not_v4 t IPV4WITHCIDR)]; done || by vm_compute. }
  specialize (H46 s). destruct v, v'; cbn; tauto.
Qed.

(** Case analysis on a test of the matcher. *)
Ltac case_match s r :=
  let E := fresh "E" in
  destruct (regex_match s r) eqn:E; [apply regex_match_spec in E|apply regex_match_false in E].

Lemma parseIpType_spec s v :
  (parseIpType s = raw_type v <-> matches (address_regex v) s) /\
  (parseIpType s = cidr_type v <-> matches (cidr_regex v) s).
Proof.
  pose proof (fun v => raw_not_cidr v v s) as H1. pose proof (same_version v4 v6 s) as H2.
  pose proof (H1 v4). pose proof (H1 v6). clear H1. unfold parseIpType.
  case_match s REGEXIPV4; case_match s IPV4WITHCIDR; case_match s REGEXIPV6; case_match s IPV6WITHCIDR;
    destruct v; cbn in *; split; split; intros; try done; naive_solver.
Qed.

Lemma parseIpType_raw v s : parseIpType s = raw_type v <-> matches (address_regex v) s.
Proof. apply parseIpType_spec. Qed.

Lemma parseIpType_cidr v s : parseIpType s = cidr_type v <-> matches (cidr_regex v) s.
Proof. apply parseIpType_spec. Qed.

Lemma parseIpType_none s : parseIpType s = NONE -> forall v z, ~ entry_taken s v z.
Proof.
  intros H v z [Hz|(q & n & y & -> & Hn & Hy & _)].
  - assert (Hm : matches (address_regex v) s) by (apply address_match; eauto).
    apply parseIpType_raw in Hm. rewrite H in Hm. by destruct v.
  - assert (Hm : matches (cidr_regex v) (q +:+ String "/" (to_string_nonneg n)))
      by (apply cidr_regex_match; eauto 6).
    apply parseIpType_cidr in Hm. rewrite H in Hm. by destruct v.
Qed.

(** The entry is cut at its only slash. *)
Lemma cut_last_none c s : avoids c s = true -> cut_last c s = None.
Proof.
  unfold avoids. induction s as [|a s IH]; [done|]. cbn [string_forallb cut_last].
  intros [Ha Hs]%andb_prop. apply bool_decide_eq_true in Ha. rewrite IH by done. by rewrite decide_False.
Qed.

Lemma cut_last_app c q p : avoids c p = true -> cut_last c (q +:+ String c p) = Some (q, p).
Proof.
  intros Hp. induction q as [|a q IH].
  - change ("" +:+ String c p) with (String c p). cbn [cut_last]. rewrite cut_last_none by done.
    by rewrite decide_True.
  - change (String a q +:+ String c p) with (String a (q +:+ String c p)). cbn [cut_last]. by rewrite IH.
Qed.

Lemma digits_avoid s : all_digits s = true -> avoids "/" s = true.
Proof.
  unfold avoids. induction s as [|a s IH]; [done|]. cbn [all_digits string_forallb].
  intros [Ha Hs]%andb_prop. rewrite IH, andb_true_r by done. apply bool_decide_eq_true.
  by intros ->.
Qed.

Lemma entry_parts_cidr q n :
  entry_parts (q +:+ String "/" (to_string_nonneg n)) = (q, to_string_nonneg n).
Proof. unfold entry_parts. by rewrite cut_last_app by apply digits_avoid, to_string_nonneg_digits. Qed.

Lemma leading_digits_all s : all_digits s = true -> leading_digits s = s.
Proof.
  induction s as [|a s IH]; [done|]. cbn [all_digits leading_digits]. intros [-> Hs]%andb_prop.
  by rewrite IH.
Qed.

Lemma stoi_to_string n : 0 <= n < 2 ^ 31 -> stoi (to_string_nonneg n) = Ok n.
Proof.
  intros Hn. unfold stoi. rewrite leading_digits_all by apply to_string_nonneg_digits.
  destruct (to_string_nonneg_canonical n) as (_ & Hne & _); [lia|]. rewrite decide_False by done.
  rewrite to_string_nonneg_value by lia. by rewrite (proj2 (Z.ltb_lt n (2 ^ 31))) by lia.
Qed.

(** What an entry with a slash denotes is determined by its parts. *)
Lemma cidr_denotes v q n y v' z :
  pattern_prefix v n = true -> text_denotes v q y ->
  entry_taken (q +:+ String "/" (to_string_nonneg n)) v' z <->
  v' = v /\ exists y', text_denotes v q y' /\ Z.shiftr z (width v - n) = Z.shiftr y' (width v - n).
Proof.
  intros Hn Hy. assert (Hm : matches (cidr_regex v) (q +:+ String "/" (to_string_nonneg n)))
    by (apply cidr_regex_match; eauto 6).
  assert (Hpos : forall w k, pattern_prefix w k = true -> 0 <= k) by (intros [] k; cbn [pattern_prefix]; lia).
  split.
  - intros [Hz|(q' & n' & y' & Heq & Hn' & Hy' & Hz)].
    + exfalso. eapply raw_not_cidr; [|exact Hm]. apply address_match. eauto.
    + assert (Hm' : matches (cidr_regex v') (q +:+ String "/" (to_string_nonneg n)))
        by (rewrite Heq; apply cidr_regex_match; eauto 6).
      assert (v' = v) as -> by eauto using same_version.
      pose proof (f_equal entry_parts Heq) as Hp. rewrite !entry_parts_cidr in Hp.
      injection Hp as <- Hnn. apply (f_equal dec_value) in Hnn.
      rewrite !to_string_nonneg_value in Hnn by eauto. subst n'. eauto.
  - intros [-> (y' & Hy' & Hz)]. right. by exists q, n, y'.
Qed.

Lemma raw_denotes v s y v' z :
  text_denotes v s y -> entry_taken s v' z <-> v' = v /\ text_denotes v s z.
Proof.
  intros Hy. assert (Hm : matches (address_regex v) s) by (apply address_match; eauto). split.
  - intros [Hz|(q & n & y' & -> & Hn & Hy' & _)].
    + assert (Hm' : matches (address_regex v') s) by (apply address_match; eauto).
      assert (v' = v) as -> by eauto using same_version. done.
    + exfalso. eapply raw_not_cidr; [exact Hm|]. apply (cidr_regex_match v'). eauto 6.
  - intros [-> Hz]. by left.
Qed.

(** The lengths the patterns leave out. *)
Lemma pattern_prefix_dropped v n :
  0 <= n <= width v -> pattern_prefix v n = false <-> n ∈ dropped_lengths v.
Proof.
  intros Hn. destruct v; cbn [pattern_prefix width dropped_lengths] in *;
    rewrite !elem_of_cons, elem_of_nil; [lia|].
  pose proof (Z.div_mod n 10). pose proof (Z.mod_pos_bound n 10). lia.
Qed.

Lemma pattern_prefix_bounds v n : pattern_prefix v n = true -> 0 <= n <= width v.
Proof. destruct v; cbn [pattern_prefix width]; lia. Qed.

(** A text is a range in one way only. *)
Lemma range_text_inj e v n y v' n' y' :
  range_text e v n y -> range_text e v' n' y' -> v' = v /\ n' = n.
Proof.
  intros (q & -> & Hn & Hy) (q' & Heq & Hn' & Hy').
  apply (f_equal entry_parts) in Heq. rewrite !entry_parts_cidr in Heq. injection Heq as <- Hnn.
  apply (f_equal dec_value) in Hnn. rewrite !to_string_nonneg_value in Hnn by lia.
  split; [|done]. apply (same_version v' v q); left; apply address_match; eauto.
Qed.

(** The filter takes an entry as it is meant, but for the ones it drops. *)
Lemma entry_taken_spec e v z : entry_taken e v z <-> ~ dropped e /\ entry_denotes e v z.
Proof.
  split.
  - intros [Hz|(q & n & y & -> & Hn & Hy & Hz)].
    + split; [|by left]. intros (v' & n & y & (q & -> & _) & _).
      assert (Hm : avoids "/" (q +:+ String "/" (to_string_nonneg n)) = true)
        by (by eapply (address_avoids v)).
      by rewrite avoids_cons_false in Hm.
    + pose proof (pattern_prefix_bounds _ _ Hn) as Hb.
      assert (Hr : range_text (q +:+ String "/" (to_string_nonneg n)) v n y) by (by exists q).
      split; [|right; eauto]. intros (v' & n' & y' & Hr' & Hin).
      destruct (range_text_inj _ _ _ _ _ _ _ Hr Hr') as [-> ->].
      apply pattern_prefix_dropped in Hin; [congruence|done].
  - intros [Hd [Hz|(n & y & Hr & Hz)]]; [by left|]. right.
    destruct (pattern_prefix v n) eqn:Hn.
    + destruct Hr as (q & -> & _ & Hy). eauto 8.
    + exfalso. apply Hd. exists v, n, y. split; [done|]. apply pattern_prefix_dropped; [|done].
      by destruct Hr as (q & _ & ? & _).
Qed.

(** ** Correctness *)

Section checks.
Context {Addr CidrRange : Type} `{!Network Addr CidrRange}.
Implicit Types (c : BlackOrWhiteListConfig CidrRange) (a : Addr).

(** What each way of adding to the list adds. *)
Ltac solve_check :=
  unfold checkIpEntry; destruct (version _); cbn;
  rewrite ?existsb_app, ?orb_true_iff, ?bool_decide_eq_true; cbn; rewrite ?orb_false_r; set_solver.

Lemma check_rawIpV4 z c a :
  checkIpEntry (add_rawIpV4 z c) a = true <->
  checkIpEntry c a = true \/ (version a = v4 /\ ipv4_address a = z).
Proof. solve_check. Qed.
Lemma check_rawIpV6 z c a :
  checkIpEntry (add_rawIpV6 z c) a = true <->
  checkIpEntry c a = true \/ (version a = v6 /\ addressAsString a = z).
Proof. solve_check. Qed.
Lemma check_cidrIpV4 r c a :
  checkIpEntry (add_cidrIpV4 r c) a = true <->
  checkIpEntry c a = true \/ (version a = v4 /\ isInRange r a = true).
Proof. solve_check. Qed.
Lemma check_cidrIpV6 r c a :
  checkIpEntry (add_cidrIpV6 r c) a = true <->
  checkIpEntry c a = true \/ (version a = v6 /\ isInRange r a = true).
Proof. solve_check. Qed.

End checks.

Section correctness.
Context {Addr CidrRange : Type} `{!Network Addr CidrRange, !NetworkLaws Addr CidrRange}.

Abbreviation config := (BlackOrWhiteListConfig CidrRange).

Definition instance (v : IpVersion) : string -> outcome Addr :=
  match v with v4 => Ipv4Instance | v6 => Ipv6Instance end.

Lemma instance_spec v s a :
  instance v s = Ok a -> version a = v /\ forall z, text_denotes v s z -> bits a = z.
Proof. destruct v; [apply ipv4_instance|apply ipv6_instance]. Qed.

(** A range made from an entry holds the addresses the entry denotes. *)
Lemma cidr_range_denotes v q n y t a :
  pattern_prefix v n = true -> text_denotes v q y -> instance v q = Ok t ->
  (version a = v /\ isInRange (CidrRange_create t n) a = true) <->
  entry_taken (q +:+ String "/" (to_string_nonneg n)) (version a) (bits a).
Proof.
  intros Hn Hy [Ht Hb]%instance_spec. rewrite (cidr_denotes v q n y) by done.
  assert (Hw : 0 <= n <= width (version t)) by (rewrite Ht; destruct v; cbn [pattern_prefix width] in *; lia).
  rewrite range_bits by done. rewrite Ht. rewrite (Hb y Hy). split.
  - intros [Hv [_ Hs]]. eauto.
  - intros [Hv (y' & Hy' & Hs)]. rewrite <- (Hb y' Hy'), (Hb y Hy) in Hs. auto.
Qed.

(** A stored address is the one the entry denotes. *)
Lemma raw_instance_denotes v e y t a :
  text_denotes v e y -> instance v e = Ok t ->
  (version a = v /\ bits a = bits t) <-> entry_taken e (version a) (bits a).
Proof.
  intros Hy [Ht Hb]%instance_spec. rewrite (raw_denotes v e y) by done. split.
  - intros [Hv ->]. rewrite (Hb y Hy). auto.
  - intros [Hv Hz]. split; [done|]. symmetry. auto.
Qed.

(** An entry adds exactly the addresses it denotes. *)
Lemma parseIpEntry_check e (c c' : config) (a : Addr) :
  parseIpEntry e c = Ok c' ->
  isBlackList_ c' = isBlackList_ c /\
  (checkIpEntry c' a = true <-> checkIpEntry c a = true \/ entry_taken e (version a) (bits a)).
Proof.
  unfold parseIpEntry. case_decide as He; [subst e|].
  { intros [= <-]. split; [done|]. pose proof (parseIpType_none "" eq_refl (version a) (bits a)). tauto. }
  pose proof (fun v => proj1 (parseIpType_raw v e)) as Hraw.
  pose proof (fun v => proj1 (parseIpType_cidr v e)) as Hcidr.
  setoid_rewrite address_match in Hraw. setoid_rewrite cidr_regex_match in Hcidr.
  destruct (parseIpType e) eqn:Et; intros H.
  - invert_bind H. injection H as <-. destruct (Hraw v4 eq_refl) as [y Hy]. split; [done|].
    rewrite check_rawIpV4, <- (raw_instance_denotes v4 e y r a) by done.
    destruct (instance_spec v4 e r E) as [Hr _]. split; intros [?|[Hv Hz]]; auto; right;
      by rewrite (ipv4_address_bits a r Hv Hr) in *.
  - invert_bind H. injection H as <-. destruct (Hraw v6 eq_refl) as [y Hy]. split; [done|].
    rewrite check_rawIpV6, <- (raw_instance_denotes v6 e y r a) by done.
    destruct (instance_spec v6 e r E) as [Hr _]. split; intros [?|[Hv Hz]]; auto; right;
      by rewrite (addressAsString_bits a r Hv Hr) in *.
  - destruct (Hcidr v4 eq_refl) as (q & n & y & -> & Hn & Hy). rewrite entry_parts_cidr in H. cbn [fst snd] in H.
    rewrite stoi_to_string in H by (cbn [pattern_prefix] in Hn; lia). cbn [obind] in H.
    invert_bind H. injection H as <-. split; [done|].
    by rewrite check_cidrIpV4, <- (cidr_range_denotes v4 q n y r a).
  - destruct (Hcidr v6 eq_refl) as (q & n & y & -> & Hn & Hy). rewrite entry_parts_cidr in H. cbn [fst snd] in H.
    rewrite stoi_to_string in H by (cbn [pattern_prefix] in Hn; lia). cbn [obind] in H.
    invert_bind H. injection H as <-. split; [done|].
    by rewrite check_cidrIpV6, <- (cidr_range_denotes v6 q n y r a).
  - injection H as <-. split; [done|]. pose proof (parseIpType_none e Et (version a) (bits a)). tauto.
Qed.

Lemma parseIpEntries_check es (c c' : config) (a : Addr) :
  parseIpEntries es c = Ok c' ->
  isBlackList_ c' = isBlackList_ c /\
  (checkIpEntry c' a = true <->
   checkIpEntry c a = true \/ exists e, e ∈ es /\ entry_taken e (version a) (bits a)).
Proof.
  revert c. induction es as [|e es IH]; intros c H; cbn [parseIpEntries] in H.
  - injection H as <-. set_solver.
  - invert_bind H. apply (parseIpEntry_check _ _ _ a) in E as [Hb1 H1]. apply IH in H as [Hb2 H2].
    split; [congruence|]. rewrite H2, H1. set_solver.
Qed.

Definition enforced (es : list string) (a : Addr) : Prop :=
  exists e, e ∈ es /\ ~ dropped e /\ entry_denotes e (version a) (bits a).

Definition passes (type : ListType) (is_listed : Prop) : Prop :=
  match type with BLACK => ~ is_listed | WHITE => is_listed | UnknownListType _ => False end.

(** The check of an address, in terms of the entries. *)
Lemma new_config_check type es (c : config) (a : Addr) :
  new_BlackOrWhiteListConfig type es = Ok c ->
  isBlackList_ c = match type with BLACK => Some true | WHITE => Some false | _ => None end /\
  (checkIpEntry c a = true <-> enforced es a).
Proof.
  intros Hc. apply (parseIpEntries_check _ _ _ a) in Hc as [Hblack Hcheck]. split; [done|].
  rewrite Hcheck. unfold enforced. setoid_rewrite entry_taken_spec.
  assert (Hempty : forall b, checkIpEntry {| isBlackList_ := b; rawIpV4 := ∅; rawIpV6 := ∅;
      cidrIpV4_ := []; cidrIpV6_ := [] |} a = false).
  { intros b. unfold checkIpEntry. destruct (version a); cbn; by rewrite bool_decide_eq_false_2 by set_solver. }
  rewrite Hempty. intuition congruence.
Qed.

(** The decision about an address of the request. *)
Lemma decodeHeaders_decides {H} `{HeaderMap H} type es (c : config) header (hs : H) direct (a : Addr) :
  new_BlackOrWhiteListConfig type es = Ok c -> type = BLACK \/ type = WHITE ->
  remote_address header hs direct = Some a -> addr_type a = Ip ->
  let result := decodeHeaders header (Some {| routeEntry := true; listConfig := Some c |}) direct hs in
  (result = Ok (Continue, [ok_inc]) <-> passes type (enforced es a)) /\
  (result = Ok (StopIteration, [sendLocalReply denied_reply; denied_inc]) <-> ~ passes type (enforced es a)).
Proof.
  intros Hc Htype Ha Hip. cbn zeta. unfold decodeHeaders. rewrite Ha, Hip.
  apply (new_config_check _ _ _ a) in Hc as [Hblack Hcheck]. unfold isAllowed. rewrite Hblack.
  unfold passes. destruct (checkIpEntry c a); destruct Htype as [-> | ->]; cbn; intuition congruence.
Qed.


(** A black list of a dropped range lets every address through, also those of the range. *)
Lemma dropped_entry_passes {H} `{HeaderMap H} e (c : config) header (hs : H) direct (a : Addr) :
  new_BlackOrWhiteListConfig BLACK [e] = Ok c -> dropped e ->
  remote_address header hs direct = Some a -> addr_type a = Ip ->
  decodeHeaders header (Some {| routeEntry := true; listConfig := Some c |}) direct hs =
    Ok (Continue, [ok_inc]).
Proof.
  intros Hc He Ha Hip. apply (decodeHeaders_decides BLACK [e] c header hs direct a); auto.
  cbn [passes]. intros (e' & Hin & Hd & _). apply list_elem_of_singleton in Hin as ->. done.
Qed.

End correctness.

(** The four patterns read an entry as the grammar of entries does: a pattern for
    plain addresses matches exactly the texts of addresses of its version, a pattern
    for ranges exactly the ranges of its version that are not dropped. *)
Theorem ip_entry_classified v e :
  (parseIpType e = raw_type v <-> exists z, text_denotes v e z) /\
  (parseIpType e = cidr_type v <-> exists n y, range_text e v n y /\ n ∉ dropped_lengths v).
Proof.
  split; [by rewrite parseIpType_raw, address_match|]. rewrite parseIpType_cidr, cidr_regex_match. split.
  - intros (q & n & y & -> & Hn & Hy). pose proof (pattern_prefix_bounds _ _ Hn) as Hb.
    exists n, y. split; [by exists q|]. rewrite <- (pattern_prefix_dropped v n Hb). congruence.
  - intros (n & y & (q & -> & Hb & Hy) & Hn). exists q, n, y. split_and!; try done.
    rewrite <- (pattern_prefix_dropped v n Hb) in Hn. by destruct (pattern_prefix v n).
Qed.

(** ** A network on which the laws hold *)

(** Numbers separated by [sep]: [acc] of the numbers before, [cur] of the digits so far. *)
Fixpoint scan (sep : ascii) (base digit_base : Z) (value : ascii -> Z) (s : string) (acc cur : Z) : Z :=
  match s with
  | EmptyString => base * acc + cur
  | String a s' =>
      if decide (a = sep) then scan sep base digit_base value s' (base * acc + cur) 0
      else scan sep base digit_base value s' acc (digit_base * cur + value a)
  end.

Lemma scan_joined sep b d val (number : Z -> string -> Z) (l : list string) :
  (forall c, number c "" = c) ->
  (forall c a s, number c (String a s) = number (d * c + val a) s) ->
  Forall (fun s => avoids sep s = true) l -> l ≠ [] ->
  forall acc, scan sep b d val (String.concat (String sep "") l) acc 0 =
              fold_left (fun acc s => b * acc + number 0 s) l acc.
Proof.
  intros Hnil Hcons Hl Hne. induction Hl as [|s l Hs Hl IH]; [done|]. clear Hne. intros acc.
  assert (Hpre : forall rest cur, scan sep b d val (s +:+ rest) acc cur =
      scan sep b d val rest acc (number cur s)).
  { intros rest. revert Hs. unfold avoids. clear -Hnil Hcons.
    induction s as [|a s IH]; [intros _ cur; by rewrite Hnil|].
    cbn [string_forallb]. intros [Ha Hs]%andb_prop cur. apply bool_decide_eq_true in Ha.
    change (String a s +:+ rest) with (String a (s +:+ rest)). cbn [scan].
    by rewrite decide_False, IH, Hcons. }
  destruct l as [|s' l].
  - cbn [String.concat fold_left]. rewrite <- (string_app_nil s) at 1. by rewrite Hpre.
  - change (String.concat (String sep "") (s :: s' :: l)) with
      (s +:+ String sep (String.concat (String sep "") (s' :: l))).
    rewrite Hpre. cbn [scan]. rewrite decide_True by done. by rewrite IH.
Qed.

Definition parse_text (v : IpVersion) (s : string) : Z :=
  match v with
  | v4 => scan "." 256 10 digit_value s 0 0
  | v6 => scan ":" 65536 16 hex_value s 0 0
  end.

Lemma octet_avoids s : octet_text s -> avoids "." s = true.
Proof. intros H%octet_match. revert H. by apply over_spec. Qed.
Lemma group_avoids s : group_text s -> avoids ":" s = true.
Proof. intros H%group_match. revert H. by apply over_spec. Qed.

Lemma parse_text_denotes v s z : text_denotes v s z -> parse_text v s = z.
Proof.
  destruct v; cbn [text_denotes parse_text]; intros (l & (Hl & HF & ->) & ->);
    [apply (scan_joined _ _ _ _ dec_value_from)|apply (scan_joined _ _ _ _ hex_number)];
    try done; try (by destruct l); eapply Forall_impl; eauto using octet_avoids, group_avoids.
Qed.

Abbreviation SimpleAddr := (IpVersion * Z)%type.

Definition simple_instance (v : IpVersion) (s : string) : outcome SimpleAddr :=
  if regex_match s (address_regex v) then Ok (v, parse_text v s) else Throw "invalid ip address".

#[global] Instance simple_Network : Network SimpleAddr (SimpleAddr * Z) := {
  Ipv4Instance := simple_instance v4;
  Ipv6Instance := simple_instance v6;
  addr_type _ := Ip;
  version := fst;
  ipv4_address := snd;
  addressAsString a := pretty (Z.to_N (if a.2 <? 0 then - 2 * a.2 - 1 else 2 * a.2));
  CidrRange_create a n := (a, n);
  isInRange r a := bool_decide (a.1 = r.1.1) &&
    (Z.shiftr a.2 (width r.1.1 - r.2) =? Z.shiftr r.1.2 (width r.1.1 - r.2));
  parseInternetAddress s :=
    match simple_instance v4 s with Ok a => Some a | _ =>
      match simple_instance v6 s with Ok a => Some a | _ => None end end;
}.

#[global] Instance simple_NetworkLaws : NetworkLaws SimpleAddr (SimpleAddr * Z).
Proof.
  assert (Hinst : forall v s a, simple_instance v s = Ok a ->
      a.1 = v /\ forall z, text_denotes v s z -> a.2 = z).
  { intros v s a. unfold simple_instance. destruct (regex_match _ _); [|done]. intros [= <-].
    split; [done|]. apply parse_text_denotes. }
  refine {| bits := snd; ipv4_instance := Hinst v4; ipv6_instance := Hinst v6 |}; cbn [version ipv4_address
    addressAsString isInRange CidrRange_create simple_Network fst snd].
  - done.
  - intros [? z] [? w] _ _. cbn [snd]. split; [|by intros ->].
    intros Hp%(inj pretty). destruct (z <? 0) eqn:?, (w <? 0) eqn:?; lia.
  - intros [v z] n [v' z'] _. cbn [fst snd]. by rewrite andb_true_iff, bool_decide_eq_true, Z.eqb_eq.
Qed.



(** The address of a range of length 32 passes a black list that holds it. *)
Example dropped_host :
  match new_BlackOrWhiteListConfig BLACK ["192.168.1.1/32"] with
  | Ok c => decodeHeaders "" (Some {| routeEntry := true; listConfig := Some c |})
      (Some ((v4, parse_text v4 "192.168.1.1") : SimpleAddr)) ([] : alist) = Ok (Continue, [ok_inc])
  | _ => False
  end.
Proof. vm_compute. reflexivity. Qed.
