(* ===== verification/ProxyMatcher.v ===== *)
(** * Matchers of requests (source/common/http/proxy_matcher.{h,cc})

    A [CommonMatcher] tests the path, headers, query parameters and cookies of a
    message.  The context of a match computes these views on first use and keeps
    them, so matching threads the context.  String matchers, header matchers and
    the parsers of paths, queries and cookies are the proxy's ([MatcherApi]). *)

From S2P Require Import Prelude Http.
From Stdlib Require Import Ascii.
From stdpp Require Import base gmap strings numbers list.
#[local] Open Scope proxy_scope.

Abbreviation QueryParams := (list (string * string)).
Abbreviation CookiesMap := (gmap string string).

(** What the matchers call of the proxy.  [is_request] is the dynamic type of a
    header map: whether it is a [RequestHeaderMap]. *)
Class MatcherApi (H StringMatcher HeaderMatcher QueryParameterMatcher : Type) := {
  is_request : H -> bool;
  string_match : StringMatcher -> string -> bool;
  matchHeaders : H -> list HeaderMatcher -> bool;
  matchQueryParams : QueryParams -> list QueryParameterMatcher -> bool;
  removeQueryAndFragment : string -> string;
  parseQueryString : string -> QueryParams;
  parseCookies : H -> CookiesMap;
}.

Section matcher.
Context {H StringMatcher HeaderMatcher QueryParameterMatcher : Type}
  `{!HeaderMap H, api : !MatcherApi H StringMatcher HeaderMatcher QueryParameterMatcher}.

(** ** The context *)

Record HttpCommonMatcherContext := {
  headers_ : H;
  parameters_ : option QueryParams;
  path_ : string;
  cookies_ : option CookiesMap;
}.

Definition new_HttpCommonMatcherContext (headers : H) : HttpCommonMatcherContext :=
  {| headers_ := headers; parameters_ := None; path_ := ""; cookies_ := None |}.

(** [getPathValue()] is empty without a path. *)
Definition getPathValue (h : H) : string := default "" (head (hm_get ":path" h)).

Definition getPath (c : HttpCommonMatcherContext) : string * HttpCommonMatcherContext :=
  if decide (path_ c = "") then
    if is_request (headers_ c) then
      let p := removeQueryAndFragment (getPathValue (headers_ c)) in
      (p, {| headers_ := headers_ c; parameters_ := parameters_ c; path_ := p; cookies_ := cookies_ c |})
    else ("", c)
  else (path_ c, c).

Definition getQueryParams (c : HttpCommonMatcherContext) : QueryParams * HttpCommonMatcherContext :=
  match parameters_ c with
  | Some p => (p, c)
  | None =>
      let p := if is_request (headers_ c) then parseQueryString (getPathValue (headers_ c)) else [] in
      (p, {| headers_ := headers_ c; parameters_ := Some p; path_ := path_ c; cookies_ := cookies_ c |})
  end.

(** The cast is static here: it has no meaning on other headers than a request's. *)
Definition getCookies (c : HttpCommonMatcherContext) : outcome (CookiesMap * HttpCommonMatcherContext) :=
  match cookies_ c with
  | Some m => Ok (m, c)
  | None =>
      if is_request (headers_ c) then
        let m := parseCookies (headers_ c) in
        Ok (m, {| headers_ := headers_ c; parameters_ := parameters_ c; path_ := path_ c; cookies_ := Some m |})
      else Undefined "static_cast to RequestHeaderMap"
  end.

(** ** Matchers *)

Inductive Matcher :=
| PathMatcher (matcher_ : StringMatcher)
| HeadersMatcher (headers_matcher_ : list HeaderMatcher)
| ParametersMatcher (parameters_matcher_ : list QueryParameterMatcher)
| CookiesMatcher (cookies_matcher_ : list (string * option StringMatcher)).

(** The loop of [CookiesMatcher::match]. *)
Fixpoint match_cookies (request_cookies : CookiesMap) (l : list (string * option StringMatcher)) : bool :=
  match l with
  | [] => true
  | cookie :: l' =>
      let find_key := bool_decide (is_Some (request_cookies !! cookie.1)) in
      match cookie.2 with
      | None => if negb find_key then false else match_cookies request_cookies l'
      | Some m =>
          if negb find_key || negb (string_match m (default "" (request_cookies !! cookie.1))) then false
          else match_cookies request_cookies l'
      end
  end.

Definition matcher_match (m : Matcher) (c : HttpCommonMatcherContext) :
    outcome (bool * HttpCommonMatcherContext) :=
  match m with
  | PathMatcher sm => let (p, c') := getPath c in Ok (string_match sm p, c')
  | HeadersMatcher l => Ok (matchHeaders (headers_ c) l, c)
  | ParametersMatcher l => let (p, c') := getQueryParams c in Ok (matchQueryParams p l, c')
  | CookiesMatcher l => let* r := getCookies c in Ok (match_cookies r.1 l, r.2)
  end.

Record CommonMatcherProto := {
  path : option StringMatcher;
  headers : list HeaderMatcher;
  parameters : list QueryParameterMatcher;
  cookies : list (string * option StringMatcher);
}.

Abbreviation CommonMatcher := (list Matcher).

Definition when {A} (b : bool) (x : A) : list A := if b then [x] else [].

Definition new_CommonMatcher (config : CommonMatcherProto) : CommonMatcher :=
  match path config with Some m => [PathMatcher m] | None => [] end ++
  when (0 <? length (headers config))%nat (HeadersMatcher (headers config)) ++
  when (0 <? length (parameters config))%nat (ParametersMatcher (parameters config)) ++
  when (0 <? length (cookies config))%nat (CookiesMatcher (cookies config)).

(** [CommonMatcher::match] *)
Fixpoint common_match (matchers_ : CommonMatcher) (c : HttpCommonMatcherContext) :
    outcome (bool * HttpCommonMatcherContext) :=
  match matchers_ with
  | [] => Ok (true, c)
  | m :: rest =>
      let* r := matcher_match m c in
      if r.1 then common_match rest r.2 else Ok (false, r.2)
  end.

(** ** What a matcher means *)

(** A request satisfies a configuration when every part of it that is present holds. *)
Definition cookie_holds (m : CookiesMap) (cookie : string * option StringMatcher) : Prop :=
  exists v, m !! cookie.1 = Some v /\ forall sm, cookie.2 = Some sm -> string_match sm v = true.

Definition request_satisfies (config : CommonMatcherProto) (h : H) : Prop :=
  (forall sm, path config = Some sm ->
     string_match sm (removeQueryAndFragment (getPathValue h)) = true) /\
  (headers config ≠ [] -> matchHeaders h (headers config) = true) /\
  (parameters config ≠ [] -> matchQueryParams (parseQueryString (getPathValue h)) (parameters config) = true) /\
  Forall (cookie_holds (parseCookies h)) (cookies config).

(** What one matcher tests on the headers of a request, without a context. *)
Definition matcher_holds (h : H) (m : Matcher) : bool :=
  match m with
  | PathMatcher sm => string_match sm (removeQueryAndFragment (getPathValue h))
  | HeadersMatcher l => matchHeaders h l
  | ParametersMatcher l => matchQueryParams (parseQueryString (getPathValue h)) l
  | CookiesMatcher l => match_cookies (parseCookies h) l
  end.

(** The views a context keeps are those of its headers. *)
Record context_of (h : H) (c : HttpCommonMatcherContext) : Prop := {
  context_headers : headers_ c = h;
  context_path : path_ c = "" \/ path_ c = removeQueryAndFragment (getPathValue h);
  context_parameters : forall p, parameters_ c = Some p -> p = parseQueryString (getPathValue h);
  context_cookies : forall m, cookies_ c = Some m -> m = parseCookies h;
}.

Lemma new_context_of h : context_of h (new_HttpCommonMatcherContext h).
Proof. split; cbn; auto; done. Qed.

Lemma matcher_match_spec h c m :
  is_request h = true -> context_of h c ->
  exists c', matcher_match m c = Ok (matcher_holds h m, c') /\ context_of h c'.
Proof.
  intros Hreq [Hh Hp Hq Hc]. destruct m as [sm|l|l|l]; cbn [matcher_match matcher_holds].
  - unfold getPath. rewrite Hh, Hreq. case_decide as Hn.
    + eexists. split; [done|]. split; cbn; auto.
    + destruct Hp as [?|Hp]; [done|]. exists c. rewrite Hp at 1. split; [done|]. split; auto.
  - eexists. split; [by rewrite Hh|by split].
  - unfold getQueryParams. rewrite Hh, Hreq. destruct (parameters_ c) as [p|] eqn:E.
    + eexists. split; [by rewrite (Hq p eq_refl)|by split; rewrite ?E].
    + eexists. split; [done|]. split; cbn; auto. by intros ? [= <-].
  - unfold getCookies. rewrite Hh, Hreq. destruct (cookies_ c) as [p|] eqn:E; cbn [obind fst snd].
    + eexists. split; [by rewrite (Hc p eq_refl)|by split; rewrite ?E].
    + eexists. split; [done|]. split; cbn; auto. by intros ? [= <-].
Qed.

Lemma common_match_spec h l c :
  is_request h = true -> context_of h c ->
  exists c', common_match l c = Ok (forallb (matcher_holds h) l, c') /\ context_of h c'.
Proof.
  intros Hreq. revert c. induction l as [|m l IH]; intros c Hc; cbn [common_match forallb]; [eauto|].
  destruct (matcher_match_spec h c m Hreq Hc) as (c' & -> & Hc'). cbn [obind fst snd].
  destruct (matcher_holds h m); cbn [andb]; [by apply IH|eauto].
Qed.

Lemma match_cookies_spec m l : match_cookies m l = true <-> Forall (cookie_holds m) l.
Proof.
  induction l as [|[k o] l IH]; [by split|]. rewrite Forall_cons, <- IH. unfold cookie_holds.
  cbn [match_cookies fst snd]. destruct o as [sm|];
    case_bool_decide as Hk; cbn [negb orb].
  - destruct Hk as [v ->]. cbn [default from_option id]. split.
    + destruct (string_match sm v) eqn:Es; [|intros Hl; discriminate Hl]. intros Hl. split; [|done]. exists v. by split; [|intros ? [= <-]].
    + intros [(w & [= <-] & Hw) Hl]. by rewrite (Hw sm eq_refl).
  - split; [done|]. intros [(v & Hv & _) _]. destruct Hk. eauto.
  - destruct Hk as [v ->]. split; [|by intros [_ ?]]. intros Hl. split; [|done]. by exists v.
  - split; [done|]. intros [(v & Hv & _) _]. destruct Hk. eauto.
Qed.

Lemma new_CommonMatcher_spec config h :
  forallb (matcher_holds h) (new_CommonMatcher config) = true <-> request_satisfies config h.
Proof.
  unfold new_CommonMatcher, request_satisfies, when. rewrite !forallb_app, !andb_true_iff.
  rewrite <- (match_cookies_spec (parseCookies h) (cookies config)).
  repeat (f_equiv; [|]).
  - destruct (path config); cbn; rewrite ?andb_true_r; naive_solver.
  - destruct (headers config); cbn; rewrite ?andb_true_r; naive_solver.
  - destruct (parameters config); cbn; rewrite ?andb_true_r; naive_solver.
  - destruct (cookies config); cbn [length Nat.ltb Nat.leb forallb matcher_holds]; rewrite ?andb_true_r; naive_solver.
Qed.

End matcher.

(** ** An executable instance: exact matchers on association lists *)

(** The texts before and after the first [c]. *)
Fixpoint cut (c : ascii) (s : string) : string * string :=
  match s with
  | EmptyString => ("", "")
  | String a s' => if decide (a = c) then ("", s') else let (l, r) := cut c s' in (String a l, r)
  end.

#[global] Instance simple_MatcherApi : MatcherApi alist string (string * string) (string * string) := {
  is_request h := bool_decide (alist_get ":path" h ≠ []);
  string_match m s := String.eqb m s;
  matchHeaders h l := forallb (fun p => bool_decide (p.2 ∈ alist_get p.1 h)) l;
  matchQueryParams q l := forallb (fun p => bool_decide (p ∈ q)) l;
  removeQueryAndFragment s := (cut "?" s).1;
  parseQueryString s := cut "=" <$> split_skip_empty "&" (cut "?" s).2;
  parseCookies h := list_to_map (cut "=" <$> split_skip_empty ";" (default "" (head (alist_get "cookie" h))));
}.
