(* ===== verification/HeaderRestriction.v ===== *)
(** * The header restriction filter (source/filters/http/header_restriction)

    A black or white list of matchers at the level of the filter, and another at
    the level of the route that overrides or extends it. *)

From S2P Require Import Prelude Http ProxyMatcher.
From Stdlib Require Import Ascii.
From stdpp Require Import base gmap strings numbers list.
#[local] Open Scope Z_scope.
#[local] Open Scope proxy_scope.

Inductive ProtoListType := BLACK | WHITE | OtherListType (n : Z).
Inductive ProtoStrategy := OVERRIDE | PRIORTO | OtherStrategy (n : Z).
#[global] Instance ProtoStrategy_eq_dec : EqDecision ProtoStrategy.
Proof. solve_decision. Defined.

Section filter.
Context {H StringMatcher HeaderMatcher QueryParameterMatcher : Type}
  `{!HeaderMap H, api : !MatcherApi H StringMatcher HeaderMatcher QueryParameterMatcher}.

Abbreviation Matchers := (list (@Matcher StringMatcher HeaderMatcher QueryParameterMatcher)).
Abbreviation MatcherProto := (@CommonMatcherProto StringMatcher HeaderMatcher QueryParameterMatcher).

Record ProtoHeaderRestriction := { proto_type : ProtoListType; proto_list : list MatcherProto }.
Record ProtoRouteConfig := {
  proto_config : ProtoHeaderRestriction;
  proto_disabled : bool;
  proto_strategy : ProtoStrategy;
}.

Record HeaderRestrictionConfig := { list_ : list Matchers; is_black_list_ : bool }.

Definition new_HeaderRestrictionConfig (p : ProtoHeaderRestriction) : HeaderRestrictionConfig :=
  {| list_ := new_CommonMatcher <$> proto_list p;
     is_black_list_ := match proto_type p with BLACK => true | _ => false end |}.

Record RouteConfig := { config_ : HeaderRestrictionConfig; disabled_ : bool; strategy_ : ProtoStrategy }.

Definition new_RouteConfig (p : ProtoRouteConfig) : RouteConfig :=
  {| config_ := new_HeaderRestrictionConfig (proto_config p);
     disabled_ := proto_disabled p; strategy_ := proto_strategy p |}.

Inductive effect := sendLocalReply (r : LocalReply).

Definition denied_reply : LocalReply :=
  {| reply_code := 403; reply_body := "Your request is not allowed.";
     reply_headers := [("x-header-restriction-denied", "true")];
     reply_details := "forbidden_by_header_restriction" |}.

(** The loops over the lists: whether an item matches, up to the first that does. *)
Fixpoint match_list (l : list Matchers) (c : HttpCommonMatcherContext) :
    outcome (bool * HttpCommonMatcherContext) :=
  match l with
  | [] => Ok (false, c)
  | item :: l' =>
      let* r := common_match item c in
      if r.1 then Ok (true, r.2) else match_list l' r.2
  end.

Definition override_common (config : HeaderRestrictionConfig) (route : RouteConfig) : bool :=
  bool_decide (strategy_ route = OVERRIDE) ||
  negb (eqb (is_black_list_ (config_ route)) (is_black_list_ config)).

Definition decodeHeaders (config : HeaderRestrictionConfig) (route_config_ : option RouteConfig)
    (headers : H) : outcome (FilterHeadersStatus * list effect) :=
  match route_config_ with
  | Some {| disabled_ := true |} => Ok (Continue, [])
  | _ =>
      let override := match route_config_ with Some r => override_common config r | None => false end in
      let is_white_list := negb (is_black_list_ (match route_config_ with
        | Some r => config_ r | None => config end)) in
      let route_list := match route_config_ with Some r => list_ (config_ r) | None => [] end in
      let finish (denied : bool) :=
        if denied then Ok (StopIteration, [sendLocalReply denied_reply]) else Ok (Continue, []) in
      let* r1 := match_list route_list (new_HttpCommonMatcherContext headers) in
      if r1.1 && is_white_list then Ok (Continue, [])
      else
        let denied := r1.1 in
        let* r2 := if negb denied && negb override then match_list (list_ config) r1.2
                   else Ok (false, r1.2) in
        if r2.1 && is_white_list then Ok (Continue, [])
        else finish (denied || r2.1 || is_white_list)
  end.

(** ** The decision it means to take *)

(** The list in force and its type: the filter's without a route configuration;
    the route's alone when it overrides or is of the other type, and otherwise
    the items of the route and of the filter. *)
Definition effective (common : ProtoHeaderRestriction) (route : option ProtoRouteConfig) :
    bool * list MatcherProto :=
  let black p := match proto_type p with BLACK => true | _ => false end in
  match route with
  | None => (black common, proto_list common)
  | Some r =>
      let p := proto_config r in
      (black p,
       if bool_decide (proto_strategy r = OVERRIDE) || negb (eqb (black p) (black common))
       then proto_list p else proto_list p ++ proto_list common)
  end.

Definition admitted (common : ProtoHeaderRestriction) (route : option ProtoRouteConfig) (h : H) : Prop :=
  (exists r, route = Some r /\ proto_disabled r = true) \/
  let (black, items) := effective common route in
  if black then Forall (fun item => ~ request_satisfies item h) items
  else Exists (fun item => request_satisfies item h) items.

Lemma match_list_spec h l c :
  is_request h = true -> context_of h c ->
  exists c', match_list (new_CommonMatcher <$> l) c =
      Ok (existsb (fun item => forallb (matcher_holds h) (new_CommonMatcher item)) l, c') /\
    context_of h c'.
Proof.
  intros Hreq. revert c. induction l as [|item l IH]; intros c Hc; cbn [fmap list_fmap match_list existsb]; [eauto|].
  destruct (common_match_spec h (new_CommonMatcher item) c Hreq Hc) as (c' & -> & Hc'). cbn [obind fst snd].
  destruct (forallb _ _); cbn [orb]; [eauto|by apply IH].
Qed.

Lemma existsb_satisfies h (l : list MatcherProto) :
  existsb (fun item => forallb (matcher_holds h) (new_CommonMatcher item)) l = true <->
  Exists (fun item => request_satisfies item h) l.
Proof.
  induction l as [|item l IH]; cbn [existsb]; [split; [done|inversion 1]|].
  by rewrite orb_true_iff, Exists_cons, IH, new_CommonMatcher_spec.
Qed.

Lemma existsb_not_satisfies h (l : list MatcherProto) :
  existsb (fun item => forallb (matcher_holds h) (new_CommonMatcher item)) l = false <->
  Forall (fun item => ~ request_satisfies item h) l.
Proof.
  rewrite <- not_true_iff_false, existsb_satisfies. by rewrite <- Forall_Exists_neg.
Qed.

(** The decision as a boolean. *)
Definition holds (l : list MatcherProto) (h : H) : bool :=
  existsb (fun item => forallb (matcher_holds h) (new_CommonMatcher item)) l.

Lemma holds_decides (black : bool) l h :
  (if black then Forall (fun item => ~ request_satisfies item h) l
   else Exists (fun item => request_satisfies item h) l) <-> xorb black (holds l h) = true.
Proof.
  pose proof (existsb_satisfies h l) as H1. pose proof (existsb_not_satisfies h l) as H2. unfold holds.
  destruct black, (existsb _ l); cbn; intuition congruence.
Qed.

Definition verdict (pass : bool) : outcome (FilterHeadersStatus * list effect) :=
  if pass then Ok (Continue, []) else Ok (StopIteration, [sendLocalReply denied_reply]).

Lemma decodeHeaders_common common h :
  is_request h = true ->
  decodeHeaders (new_HeaderRestrictionConfig common) None h =
  verdict (xorb (is_black_list_ (new_HeaderRestrictionConfig common)) (holds (proto_list common) h)).
Proof.
  intros Hreq. unfold decodeHeaders. cbn [match_list obind fst snd negb andb].
  destruct (match_list_spec h (proto_list common) _ Hreq (new_context_of h)) as (c & Hm & _).
  cbn [list_ new_HeaderRestrictionConfig]. rewrite Hm. cbn [obind fst snd]. unfold holds.
  by destruct (is_black_list_ _), (existsb _ _).
Qed.

Lemma decodeHeaders_route common r h :
  is_request h = true -> disabled_ (new_RouteConfig r) = false ->
  let config := new_HeaderRestrictionConfig common in
  let black := is_black_list_ (config_ (new_RouteConfig r)) in
  decodeHeaders config (Some (new_RouteConfig r)) h =
  verdict (xorb black (holds (proto_list (proto_config r)) h ||
    (negb (override_common config (new_RouteConfig r)) && holds (proto_list common) h))).
Proof.
  intros Hreq Hd. cbv zeta.
  destruct (match_list_spec h (proto_list (proto_config r)) _ Hreq (new_context_of h)) as (c & Hm & Hc).
  destruct (match_list_spec h (proto_list common) _ Hreq Hc) as (c' & Hm' & _).
  change (new_CommonMatcher <$> proto_list (proto_config r)) with (list_ (config_ (new_RouteConfig r))) in Hm.
  change (new_CommonMatcher <$> proto_list common) with (list_ (new_HeaderRestrictionConfig common)) in Hm'.
  unfold holds. revert Hd Hm Hm'. unfold decodeHeaders, verdict.
  generalize (new_HeaderRestrictionConfig common) as config. intros config.
  destruct (new_RouteConfig r) as [rc d st]. cbn [disabled_ config_]. intros -> -> Hm'. cbn [obind fst snd].
  destruct (is_black_list_ rc), (existsb _ (proto_list (proto_config r))), (override_common config _);
    cbn [negb andb orb obind fst snd xorb]; try done; rewrite Hm'; cbn [obind fst snd];
    by destruct (existsb _ _).
Qed.

(** A request passes exactly when its list admits it: with a black list in force no item may be
    satisfied, with a white list one must be, and the list in force is that of the
    route, extended by that of the filter when both are of the same type and the route
    does not override; a request that does not pass is answered once with 403.  A
    matcher item is satisfied when its path, header, query and cookie conditions hold. *)
Theorem header_restriction_decides (common : ProtoHeaderRestriction) (route : option ProtoRouteConfig) (h : H) :
  is_request h = true ->
  let result := decodeHeaders (new_HeaderRestrictionConfig common) (new_RouteConfig <$> route) h in
  (result = Ok (Continue, []) <-> admitted common route h) /\
  (result = Ok (StopIteration, [sendLocalReply denied_reply]) <-> ~ admitted common route h).
Proof.
  intros Hreq. cbn zeta. unfold admitted, effective.
  assert (Hverdict : forall b (P : Prop), (P <-> b = true) ->
      (verdict b = Ok (Continue, []) <-> P) /\
      (verdict b = Ok (StopIteration, [sendLocalReply denied_reply]) <-> ~ P)).
  { intros [] P HP; cbn; intuition congruence. }
  destruct route as [r|]; cbn [fmap option_fmap option_map].
  - destruct (proto_disabled r) eqn:Ed.
    + assert (Hc : decodeHeaders (new_HeaderRestrictionConfig common) (Some (new_RouteConfig r)) h = verdict true)
        by (unfold decodeHeaders, new_RouteConfig; by rewrite Ed).
      rewrite Hc. apply Hverdict. split; [done|]. intros _. left. eauto.
    + rewrite decodeHeaders_route by done. apply Hverdict.
      unfold override_common, new_RouteConfig, new_HeaderRestrictionConfig. cbn [config_ strategy_ is_black_list_].
      rewrite holds_decides. destruct (_ || negb (eqb _ _)) eqn:Eo; cbn [negb andb];
        [rewrite orb_false_r|unfold holds; rewrite existsb_app]; naive_solver.
  - rewrite decodeHeaders_common by done. apply Hverdict. rewrite holds_decides. naive_solver.
Qed.

End filter.

Lemma header_restriction_decides_witness :
  let item p hs cs := {| path := p; ProxyMatcher.headers := hs; parameters := []; cookies := cs |} in
  let common := {| proto_type := BLACK; proto_list := [item None [("user-agent", "bot")] []] |} in
  let route := {| proto_config := {| proto_type := BLACK;
                    proto_list := [item (Some "/admin") [] [("session", None)]] |};
                  proto_disabled := false; proto_strategy := PRIORTO |} in
  let h : alist := [(":path", "/admin?x=1"); ("cookie", "session=1"); ("user-agent", "curl")] in
  let decide h := decodeHeaders (new_HeaderRestrictionConfig common) (Some (new_RouteConfig route)) h in
  decide h = Ok (StopIteration, [sendLocalReply denied_reply]) /\
  ~ admitted common (Some route) h /\
  decide [(":path", "/x"); ("user-agent", "bot")] = Ok (StopIteration, [sendLocalReply denied_reply]) /\
  admitted common (Some route) [(":path", "/x"); ("user-agent", "curl")].
Proof.
  cbv zeta. split_and!; [by vm_compute| |by vm_compute|].
  - refine (proj1 (proj2 (header_restriction_decides _ (Some _) _ _)) _); by vm_compute.
  - refine (proj1 (proj1 (header_restriction_decides _ (Some _) _ _)) _); by vm_compute.
Defined.
