(* ===== verification/LocalLimit.v ===== *)
(** * The local limit filter and its token buckets
      (source/filters/http/local_limit, source/common/common/token_bucket.{h,cc})

    A route has rate limits; each has header conditions and a token bucket, shared
    under a lock or one per worker thread.  The arithmetic of a bucket is the
    proxy's ([TokenBucketImpl]); its documented behaviour is stated by
    [TokenBucketLaws] over rational numbers.  Times are nanoseconds. *)

From S2P Require Import Prelude Json Http ProxyMatcher.
From Stdlib Require Import Ascii SpecFloat QArith Qminmax Lqa.
From stdpp Require Import base gmap strings numbers list.
#[local] Open Scope Z_scope.
#[local] Open Scope proxy_scope.

(** ** Buckets *)

Class TokenBucketImpl (B : Type) := {
  impl_new : Z -> double -> Z -> B;
  impl_consume : Z -> bool -> Z -> B -> Z * B;
  impl_consume_next : Z -> bool -> Z -> B -> (Z * Z) * B;
  impl_nextTokenAvailable : Z -> B -> Z * B;
  impl_maybeReset : Z -> Z -> B -> B;
}.
(** The last number of each operation is the reading of the clock. *)

Section buckets.
Context {B : Type} `{!TokenBucketImpl B}.

(** One bucket behind a lock, or the buckets of the worker threads. *)
Inductive TokenBucket :=
| AccurateTokenBucket (impl_ : B)
| TheadLocalTokenBucket (impl_slot_ptr_ : list B).

Definition new_AccurateTokenBucket (max_tokens : Z) (fill_rate : double) (now : Z) : TokenBucket :=
  AccurateTokenBucket (impl_new max_tokens fill_rate now).

(** [impl_slot_ref_.set] creates a bucket on every thread; [worker_nows] has the
    reading of the clock of each. *)
Definition new_TheadLocalTokenBucket (max_tokens : Z) (fill_rate : double) (worker_nows : list Z) :
    TokenBucket :=
  TheadLocalTokenBucket (impl_new max_tokens fill_rate <$> worker_nows).

(** An operation of the thread [worker]; a thread without slot has no bucket. *)
Definition on_impl {R} (worker : nat) (f : B -> R * B) (b : TokenBucket) : outcome (R * TokenBucket) :=
  match b with
  | AccurateTokenBucket impl => let (r, impl') := f impl in Ok (r, AccurateTokenBucket impl')
  | TheadLocalTokenBucket impls =>
      match impls !! worker with
      | Some impl => let (r, impl') := f impl in Ok (r, TheadLocalTokenBucket (<[worker := impl']> impls))
      | None => Undefined "no thread local bucket"
      end
  end.

Definition consume (worker : nat) (tokens : Z) (allow_partial : bool) (now : Z) (b : TokenBucket) :=
  on_impl worker (impl_consume tokens allow_partial now) b.
Definition consume_next (worker : nat) (tokens : Z) (allow_partial : bool) (now : Z) (b : TokenBucket) :=
  on_impl worker (impl_consume_next tokens allow_partial now) b.
Definition nextTokenAvailable (worker : nat) (now : Z) (b : TokenBucket) :=
  on_impl worker (impl_nextTokenAvailable now) b.

(** Thread local buckets are only reset from the main thread, and then all of them. *)
Definition maybeReset (main_thread : bool) (num_tokens now : Z) (b : TokenBucket) : TokenBucket :=
  match b with
  | AccurateTokenBucket impl => AccurateTokenBucket (impl_maybeReset num_tokens now impl)
  | TheadLocalTokenBucket impls =>
      if main_thread then TheadLocalTokenBucket (impl_maybeReset num_tokens now <$> impls) else b
  end.

(** ** Limits *)

Context {H StringMatcher HeaderMatcher QueryParameterMatcher : Type}
  `{!HeaderMap H, api : !MatcherApi H StringMatcher HeaderMatcher QueryParameterMatcher}.

Record ProtoCommonRateLimit := {
  matcher : @CommonMatcherProto StringMatcher HeaderMatcher QueryParameterMatcher;
  unit : nat;
  rate : Z;
}.

Record RateLimitEntry := { enable_rqx_ : list HeaderMatcher; token_bucket_ptr_ : TokenBucket }.

Definition CYCLE : list double :=
  [double_of_Z 1; double_of_Z 60; double_of_Z (60 * 60); double_of_Z (24 * 60 * 60)].

Definition fill_rate_of (rate : Z) (unit : nat) : outcome double :=
  match CYCLE !! unit with
  | Some c => Ok (SFdiv 53 1024 (double_of_Z rate) c)
  | None => Undefined "CYCLE read out of range"
  end.

Definition new_RateLimitEntry (worker_nows : list Z) (now : Z) (rate_limit : ProtoCommonRateLimit)
    (use_thread_local_token_bucket : bool) : outcome RateLimitEntry :=
  let* fill_rate := fill_rate_of (rate rate_limit) (unit rate_limit) in
  Ok {| enable_rqx_ := ProxyMatcher.headers (matcher rate_limit);
        token_bucket_ptr_ :=
          if use_thread_local_token_bucket
          then new_TheadLocalTokenBucket (rate rate_limit) fill_rate worker_nows
          else new_AccurateTokenBucket (rate rate_limit) fill_rate now |}.

Definition entry_limit (worker : nat) (now : Z) (headers : H) (e : RateLimitEntry) :
    outcome (bool * RateLimitEntry) :=
  if negb (matchHeaders headers (enable_rqx_ e)) then Ok (false, e)
  else
    let* r := consume worker 1 false now (token_bucket_ptr_ e) in
    Ok (r.1 <? 1, {| enable_rqx_ := enable_rqx_ e; token_bucket_ptr_ := r.2 |}).

(** [LocalLimitRouteConfig]: the loop does not stop at the first limit. *)
Fixpoint new_LocalLimitRouteConfig (worker_nows : list Z) (now : Z) (rate_limit : list ProtoCommonRateLimit)
    (use_thread_local_token_bucket : bool) : outcome (list RateLimitEntry) :=
  match rate_limit with
  | [] => Ok []
  | p :: rest =>
      let* e := new_RateLimitEntry worker_nows now p use_thread_local_token_bucket in
      let* es := new_LocalLimitRouteConfig worker_nows now rest use_thread_local_token_bucket in
      Ok (e :: es)
  end.

Fixpoint route_limit (worker : nat) (now : Z) (headers : H) (limit : bool) (es : list RateLimitEntry) :
    outcome (bool * list RateLimitEntry) :=
  match es with
  | [] => Ok (limit, [])
  | e :: es' =>
      let* r := entry_limit worker now headers e in
      let* rs := route_limit worker now headers (limit || r.1) es' in
      Ok (rs.1, r.2 :: rs.2)
  end.

(** ** The filter *)

Inductive effect := sendLocalReply (r : LocalReply).

Definition limited_reply : LocalReply :=
  {| reply_code := 429; reply_body := ""; reply_headers := []; reply_details := "local_rate_limit" |}.

Record Route := { routeEntry : bool; route_config : option (list RateLimitEntry) }.

Definition decodeHeaders (worker : nat) (now : Z) (headers : H) (route : option Route) :
    outcome (FilterHeadersStatus * list effect * option Route) :=
  match route with
  | Some {| routeEntry := true; route_config := Some entries |} =>
      let* r := route_limit worker now headers false entries in
      let route' := Some {| routeEntry := true; route_config := Some r.2 |} in
      if negb r.1 then Ok (Continue, [], route')
      else Ok (StopIteration, [sendLocalReply limited_reply], route')
  | _ => Ok (Continue, [], route)
  end.

End buckets.
Arguments TokenBucket B : clear implicits.
Arguments RateLimitEntry B HeaderMatcher : clear implicits.

(** ** The documented behaviour of a bucket *)

#[local] Open Scope Q_scope.

(** The rational number a finite double stands for. *)
Definition double_value (d : double) : Q :=
  match d with
  | S754_finite s m e =>
      let z := if s then Z.neg m else Z.pos m in
      if (0 <=? e)%Z then inject_Z (z * 2 ^ e) else Qmake z (Z.to_pos (2 ^ (- e)))
  | _ => 0
  end.

Definition nanoseconds : Q := inject_Z 1000000000.

(** A bucket holds at most [capacity] tokens, starts full, gains [gain] tokens a second
    and gives a token when it has one. *)
Class TokenBucketLaws (B : Type) `{!TokenBucketImpl B} := {
  capacity : B -> Q;
  gain : B -> Q;
  last_seen : B -> Z;
  level : B -> Z -> Q;
  new_bucket : forall m r now, (0 <= m)%Z -> 0 <= double_value r ->
    capacity (impl_new m r now) == inject_Z m /\ gain (impl_new m r now) == double_value r /\
    last_seen (impl_new m r now) = now /\ level (impl_new m r now) now == inject_Z m;
  level_later : forall b t t', (last_seen b <= t <= t')%Z ->
    level b t' == Qmin (capacity b) (level b t + gain b * (inject_Z (t' - t) / nanoseconds));
  consume_one : forall b now n b', (last_seen b <= now)%Z -> impl_consume 1 false now b = (n, b') ->
    capacity b' == capacity b /\ gain b' == gain b /\ last_seen b' = now /\
    if Qle_bool 1 (level b now) then n = 1%Z /\ level b' now == level b now - 1
    else n = 0%Z /\ level b' now == level b now;
}.

Section laws.
Context {B : Type} `{!TokenBucketImpl B, !TokenBucketLaws B}.

(** A bucket of [m] tokens that gains [r] a second, last used before [t]. *)
Record bucket_ok (m r : Q) (t : Z) (b : B) : Prop := {
  ok_capacity : capacity b == m;
  ok_gain : gain b == r;
  ok_seen : (last_seen b <= t)%Z;
  ok_level : 0 <= level b t;
}.

Definition elapsed (t t' : Z) : Q := inject_Z (t' - t) / nanoseconds.

Lemma elapsed_nonneg t t' : (t <= t')%Z -> 0 <= elapsed t t'.
Proof.
  intros Ht. unfold elapsed, Qdiv. apply Qmult_le_0_compat; [|done].
  rewrite <- (Zle_Qle 0). lia.
Qed.

Lemma elapsed_add t t' t'' : elapsed t t'' == elapsed t t' + elapsed t' t''.
Proof.
  unfold elapsed. replace (t'' - t)%Z with ((t' - t) + (t'' - t'))%Z by lia.
  rewrite inject_Z_plus. unfold Qdiv. ring.
Qed.

Lemma level_grows m r t t' b :
  0 <= m -> 0 <= r -> bucket_ok m r t b -> (t <= t')%Z ->
  bucket_ok m r t' b /\ level b t' <= level b t + r * elapsed t t' /\
  Qmin m (r * elapsed t t') <= level b t'.
Proof.
  intros Hm Hr [Hc Hg Hs Hl] Ht. pose proof (level_later b t t' (conj Hs Ht)) as Hlt.
  fold (elapsed t t') in Hlt. rewrite Hc, Hg in Hlt.
  pose proof (Qmult_le_0_compat r _ Hr (elapsed_nonneg t t' Ht)) as He.
  assert (Hmin : 0 <= level b t' /\ level b t' <= level b t + r * elapsed t t' /\
      Qmin m (r * elapsed t t') <= level b t').
  { rewrite Hlt. split_and!.
    - apply Q.min_glb; lra.
    - apply Q.le_min_r.
    - apply Q.min_le_compat_l. lra. }
  destruct Hmin as (H1 & H2 & H3). split_and!; [|done..]. split; [done|done|lia|done].
Qed.

Lemma consume_spec m r t b n b' :
  bucket_ok m r t b -> impl_consume 1 false t b = (n, b') ->
  bucket_ok m r t b' /\ (n = 0 \/ n = 1)%Z /\ level b' t == level b t - inject_Z n /\
  (1 <= level b t -> n = 1%Z).
Proof.
  intros [Hc Hg Hs Hl] Hcons. destruct (consume_one b t n b' Hs Hcons) as (Hc' & Hg' & Hs' & Hn).
  destruct (Qle_bool 1 (level b t)) eqn:E; destruct Hn as [-> Hn].
  - apply Qle_bool_iff in E. split_and!; [split|auto|rewrite Hn; unfold inject_Z; ring|done].
    + by rewrite Hc'.
    + by rewrite Hg'.
    + lia.
    + rewrite Hn. lra.
  - split_and!; [split|auto|rewrite Hn; unfold inject_Z; ring|].
    + by rewrite Hc'.
    + by rewrite Hg'.
    + lia.
    + by rewrite Hn.
    + intros Hle. apply Qle_bool_iff in Hle. congruence.
Qed.

End laws.

(** ** Signs of the doubles that appear *)

Definition nonneg_sign (d : double) : Prop :=
  match d with S754_finite s _ _ => s = false | _ => True end.

Lemma double_value_nonneg d : nonneg_sign d -> 0 <= double_value d.
Proof.
  destruct d as [| | |s m e]; cbn; try lra. intros ->. destruct (0 <=? e)%Z eqn:E.
  - unfold Qle, inject_Z. cbn [Qnum Qden]. nia.
  - unfold Qle. cbn [Qnum Qden]. lia.
Qed.

Lemma binary_round_aux_nonneg mx ex lx : nonneg_sign (binary_round_aux 53 1024 false mx ex lx).
Proof.
  unfold binary_round_aux. destruct (shr_fexp _ _ _ _ _) as [[m' l'] e'].
  destruct (shr_fexp _ _ _ _ _) as [[m'' ?] e'']. cbn [shr_m].
  destruct m'' as [|p|p]; cbn; try done. by destruct (_ <=? _)%Z.
Qed.

Lemma double_of_Z_nonneg z : (0 <= z)%Z -> nonneg_sign (double_of_Z z).
Proof.
  intros Hz. unfold double_of_Z, binary_normalize. destruct z as [|p|p]; [done| |lia].
  unfold binary_round. destruct (shl_align _ _ _) as [? ?]. apply binary_round_aux_nonneg.
Qed.

Lemma fill_rate_nonneg rate unit r :
  (0 <= rate)%Z -> fill_rate_of rate unit = Ok r -> 0 <= double_value r.
Proof.
  intros Hr H. apply double_value_nonneg. unfold fill_rate_of in H.
  destruct (CYCLE !! unit) as [c|] eqn:Ec; [|done]. injection H as <-.
  assert (Hc : exists m e, c = S754_finite false m e).
  { unfold CYCLE in Ec. do 4 (destruct unit as [|unit]; [injection Ec as <-; vm_compute; eauto|]). done. }
  destruct Hc as (m & e & ->). apply double_of_Z_nonneg in Hr.
  destruct (double_of_Z rate) as [s|s| |s m' e']; cbn [SFdiv nonneg_sign] in *; try done.
  subst s. cbn [xorb]. destruct (SFdiv_core_binary _ _ _ _ _) as [[? ?] ?]. apply binary_round_aux_nonneg.
Qed.

(** ** Runs of an entry *)

Section runs.
Context {B : Type} `{!TokenBucketImpl B, !TokenBucketLaws B}
  {H StringMatcher HeaderMatcher QueryParameterMatcher : Type}
  `{!HeaderMap H, api : !MatcherApi H StringMatcher HeaderMatcher QueryParameterMatcher}.

Abbreviation Entry := (RateLimitEntry B HeaderMatcher).
Abbreviation Limit := (@ProtoCommonRateLimit StringMatcher HeaderMatcher QueryParameterMatcher).

(** A request: the thread that serves it, when, and its headers. *)
Record Request := { worker_ : nat; at_ : Z; headers_ : H }.

(** The calls of [limit] on one entry, in the order in which they take place. *)
Fixpoint entry_run (e : Entry) (l : list Request) : outcome (list bool * Entry) :=
  match l with
  | [] => Ok ([], e)
  | q :: l' =>
      let* r := entry_limit (worker_ q) (at_ q) (headers_ q) e in
      let* rs := entry_run r.2 l' in
      Ok (r.1 :: rs.1, rs.2)
  end.

(** The clock does not go back. *)
Fixpoint ordered (t : Z) (l : list Request) (t' : Z) : Prop :=
  match l with
  | [] => (t <= t')%Z
  | q :: l' => (t <= at_ q)%Z /\ ordered (at_ q) l' t'
  end.

(** The number of requests the entry applies to and lets pass. *)
Fixpoint passed (e : Entry) (l : list Request) (limited : list bool) : Z :=
  match l, limited with
  | q :: l', b :: limited' =>
      ((if matchHeaders (headers_ q) (enable_rqx_ e) && negb b then 1 else 0) + passed e l' limited')%Z
  | _, _ => 0%Z
  end.

Definition impls (b : TokenBucket B) : list B :=
  match b with AccurateTokenBucket impl => [impl] | TheadLocalTokenBucket l => l end.

(** The number of thread slots, none behind a lock. *)
Definition slots (b : TokenBucket B) : option nat :=
  match b with AccurateTokenBucket _ => None | TheadLocalTokenBucket l => Some (length l) end.

Lemma impls_length b : length (impls b) = default 1%nat (slots b).
Proof. by destruct b. Qed.

Definition total_level (t : Z) (l : list B) : Q := foldr (fun b acc => level b t + acc) 0 l.

Lemma on_impl_inv {R} w (f : B -> R * B) b r b' :
  on_impl w f b = Ok (r, b') ->
  exists i impl impl', impls b !! i = Some impl /\ f impl = (r, impl') /\ impls b' = <[i := impl']> (impls b) /\
    slots b' = slots b.
Proof.
  destruct b as [impl|l]; cbn [on_impl impls].
  - destruct (f impl) as [r' impl'] eqn:Ef. intros [= -> <-]. by exists 0%nat, impl, impl'.
  - destruct (l !! w) as [impl|] eqn:El; [|done]. destruct (f impl) as [r' impl'] eqn:Ef.
    intros [= -> <-]. exists w, impl, impl'. cbn [slots]. by rewrite length_insert.
Qed.

Lemma total_level_insert t l i (b b' : B) :
  l !! i = Some b -> total_level t (<[i := b']> l) == total_level t l - level b t + level b' t.
Proof.
  revert i. induction l as [|x l IH]; intros [|i]; [done|done| |]; cbn.
  - intros [= ->]. ring.
  - intros Hi. rewrite (IH i Hi). unfold total_level. ring.
Qed.

Definition copies (l : list B) : Q := inject_Z (Z.of_nat (length l)).

Lemma total_level_grows m r t t' l :
  0 <= m -> 0 <= r -> Forall (bucket_ok m r t) l -> (t <= t')%Z ->
  Forall (bucket_ok m r t') l /\ total_level t' l <= total_level t l + copies l * (r * elapsed t t').
Proof.
  intros Hm Hr Hl Ht. induction Hl as [|b l Hb Hl [IH1 IH2]].
  - split; [done|]. change (0 <= 0 + 0 * (r * elapsed t t')). lra.
  - destruct (level_grows m r t t' b Hm Hr Hb Ht) as (H1 & H2 & _). split; [by constructor|].
    cbn [total_level foldr]. fold (total_level t l) (total_level t' l). unfold copies in *.
    cbn [length]. rewrite Nat2Z.inj_succ, <- Z.add_1_r, inject_Z_plus. change (inject_Z 1) with 1. lra.
Qed.

(** However long it has not been used, a bucket holds no more than its capacity. *)
Lemma level_capped m r t b : bucket_ok m r t b -> level b t <= m.
Proof.
  intros [Hc _ Hs _]. rewrite (level_later b t t) by lia. rewrite Hc. apply Q.le_min_l.
Qed.

Lemma total_level_capped m r t l : Forall (bucket_ok m r t) l -> total_level t l <= copies l * m.
Proof.
  induction 1 as [|b l Hb _ IH]; [change (0 <= 0 * m); lra|].
  pose proof (level_capped m r t b Hb) as Hl. unfold copies in *. cbn [total_level foldr length].
  fold (total_level t l). rewrite Nat2Z.inj_succ, <- Z.add_1_r, inject_Z_plus. change (inject_Z 1) with 1. lra.
Qed.

Lemma total_level_nonneg m r t l : Forall (bucket_ok m r t) l -> 0 <= total_level t l.
Proof. induction 1 as [|b l [_ _ _ Hb] _ IH]; cbn; [lra|]. fold (total_level t l). lra. Qed.

(** One call: what it grants leaves the buckets. *)
Lemma entry_limit_spec m r w t h (e e' : Entry) b :
  Forall (bucket_ok m r t) (impls (token_bucket_ptr_ e)) ->
  entry_limit w t h e = Ok (b, e') ->
  enable_rqx_ e' = enable_rqx_ e /\
  slots (token_bucket_ptr_ e') = slots (token_bucket_ptr_ e) /\
  Forall (bucket_ok m r t) (impls (token_bucket_ptr_ e')) /\
  total_level t (impls (token_bucket_ptr_ e')) +
    inject_Z (if matchHeaders h (enable_rqx_ e) && negb b then 1 else 0) ==
  total_level t (impls (token_bucket_ptr_ e)).
Proof.
  intros Hok. unfold entry_limit. destruct (matchHeaders h (enable_rqx_ e)); cbn [negb andb].
  2: { intros [= <- <-]. split_and!; [done..|]. change (inject_Z 0) with 0. ring. }
  destruct (consume w 1 false t (token_bucket_ptr_ e)) as [[n bu]|?|?|] eqn:Ec; [|done..].
  cbn [obind fst snd]. intros [= <- <-]. cbn [enable_rqx_ token_bucket_ptr_].
  apply on_impl_inv in Ec as (i & im & im' & Hi & Hf & -> & Hslots).
  assert (Him : bucket_ok m r t im) by (eapply Forall_lookup_1; eauto).
  destruct (consume_spec m r t im n im' Him Hf) as (Hok' & Hn & Hlevel & _).
  split_and!; [done|done|by apply Forall_insert|].
  rewrite (total_level_insert t _ i im im' Hi), Hlevel.
  destruct Hn as [-> | ->]; cbn; unfold inject_Z; ring.
Qed.

Lemma entry_run_spec m r (Hm : 0 <= m) (Hr : 0 <= r) l (e e' : Entry) bs t t' :
  Forall (bucket_ok m r t) (impls (token_bucket_ptr_ e)) -> ordered t l t' ->
  entry_run e l = Ok (bs, e') ->
  enable_rqx_ e' = enable_rqx_ e /\
  slots (token_bucket_ptr_ e') = slots (token_bucket_ptr_ e) /\
  Forall (bucket_ok m r t') (impls (token_bucket_ptr_ e')) /\
  total_level t' (impls (token_bucket_ptr_ e')) + inject_Z (passed e l bs) <=
  total_level t (impls (token_bucket_ptr_ e)) +
    copies (impls (token_bucket_ptr_ e)) * (r * elapsed t t').
Proof.
  revert e e' bs t. induction l as [|q l IH]; intros e e' bs t Hok Hord Hrun; cbn [entry_run ordered] in *.
  - injection Hrun as <- <-. destruct (total_level_grows m r t t' _ Hm Hr Hok Hord) as [H1 H2].
    split_and!; [done..|]. cbn. change (inject_Z 0) with 0. lra.
  - destruct Hord as [Ht Hord]. invert_bind Hrun. invert_bind Hrun. injection Hrun as <- <-.
    destruct r0 as [b e1], r1 as [bs e2]. cbn [fst snd] in *.
    destruct (total_level_grows m r t (at_ q) _ Hm Hr Hok Ht) as [Hok1 Hle1].
    destruct (entry_limit_spec m r _ _ _ e e1 b Hok1 E) as (He1 & Hlen1 & Hok2 & Heq).
    destruct (IH e1 e2 bs (at_ q) Hok2 Hord E0) as (He2 & Hlen2 & Hok3 & Hle2).
    split_and!; [congruence|congruence|done|]. cbn [passed].
    assert (Hp : passed e1 l bs = passed e l bs).
    { clear -He1. revert bs. induction l as [|q' l IHl]; intros [|b' bs]; cbn [passed]; [done..|].
      by rewrite He1, IHl. }
    rewrite Hp in Hle2. rewrite inject_Z_plus, (elapsed_add t (at_ q) t').
    unfold copies in *. rewrite !impls_length, Hlen1 in *. lra.
Qed.

(** *** A new entry *)

Definition creation_times (worker_nows : list Z) (now : Z) (thread_local : bool) : list Z :=
  if thread_local then worker_nows else [now].

Lemma new_bucket_ok m fr now t :
  (0 <= m)%Z -> 0 <= double_value fr -> (now <= t)%Z ->
  bucket_ok (inject_Z m) (double_value fr) t (impl_new m fr now : B) /\
  level (impl_new m fr now : B) t <= inject_Z m.
Proof.
  intros Hm Hfr Ht. destruct (new_bucket m fr now Hm Hfr) as (Hc & Hg & Hs & Hl).
  assert (Hm' : 0 <= inject_Z m) by (rewrite <- (Zle_Qle 0); done).
  assert (Hok : bucket_ok (inject_Z m) (double_value fr) now (impl_new m fr now : B))
    by (split; [done|done|lia|by rewrite Hl]).
  destruct (level_grows _ _ now t _ Hm' Hfr Hok Ht) as (Hok' & _ & _). split; [done|].
  rewrite (level_later _ now t), Hc by lia. apply Q.le_min_l.
Qed.

Lemma new_entry_ok worker_nows now (p : Limit) thread_local (e : Entry) fr t :
  new_RateLimitEntry worker_nows now p thread_local = Ok e ->
  (0 <= rate p)%Z -> fill_rate_of (rate p) (unit p) = Ok fr ->
  Forall (fun c => c <= t)%Z (creation_times worker_nows now thread_local) ->
  0 <= double_value fr /\
  slots (token_bucket_ptr_ e) = (if thread_local then Some (length worker_nows) else None) /\
  Forall (bucket_ok (inject_Z (rate p)) (double_value fr) t) (impls (token_bucket_ptr_ e)) /\
  total_level t (impls (token_bucket_ptr_ e)) <=
    copies (impls (token_bucket_ptr_ e)) * inject_Z (rate p).
Proof.
  intros He Hr Hfr Ht. unfold new_RateLimitEntry in He. rewrite Hfr in He. cbn [obind] in He.
  injection He as <-. pose proof (fill_rate_nonneg _ _ _ Hr Hfr) as Hpos. cbn [token_bucket_ptr_].
  assert (Himpls : impls (if thread_local then new_TheadLocalTokenBucket (rate p) fr worker_nows
      else new_AccurateTokenBucket (rate p) fr now : TokenBucket B) =
    impl_new (rate p) fr <$> creation_times worker_nows now thread_local) by (by destruct thread_local).
  rewrite Himpls. split; [done|].
  split; [destruct thread_local; cbn; by rewrite ?length_fmap|]. clear Himpls.
  induction Ht as [|c l Hc Hl [IH1 IH2]].
  - split; [constructor|]. change (0 <= 0 * inject_Z (rate p)). lra.
  - destruct (new_bucket_ok (rate p) fr c t Hr Hpos Hc) as [H1 H2].
    split; [by constructor|]. cbn [fmap list_fmap total_level foldr] in *.
    unfold total_level, copies in *. cbn [length]. rewrite Nat2Z.inj_succ, <- Z.add_1_r, inject_Z_plus.
    change (inject_Z 1) with 1. lra.
Qed.

(** C25. However the requests of all threads interleave, and whatever was requested before, the number of
    requests that a limit applies to and lets pass in any period, from [t1] to [t2], is at most the
    configured rate plus the fill rate (the rate divided by the seconds of its unit, as a
    double) times the length of the period in seconds: time without requests saves up
    the rate at most.  With thread local buckets this holds per worker thread, so the
    bound is that many times larger. *)
Theorem local_limit_bounded worker_nows now (p : Limit) thread_local (e e1 e2 : Entry) fr before bs0 l bs t0 t1 t2 :
  new_RateLimitEntry worker_nows now p thread_local = Ok e ->
  (0 <= rate p)%Z -> fill_rate_of (rate p) (unit p) = Ok fr ->
  Forall (fun c => c <= t0)%Z (creation_times worker_nows now thread_local) ->
  ordered t0 before t1 -> entry_run e before = Ok (bs0, e1) ->
  ordered t1 l t2 -> entry_run e1 l = Ok (bs, e2) ->
  inject_Z (passed e1 l bs) <=
    inject_Z (if thread_local then Z.of_nat (length worker_nows) else 1) *
      (inject_Z (rate p) + double_value fr * elapsed t1 t2) /\
  Forall (fun b => level b t2 <= inject_Z (rate p)) (impls (token_bucket_ptr_ e2)).
Proof.
  intros He Hr Hfr Ht Hord0 Hrun0 Hord Hrun.
  destruct (new_entry_ok _ _ _ _ _ _ _ He Hr Hfr Ht) as (Hpos & Hlen & Hok & _).
  assert (Hm : 0 <= inject_Z (rate p)) by (rewrite <- (Zle_Qle 0); done).
  destruct (entry_run_spec _ _ Hm Hpos _ _ _ _ _ _ Hok Hord0 Hrun0) as (_ & Hlen1 & Hok1 & _).
  destruct (entry_run_spec _ _ Hm Hpos _ _ _ _ _ _ Hok1 Hord Hrun) as (_ & _ & Hok2 & Hle).
  pose proof (total_level_nonneg _ _ _ _ Hok2) as Hnn. pose proof (total_level_capped _ _ _ _ Hok1) as Hcap.
  assert (Hcopies : copies (impls (token_bucket_ptr_ e1)) =
      inject_Z (if thread_local then Z.of_nat (length worker_nows) else 1))
    by (unfold copies; rewrite impls_length, Hlen1, Hlen; by destruct thread_local).
  split; [rewrite <- Hcopies; lra|]. eapply Forall_impl; [exact Hok2|]. intros b. apply level_capped.
Qed.

(** C35. A limit never starves its requests: whatever was requested before, once the
    fill rate has produced a token since the last request, a request of any worker thread
    is let pass by the entry, and so it is when it does not match its headers. *)
Theorem local_limit_recovers worker_nows now (p : Limit) thread_local (e e' : Entry) fr l bs t t' t'' w h :
  new_RateLimitEntry worker_nows now p thread_local = Ok e ->
  (1 <= rate p)%Z -> fill_rate_of (rate p) (unit p) = Ok fr ->
  Forall (fun c => c <= t)%Z (creation_times worker_nows now thread_local) ->
  ordered t l t' -> entry_run e l = Ok (bs, e') ->
  (t' <= t'')%Z -> 1 <= double_value fr * elapsed t' t'' ->
  (thread_local = true -> (w < length worker_nows)%nat) ->
  exists e'', entry_limit w t'' h e' = Ok (false, e'').
Proof.
  intros He Hr Hfr Ht Hord Hrun Ht'' Hfill Hw.
  destruct (new_entry_ok worker_nows now p thread_local e fr t) as (Hpos & Hlen & Hok & Hlevel); [done|lia|done..|].
  assert (Hm : 1 <= inject_Z (rate p)) by (rewrite <- (Zle_Qle 1); done).
  assert (Hm0 : 0 <= inject_Z (rate p)) by lra.
  destruct (entry_run_spec _ _ Hm0 Hpos _ _ _ _ _ _ Hok Hord Hrun) as (_ & Hlen' & Hok' & _).
  rewrite Hlen in Hlen'. unfold entry_limit. destruct (matchHeaders h (enable_rqx_ e')); cbn [negb]; [|eauto].
  assert (Hgrant : forall im, im ∈ impls (token_bucket_ptr_ e') ->
      exists im', impl_consume 1 false t'' im = (1%Z, im')).
  { intros im Him. rewrite Forall_forall in Hok'. specialize (Hok' im Him).
    destruct (level_grows _ _ t' t'' im Hm0 Hpos Hok' Ht'') as (Hok1 & _ & Hle).
    destruct (impl_consume 1 false t'' im) as [n im'] eqn:Ec.
    destruct (consume_spec _ _ _ _ _ _ Hok1 Ec) as (_ & _ & _ & Hn). rewrite Hn; [eauto|].
    apply (Qle_trans _ _ _ (Q.min_glb _ _ _ Hm Hfill) Hle). }
  assert (Hkind : exists b', consume w 1 false t'' (token_bucket_ptr_ e') = Ok (1%Z, b')).
  { unfold consume, on_impl. destruct (token_bucket_ptr_ e') as [im|ims]; cbn [impls slots] in *.
    - destruct (Hgrant im) as [im' ->]; [by apply list_elem_of_singleton|eauto].
    - destruct thread_local; [|done]. injection Hlen' as Hlen'. rewrite <- Hlen' in Hw.
      destruct (lookup_lt_is_Some_2 ims w (Hw eq_refl)) as [im Him]. rewrite Him.
      destruct (Hgrant im) as [im' ->]; [by eapply list_elem_of_lookup_2|eauto]. }
  destruct Hkind as [b' ->]. cbn. eauto.
Qed.

(** A request on a route with limits asks every entry exactly once, also after one has
    answered that it limits, so that every entry it matches is charged; it is answered
    with 429 exactly when one of them limits, and otherwise passes. *)
Theorem local_limit_charges_all w now h (entries : list Entry) st effs route' :
  decodeHeaders w now h (Some {| routeEntry := true; route_config := Some entries |}) = Ok (st, effs, route') ->
  exists answers,
    Forall2 (fun e a => entry_limit w now h e = Ok a) entries answers /\
    route' = Some {| routeEntry := true; route_config := Some (snd <$> answers) |} /\
    ((st, effs) = (Continue, []) <-> Forall (fun a => a.1 = false) answers) /\
    ((st, effs) = (StopIteration, [sendLocalReply limited_reply]) <-> Exists (fun a => a.1 = true) answers).
Proof.
  cbn [decodeHeaders]. intros Hd. invert_bind Hd.
  assert (Hloop : forall limit es r, route_limit w now h limit es = Ok r ->
    exists answers, Forall2 (fun e a => entry_limit w now h e = Ok a) es answers /\
      r = (limit || existsb fst answers, snd <$> answers)).
  { clear. intros limit es. revert limit. induction es as [|e es IH]; intros limit r Hl; cbn [route_limit] in Hl.
    - injection Hl as <-. exists []. split; [done|]. cbn. by rewrite orb_false_r.
    - invert_bind Hl. invert_bind Hl. injection Hl as <-.
      destruct (IH _ _ E0) as (answers & HF & ->). exists (r0 :: answers).
      split; [by constructor|]. cbn. by rewrite orb_assoc. }
  destruct (Hloop _ _ _ E) as (answers & HF & ->). exists answers. split; [done|]. cbn [fst snd orb] in Hd.
  assert (Hex : existsb fst answers = true <-> Exists (fun a => a.1 = true) answers).
  { rewrite existsb_exists, Exists_exists. setoid_rewrite list_elem_of_In. done. }
  assert (Hall : existsb fst answers = false <-> Forall (fun a => a.1 = false) answers).
  { rewrite <- not_true_iff_false, Hex, <- Forall_Exists_neg. apply Forall_iff. intros [[] ?]; cbn; intuition congruence. }
  rewrite <- Hex, <- Hall. destruct (existsb fst answers); injection Hd as <- <- <-; split_and!; by split.
Qed.

End runs.

(** ** A bucket of rational numbers *)

Record QBucket := { q_capacity : Q; q_fill : Q; q_tokens : Q; q_last : Z }.
Definition q_gain (b : QBucket) : Q := Qmax 0 (q_fill b).
Definition q_level (b : QBucket) (t : Z) : Q :=
  Qmin (q_capacity b) (q_tokens b + q_gain b * elapsed (q_last b) t).
Definition q_at (b : QBucket) (tokens : Q) (now : Z) : QBucket :=
  {| q_capacity := q_capacity b; q_fill := q_fill b; q_tokens := tokens; q_last := now |}.
Definition q_consume (tokens : Z) (allow_partial : bool) (now : Z) (b : QBucket) : Z * QBucket :=
  let have := q_level b now in
  let want := if allow_partial then Z.min tokens (Qnum have / Zpos (Qden have)) else tokens in
  if Qle_bool (inject_Z want) have then (want, q_at b (Qred (have - inject_Z want)) now)
  else (0%Z, q_at b (Qred have) now).

#[global] Instance QBucket_impl : TokenBucketImpl QBucket := {
  impl_new m r now := {| q_capacity := inject_Z m; q_fill := double_value r; q_tokens := inject_Z m; q_last := now |};
  impl_consume := q_consume;
  impl_consume_next tokens partial now b := let (n, b') := q_consume tokens partial now b in ((n, 0%Z), b');
  impl_nextTokenAvailable now b := (0%Z, b);
  impl_maybeReset n now b := q_at b (inject_Z n) now;
}.

Lemma elapsed_same t : elapsed t t == 0.
Proof. unfold elapsed. rewrite Z.sub_diag. done. Qed.

#[global] Instance QBucket_laws : TokenBucketLaws QBucket.
Proof.
  assert (Hgain : forall b, 0 <= q_gain b) by (intros b; apply Q.le_max_l).
  assert (Hnow : forall b t x, x <= q_capacity b -> q_level (q_at b (Qred x) t) t == x).
  { intros b t x Hx. unfold q_level. cbn [q_at q_capacity q_tokens q_last]. rewrite elapsed_same.
    pose proof (Qred_correct x) as Hq. rewrite Q.min_r; lra. }
  refine {| capacity := q_capacity; gain := q_gain; last_seen := q_last; level := q_level |}.
  - intros m r now Hm Hr. cbn [impl_new QBucket_impl q_capacity q_last]. split_and!; [done| |done|].
    + unfold q_gain. cbn [q_fill]. by apply Q.max_r.
    + unfold q_level. cbn [q_capacity q_tokens q_last]. rewrite elapsed_same. rewrite Q.min_l; lra.
  - intros b t t' Ht. fold (elapsed t t'). unfold q_level.
    rewrite (elapsed_add (q_last b) t t'). pose proof (Hgain b) as Hg.
    pose proof (Qmult_le_0_compat _ _ Hg (elapsed_nonneg t t' ltac:(lia))) as H1.
    destruct (Q.min_spec (q_capacity b) (q_tokens b + q_gain b * elapsed (q_last b) t)) as [[Hlt ->]|[Hle ->]].
    + rewrite !Q.min_l by lra. done.
    + rewrite Qmult_plus_distr_r, Qplus_assoc. done.
  - intros b now n b' Hs. cbn [impl_consume QBucket_impl]. unfold q_consume. cbn [negb].
    change (inject_Z 1) with 1. pose proof (Q.le_min_l (q_capacity b)
      (q_tokens b + q_gain b * elapsed (q_last b) now)) as Hcap. fold (q_level b now) in Hcap.
    destruct (Qle_bool 1 (q_level b now)); intros [= <- <-]; split_and!; try done.
    + apply Hnow. lra.
    + by apply Hnow.
Qed.

(** ** Witnesses *)

Definition example_limit : @ProtoCommonRateLimit string (string * string) (string * string) :=
  {| matcher := {| path := None; ProxyMatcher.headers := [("env", "dev")]; parameters := []; cookies := [] |};
     unit := 0; rate := 2 |}.
Definition example_request (w : nat) (t : Z) : Request (H := alist) :=
  {| worker_ := w; at_ := t; headers_ := [("env", "dev")] |}.

(** The bucket is empty, then ten seconds pass: the next period begins with two tokens. *)
Definition example_before : list (Request (H := alist)) :=
  [example_request 0 10; example_request 1 20; example_request 0 20; example_request 1 30].
Definition example_period : list (Request (H := alist)) :=
  [example_request 0 10000000030; example_request 1 10000000030; example_request 0 10000000030].
Definition example_runs : outcome (RateLimitEntry QBucket (string * string) *
    (list bool * RateLimitEntry QBucket (string * string)) * (list bool * RateLimitEntry QBucket (string * string))) :=
  let* e := new_RateLimitEntry [] 5 example_limit false in
  let* r1 := entry_run e example_before in
  let* r2 := entry_run r1.2 example_period in Ok (e, r1, r2).

Lemma local_limit_bounded_witness :
  exists e bs0 e1 bs e2 fr,
    example_runs = Ok (e, (bs0, e1), (bs, e2)) /\
    bs0 = [false; false; true; true] /\ bs = [false; false; true] /\
    inject_Z (passed e1 example_period bs) <=
      inject_Z 1 * (inject_Z 2 + double_value fr * elapsed 10000000030 10000000040).
Proof.
  destruct (fill_rate_of (rate example_limit) (unit example_limit)) as [fr|?|?|] eqn:Efr; [|vm_compute in Efr; done..].
  destruct example_runs as [[[e [bs0 e1]] [bs e2]]|?|?|] eqn:E; [|vm_compute in E; done..].
  exists e, bs0, e1, bs, e2, fr. split; [done|]. assert (Hbs : bs0 = [false; false; true; true] /\ bs = [false; false; true]).
  { vm_compute in E. by injection E as _ <- _ <- _. }
  split; [apply Hbs|]. split; [apply Hbs|]. unfold example_runs in E.
  destruct (new_RateLimitEntry [] 5 example_limit false) as [e0|?|?|] eqn:E0; [|done..]. cbn [obind] in E.
  destruct (entry_run e0 example_before) as [r1|?|?|] eqn:E1; [|done..]. cbn [obind] in E.
  destruct (entry_run r1.2 example_period) as [r2|?|?|] eqn:E2; [|done..]. cbn [obind] in E.
  injection E as <- -> ->.
  refine (proj1 (local_limit_bounded [] 5 example_limit false e0 e1 e2 fr example_before bs0 example_period bs
    5 10000000030 10000000040 E0 ltac:(cbn; lia) Efr _ _ E1 _ E2));
    [repeat constructor; cbn; lia|cbn; repeat split; lia|cbn; repeat split; lia].
Defined.

Lemma local_limit_recovers_witness :
  exists (e' : RateLimitEntry QBucket (string * string)) bs,
    (let* e := new_RateLimitEntry [5%Z; 6%Z] 5 example_limit true in
     entry_run e [example_request 0 10; example_request 0 20; example_request 0 20]) = Ok (bs, e') /\
    bs = [false; false; true] /\
    exists e'', entry_limit 0 500000040 ([("env", "dev")] : alist) e' = Ok (false, e'').
Proof.
  eexists _, _. split; [vm_compute; reflexivity|]. split; [reflexivity|].
  refine (local_limit_recovers [5%Z; 6%Z] 5 example_limit true _ _ _
    [example_request 0 10; example_request 0 20; example_request 0 20] _ 6 20 500000040 0 _ _ _ _ _ _ _ _ _ _).
  all: first [vm_compute; reflexivity|cbn; lia|repeat constructor; cbn; lia|idtac].
  vm_compute. discriminate.
Defined.

Lemma local_limit_charges_all_witness :
  exists (es : list (RateLimitEntry QBucket (string * string))) st effs r,
    new_LocalLimitRouteConfig [] 5 [example_limit; example_limit] false = Ok es /\
    decodeHeaders 0 10 ([("env", "dev")] : alist) (Some {| routeEntry := true; route_config := Some es |}) =
      Ok (st, effs, r) /\
    exists answers, Forall2 (fun e a => entry_limit 0 10 ([("env", "dev")] : alist) e = Ok a) es answers.
Proof.
  eexists _, _, _, _. split; [vm_compute; reflexivity|]. split; [vm_compute; reflexivity|].
  refine (match local_limit_charges_all 0 10 ([("env", "dev")] : alist) _ _ _ _ _ with
          | ex_intro _ a (conj Ha _) => ex_intro _ a Ha end).
  vm_compute. reflexivity.
Defined.
