(* ===== verification/TrafficMark.v ===== *)
(** * The traffic mark filter (source/filters/http/traffic_mark)

    Writes the colour of a request, and marks taken from the metadata of the route, into
    the dynamic metadata the load balancer reads.  Reading metadata by path, splitting
    tokens and finding clusters belong to the proxy ([TrafficApi]). *)

From S2P Require Import Prelude Json Http.
From Stdlib Require Import Ascii.
From stdpp Require Import base gmap strings numbers list.
#[local] Open Scope proxy_scope.

(** ** Choosing the colour *)

(** [to_find[i]] of a string view: reading at or beyond the end has no meaning. *)
Definition char_at (s : string) (i : nat) : outcome ascii :=
  match String.get i s with Some a => Ok a | None => Undefined "string_view read out of range" end.

(** The loop; [&&] does not evaluate what follows a false condition. *)
Fixpoint tryFindColor_loop (colors : list string) (to_find fallback : string) : outcome string :=
  match colors with
  | [] => Ok fallback
  | each :: colors' =>
      if String.eqb each to_find then Ok to_find
      else if starts_with to_find each then
        let* a := char_at to_find (String.length each) in
        if bool_decide (a = "."%char) && (String.length fallback <? String.length each)%nat
        then tryFindColor_loop colors' to_find each
        else tryFindColor_loop colors' to_find fallback
      else tryFindColor_loop colors' to_find fallback
  end.

Definition tryFindColor (colors : list string) (to_find : string) : outcome string :=
  tryFindColor_loop colors to_find "".

(** ** The filter *)

(** [ProtobufWkt::Value]; [KindNotSet] is also what reading a missing path gives. *)
Inductive Value :=
| KindNotSet
| NullValue
| NumberValue (d : double)
| StringValue (s : string)
| BoolValue (b : bool)
| OtherValue (text : string).

Abbreviation DynamicMetadata := (gmap string (gmap string Value)).

Class TrafficApi (Metadata : Type) := {
  metadataValue : Metadata -> string -> list string -> Value;
  splitToken : string -> string -> list string;
}.

Record MetadataPath := { namespace_ : string; path_ : list string }.
Record ConfigImpl := {
  header_key_ : string;
  match_key_ : string;
  all_colors_key_ : string;
  metadata_as_mark_ : gmap string MetadataPath;
}.

Section filter.
Context {Metadata H : Type} `{!TrafficApi Metadata, !HeaderMap H}.

(** A route with its metadata and the name of its cluster, when it has an entry. *)
Record Route := { clusterName : option string; route_metadata : Metadata }.

(** [getThreadLocalCluster]: no cluster, or a cluster whose info may be missing. *)
Abbreviation ClusterManager := (string -> option (option Metadata)).

Definition cluster_metadata_group_key : string := "qingzhou".
Definition ENVOY_LB : string := "envoy.lb".

(** One iteration of the loop over [metadata_as_mark]. *)
Definition mark_one (m : Metadata) (key : string) (p : MetadataPath) (fields : gmap string Value) :
    gmap string Value :=
  match metadataValue m (namespace_ p) (path_ p) with
  | (StringValue _ | NumberValue _ | BoolValue _) as v => <[key := v]> fields
  | _ => fields
  end.

(** [mutable_filter_metadata()[ns]]: creates the group when it is missing. *)
Definition group (dyn : DynamicMetadata) : gmap string Value := default ∅ (dyn !! ENVOY_LB).

(** The colours of the cluster; none where the filter returns early. *)
Definition all_colors (config : ConfigImpl) (cm : ClusterManager) (name : string) : list string :=
  match cm name with
  | Some (Some cluster_metadata) =>
      match metadataValue cluster_metadata cluster_metadata_group_key [all_colors_key_ config] with
      | StringValue s => splitToken s ","
      | _ => []
      end
  | _ => []
  end.

Definition request_color (config : ConfigImpl) (headers : H) : string :=
  default "" (head (hm_get (to_lower (header_key_ config)) headers)).

Definition decodeHeaders (config : ConfigImpl) (cm : ClusterManager) (route : option Route) (headers : H)
    (dyn : DynamicMetadata) : outcome (FilterHeadersStatus * DynamicMetadata) :=
  match route with
  | Some {| clusterName := Some cluster_name; route_metadata := metadata |} =>
      let envoy_lb_struct := map_fold (mark_one metadata) (group dyn) (metadata_as_mark_ config) in
      let dyn := <[ENVOY_LB := envoy_lb_struct]> dyn in
      match all_colors config cm cluster_name with
      | [] => Ok (Continue, dyn)
      | colors =>
          let* result := tryFindColor colors (request_color config headers) in
          Ok (Continue, <[ENVOY_LB := <[match_key_ config := StringValue result]> (group dyn)]> dyn)
      end
  | _ => Ok (Continue, dyn)
  end.

End filter.
Arguments Route Metadata : clear implicits.

(** ** The choice is the nearest ancestor *)

(** Colours are paths of names separated by dots: [c] is an ancestor of [s]. *)
Definition ancestor (c s : string) : Prop := exists t, s = c +:+ String "." t.

Lemma get_after p t : String.get (String.length p) (p +:+ t) = String.get 0 t.
Proof. induction p as [|a p IH]; [done|]. exact IH. Qed.

(** The read after a prefix is in range, because the strings differ. *)
Lemma char_after_prefix s c :
  starts_with s c = true -> c ≠ s ->
  exists a, char_at s (String.length c) = Ok a /\ (a = "."%char <-> ancestor c s).
Proof.
  intros [t ->]%starts_with_spec Hne. unfold char_at. rewrite get_after.
  destruct t as [|a t]; [by rewrite string_app_nil in Hne|]. exists a. split; [done|]. split.
  - intros ->. by exists t.
  - intros [t' Ht]. clear Hne. revert Ht. induction c as [|b c IH]; intros Ht.
    + change (String a t = String "." t') in Ht. congruence.
    + change (String b (c +:+ String a t) = String b (c +:+ String "." t')) in Ht. injection Ht. apply IH.
Qed.

Lemma ancestor_starts s c : ancestor c s -> starts_with s c = true.
Proof. intros [t ->]. apply starts_with_spec. by eexists. Qed.

Lemma loop_spec colors s fb :
  s ∉ colors ->
  exists r, tryFindColor_loop colors s fb = Ok r /\
    (r = fb \/ (r ∈ colors /\ ancestor r s /\ (String.length fb < String.length r)%nat)) /\
    (String.length fb <= String.length r)%nat /\
    Forall (fun c => ancestor c s -> (String.length c <= String.length r)%nat) colors.
Proof.
  revert fb. induction colors as [|c colors IH]; intros fb Hs; cbn [tryFindColor_loop].
  { exists fb. split_and!; [done|by left|done|constructor]. }
  apply not_elem_of_cons in Hs as [Hne Hs].
  rewrite (proj2 (String.eqb_neq c s)) by done.
  assert (Hskip : (ancestor c s -> String.length c <= String.length fb)%nat ->
    exists r, tryFindColor_loop colors s fb = Ok r /\
      (r = fb \/ (r ∈ c :: colors /\ ancestor r s /\ (String.length fb < String.length r)%nat)) /\
      (String.length fb <= String.length r)%nat /\
      Forall (fun c => ancestor c s -> (String.length c <= String.length r)%nat) (c :: colors)).
  { intros Hc. destruct (IH fb Hs) as (r & Hr & Hin & Hle & HF). exists r. split_and!; [done| |done|].
    - destruct Hin as [->|(? & ? & ?)]; [by left|right]. split_and!; [by right|done..].
    - constructor; [|done]. intros Ha. specialize (Hc Ha). lia. }
  destruct (starts_with s c) eqn:Ec.
  - destruct (char_after_prefix s c Ec) as (a & -> & Ha); [done|]. cbn [obind].
    case_bool_decide as Hdot; cbn [andb]; [|apply Hskip; tauto].
    destruct (String.length fb <? String.length c)%nat eqn:El; [|apply Nat.ltb_ge in El; by apply Hskip].
    apply Nat.ltb_lt in El. destruct (IH c Hs) as (r & Hr & Hin & Hle & HF). exists r.
    split_and!; [done| |lia|by constructor]. right.
    destruct Hin as [->|(? & ? & ?)]; (split_and!; [set_solver|tauto|lia]).
  - apply Hskip. intros Ha%ancestor_starts. congruence.
Qed.

(** The colour chosen for a request never reads past its text, and is the request's own colour
    when the cluster has it, otherwise the colour of the cluster that is its longest
    ancestor (the colours are read as paths separated by dots), and empty when there
    is none. *)
Theorem color_nearest_ancestor (colors : list string) (to_find : string) :
  exists r, tryFindColor colors to_find = Ok r /\
    (to_find ∈ colors -> r = to_find) /\
    (to_find ∉ colors ->
       ((r = "" /\ Forall (fun c => ancestor c to_find -> c = "") colors) \/
        (r ∈ colors /\ ancestor r to_find /\ r ≠ "")) /\
       Forall (fun c => ancestor c to_find -> (String.length c <= String.length r)%nat) colors).
Proof.
  unfold tryFindColor. destruct (decide (to_find ∈ colors)) as [Hin|Hout].
  - exists to_find. split; [|split; [done|by intros []]].
    generalize "" as fb. induction colors as [|c colors IH]; intros fb; [by apply elem_of_nil in Hin|].
    cbn [tryFindColor_loop]. destruct (String.eqb c to_find) eqn:Ec; [done|]. apply String.eqb_neq in Ec.
    apply elem_of_cons in Hin as [->|Hin]; [done|]. specialize (IH Hin).
    destruct (starts_with to_find c) eqn:Es; [|done].
    destruct (char_after_prefix to_find c Es Ec) as (a & -> & _). cbn [obind]. by destruct (_ && _).
  - destruct (loop_spec colors to_find "" Hout) as (r & Hr & Hin & _ & HF). exists r.
    split; [done|]. split; [done|]. intros _. split; [|done].
    destruct Hin as [->|(? & ? & Hl)]; [left|right].
    + split; [done|]. eapply Forall_impl; [exact HF|]. intros c Hc Ha. specialize (Hc Ha).
      destruct c; [done|]. cbn in Hc. lia.
    + split_and!; [done..|]. intros ->. cbn in Hl. lia.
Qed.

(** ** What the filter writes *)

Section marks.
Context {Metadata H : Type} `{!TrafficApi Metadata, !HeaderMap H}.
Abbreviation ClusterManager := (string -> option (option Metadata)).

Definition is_scalar (v : Value) : bool :=
  match v with StringValue _ | NumberValue _ | BoolValue _ => true | _ => false end.

(** The mark a configuration asks for under a key, if the metadata has a scalar for it. *)
Definition mark_of (m : Metadata) (marks : gmap string MetadataPath) (key : string) : option Value :=
  p ← marks !! key;
  let v := metadataValue m (namespace_ p) (path_ p) in
  if is_scalar v then Some v else None.

Lemma marks_lookup (m : Metadata) marks fields key :
  map_fold (mark_one m) fields marks !! key =
  match mark_of m marks key with Some v => Some v | None => fields !! key end.
Proof.
  unfold mark_of. apply (map_fold_weak_ind (fun r (ms : gmap string MetadataPath) =>
    r !! key = match (p ← ms !! key; let v := metadataValue m (namespace_ p) (path_ p) in
                      if is_scalar v then Some v else None) with
               | Some v => Some v | None => fields !! key end)); [by rewrite lookup_empty|].
  intros k p ms r Hk IH. unfold mark_one. destruct (decide (k = key)) as [->|Hne].
  - rewrite lookup_insert_eq. rewrite Hk in IH. cbn [mbind option_bind] in *.
    destruct (metadataValue m (namespace_ p) (path_ p)); cbn [is_scalar]; by rewrite ?lookup_insert_eq.
  - rewrite (lookup_insert_ne ms) by done.
    destruct (metadataValue m (namespace_ p) (path_ p)); by rewrite ?lookup_insert_ne.
Qed.

(** On a route with an entry the filter always continues, touches no metadata outside of
    envoy.lb, and there sets exactly the marks whose route metadata are scalars and,
    when the cluster of the route has colours, the match key to the chosen colour. *)
Theorem traffic_mark_writes (config : ConfigImpl) (cm : ClusterManager) name (m : Metadata) (headers : H) dyn r :
  tryFindColor (all_colors config cm name) (request_color config headers) = Ok r ->
  exists dyn', decodeHeaders config cm (Some {| clusterName := Some name; route_metadata := m |}) headers dyn =
      Ok (Continue, dyn') /\
    (forall ns, ns ≠ ENVOY_LB -> dyn' !! ns = dyn !! ns) /\
    (forall key, group dyn' !! key =
       if decide (key = match_key_ config /\ all_colors config cm name ≠ []) then Some (StringValue r)
       else match mark_of m (metadata_as_mark_ config) key with
            | Some v => Some v
            | None => group dyn !! key
            end).
Proof.
  intros Hr. unfold decodeHeaders. destruct (all_colors config cm name) as [|c cs] eqn:Ec.
  - eexists. split; [done|]. split; [intros ns Hns; by rewrite lookup_insert_ne|].
    intros key. unfold group at 1. rewrite lookup_insert_eq. cbn [default from_option id].
    rewrite marks_lookup. by rewrite decide_False by tauto.
  - rewrite Hr. cbn [obind]. eexists. split; [done|].
    split; [intros ns Hns; by rewrite !lookup_insert_ne|].
    intros key. unfold group at 1. rewrite lookup_insert_eq. cbn [default from_option id].
    unfold group at 1. rewrite lookup_insert_eq. cbn [default from_option id].
    destruct (decide (key = match_key_ config)) as [->|Hne].
    + rewrite lookup_insert_eq. by rewrite decide_True.
    + rewrite lookup_insert_ne, marks_lookup by done. by rewrite decide_False by naive_solver.
Qed.

End marks.

(** Metadata as a list of paths and values. *)
Abbreviation ListMetadata := (list (string * list string * Value)).
#[global] Instance simple_TrafficApi : TrafficApi ListMetadata := {
  metadataValue m ns path := default KindNotSet (snd <$> head (base.filter (fun e => e.1 = (ns, path)) m));
  splitToken s delimiters := match delimiters with String c _ => split_skip_empty c s | _ => [s] end;
}.

Lemma traffic_mark_writes_witness :
  let config := {| header_key_ := "X-Color"; match_key_ := "color"; all_colors_key_ := "all_colors";
                   metadata_as_mark_ := {[ "svc" := {| namespace_ := "proxy"; path_ := ["mark"; "svc"] |} ]} |} in
  let cluster : ListMetadata := [(("qingzhou", ["all_colors"]), StringValue "dev,dev.a,prod")] in
  let route : ListMetadata := [(("proxy", ["mark"; "svc"]), BoolValue true)] in
  let headers : alist := [("x-color", "dev.a.b")] in
  exists dyn', decodeHeaders config (fun _ => Some (Some cluster))
      (Some {| clusterName := Some "c"; route_metadata := route |}) headers ∅ = Ok (Continue, dyn') /\
    group dyn' !! "color" = Some (StringValue "dev.a") /\ group dyn' !! "svc" = Some (BoolValue true).
Proof.
  intros config cluster route headers.
  destruct (traffic_mark_writes config (fun _ => Some (Some cluster)) "c" route headers ∅ "dev.a")
    as (dyn' & Hd & _ & Hk); [vm_compute; reflexivity|].
  exists dyn'. split; [exact Hd|]. rewrite !Hk. split; vm_compute; reflexivity.
Defined.
