(* ===== verification/StaticDowngrade.v ===== *)
(** * The static downgrade filter (source/filters/http/static_downgrade)

    A response that meets the conditions of a configuration is replaced by a response
    from the configuration.  Files, the table of response flags and the matchers are
    the proxy's. *)

From S2P Require Import Prelude Decimal Http ProxyMatcher.
From Stdlib Require Import Ascii Sorted.
From stdpp Require Import base gmap strings numbers list.
#[local] Open Scope Z_scope.
#[local] Open Scope proxy_scope.

(** The file system and the names of response flags. *)
Class DowngradeApi := {
  fileExists : string -> bool;
  fileSize : string -> Z;
  fileReadToEnd : string -> outcome string;
  toResponseFlag : string -> option Z;
}.

(** [std::map::insert]: in the order of the keys, the first value of a key stays. *)
Fixpoint map_insert (k v : string) (l : list (string * string)) : list (string * string) :=
  match l with
  | [] => [(k, v)]
  | p :: l' =>
      match String.compare k p.1 with
      | Eq => l
      | Lt => (k, v) :: l
      | Gt => p :: map_insert k v l'
      end
  end.

Section filter.
Context {H StringMatcher HeaderMatcher QueryParameterMatcher : Type}
  `{!HeaderMap H, api : !MatcherApi H StringMatcher HeaderMatcher QueryParameterMatcher, !DowngradeApi}.

(** ** Configuration *)

Record ProtoBody := { filename : string; inline_bytes : string; inline_string : string }.
Record ProtoStaticResponse := {
  http_status : Z;
  proto_headers : list (string * string);
  proto_body : option ProtoBody;
}.
Record ProtoDowngradeConfig := {
  downgrade_rqx : list HeaderMatcher;
  downgrade_rpx : list HeaderMatcher;
  response_flags : option string;
  response_code_details : option StringMatcher;
  static_response : option ProtoStaticResponse;
}.

Record StaticDowngradeConfig := {
  downgrade_rqx_ : list HeaderMatcher;
  downgrade_rpx_ : list HeaderMatcher;
  response_flags_ : option Z;
  response_code_details_matcher_ : option StringMatcher;
  static_http_status_ : Z;
  static_http_headers_ : list (string * string);
  static_http_body_ : string;
  has_no_donwgrade_rpx_ : bool;
}.

Definition max_body_size : Z := 4096.

(** The loop over the names of flags. *)
Fixpoint parse_flags (views : list string) (flags : Z) : outcome Z :=
  match views with
  | [] => Ok flags
  | view :: views' =>
      match toResponseFlag view with
      | Some flag => parse_flags views' (Z.lor flags flag)
      | None => Throw ("Unsupported response flag: " +:+ view)
      end
  end.

(** [size <= 0 && size > max_body_size] never holds. *)
Definition static_body (b : ProtoBody) : outcome string :=
  if decide (filename b ≠ "") then
    if negb (fileExists (filename b)) then Ok ""
    else
      let size := fileSize (filename b) in
      if (size <=? 0) && (size >? max_body_size) then Ok ""
      else fileReadToEnd (filename b)
  else
    let temp := if decide (inline_bytes b ≠ "") then inline_bytes b else inline_string b in
    Ok (if Z.of_nat (String.length temp) <=? max_body_size then temp else "").

Definition new_StaticDowngradeConfig (config : ProtoDowngradeConfig) : outcome StaticDowngradeConfig :=
  let* flags := match response_flags config with
                | Some v => let* f := parse_flags (split_skip_empty "," v) 0 in
                            Ok (if f =? 0 then None else Some f)
                | None => Ok None
                end in
  let make status headers body no_rpx :=
    {| downgrade_rqx_ := downgrade_rqx config; downgrade_rpx_ := downgrade_rpx config;
       response_flags_ := flags; response_code_details_matcher_ := response_code_details config;
       static_http_status_ := status; static_http_headers_ := headers; static_http_body_ := body;
       has_no_donwgrade_rpx_ := no_rpx |} in
  match downgrade_rpx config, static_response config with
  | [], _ => Ok (make 200 [] "" true)
  | _, None => Ok (make 200 [] "" false)
  | _, Some r =>
      let status := if http_status r =? 0 then 200 else http_status r in
      let headers := fold_left (fun l p => map_insert (to_lower p.1) p.2 l) (proto_headers r) [] in
      let* body := match proto_body r with Some b => static_body b | None => Ok "" end in
      Ok (make status headers body false)
  end.

(** Flags and details of the stream. *)
Record StreamInfo := { responseFlags : Z; responseCodeDetails : option string }.

Definition shouldDowngrade (c : StaticDowngradeConfig) (rqx rpx : H) (info : StreamInfo) : bool :=
  if has_no_donwgrade_rpx_ c then false
  else
    let result := matchHeaders rqx (downgrade_rqx_ c) && matchHeaders rpx (downgrade_rpx_ c) in
    let result := match response_flags_ c with
                  | Some flags => result && negb (Z.land (responseFlags info) flags =? 0)
                  | None => result
                  end in
    match response_code_details_matcher_ c with
    | Some m => result && string_match m (default "" (responseCodeDetails info))
    | None => result
    end.

Record ProtoRouteConfig := { primary : ProtoDowngradeConfig; specific_configs : list ProtoDowngradeConfig }.

Fixpoint new_configs (l : list ProtoDowngradeConfig) : outcome (list StaticDowngradeConfig) :=
  match l with
  | [] => Ok []
  | p :: l' => let* c := new_StaticDowngradeConfig p in let* cs := new_configs l' in Ok (c :: cs)
  end.

(** The primary configuration is copied field by field; its response is then always present. *)
Definition new_StaticDowngradeRouteConfig (config : ProtoRouteConfig) : outcome (list StaticDowngradeConfig) :=
  let p := primary config in
  let primary_proto_config :=
    {| downgrade_rqx := downgrade_rqx p; downgrade_rpx := downgrade_rpx p;
       response_flags := response_flags p; response_code_details := response_code_details p;
       static_response := Some (default {| http_status := 0; proto_headers := []; proto_body := None |}
                                  (static_response p)) |} in
  new_configs (primary_proto_config :: specific_configs config).

Fixpoint downgradeConfig (downgrade_configs_ : list StaticDowngradeConfig) (rqx rpx : H) (info : StreamInfo) :
    option StaticDowngradeConfig :=
  match downgrade_configs_ with
  | [] => None
  | config :: rest => if shouldDowngrade config rqx rpx info then Some config else downgradeConfig rest rqx rpx info
  end.

(** ** The filter *)

(** [rqx_headers_] points to the headers of the request, which other filters may still change:
    the state says whether it is set, the headers at the time of use are an argument. *)
Record HttpStaticDowngradeFilter := {
  rqx_headers_ : bool;
  downgrade_complete_ : bool;
  downgrade_config_ : option StaticDowngradeConfig;
}.

Definition new_HttpStaticDowngradeFilter : HttpStaticDowngradeFilter :=
  {| rqx_headers_ := false; downgrade_complete_ := false; downgrade_config_ := None |}.

Inductive effect := addEncodedData (data : string) (streaming_filter : bool).

Definition decodeHeaders (f : HttpStaticDowngradeFilter) : FilterHeadersStatus * HttpStaticDowngradeFilter :=
  (Continue, {| rqx_headers_ := true; downgrade_complete_ := downgrade_complete_ f;
                downgrade_config_ := downgrade_config_ f |}).

Definition replace_header (h : H) (pair : string * string) : H :=
  hm_addCopy pair.1 pair.2 (hm_remove pair.1 h).

(** The headers of the response that replaces the original one. *)
Definition downgraded_headers (c : StaticDowngradeConfig) (headers : H) : H :=
  let headers := hm_set ":status" (to_string (static_http_status_ c)) (hm_remove ":status" headers) in
  let headers := hm_addCopy "x-downgrade-status" "STATIC" headers in
  let headers := fold_left replace_header (static_http_headers_ c) headers in
  hm_set "content-length" (to_string (Z.of_nat (String.length (static_http_body_ c))))
    (hm_remove "content-length" headers).

(** [route_config]: none without a route or a configuration of it. *)
Definition encodeHeaders (f : HttpStaticDowngradeFilter) (route_config : option (list StaticDowngradeConfig))
    (request : H) (info : StreamInfo) (headers : H) (end_stream : bool) :
    FilterHeadersStatus * HttpStaticDowngradeFilter * H * list effect :=
  match route_config with
  | None => (Continue, f, headers, [])
  | Some configs =>
      let c := downgradeConfig configs (if rqx_headers_ f then request else hm_empty) headers info in
      let f := {| rqx_headers_ := rqx_headers_ f; downgrade_complete_ := downgrade_complete_ f;
                  downgrade_config_ := c |} in
      match c with
      | None => (Continue, f, headers, [])
      | Some c =>
          let headers := downgraded_headers c headers in
          if end_stream then
            (Continue, {| rqx_headers_ := rqx_headers_ f; downgrade_complete_ := true; downgrade_config_ := Some c |},
             headers, [addEncodedData (static_http_body_ c) false])
          else (StopIteration, f, headers, [])
      end
  end.

(** Also gives what is left in the buffer. *)
Definition encodeData (f : HttpStaticDowngradeFilter) (data : string) (end_stream : bool) :
    FilterDataStatus * HttpStaticDowngradeFilter * string * list effect :=
  match downgrade_config_ f with
  | Some c =>
      if downgrade_complete_ f then (DataContinue, f, data, [])
      else if end_stream then
        (DataContinue, {| rqx_headers_ := rqx_headers_ f; downgrade_complete_ := true; downgrade_config_ := Some c |},
         "", [addEncodedData (static_http_body_ c) false])
      else (StopIterationNoBuffer, f, "", [])
  | None => (DataContinue, f, data, [])
  end.

End filter.

(** ** Which configuration applies *)

Section selection.
Context {H StringMatcher HeaderMatcher QueryParameterMatcher : Type}
  `{!HeaderMap H, api : !MatcherApi H StringMatcher HeaderMatcher QueryParameterMatcher, !DowngradeApi}.
Abbreviation Proto := (@ProtoDowngradeConfig StringMatcher HeaderMatcher).
Abbreviation Config := (@StaticDowngradeConfig StringMatcher HeaderMatcher).

(** The flags a configuration names: the stream must have one of them, if it names any. *)
Definition flags_met (p : Proto) (info : StreamInfo) : Prop :=
  match response_flags p with
  | None => True
  | Some v =>
      Forall (fun view => toResponseFlag view = Some 0) (split_skip_empty "," v) \/
      exists view flag, view ∈ split_skip_empty "," v /\ toResponseFlag view = Some flag /\
        Z.land (responseFlags info) flag ≠ 0
  end.

(** The conditions of a configuration; without response headers to match it never applies. *)
Definition meets (p : Proto) (rqx rpx : H) (info : StreamInfo) : Prop :=
  downgrade_rpx p ≠ [] /\
  matchHeaders rqx (downgrade_rqx p) = true /\ matchHeaders rpx (downgrade_rpx p) = true /\
  flags_met p info /\
  (forall m, response_code_details p = Some m ->
     string_match m (default "" (responseCodeDetails info)) = true).

Lemma lor_bits a b : Z.lor a b = 0 <-> a = 0 /\ b = 0.
Proof. split; [apply Z.lor_eq_0_iff|]. by intros [-> ->]. Qed.

Lemma parse_flags_spec views acc r z :
  parse_flags views acc = Ok r ->
  (r = 0 <-> acc = 0 /\ Forall (fun view => toResponseFlag view = Some 0) views) /\
  (Z.land z r ≠ 0 <->
     Z.land z acc ≠ 0 \/
     exists view flag, view ∈ views /\ toResponseFlag view = Some flag /\ Z.land z flag ≠ 0).
Proof.
  revert acc. induction views as [|view views IH]; intros acc; cbn [parse_flags].
  - intros [= <-]. split; [naive_solver|]. set_solver.
  - destruct (toResponseFlag view) as [flag|] eqn:Ef; [|done]. intros Hp.
    destruct (IH _ Hp) as [IH1 IH2]. split.
    + rewrite IH1, lor_bits, Forall_cons. naive_solver.
    + rewrite IH2, Z.land_lor_distr_r, lor_bits. split.
      * intros [Hn|(v & fl & Hv & Hfl & Hl)]; [|right; exists v, fl; set_solver].
        destruct (decide (Z.land z acc = 0)); [right|by left]. exists view, flag. set_solver.
      * intros [Hn|(v & fl & [->|Hv]%elem_of_cons & Hfl & Hl)]; [left; tauto| |right; eauto].
        left. intros [_ ?]. congruence.
Qed.

Lemma shouldDowngrade_spec (p : Proto) (c : Config) rqx rpx info :
  new_StaticDowngradeConfig p = Ok c -> shouldDowngrade c rqx rpx info = true <-> meets p rqx rpx info.
Proof.
  intros Hc. unfold new_StaticDowngradeConfig in Hc.
  assert (Hflags : exists flags, (match response_flags p with
      | Some v => let* f := parse_flags (split_skip_empty "," v) 0 in Ok (if f =? 0 then None else Some f)
      | None => Ok None end) = Ok flags /\
      (match flags with Some f => Z.land (responseFlags info) f ≠ 0 | None => True end <-> flags_met p info)).
  { unfold flags_met. destruct (response_flags p) as [v|]; [|by eexists].
    destruct (parse_flags _ 0) as [r|?|?|] eqn:Ep; [|done..]. cbn [obind]. eexists. split; [done|].
    destruct (parse_flags_spec _ _ _ (responseFlags info) Ep) as [Hz Hl].
    destruct (r =? 0) eqn:Er.
    - apply Z.eqb_eq, Hz in Er as [_ Er]. split; [by left|done].
    - apply Z.eqb_neq in Er. rewrite Hl, Z.land_0_r. split; [intros [?|?]; [done|by right]|].
      intros [Hn|?]; [|by right]. exfalso. apply Er, Hz. by split. }
  destruct Hflags as (flags & Hf & Hmet). rewrite Hf in Hc. cbn [obind] in Hc. unfold meets. rewrite <- Hmet.
  assert (Hcase : downgrade_rpx p = [] /\ has_no_donwgrade_rpx_ c = true \/
    downgrade_rpx p ≠ [] /\ has_no_donwgrade_rpx_ c = false /\ downgrade_rqx_ c = downgrade_rqx p /\
    downgrade_rpx_ c = downgrade_rpx p /\ response_flags_ c = flags /\
    response_code_details_matcher_ c = response_code_details p).
  { destruct (downgrade_rpx p) eqn:Ed; [injection Hc as <-; by left|right; split; [done|]].
    destruct (static_response p) as [r|]; [|injection Hc as <-; done].
    destruct (match proto_body r with Some b => static_body b | None => Ok "" end); [|done..].
    injection Hc as <-. done. }
  unfold shouldDowngrade. destruct Hcase as [[-> ->]|(Hne & -> & -> & -> & -> & ->)]; [naive_solver|].
  destruct flags as [f|], (response_code_details p) as [m|];
    rewrite ?andb_true_iff, ?negb_true_iff, ?Z.eqb_neq; naive_solver.
Qed.

(** The response is replaced by the first configuration, in the order primary then specific, whose
    conditions on request headers, response headers, response flags and response code
    details the stream meets, and is left alone when there is none. *)
Theorem static_downgrade_selects (ps : list Proto) (cs : list Config) rqx rpx info :
  new_configs ps = Ok cs ->
  (downgradeConfig cs rqx rpx info = None <-> Forall (fun p => ~ meets p rqx rpx info) ps) /\
  forall c, downgradeConfig cs rqx rpx info = Some c ->
    exists before p after, ps = before ++ p :: after /\ Forall (fun p => ~ meets p rqx rpx info) before /\
      meets p rqx rpx info /\ new_StaticDowngradeConfig p = Ok c.
Proof.
  revert cs. induction ps as [|p ps IH]; intros cs Hcs; cbn [new_configs] in Hcs.
  - injection Hcs as <-. split; [|done]. split; [constructor|done].
  - invert_bind Hcs. invert_bind Hcs. injection Hcs as <-. rename r into c0.
    destruct (IH _ eq_refl) as [IH1 IH2]. cbn [downgradeConfig].
    pose proof (shouldDowngrade_spec p c0 rqx rpx info E) as Hs. destruct (shouldDowngrade c0 rqx rpx info).
    + split; [rewrite Forall_cons; naive_solver|]. intros c [= <-]. exists [], p, ps. naive_solver.
    + assert (Hn : ~ meets p rqx rpx info) by naive_solver. split; [rewrite IH1, Forall_cons; naive_solver|].
      intros c Hc. destruct (IH2 c Hc) as (b & p' & a & -> & Hb & Hp' & Hnew).
      exists (p :: b), p', a. split_and!; [done|by constructor|done..].
Qed.

End selection.

(** ** The response that replaces the original one *)

Lemma compare_lt_trans (a b c : string) :
  String.compare a b = Lt -> String.compare b c = Lt -> String.compare a c = Lt.
Proof.
  revert b c. induction a as [|x a IH]; intros [|y b] [|z c]; cbn [String.compare]; try done.
  destruct (Ascii.compare x y) eqn:E1; destruct (Ascii.compare y z) eqn:E2; try done; intros Hab Hbc.
  - apply Ascii.compare_eq_iff in E1 as ->. rewrite E2. by eapply IH.
  - apply Ascii.compare_eq_iff in E1 as ->. by rewrite E2.
  - apply Ascii.compare_eq_iff in E2 as ->. by rewrite E1.
  - assert (Ascii.compare x z = Lt) as ->; [|done].
    exact (N.lt_trans _ _ _ E1 E2).
Qed.

Definition assoc (k : string) (l : list (string * string)) : option string :=
  snd <$> head (base.filter (fun p => p.1 = k) l).

Lemma assoc_cons k p l : assoc k (p :: l) = if decide (p.1 = k) then Some p.2 else assoc k l.
Proof. unfold assoc. rewrite filter_cons. by case_decide. Qed.

(** The keys of a map are in order, in particular without repetition. *)
Definition ordered_keys : list (string * string) -> Prop :=
  StronglySorted (fun p q => String.compare p.1 q.1 = Lt).

Lemma compare_lt_ne (a b : string) : String.compare a b = Lt -> a ≠ b.
Proof. intros Hlt ->. pose proof (String.compare_antisym b b) as Ha. by rewrite Hlt in Ha. Qed.

Lemma assoc_below k l : Forall (fun q => String.compare k q.1 = Lt) l -> assoc k l = None.
Proof.
  induction 1 as [|q l Hq _ IH]; [done|]. rewrite assoc_cons, decide_False; [done|].
  intros <-. by apply compare_lt_ne in Hq.
Qed.

Lemma map_insert_spec k v l :
  ordered_keys l ->
  ordered_keys (map_insert k v l) /\
  (forall k', assoc k' (map_insert k v l) =
     if decide (k = k') then Some (default v (assoc k l)) else assoc k' l) /\
  (forall q, q ∈ map_insert k v l -> q = (k, v) \/ q ∈ l).
Proof.
  induction 1 as [|p l Hl IH Hp]; cbn [map_insert].
  { split; [by repeat constructor|]. split; [|set_solver]. intros k'. rewrite assoc_cons.
    cbn [fst snd]. by case_decide. }
  destruct IH as (IH1 & IH2 & IH3). destruct (String.compare k p.1) eqn:Ec.
  - apply String.compare_eq_iff in Ec as ->. split; [by constructor|]. split; [|set_solver].
    intros k'. rewrite !assoc_cons. rewrite (decide_True (P := p.1 = p.1)) by done. by case_decide.
  - assert (Hk : Forall (fun q => String.compare k q.1 = Lt) (p :: l)).
    { constructor; [done|]. eapply Forall_impl; [exact Hp|]. cbn. intros q Hq. by eapply compare_lt_trans. }
    split; [by constructor; [constructor|]|]. split; [|set_solver]. intros k'. rewrite assoc_cons. cbn [fst snd].
    case_decide as Hd; [|done]. by rewrite (assoc_below _ _ Hk).
  - assert (Hgt : String.compare p.1 k = Lt) by (rewrite String.compare_antisym, Ec; done). split; [|split].
    + constructor; [done|]. apply Forall_forall. intros q [->|Hq]%IH3; [done|].
      rewrite Forall_forall in Hp. by apply Hp.
    + intros k'. rewrite !assoc_cons, IH2. apply compare_lt_ne in Hgt.
      rewrite (decide_False (P := p.1 = k)) by done. repeat case_decide; congruence.
    + intros q [->|Hq]%elem_of_cons; [right; by left|]. apply IH3 in Hq as [->|Hq]; [by left|right; by right].
Qed.

(** The headers of a configuration: the first value given for a key, in lower case. *)
Definition configured (k : string) (l : list (string * string)) : option string :=
  snd <$> head (base.filter (fun p => to_lower p.1 = k) l).

Lemma static_headers_spec l :
  let m := fold_left (fun l p => map_insert (to_lower p.1) p.2 l) l [] in
  ordered_keys m /\ forall k, assoc k m = configured k l.
Proof.
  cbv zeta. enough (Hgen : forall m, ordered_keys m ->
    let m' := fold_left (fun l p => map_insert (to_lower p.1) p.2 l) l m in
    ordered_keys m' /\ forall k, assoc k m' = match assoc k m with Some v => Some v | None => configured k l end)
    by (destruct (Hgen []); [constructor|done]).
  induction l as [|p l IH]; intros m Hm; cbn [fold_left].
  - split; [done|]. intros k. by destruct (assoc k m).
  - destruct (map_insert_spec (to_lower p.1) p.2 m Hm) as (Hm' & Ha & _).
    destruct (IH _ Hm') as [H1 H2]. split; [done|]. intros k. rewrite H2, Ha.
    unfold configured. rewrite filter_cons. case_decide as Hd; [|done].
    subst k. by destruct (assoc (to_lower p.1) m).
Qed.

Section response.
Context {H StringMatcher HeaderMatcher QueryParameterMatcher : Type}
  `{!HeaderMap H, !HeaderMapLaws H, api : !MatcherApi H StringMatcher HeaderMatcher QueryParameterMatcher,
    !DowngradeApi}.
Abbreviation Proto := (@ProtoDowngradeConfig StringMatcher HeaderMatcher).
Abbreviation Config := (@StaticDowngradeConfig StringMatcher HeaderMatcher).

Lemma get_replaced k (m : list (string * string)) (h : H) :
  ordered_keys m ->
  hm_get k (fold_left replace_header m h) = match assoc k m with Some v => [v] | None => hm_get k h end.
Proof.
  intros Hm. revert h. induction Hm as [|p m Hm IH Hp]; intros h; [done|]. cbn [fold_left].
  rewrite IH, assoc_cons. unfold replace_header. case_decide as Hd.
  - subst k. rewrite (assoc_below _ _ Hp), get_add_eq, get_remove_eq. by destruct (hm_inline _ _).
  - by rewrite get_add_ne, get_remove_ne.
Qed.

(** The data callbacks of a response after the callback for its headers. *)
Fixpoint run_data (f : @HttpStaticDowngradeFilter StringMatcher HeaderMatcher) (l : list (string * bool)) :
    list (FilterDataStatus * string) * list effect :=
  match l with
  | [] => ([], [])
  | (data, end_stream) :: l' =>
      let '(st, f', buffer, effs) := encodeData f data end_stream in
      let r := run_data f' l' in ((st, buffer) :: r.1, effs ++ r.2)
  end.

Lemma run_data_downgraded f (c : Config) pieces rest :
  downgrade_config_ f = Some c -> downgrade_complete_ f = false ->
  run_data f (((fun d => (d, false)) <$> pieces) ++ rest) =
  (replicate (length pieces) (StopIterationNoBuffer, "") ++ (run_data f rest).1, (run_data f rest).2).
Proof.
  intros Hc Hd. induction pieces as [|d pieces IH]; [exact (surjective_pairing _)|].
  cbn [fmap list_fmap app run_data]. unfold encodeData at 1. rewrite Hc, Hd. cbv beta iota zeta.
  rewrite IH. done.
Qed.

(** Once a configuration is chosen, the status, the configured headers (the first value
    of a key counts), the mark and the length of the static body replace those
    of the response and all other headers stay; nothing of the original body passes; and the
    static body is added exactly once, with the headers when the response has no
    body and otherwise with its last piece, so that a response which ends with trailers gets
    none although its length is announced. *)
Theorem static_downgrade_response (p : Proto) (c : Config) r f configs request info (h : H) end_stream st f' h' effs :
  new_StaticDowngradeConfig p = Ok c -> static_response p = Some r -> downgrade_rpx p ≠ [] ->
  downgradeConfig configs (if rqx_headers_ f then request else hm_empty) h info = Some c ->
  downgrade_complete_ f = false ->
  encodeHeaders f (Some configs) request info h end_stream = (st, f', h', effs) ->
  (forall k, hm_get k h' =
     if decide (k = "content-length") then [to_string (Z.of_nat (String.length (static_http_body_ c)))]
     else match configured k (proto_headers r) with
          | Some v => [v]
          | None =>
              if decide (k = ":status") then [to_string (if http_status r =? 0 then 200 else http_status r)]
              else hm_get k h ++ (if decide (k = "x-downgrade-status") then ["STATIC"] else [])
          end) /\
  (end_stream = true -> st = Continue /\ effs = [addEncodedData (static_http_body_ c) false]) /\
  (end_stream = false -> st = StopIteration /\ effs = [] /\
     forall pieces,
       let stopped := replicate (length pieces) (StopIterationNoBuffer, "") in
       let data := (fun d => (d, false)) <$> pieces in
       (forall last, run_data f' (data ++ [(last, true)]) =
          (stopped ++ [(DataContinue, "")], [addEncodedData (static_http_body_ c) false])) /\
       run_data f' data = (stopped, [])).
Proof.
  intros Hc Hr Hne Hsel Hcomplete Henc. unfold encodeHeaders in Henc. rewrite Hsel in Henc.
  assert (Hh : h' = downgraded_headers c h) by (destruct end_stream; by injection Henc as _ _ <- _).
  split; [|split].
  - intros k. rewrite Hh. unfold downgraded_headers.
    assert (Hm : static_http_headers_ c =
        fold_left (fun l p => map_insert (to_lower p.1) p.2 l) (proto_headers r) [] /\
        static_http_status_ c = if http_status r =? 0 then 200 else http_status r).
    { unfold new_StaticDowngradeConfig in Hc. rewrite Hr in Hc. invert_bind Hc.
      destruct (downgrade_rpx p); [done|]. invert_bind Hc. by injection Hc as <-. }
    destruct Hm as [Hm ->]. destruct (static_headers_spec (proto_headers r)) as [Hord Hassoc].
    rewrite <- Hm in Hord, Hassoc. rewrite <- Hassoc. case_decide as Hcl; [subst k; apply get_set_eq|].
    rewrite get_set_ne, get_remove_ne, get_replaced by done.
    destruct (assoc k (static_http_headers_ c)); [done|].
    destruct (decide (k = ":status")) as [->|Hs].
    + by rewrite get_add_ne, get_set_eq.
    + case_decide as Hx; [subst k; rewrite get_add_own by set_solver|rewrite get_add_ne, app_nil_r by done];
        by rewrite get_set_ne, get_remove_ne.
  - intros ->. by injection Henc as <- <- _ <-.
  - intros ->. injection Henc as <- <- _ <-. split; [done|]. split; [done|]. intros pieces. cbv zeta.
    set (g := {| rqx_headers_ := _ |}).
    split; [intros last|rewrite <- (app_nil_r (_ <$> pieces))];
      rewrite (run_data_downgraded g c) by done; cbn [run_data]; [|by rewrite app_nil_r].
    unfold encodeData, g. cbn [downgrade_config_ downgrade_complete_]. rewrite Hcomplete. done.
Qed.

End response.

(** ** Witnesses *)

#[global] Instance no_files : DowngradeApi := {
  fileExists _ := false; fileSize _ := -1; fileReadToEnd _ := Throw "no file";
  toResponseFlag s := if String.eqb s "UF" then Some 32 else if String.eqb s "NR" then Some 16 else None;
}.

Definition example_proto : @ProtoDowngradeConfig string (string * string) :=
  {| downgrade_rqx := []; downgrade_rpx := [(":status", "503")]; response_flags := Some "UF,NR";
     response_code_details := None;
     static_response := Some {| http_status := 0; proto_headers := [("X-Tag", "a"); ("x-tag", "b")];
       proto_body := Some {| filename := ""; inline_bytes := ""; inline_string := "sorry" |} |} |}.

Lemma static_downgrade_selects_witness :
  exists cs, new_configs [example_proto] = Ok cs /\
    downgradeConfig cs ([] : alist) [(":status", "200")] {| responseFlags := 32; responseCodeDetails := None |} = None /\
    Forall (fun p => ~ meets p ([] : alist) [(":status", "200")] {| responseFlags := 32; responseCodeDetails := None |})
      [example_proto].
Proof.
  eexists. split; [vm_compute; reflexivity|]. split; [vm_compute; reflexivity|].
  refine (proj1 (proj1 (static_downgrade_selects _ _ _ _ _ _)) _); vm_compute; reflexivity.
Defined.

Lemma static_downgrade_response_witness :
  let h : alist := [(":status", "503"); ("x-tag", "old"); ("server", "up")] in
  exists c st f' h' effs,
    new_StaticDowngradeConfig example_proto = Ok c /\
    encodeHeaders new_HttpStaticDowngradeFilter (Some [c]) [] {| responseFlags := 16; responseCodeDetails := None |}
      h false = (st, f', h', effs) /\
    hm_get "x-tag" h' = ["a"] /\ hm_get "server" h' = ["up"] /\ hm_get "content-length" h' = ["5"].
Proof.
  intros h. eexists _, _, _, _, _. split; [vm_compute; reflexivity|]. split; [reflexivity|].
  match goal with |- hm_get _ (downgraded_headers ?c _) = _ /\ _ =>
    destruct (static_downgrade_response example_proto c
      {| http_status := 0; proto_headers := [("X-Tag", "a"); ("x-tag", "b")];
         proto_body := Some {| filename := ""; inline_bytes := ""; inline_string := "sorry" |} |}
      new_HttpStaticDowngradeFilter [c] [] {| responseFlags := 16; responseCodeDetails := None |} h false
      StopIteration {| rqx_headers_ := false; downgrade_complete_ := false; downgrade_config_ := Some c |}
      (downgraded_headers c h) []) as (Hget & _ & _);
      [vm_compute; reflexivity|reflexivity|done|vm_compute; reflexivity|reflexivity|reflexivity|]
  end.
  rewrite !Hget. split_and!; vm_compute; reflexivity.
Defined.
