(* ===== verification/Downgrade.v ===== *)
(** * What the downgrade filters share
      (source/common/http/proxy_base.cc, proxy_header.cc,
       source/common/sender/httpx_request_sender.{h,cc})

    Parsing of URIs, replacement of headers and the sender of HTTP requests.  The
    filters that replace a response by the answer to a request of their own
    implement one interface, [DowngradeFilter]; [DowngradeLaws] states what each callback
    does to the mode of the filter, and the theorems about a whole stream are proved
    against it, once for both filters. *)

From S2P Require Import Prelude Http.
From Stdlib Require Import Ascii.
From stdpp Require Import base gmap strings numbers list.
#[local] Open Scope Z_scope.
#[local] Open Scope proxy_scope.

(** ** URIs *)

Record HttpUri := { scheme : string; host : string; path : string }.

(** [s.substr(0, s.find(p))] and what follows the first [p]; nothing when [find] gives [npos]. *)
Fixpoint drop_chars (n : nat) (s : string) : string :=
  match n, s with S n', String _ s' => drop_chars n' s' | _, _ => s end.
Fixpoint cut_at (p s : string) {struct s} : option (string * string) :=
  if starts_with s p then Some ("", drop_chars (String.length p) s)
  else match s with
       | EmptyString => None
       | String a s' => match cut_at p s' with Some (l, r) => Some (String a l, r) | None => None end
       end.

Definition makeHttpUri (uri : string) : option HttpUri :=
  match cut_at "://" uri with
  | None => None
  | Some (scheme, uri_no_scheme) =>
      if negb (String.eqb scheme "http") && negb (String.eqb scheme "https") then None
      else if String.eqb uri_no_scheme "" then None
      else
        let '(host, path) := match cut_at "/" uri_no_scheme with
                             | None => (uri_no_scheme, "/")
                             | Some (h, rest) => (h, String "/" rest)
                             end in
        if String.eqb host "" then None
        else Some {| scheme := scheme; host := host; path := path |}
  end.

(** *** What it accepts *)

Fixpoint has_char (c : ascii) (s : string) : bool :=
  match s with EmptyString => false | String a s' => bool_decide (a = c) || has_char c s' end.

Lemma cut_slash_spec s :
  match cut_at "/" s with
  | None => has_char "/" s = false
  | Some (l, r) => s = l +:+ String "/" r /\ has_char "/" l = false
  end.
Proof.
  induction s as [|a s IH]; [done|]. cbn [cut_at starts_with]. rewrite andb_true_r.
  case_bool_decide as Ha; [by subst a|].
  destruct (cut_at "/" s) as [[l r]|]; cbn [has_char]; rewrite bool_decide_eq_false_2 by congruence.
  - destruct IH as [-> Hl]. by rewrite Hl.
  - by rewrite IH.
Qed.

Lemma cut_slash_app h r : has_char "/" h = false -> cut_at "/" (h +:+ String "/" r) = Some (h, r).
Proof.
  induction h as [|a h IH]; [done|]. cbn [has_char]. intros [Ha Hh]%orb_false_elim.
  apply bool_decide_eq_false in Ha. change (String a h +:+ String "/" r) with (String a (h +:+ String "/" r)).
  cbn [cut_at starts_with]. rewrite bool_decide_eq_false_2 by congruence. cbn [andb]. by rewrite IH.
Qed.

Lemma cut_slash_none h : has_char "/" h = false -> cut_at "/" h = None.
Proof.
  pose proof (cut_slash_spec h) as Hs. destruct (cut_at "/" h) as [[l r]|]; [|done].
  destruct Hs as [-> Hl]. intros Hh. exfalso. clear Hl. induction l as [|a l IH]; [done|].
  change (String a l +:+ String "/" r) with (String a (l +:+ String "/" r)) in Hh. cbn [has_char] in Hh.
  apply orb_false_elim in Hh as [_ Hh]. auto.
Qed.

Lemma cut_scheme_text s l r : cut_at "://" s = Some (l, r) -> s = l +:+ ("://" +:+ r).
Proof.
  revert l. induction s as [|a s IH]; intros l; cbn [cut_at]; [done|].
  destruct (starts_with (String a s) "://") eqn:Es.
  - intros [= <- <-]. apply starts_with_spec in Es as [t Ht].
    change (String a s = String ":" (String "/" (String "/" t))) in Ht. injection Ht as -> ->. reflexivity.
  - destruct (cut_at "://" s) as [[l' r']|]; [|done]. intros [= <- ->]. by rewrite (IH l').
Qed.

Lemma cut_scheme_http r : cut_at "://" ("http" +:+ ("://" +:+ r)) = Some ("http", r).
Proof. reflexivity. Qed.
Lemma cut_scheme_https r : cut_at "://" ("https" +:+ ("://" +:+ r)) = Some ("https", r).
Proof. reflexivity. Qed.

(** A URI is accepted exactly when it is http or https, "://", a host that is not empty and has
    no slash, and then nothing or a path that begins with a slash; it is split into these parts,
    and a missing path is "/". *)
Theorem http_uri_parsed (uri : string) (u : HttpUri) :
  makeHttpUri uri = Some u <->
  (scheme u = "http" \/ scheme u = "https") /\ host u ≠ "" /\ has_char "/" (host u) = false /\
  ((path u = "/" /\ uri = scheme u +:+ ("://" +:+ host u)) \/
   exists rest, path u = String "/" rest /\ uri = scheme u +:+ ("://" +:+ (host u +:+ path u))).
Proof.
  unfold makeHttpUri. split.
  - destruct (cut_at "://" uri) as [[sch rest]|] eqn:Ec; [|done]. apply cut_scheme_text in Ec as ->.
    destruct (negb (String.eqb sch "http") && negb (String.eqb sch "https")) eqn:Es; [done|].
    assert (Hs : sch = "http" \/ sch = "https").
    { apply andb_false_iff in Es as [Es|Es]; apply negb_false_iff, String.eqb_eq in Es; auto. }
    destruct (String.eqb rest "") eqn:Er; [done|]. pose proof (cut_slash_spec rest) as Hc.
    destruct (cut_at "/" rest) as [[h r]|]; cbn.
    + destruct Hc as [-> Hh]. destruct (String.eqb h "") eqn:Eh; [done|]. apply String.eqb_neq in Eh.
      intros [= <-]. cbn. split_and!; [done..|]. right. by exists r.
    + rewrite Er. apply String.eqb_neq in Er. intros [= <-]. cbn. split_and!; [done..|]. by left.
  - destruct u as [sch h p]. cbn. intros (Hs & Hh & Hno & Hcase).
    assert (Hne : String.eqb h "" = false) by by apply String.eqb_neq.
    assert (Hcut : exists rest, cut_at "://" uri = Some (sch, rest) /\ String.eqb rest "" = false /\
        match cut_at "/" rest with None => (rest, "/") | Some (h, r) => (h, String "/" r) end = (h, p)).
    { destruct Hcase as [[-> ->]|(r & -> & ->)].
      - exists h. rewrite cut_slash_none by done. split_and!; [|done..].
        destruct Hs as [-> | ->]; [apply cut_scheme_http|apply cut_scheme_https].
      - exists (h +:+ String "/" r). rewrite cut_slash_app by done. split_and!; [| |done].
        + destruct Hs as [-> | ->]; [apply cut_scheme_http|apply cut_scheme_https].
        + by destruct h. }
    destruct Hcut as (rest & -> & -> & ->). rewrite Hne. by destruct Hs as [-> | ->].
Qed.

Lemma http_uri_parsed_witness :
  makeHttpUri "https://backend/fallback?x=1" = Some {| scheme := "https"; host := "backend"; path := "/fallback?x=1" |}.
Proof.
  apply (proj2 (http_uri_parsed _ _)). split_and!; [by right|done|reflexivity|]. right. by exists "fallback?x=1".
Defined.

(** ** The sender of HTTP requests *)

Section sender.
Context {H : Type} `{!HeaderMap H}.

(** [replaceHeaders]: clear and copy. *)
Definition replaceHeaders (headers replace_headers : H) : H :=
  fold_left (fun h p => hm_addCopy p.1 p.2 h) (hm_entries replace_headers) hm_empty.

Definition getHeaderValue (key : string) (headers : H) (default_value : string) : string :=
  match hm_get key headers with v :: _ => v | [] => default_value end.

Record HttpxRequestSenderConfig := { cluster_name_ : string; timeout_ : Z }.

(** A callback of the asynchronous client. *)
Inductive AsyncResult := OnSuccess (response : Message H) | OnFailure.

(** What [send] of a client does: whether it gives a request, and the callback it
    makes before it returns, if any. *)
Record SendOutcome := { request : bool; inline_callback : option AsyncResult }.

(** Thread local clusters with their clients. *)
Definition ClusterManager : Type := string -> option (Message H -> Z -> SendOutcome).

Inductive SendRequestStatus := FAILED | ONCALL.

(** [HttpxRequestSender::sendRequest] with a message and a callback: the status,
    [request_] and the inline callback. *)
Definition httpx_sendRequest (cm : ClusterManager) (config_ : option HttpxRequestSenderConfig)
    (message : Message H) : SendRequestStatus * bool * option AsyncResult :=
  match config_ with
  | None => (FAILED, false, None)
  | Some config =>
      match cm (cluster_name_ config) with
      | None => (FAILED, false, None)
      | Some send =>
          let o := send message (timeout_ config) in
          (if request o then ONCALL else FAILED, request o, inline_callback o)
      end
  end.

(** Whether [sendRequest] gets as far as a client. *)
Definition httpx_reaches (cm : ClusterManager) (config_ : option HttpxRequestSenderConfig) : bool :=
  match config_ with
  | Some config => match cm (cluster_name_ config) with Some _ => true | None => false end
  | None => false
  end.

(** Whether the request is still to come to an end when [sendRequest] has returned: the client has taken
    it and has not called back. *)
Definition httpx_pending (cm : ClusterManager) (config_ : option HttpxRequestSenderConfig)
    (message : Message H) : bool :=
  match config_ with
  | Some config =>
      match cm (cluster_name_ config) with
      | Some send =>
          let o := send message (timeout_ config) in
          request o && match inline_callback o with None => true | Some _ => false end
      | None => false
      end
  | None => false
  end.

(** [HttpxRequestSender::cancel]: the request afterwards, and whether it was cancelled. *)
Definition httpx_cancel (request_ : bool) : bool * bool := (false, request_).

(** The request that asks for the other response: the headers of the original one, sent to
    the URI of the route if that could be parsed. *)
Definition redirect (uri : option HttpUri) (h : H) : H :=
  match uri with
  | Some u => hm_set ":path" (path u) (hm_set ":authority" (host u) (hm_set ":scheme" (scheme u) h))
  | None => h
  end.

End sender.
Arguments AsyncResult H : clear implicits.
Arguments ClusterManager H : clear implicits.

(** ** The interface of a downgrade filter *)

(** What a filter asks of the proxy; a request that is sent is [pending], or already over. *)
Inductive effect (H : Type) :=
| SendRequest (message : Message H) (pending : bool)
| CancelRequest
| addEncodedData (data : string)
| continueEncoding
| insertResponse (key : string) (message : Message H).
Arguments SendRequest {H} _ _.
Arguments CancelRequest {H}.
Arguments addEncodedData {H} _.
Arguments continueEncoding {H}.
Arguments insertResponse {H} _ _.

(** The mode of a filter once the response headers went through it; [Other] stands for
    combinations of its members that do not arise. *)
Inductive Mode :=
| Passing
| Sending (headers_only : bool)
| Replacing (new_body : string)
| Complete
| Other.

(** [R] is the route configuration of the filter, [E] what it calls on the way of a response. *)
Class DowngradeFilter (H R E F : Type) := {
  new_filter : F;
  decode_headers : option R -> H -> F -> F;
  decode_data : string -> F -> outcome F;
  encode_headers : E -> H -> H -> bool -> F -> outcome (FilterHeadersStatus * F * list (effect H));
  encode_data : string -> bool -> F -> outcome (FilterDataStatus * F * string * list (effect H));
  on_success : Message H -> H -> F -> F * H * list (effect H);
  on_failure : F -> F * list (effect H);
  on_destroy : F -> F * list (effect H);
}.

(** The status with which the response waits. *)
Definition stop_status (end_stream : bool) : FilterHeadersStatus :=
  if end_stream then StopIteration else StopAllIterationAndBuffer.

(** A store in a cache does not concern the response. *)
Definition is_insert {H} (e : effect H) : Prop :=
  match e with insertResponse _ _ => True | _ => False end.

(** [mark] is the value of x-downgrade-status the filter gives to the responses it replaces. *)
Definition marked {H} `{!HeaderMap H} (mark : string) (m : Message H) : H :=
  hm_addCopy "x-downgrade-status" mark (replaceHeaders hm_empty (headers m)).

Class DowngradeLaws (H R E F : Type) `{!HeaderMap H, !DowngradeFilter H R E F} := {
  mark : string;
  fresh : F -> Prop;
  mode : F -> Mode;
  new_fresh : fresh new_filter;
  fresh_mode : forall f, fresh f -> mode f ≠ Other /\ forall only, mode f ≠ Sending only;
  decode_headers_fresh : forall rc h, fresh (decode_headers rc h new_filter);
  decode_data_fresh : forall d f, fresh f -> exists f', decode_data d f = Ok f' /\ fresh f';
  decode_data_mode : forall d f f', decode_data d f = Ok f' -> mode f' = mode f;
  (** the response passes, and no request is pending, or it waits for exactly one that is *)
  encode_headers_mode : forall env rq h end_stream f st f' effs, fresh f ->
    encode_headers env rq h end_stream f = Ok (st, f', effs) ->
    (st = Continue /\ (mode f' = Passing \/ end_stream = true /\ mode f' = Complete) /\
       (Forall is_insert effs \/ exists m, effs = [SendRequest m false])) \/
    (st = stop_status end_stream /\ mode f' = Sending end_stream /\ exists m, effs = [SendRequest m true]);
  (** the answer replaces the headers, and the body now or when the original body ends *)
  on_success_mode : forall m h f only, mode f = Sending only ->
    exists f', on_success m h f =
        (f', marked mark m, (if only then [addEncodedData (body m)] else []) ++ [continueEncoding]) /\
      mode f' = if only then Complete else Replacing (body m);
  on_failure_mode : forall f only, mode f = Sending only ->
    exists f', on_failure f = (f', [continueEncoding]) /\ mode f' = Passing;
  encode_data_passing : forall d end_stream f, mode f = Passing ->
    match encode_data d end_stream f with
    | Ok (st, f', d', effs) =>
        st = DataContinue /\ d' = d /\ (mode f' = Passing \/ end_stream = true /\ mode f' = Complete) /\
        Forall is_insert effs
    | _ => False
    end;
  encode_data_replacing : forall d end_stream f b, mode f = Replacing b ->
    exists f', encode_data d end_stream f =
      Ok (if end_stream then (DataContinue, f', "", [addEncodedData b]) else (StopIterationNoBuffer, f', "", [])) /\
      mode f' = if end_stream then Complete else Replacing b;
  on_destroy_mode : forall f,
    mode f ≠ Other -> (on_destroy f).2 = match mode f with Sending _ => [CancelRequest] | _ => [] end;
}.

(** ** A stream through the filter *)

Section stream.
Context {H R E F : Type} `{!HeaderMap H, DF : !DowngradeFilter H R E F}.

(** The filter and what surrounds it: whether its request is outstanding, whether the response
    waits for it, what went on to the next filter (with [trailed] the trailers, which go on as they
    came), and, for the theorems, what came from upstream and the answer to the request. *)
Record Stream := {
  filter_ : F;
  decoded : bool;
  alive : bool;
  outstanding : bool;
  paused : bool;
  current : H;
  forwarded : option H;
  out_body : string;
  ended : bool;
  trailed : option H;
  original : option H;
  original_body : string;
  answer : option (Message H);
  requests : nat;
  cancelled : nat;
}.

Definition new_stream : Stream :=
  {| filter_ := new_filter; decoded := false; alive := true; outstanding := false; paused := false; current := hm_empty;
     forwarded := None; out_body := ""; ended := false; trailed := None; original := None; original_body := "";
     answer := None; requests := 0; cancelled := 0 |}.

(** The callbacks of the proxy, in any order it may make them: request headers, data and
    trailers, response headers (with the request headers of that time), data and trailers, the
    answer to the request or its failure, the end of the stream.  The filters inherit the
    callbacks for trailers from [PassThroughFilter]: trailers go on and nothing else happens. *)
Inductive event :=
| DecodeHeaders (route : option R) (request : H)
| DecodeData (data : string)
| DecodeTrailers
| EncodeHeaders (env : E) (request response : H) (end_stream : bool)
| EncodeData (data : string) (end_stream : bool)
| EncodeTrailers (trailers : H)
| Reply (response : Message H)
| ReplyFailure
| Destroy.

Definition set_filter (f : F) (s : Stream) : Stream :=
  {| filter_ := f; decoded := decoded s; alive := alive s; outstanding := outstanding s; paused := paused s; current := current s;
     forwarded := forwarded s; out_body := out_body s; ended := ended s; trailed := trailed s; original := original s;
     original_body := original_body s; answer := answer s; requests := requests s; cancelled := cancelled s |}.

Definition set_decoded (s : Stream) : Stream :=
  {| filter_ := filter_ s; decoded := true; alive := alive s; outstanding := outstanding s; paused := paused s;
     current := current s; forwarded := forwarded s; out_body := out_body s; ended := ended s; trailed := trailed s;
     original := original s; original_body := original_body s; answer := answer s; requests := requests s;
     cancelled := cancelled s |}.

(** What the proxy does for the filter. *)
Definition apply_effect (s : Stream) (e : effect H) : Stream :=
  match e with
  | SendRequest _ pending =>
      {| filter_ := filter_ s; decoded := decoded s; alive := alive s; outstanding := pending; paused := paused s;
         current := current s; forwarded := forwarded s; out_body := out_body s; ended := ended s; trailed := trailed s;
         original := original s; original_body := original_body s; answer := answer s;
         requests := S (requests s); cancelled := cancelled s |}
  | CancelRequest =>
      {| filter_ := filter_ s; decoded := decoded s; alive := alive s; outstanding := false; paused := paused s;
         current := current s; forwarded := forwarded s; out_body := out_body s; ended := ended s; trailed := trailed s;
         original := original s; original_body := original_body s; answer := answer s;
         requests := requests s; cancelled := S (cancelled s) |}
  | addEncodedData data =>
      {| filter_ := filter_ s; decoded := decoded s; alive := alive s; outstanding := outstanding s; paused := paused s;
         current := current s; forwarded := forwarded s; out_body := out_body s +:+ data; ended := ended s; trailed := trailed s;
         original := original s; original_body := original_body s; answer := answer s;
         requests := requests s; cancelled := cancelled s |}
  | continueEncoding =>
      {| filter_ := filter_ s; decoded := decoded s; alive := alive s; outstanding := outstanding s; paused := false;
         current := current s; forwarded := Some (current s); out_body := out_body s; ended := ended s; trailed := trailed s;
         original := original s; original_body := original_body s; answer := answer s;
         requests := requests s; cancelled := cancelled s |}
  | insertResponse _ _ => s
  end.

Definition apply_effects (effs : list (effect H)) (s : Stream) : Stream := fold_left apply_effect effs s.

(** A status that stops the response leaves it waiting. *)
Definition after_headers (st : FilterHeadersStatus) (h : H) (end_stream : bool) (s : Stream) : Stream :=
  let stop := match st with Continue => false | _ => true end in
  {| filter_ := filter_ s; decoded := decoded s; alive := alive s; outstanding := outstanding s; paused := stop; current := h;
     forwarded := if stop then None else Some h; out_body := out_body s; ended := end_stream; trailed := trailed s;
     original := Some h; original_body := original_body s; answer := answer s;
     requests := requests s; cancelled := cancelled s |}.

Definition after_data (st : FilterDataStatus) (received passed_on : string) (end_stream : bool) (s : Stream) : Stream :=
  {| filter_ := filter_ s; decoded := decoded s; alive := alive s; outstanding := outstanding s; paused := paused s;
     current := current s; forwarded := forwarded s;
     out_body := match st with DataContinue => out_body s +:+ passed_on | StopIterationNoBuffer => out_body s end;
     ended := end_stream; trailed := trailed s; original := original s; original_body := original_body s +:+ received;
     answer := answer s; requests := requests s; cancelled := cancelled s |}.

Definition after_trailers (trailers : H) (s : Stream) : Stream :=
  {| filter_ := filter_ s; decoded := decoded s; alive := alive s; outstanding := outstanding s; paused := paused s;
     current := current s; forwarded := forwarded s; out_body := out_body s; ended := true; trailed := Some trailers;
     original := original s; original_body := original_body s; answer := answer s; requests := requests s;
     cancelled := cancelled s |}.

Definition answered (m : option (Message H)) (h : H) (s : Stream) : Stream :=
  {| filter_ := filter_ s; decoded := decoded s; alive := alive s; outstanding := false; paused := paused s; current := h;
     forwarded := forwarded s; out_body := out_body s; ended := ended s; trailed := trailed s; original := original s;
     original_body := original_body s; answer := m; requests := requests s; cancelled := cancelled s |}.

Definition destroyed (s : Stream) : Stream :=
  {| filter_ := filter_ s; decoded := decoded s; alive := false; outstanding := outstanding s; paused := paused s; current := current s;
     forwarded := forwarded s; out_body := out_body s; ended := ended s; trailed := trailed s; original := original s;
     original_body := original_body s; answer := answer s; requests := requests s; cancelled := cancelled s |}.

Definition is_none {A} (o : option A) : bool := match o with None => true | Some _ => false end.

(** One callback; [Ok None] where the proxy does not make it: headers come once, data
    after them and not while the response waits, an answer only to an outstanding
    request, and nothing after the end. *)
Definition step (s : Stream) (e : event) : outcome (option Stream) :=
  if negb (alive s) then Ok None else
  match e with
  | DecodeHeaders route request =>
      if is_none (original s) && negb (decoded s)
      then Ok (Some (set_decoded (set_filter (decode_headers route request (filter_ s)) s))) else Ok None
  | DecodeData data =>
      if decoded s then
        let* f' := decode_data data (filter_ s) in
        Ok (Some (set_filter f' s))
      else Ok None
  | DecodeTrailers => if decoded s then Ok (Some s) else Ok None
  | EncodeHeaders env request response end_stream =>
      if is_none (original s) then
        let* r := encode_headers env request response end_stream (filter_ s) in
        let '(st, f', effs) := r in
        Ok (Some (apply_effects effs (after_headers st response end_stream (set_filter f' s))))
      else Ok None
  | EncodeData data end_stream =>
      if is_none (original s) || paused s || ended s then Ok None
      else
        let* r := encode_data data end_stream (filter_ s) in
        let '(st, f', data', effs) := r in
        Ok (Some (apply_effects effs (after_data st data data' end_stream (set_filter f' s))))
  | EncodeTrailers trailers =>
      if is_none (original s) || paused s || ended s then Ok None
      else Ok (Some (after_trailers trailers s))
  | Reply response =>
      if outstanding s then
        let '(f', h', effs) := on_success response (current s) (filter_ s) in
        Ok (Some (apply_effects effs (answered (Some response) h' (set_filter f' s))))
      else Ok None
  | ReplyFailure =>
      if outstanding s then
        let '(f', effs) := on_failure (filter_ s) in
        Ok (Some (apply_effects effs (answered None (current s) (set_filter f' s))))
      else Ok None
  | Destroy =>
      let '(f', effs) := on_destroy (filter_ s) in
      Ok (Some (destroyed (apply_effects effs (set_filter f' s))))
  end.

(** All events of a run that the proxy makes, from a new stream. *)
Fixpoint run (s : Stream) (es : list event) : outcome (option Stream) :=
  match es with
  | [] => Ok (Some s)
  | e :: es' =>
      let* o := step s e in
      match o with Some s' => run s' es' | None => Ok None end
  end.

End stream.

(** ** What a client gets *)

Section laws.
Context {H R E F : Type} `{!HeaderMap H, DF : !DowngradeFilter H R E F, !DowngradeLaws H R E F}.
Abbreviation Stream := (@Stream H F).

(** Before the response headers. *)
Definition before_response (s : Stream) : Prop :=
  fresh (filter_ s) /\ (decoded s = false -> filter_ s = new_filter) /\ outstanding s = false /\ paused s = false /\ forwarded s = None /\ out_body s = "" /\
  ended s = false /\ trailed s = None /\ original_body s = "" /\ answer s = None /\ requests s = 0%nat.

(** While the response waits for the request. *)
Definition waiting (h : H) (s : Stream) : Prop :=
  mode (filter_ s) = Sending (ended s) /\ current s = h /\ forwarded s = None /\ out_body s = "" /\
  trailed s = None /\ original_body s = "" /\ answer s = None /\ requests s = 1%nat.

(** A response that has ended with its headers or data: trailers do not close it. *)
Definition closed (s : Stream) : bool := ended s && is_none (trailed s).

(** The response passes as it is, or is replaced by the answer. *)
Definition going (h : H) (s : Stream) : Prop :=
  outstanding s = false /\ (requests s <= 1)%nat /\ (ended s = false -> trailed s = None) /\
  match answer s with
  | None => forwarded s = Some h /\ out_body s = original_body s /\
            (mode (filter_ s) = Passing \/ ended s = true /\ mode (filter_ s) = Complete)
  | Some m => forwarded s = Some (marked mark m) /\ out_body s = (if closed s then body m else "") /\
              mode (filter_ s) = (if closed s then Complete else Replacing (body m))
  end.

Definition stream_inv (s : Stream) : Prop :=
  match original s with
  | None => before_response s
  | Some h => if paused s then waiting h s else going h s
  end /\
  (alive s = true -> outstanding s = paused s /\ cancelled s = 0%nat) /\
  (cancelled s <= 1)%nat.

(** Unfolds the bookkeeping of a step. *)
Ltac stream_simpl :=
  unfold apply_effects, after_headers, after_data, after_trailers, answered, set_filter, destroyed, closed; cbn.

Lemma inserts_nothing (effs : list (effect H)) (s : Stream) : Forall is_insert effs -> apply_effects effs s = s.
Proof. revert s. induction 1 as [|[] effs He _ IH]; try done. Qed.

Lemma going_passing h (s : Stream) :
  outstanding s = false -> (requests s <= 1)%nat -> (ended s = false -> trailed s = None) ->
  answer s = None -> forwarded s = Some h -> out_body s = original_body s ->
  mode (filter_ s) = Passing \/ ended s = true /\ mode (filter_ s) = Complete -> going h s.
Proof.
  intros Ho Hr Ht Ha Hf Hb Hm. unfold going. by rewrite Ha.
Qed.

Lemma step_headers env rq h end_stream (s s' : Stream) :
  stream_inv s -> step s (EncodeHeaders (R := R) env rq h end_stream) = Ok (Some s') -> stream_inv s'.
Proof.
  intros (Hinv & Halive & Hc). unfold step. destruct (alive s) eqn:Ea; cbn [negb]; [|done].
  destruct (original s) as [h0|] eqn:Eo; cbn [is_none]; [done|].
  destruct Hinv as (Hfresh & _ & Hout & Hp & Hfw & Hob & Hend & Htr & Horb & Hans & Hreq).
  destruct (Halive eq_refl) as [_ Hc0].
  destruct (encode_headers env rq h end_stream (filter_ s)) as [[[st f'] effs]|?|?|] eqn:Ee; cbn [obind]; [|done..].
  intros [= <-].
  destruct (encode_headers_mode _ _ _ _ _ _ _ _ Hfresh Ee) as [(-> & Hm & Heffs)|(-> & Hm & m & ->)].
  - assert (Hsent : exists n, (n <= 1)%nat /\ apply_effects effs (after_headers Continue h end_stream (set_filter f' s)) =
      {| filter_ := f'; decoded := decoded s; alive := true; outstanding := false; paused := false; current := h;
         forwarded := Some h; out_body := ""; ended := end_stream; trailed := None; original := Some h; original_body := "";
         answer := None; requests := n; cancelled := 0 |}).
    { destruct Heffs as [Hins|[m ->]]; [exists 0%nat; rewrite (inserts_nothing _ _ Hins)|exists 1%nat]; (split; [lia|]);
        stream_simpl; by rewrite Ea, Hob, Htr, Horb, Hans, Hreq, Hc0, ?Hout. }
    destruct Hsent as (n & Hn & ->). unfold stream_inv. cbn [original paused alive outstanding cancelled].
    split; [|split; [done|lia]]. by apply going_passing.
  - destruct end_stream; unfold stream_inv; stream_simpl; rewrite ?Ea, ?Hc0, ?Hreq;
      (split; [|split; [done|lia]]); unfold waiting; cbn; by rewrite ?Hreq, ?Hob, ?Htr, ?Horb, ?Hans.
Qed.

Lemma step_data d end_stream (s s' : Stream) :
  stream_inv s -> step s (EncodeData (R := R) (E := E) d end_stream) = Ok (Some s') -> stream_inv s'.
Proof.
  intros (Hinv & Halive & Hc). unfold step. destruct (alive s) eqn:Ea; cbn [negb]; [|done].
  destruct (original s) as [h|] eqn:Eo; cbn [is_none orb]; [|done].
  destruct (paused s) eqn:Ep; cbn [orb]; [done|]. destruct (ended s) eqn:Ee; [done|].
  destruct (Halive eq_refl) as [Hout Hc0]. destruct Hinv as (_ & Hreq & Htr & Hinv). specialize (Htr Ee).
  destruct (answer s) as [m|] eqn:Em.
  - destruct Hinv as (Hfw & Hob & Hm). unfold closed in Hob, Hm. rewrite Ee in Hob, Hm.
    destruct (encode_data_replacing d end_stream _ _ Hm) as (f' & -> & Hm').
    destruct end_stream; cbn [obind]; intros [= <-]; unfold stream_inv; cbn;
      rewrite ?Eo, ?Ep; (split; [|split; [auto|lia]]); unfold going, closed; cbn;
      rewrite ?Em, ?Hob, ?Hout, ?Htr; by split_and!.
  - destruct Hinv as (Hfw & Hob & [Hm|[? _]]); [|congruence].
    pose proof (encode_data_passing d end_stream _ Hm) as Hd.
    destruct (encode_data d end_stream (filter_ s)) as [[[[st f'] d'] effs]|?|?|]; [|done..].
    destruct Hd as (-> & -> & Hm' & Heffs). cbn [obind]. intros [= <-].
    rewrite (inserts_nothing _ _ Heffs). unfold stream_inv. stream_simpl. rewrite Eo, Ep.
    split; [|split; [auto|lia]]. apply going_passing; cbn; try done. by rewrite Hob.
Qed.

Lemma step_trailers t (s s' : Stream) :
  stream_inv s -> step s (EncodeTrailers (R := R) (E := E) t) = Ok (Some s') -> stream_inv s'.
Proof.
  intros (Hinv & Halive & Hc). unfold step. destruct (alive s) eqn:Ea; cbn [negb]; [|done].
  destruct (original s) as [h|] eqn:Eo; cbn [is_none orb]; [|done].
  destruct (paused s) eqn:Ep; cbn [orb]; [done|]. destruct (ended s) eqn:Ee; [done|]. intros [= <-].
  unfold stream_inv. stream_simpl. rewrite Eo, Ep. split; [|by rewrite Ea].
  destruct Hinv as (Hout & Hreq & Htr & Hinv). unfold going, closed in *. cbn. rewrite Ee in Hinv. cbn [andb] in Hinv.
  split_and!; [done..|]. destruct (answer s); [done|]. destruct Hinv as (? & ? & [?|[? _]]); auto. congruence.
Qed.

Lemma step_reply (s s' : Stream) o :
  stream_inv s ->
  step s (match o with Some m => Reply (R := R) (E := E) m | None => ReplyFailure end) = Ok (Some s') ->
  stream_inv s' /\ exists h, original s = Some h /\ original s' = Some h /\
    forwarded s' = Some (match o with Some m => marked mark m | None => h end).
Proof.
  intros (Hinv & Halive & Hc) Hs. unfold step in Hs. destruct (alive s) eqn:Ea; cbn [negb] in Hs; [|done].
  destruct (Halive eq_refl) as [Hout Hc0].
  destruct (outstanding s) eqn:Eout; [|by destruct o].
  rewrite <- Hout in Hinv. destruct (original s) as [h|] eqn:Eo; [|destruct Hinv as (_ & _ & ? & _); congruence].
  destruct Hinv as (Hm & Hcur & Hfw & Hob & Htr & Horb & Hans & Hreq).
  destruct o as [m|].
  - destruct (on_success_mode m (current s) _ _ Hm) as (f' & Hf' & Hm'). rewrite Hf' in Hs.
    injection Hs as <-. split; [|exists h; destruct (ended s); cbn; by rewrite Eo].
    unfold stream_inv. destruct (ended s) eqn:Ee; cbn; rewrite ?Eo;
      (split; [|split; [auto|lia]]); unfold going, closed; cbn; rewrite ?Hob, ?Ee, ?Htr, Hreq; split_and!; done || lia.
  - destruct (on_failure_mode _ _ Hm) as (f' & Hf' & Hm'). rewrite Hf' in Hs. injection Hs as <-.
    split; [|exists h; cbn; by rewrite Eo, Hcur]. unfold stream_inv. stream_simpl. rewrite Eo.
    split; [|split; [auto|lia]]. apply going_passing; cbn; rewrite ?Hcur, ?Hob, ?Horb, ?Hreq, ?Htr; auto.
Qed.

Lemma step_inv (s s' : Stream) (e : event (R := R) (E := E)) :
  stream_inv s -> step s e = Ok (Some s') -> e ≠ Destroy -> stream_inv s'.
Proof.
  intros Hs Hstep Hne. revert Hstep. destruct e as [route request|data| |env rq h end_stream|data end_stream|t|m| |].
  - destruct Hs as (Hinv & Hrest). unfold step. destruct (alive s) eqn:Ea; cbn [negb]; [|done].
    destruct (original s) eqn:Eo; cbn [is_none andb]; [done|]. destruct (decoded s) eqn:Edec; cbn [negb]; [done|].
    intros [= <-]. unfold stream_inv. cbn. rewrite Eo, Ea.
    split; [|exact Hrest]. destruct Hinv as (_ & Hnew & Hinv). rewrite (Hnew Edec).
    split; [apply decode_headers_fresh|split; [done|exact Hinv]].
  - destruct Hs as (Hinv & Hrest). unfold step. destruct (alive s) eqn:Ea; cbn [negb]; [|done].
    destruct (decoded s) eqn:Edec; [|done].
    destruct (decode_data data (filter_ s)) as [f'|?|?|] eqn:Ed; cbn [obind]; [|done..].
    intros [= <-]. unfold stream_inv. cbn. rewrite Ea.
    split; [|exact Hrest]. destruct (original s) as [h|].
    + apply decode_data_mode in Ed. destruct (paused s); unfold waiting, going in *; cbn; by rewrite Ed.
    + destruct Hinv as (Hf & _ & Hinv). destruct (decode_data_fresh data _ Hf) as (f1 & Hf1 & ?).
      split; [cbn; congruence|split; [cbn; congruence|exact Hinv]].
  - unfold step. destruct (alive s); cbn [negb]; [|done]. destruct (decoded s); [|done]. by intros [= <-].
  - by apply step_headers.
  - by apply step_data.
  - by apply step_trailers.
  - intros Hstep. by destruct (step_reply s s' (Some m) Hs Hstep).
  - intros Hstep. by destruct (step_reply s s' None Hs Hstep).
  - done.
Qed.

(** What holds also after the stream has ended: [new_body] of the answer, or the original. *)
Definition client_view (s : Stream) : Prop :=
  (requests s <= 1)%nat /\ (cancelled s <= 1)%nat /\
  match original s, answer s with
  | None, _ => forwarded s = None /\ out_body s = "" /\ requests s = 0%nat
  | Some h, None =>
      (forwarded s = None /\ out_body s = "" /\ original_body s = "") \/
      (forwarded s = Some h /\ out_body s = original_body s)
  | Some _, Some m =>
      forwarded s = Some (marked mark m) /\ out_body s = if closed s then body m else ""
  end.

Lemma stream_inv_client s : stream_inv s -> client_view s.
Proof.
  intros (Hinv & _ & Hc). unfold client_view. destruct (original s) as [h|].
  - destruct (paused s).
    + destruct Hinv as (_ & _ & Hf & Hb & _ & Hob & -> & Hr). split_and!; [lia|done|by left].
    + destruct Hinv as (_ & Hr & _ & Hinv). destruct (answer s); [|]; split_and!; try done; try tauto.
  - destruct Hinv as (_ & _ & _ & _ & Hf & Hb & _ & _ & _ & _ & Hr). split_and!; [lia|done..].
Qed.

Lemma step_destroy (s s' : Stream) :
  stream_inv s -> step s (Destroy (R := R) (E := E)) = Ok (Some s') ->
  client_view s' /\ alive s' = false /\ outstanding s' = false /\
  cancelled s' = (if outstanding s then 1 else 0)%nat.
Proof.
  intros Hs. pose proof (stream_inv_client s Hs) as (Hr & _ & Hview).
  destruct Hs as (Hinv & Halive & _). unfold step. destruct (alive s) eqn:Ea; cbn [negb]; [|done].
  destruct (Halive eq_refl) as [Hout Hc0].
  pose proof (on_destroy_mode (filter_ s)) as Hd. destruct (on_destroy (filter_ s)) as [f' effs].
  cbn [snd] in Hd. intros [= <-].
  assert (Hmode : if outstanding s then exists only, mode (filter_ s) = Sending only
    else mode (filter_ s) ≠ Other /\ forall only, mode (filter_ s) ≠ Sending only).
  { rewrite Hout. destruct (original s) as [h|].
    - destruct (paused s); [destruct Hinv as (? & _); by eexists|]. destruct Hinv as (_ & _ & _ & Hinv).
      destruct (answer s) as [m|].
      + destruct Hinv as (_ & _ & ->). by destruct (closed s).
      + destruct Hinv as (_ & _ & [-> | [_ ->]]); done.
    - destruct Hinv as (Hfresh & _ & _ & -> & _). by apply fresh_mode. }
  assert (Hcase : effs = [CancelRequest] /\ outstanding s = true \/ effs = [] /\ outstanding s = false).
  { destruct (outstanding s).
    - destruct Hmode as [only Hm]. rewrite Hm in Hd. left. split; [by apply Hd|done].
    - destruct Hmode as [Hm1 Hm2]. right. split; [|done]. rewrite (Hd Hm1).
      destruct (mode (filter_ s)) as [|only| | |]; try done. by destruct (Hm2 only). }
  destruct Hcase as [[-> Ho]|[-> Ho]]; unfold client_view; cbn; rewrite ?Hc0, ?Ho;
    (split; [|done]); (split; [exact Hr|split; [lia|exact Hview]]).
Qed.

Lemma run_snoc (s s' : Stream) es (e : event (R := R) (E := E)) :
  run s (es ++ [e]) = Ok (Some s') <-> exists s1, run s es = Ok (Some s1) /\ step s1 e = Ok (Some s').
Proof.
  revert s. induction es as [|e' es IH]; intros s; cbn [app run].
  - split.
    + intros Hs. exists s. split; [done|]. by destruct (step s e) as [[s1|]|?|?|].
    + intros (s1 & [= <-] & ->). done.
  - destruct (step s e') as [[s1|]|?|?|]; cbn [obind]; [apply IH|..]; by split; [|intros (? & ? & _)].
Qed.

(** A stream that is alive satisfies the invariant, and every stream its consequences for the client. *)
Lemma stream_run_inv es (s : Stream) :
  run new_stream (es : list (event (R := R) (E := E))) = Ok (Some s) ->
  client_view s /\ (alive s = true -> stream_inv s).
Proof.
  revert s. induction es as [|e es IH] using rev_ind; intros s Hrun.
  - injection Hrun as <-. assert (Hinv : stream_inv new_stream)
      by (split; [split_and!; try done; apply new_fresh|by split; [|cbn; lia]]).
    split; [by apply stream_inv_client|done].
  - apply run_snoc in Hrun as (s1 & Hrun & Hstep). destruct (IH _ Hrun) as [_ Hinv].
    assert (Ha : alive s1 = true) by (unfold step in Hstep; by destruct (alive s1)). specialize (Hinv Ha).
    assert (Hdec : e = Destroy \/ e ≠ Destroy) by (destruct e; auto). destruct Hdec as [->|Hne].
    + destruct (step_destroy s1 s Hinv Hstep) as (Hview & Hdead & _). split; [done|congruence].
    + pose proof (step_inv s1 s e Hinv Hstep Hne) as Hs. split; [by apply stream_inv_client|done].
Qed.

(** Whatever the order of callbacks, the client of a stream gets either nothing yet, or the
    original response unchanged, or the answer to the request of the filter: its headers
    with the mark, nothing of the original body, and its own body exactly once when
    the original response has ended with its headers or data; with trailers, it has no body.
    The filter sends at most one request. *)
Lemma client_gets (es : list (event (R := R) (E := E))) (s : Stream) h :
  run new_stream es = Ok (Some s) -> original s = Some h ->
  (requests s <= 1)%nat /\
  match answer s with
  | None => (forwarded s = None /\ out_body s = "") \/ (forwarded s = Some h /\ out_body s = original_body s)
  | Some m => forwarded s = Some (marked mark m) /\ out_body s = if closed s then body m else ""
  end.
Proof.
  intros Hrun Ho. destruct (stream_run_inv es s Hrun) as [(Hr & _ & Hview) _]. rewrite Ho in Hview.
  split; [done|]. destruct (answer s); [done|]. naive_solver.
Qed.

(** A response never waits in vain: while it is held back, the request of the filter is outstanding,
    and each of its outcomes resumes the response, the answer with its own headers and a
    failure with the original ones; when the stream ends instead, the request is
    cancelled, exactly once, and a request that is not outstanding never is. *)
Lemma response_resumes (es : list (event (R := R) (E := E))) (s : Stream) h :
  run new_stream es = Ok (Some s) -> alive s = true -> original s = Some h ->
  (forwarded s = None ->
     (forall m, exists s', step s (Reply (R := R) (E := E) m) = Ok (Some s') /\ forwarded s' = Some (marked mark m)) /\
     (exists s', step s (ReplyFailure (R := R) (E := E)) = Ok (Some s') /\ forwarded s' = Some h)) /\
  exists s', step s (Destroy (R := R) (E := E)) = Ok (Some s') /\ outstanding s' = false /\
    cancelled s' = match forwarded s with None => 1%nat | Some _ => 0%nat end.
Proof.
  intros Hrun Ha Ho. destruct (stream_run_inv es s Hrun) as [_ Hinv]. specialize (Hinv Ha).
  assert (Hwait : outstanding s = is_none (forwarded s)).
  { pose proof Hinv as (Hi & Hal & _). destruct (Hal Ha) as [-> _]. rewrite Ho in Hi.
    destruct (paused s); [by destruct Hi as (_ & _ & -> & _)|]. destruct Hi as (_ & _ & _ & Hi).
    destruct (answer s); by destruct Hi as (-> & _). }
  split.
  - intros Hf. rewrite Hf in Hwait. cbn [is_none] in Hwait.
    assert (Hgo : forall o : option (Message H), exists s',
      step s (match o with Some m => Reply (R := R) (E := E) m | None => ReplyFailure end) = Ok (Some s')).
    { intros [m|]; unfold step; rewrite Ha, Hwait; cbn [negb].
      - destruct (on_success m (current s) (filter_ s)) as [[??]?]. eauto.
      - destruct (on_failure (filter_ s)). eauto. }
    assert (Hfw : forall o : option (Message H), exists s',
      step s (match o with Some m => Reply (R := R) (E := E) m | None => ReplyFailure end) = Ok (Some s') /\
      forwarded s' = Some (match o with Some m => marked mark m | None => h end)).
    { intros o. destruct (Hgo o) as [s' Hs']. exists s'. split; [done|].
      destruct (step_reply s s' o Hinv Hs') as (_ & h' & Ho' & _ & ->). destruct o; congruence. }
    split; [intros m; exact (Hfw (Some m))|exact (Hfw None)].
  - assert (Hd : exists s', step s (Destroy (R := R) (E := E)) = Ok (Some s')).
    { unfold step. rewrite Ha. cbn [negb]. destruct (on_destroy (filter_ s)). eauto. }
    destruct Hd as [s' Hs']. exists s'. destruct (step_destroy s s' Hinv Hs') as (_ & _ & H1 & H2).
    split; [done|]. split; [done|]. rewrite H2, Hwait. by destruct (forwarded s).
Qed.

End laws.
