(* ===== verification/ServiceDowngrade.v ===== *)
(** * The service downgrade filter (source/filters/http/service_downgrade)

    A response that meets the conditions of the route is replaced by the answer of
    another service to the same request.  The filter is an instance of
    [DowngradeFilter], and the theorems about streams hold for it. *)

From S2P Require Import Prelude Http ProxyMatcher Downgrade.
From Stdlib Require Import Ascii.
From stdpp Require Import base gmap strings numbers list.
#[local] Open Scope Z_scope.
#[local] Open Scope proxy_scope.

Section filter.
Context {H StringMatcher HeaderMatcher QueryParameterMatcher : Type}
  `{!HeaderMap H, api : !MatcherApi H StringMatcher HeaderMatcher QueryParameterMatcher}.

(** ** Configuration *)

(** A remote service: its cluster, and its timeout in milliseconds if given. *)
Record ProtoRemote := { cluster : string; timeout : option Z }.

Definition DefaultTimeout : Z := 200.
Definition new_HttpxRequestSenderConfig (p : ProtoRemote) : HttpxRequestSenderConfig :=
  {| cluster_name_ := cluster p; timeout_ := u32 (default DefaultTimeout (timeout p)) |}.

Record ProtoRouteConfig := {
  downgrade_rqx : list HeaderMatcher;
  downgrade_rpx : list HeaderMatcher;
  downgrade_uri : string;
  proto_override_remote : option ProtoRemote;
}.

Record RouteConfig := {
  downgrade_rqx_ : list HeaderMatcher;
  downgrade_rpx_ : list HeaderMatcher;
  has_no_donwgrade_rpx_ : bool;
  downgrade_uri_ : option HttpUri;
  override_remote_ : option HttpxRequestSenderConfig;
}.

Definition new_RouteConfig (config : ProtoRouteConfig) : RouteConfig :=
  match downgrade_rpx config with
  | [] => {| downgrade_rqx_ := downgrade_rqx config; downgrade_rpx_ := []; has_no_donwgrade_rpx_ := true;
             downgrade_uri_ := None; override_remote_ := None |}
  | rpx => {| downgrade_rqx_ := downgrade_rqx config; downgrade_rpx_ := rpx; has_no_donwgrade_rpx_ := false;
              downgrade_uri_ := makeHttpUri (downgrade_uri config);
              override_remote_ := new_HttpxRequestSenderConfig <$> proto_override_remote config |}
  end.

Inductive Direction := DECODE | ENCODE.

Definition shouldDowngrade (config : RouteConfig) (headers : H) (direc : Direction) : bool :=
  if has_no_donwgrade_rpx_ config then false
  else match direc with
       | DECODE => matchHeaders headers (downgrade_rqx_ config)
       | ENCODE => matchHeaders headers (downgrade_rpx_ config)
       end.

(** [CommonConfig]: the remote service of the filter. *)
Definition new_CommonConfig (used_remote : option ProtoRemote) : option HttpxRequestSenderConfig :=
  new_HttpxRequestSenderConfig <$> used_remote.

(** What the filter calls: the clusters, and its configuration. *)
Record Env := { cm : ClusterManager H; usedRemote : option HttpxRequestSenderConfig }.

(** ** The filter *)

(** [rqx_headers_] and [rpx_headers_] point to the headers of the stream, which are arguments here.
    [request_sender_] holds the [request_] of the sender. *)
Record Filter := {
  buffered_rqx_body_ : string;
  buffered_rpx_body_ : string;
  should_downgrade_ : bool;
  downgrade_complete_ : bool;
  downgrade_suspend_ : bool;
  headers_only_resp_ : bool;
  is_sending_request_ : bool;
  local_request_over_ : bool;
  request_sender_ : option bool;
  router_config_ : option RouteConfig;
}.

Definition new_Filter : Filter :=
  {| buffered_rqx_body_ := ""; buffered_rpx_body_ := ""; should_downgrade_ := false;
     downgrade_complete_ := false; downgrade_suspend_ := false; headers_only_resp_ := false;
     is_sending_request_ := false; local_request_over_ := false; request_sender_ := None;
     router_config_ := None |}.

(** Assignments to members. *)
Definition set_should (b : bool) (f : Filter) : Filter :=
  {| buffered_rqx_body_ := buffered_rqx_body_ f; buffered_rpx_body_ := buffered_rpx_body_ f;
     should_downgrade_ := b; downgrade_complete_ := downgrade_complete_ f;
     downgrade_suspend_ := downgrade_suspend_ f; headers_only_resp_ := headers_only_resp_ f;
     is_sending_request_ := is_sending_request_ f; local_request_over_ := local_request_over_ f;
     request_sender_ := request_sender_ f; router_config_ := router_config_ f |}.
Definition set_bodies (rqx rpx : string) (f : Filter) : Filter :=
  {| buffered_rqx_body_ := rqx; buffered_rpx_body_ := rpx;
     should_downgrade_ := should_downgrade_ f; downgrade_complete_ := downgrade_complete_ f;
     downgrade_suspend_ := downgrade_suspend_ f; headers_only_resp_ := headers_only_resp_ f;
     is_sending_request_ := is_sending_request_ f; local_request_over_ := local_request_over_ f;
     request_sender_ := request_sender_ f; router_config_ := router_config_ f |}.
Definition set_progress (complete suspend sending over : bool) (f : Filter) : Filter :=
  {| buffered_rqx_body_ := buffered_rqx_body_ f; buffered_rpx_body_ := buffered_rpx_body_ f;
     should_downgrade_ := should_downgrade_ f; downgrade_complete_ := complete;
     downgrade_suspend_ := suspend; headers_only_resp_ := headers_only_resp_ f;
     is_sending_request_ := sending; local_request_over_ := over;
     request_sender_ := request_sender_ f; router_config_ := router_config_ f |}.
Definition set_sender (only : bool) (sender : option bool) (f : Filter) : Filter :=
  {| buffered_rqx_body_ := buffered_rqx_body_ f; buffered_rpx_body_ := buffered_rpx_body_ f;
     should_downgrade_ := should_downgrade_ f; downgrade_complete_ := downgrade_complete_ f;
     downgrade_suspend_ := downgrade_suspend_ f; headers_only_resp_ := only;
     is_sending_request_ := is_sending_request_ f; local_request_over_ := local_request_over_ f;
     request_sender_ := sender; router_config_ := router_config_ f |}.
Definition set_config (c : option RouteConfig) (f : Filter) : Filter :=
  {| buffered_rqx_body_ := buffered_rqx_body_ f; buffered_rpx_body_ := buffered_rpx_body_ f;
     should_downgrade_ := should_downgrade_ f; downgrade_complete_ := downgrade_complete_ f;
     downgrade_suspend_ := downgrade_suspend_ f; headers_only_resp_ := headers_only_resp_ f;
     is_sending_request_ := is_sending_request_ f; local_request_over_ := local_request_over_ f;
     request_sender_ := request_sender_ f; router_config_ := c |}.

Definition decodeHeaders (route : option RouteConfig) (headers : H) (f : Filter) : Filter :=
  let f := set_config route f in
  match route with
  | None => f
  | Some config => set_should (shouldDowngrade config headers DECODE) f
  end.

Definition decodeData (data : string) (f : Filter) : Filter :=
  if should_downgrade_ f then set_bodies (buffered_rqx_body_ f +:+ data) (buffered_rpx_body_ f) f else f.

Definition onSuccess (response : Message H) (rpx_headers : H) (f : Filter) : Filter * H * list (effect H) :=
  if negb (is_sending_request_ f) then
    (set_progress (downgrade_complete_ f) (downgrade_suspend_ f) false true f, rpx_headers, [])
  else
    let f := set_progress (headers_only_resp_ f) (downgrade_suspend_ f) false (local_request_over_ f) f in
    let h := hm_addCopy "x-downgrade-status" "SERVICE" (replaceHeaders rpx_headers (Http.headers response)) in
    if downgrade_complete_ f then (f, h, [addEncodedData (body response); continueEncoding])
    else (set_bodies (buffered_rqx_body_ f) (buffered_rpx_body_ f +:+ body response) f, h, [continueEncoding]).

Definition onFailure (f : Filter) : Filter * list (effect H) :=
  if negb (is_sending_request_ f) then
    (set_progress (downgrade_complete_ f) (downgrade_suspend_ f) false true f, [])
  else
    (set_progress (downgrade_complete_ f) true false (local_request_over_ f) f, [continueEncoding]).

(** A callback of the client, also one it makes while [send] runs. *)
Definition callback (o : option (AsyncResult H)) (rpx_headers : H) (f : Filter) : Filter :=
  match o with
  | Some (OnSuccess m) => (onSuccess m rpx_headers f).1.1
  | Some OnFailure => (onFailure f).1
  | None => f
  end.

Definition encodeHeaders (env : Env) (request response : H) (end_stream : bool) (f : Filter) :
    outcome (FilterHeadersStatus * Filter * list (effect H)) :=
  if negb (should_downgrade_ f) then Ok (Continue, f, [])
  else match router_config_ f with
  | None => Undefined "router_config_ is null"
  | Some config =>
      if negb (shouldDowngrade config response ENCODE) then Ok (Continue, set_should false f, [])
      else
        let remote := match override_remote_ config with Some r => Some r | None => usedRemote env end in
        let message := {| Http.headers := redirect (downgrade_uri_ config) (replaceHeaders hm_empty request);
                          body := buffered_rqx_body_ f |} in
        let '(status, request_, inline) := httpx_sendRequest (cm env) remote message in
        let f := callback inline response
                   (set_sender end_stream (Some request_) (set_bodies "" (buffered_rpx_body_ f) f)) in
        let effs := if httpx_reaches (cm env) remote
                    then [SendRequest message (httpx_pending (cm env) remote message)] else [] in
        match status with
        | ONCALL =>
            if negb (local_request_over_ f) then
              Ok (stop_status end_stream,
                  set_progress (downgrade_complete_ f) (downgrade_suspend_ f) true (local_request_over_ f) f, effs)
            else Ok (Continue, set_progress (downgrade_complete_ f) true (is_sending_request_ f)
                                 (local_request_over_ f) f, effs)
        | FAILED => Ok (Continue, set_progress (downgrade_complete_ f) true (is_sending_request_ f)
                                 (local_request_over_ f) f, effs)
        end
  end.

Definition encodeData (data : string) (end_stream : bool) (f : Filter) :
    FilterDataStatus * Filter * string * list (effect H) :=
  if negb (should_downgrade_ f) || downgrade_complete_ f || downgrade_suspend_ f then (DataContinue, f, data, [])
  else if end_stream then
    (DataContinue, set_progress true (downgrade_suspend_ f) (is_sending_request_ f) (local_request_over_ f)
       (set_bodies (buffered_rqx_body_ f) "" f), "", [addEncodedData (buffered_rpx_body_ f)])
  else (StopIterationNoBuffer, f, "", []).

Definition onDestroy (f : Filter) : Filter * list (effect H) :=
  match request_sender_ f with
  | Some request_ =>
      if is_sending_request_ f then
        let '(_, cancelled) := httpx_cancel request_ in
        (set_sender (headers_only_resp_ f) None
           (set_progress (downgrade_complete_ f) true false (local_request_over_ f) f),
         if cancelled then [CancelRequest] else [])
      else (f, [])
  | None => (f, [])
  end.

(** ** The interface *)

#[export] Instance service_filter : DowngradeFilter H RouteConfig Env Filter := {
  new_filter := new_Filter;
  decode_headers := decodeHeaders;
  decode_data d f := Ok (decodeData d f);
  encode_headers := encodeHeaders;
  encode_data d e f := Ok (encodeData d e f);
  on_success := onSuccess;
  on_failure := onFailure;
  on_destroy := onDestroy;
}.

(** Before the response: a request that should be replaced has its route configuration. *)
Definition service_fresh (f : Filter) : Prop :=
  buffered_rpx_body_ f = "" /\ downgrade_complete_ f = false /\ downgrade_suspend_ f = false /\
  is_sending_request_ f = false /\ local_request_over_ f = false /\ request_sender_ f = None /\
  (should_downgrade_ f = true -> is_Some (router_config_ f)).

Definition service_mode (f : Filter) : Mode :=
  if is_sending_request_ f then
    if bool_decide (request_sender_ f = Some true) && should_downgrade_ f && negb (downgrade_complete_ f)
       && negb (downgrade_suspend_ f) && String.eqb (buffered_rpx_body_ f) ""
    then Sending (headers_only_resp_ f) else Other
  else if downgrade_complete_ f then Complete
  else if negb (should_downgrade_ f) || downgrade_suspend_ f then Passing
  else Replacing (buffered_rpx_body_ f).

Lemma oncall_reaches (c : ClusterManager H) remote message request_ inline :
  httpx_sendRequest c remote message = (ONCALL, request_, inline) ->
  request_ = true /\ httpx_reaches c remote = true.
Proof.
  unfold httpx_sendRequest, httpx_reaches. destruct remote as [r|]; [|done].
  destruct (c (cluster_name_ r)) as [send|]; [|done]. destruct (request (send message (timeout_ r))); [|done].
  by intros [= <- _].
Qed.

(** A request is pending when the client took it and has not called back. *)
Lemma sent_pending (c : ClusterManager H) remote message status request_ inline :
  httpx_sendRequest c remote message = (status, request_, inline) ->
  request_ = (match status with ONCALL => true | FAILED => false end) /\
  httpx_pending c remote message = request_ && match inline with None => true | Some _ => false end.
Proof.
  unfold httpx_sendRequest, httpx_pending. destruct remote as [r|]; [|by intros [= <- <- <-]].
  destruct (c (cluster_name_ r)) as [send|]; [|by intros [= <- <- <-]].
  intros [= <- <- <-]. by destruct (request (send message (timeout_ r))).
Qed.

(** A callback during [send] only sets [local_request_over_]. *)
Lemma callback_inline inline h f :
  is_sending_request_ f = false ->
  callback inline h f = match inline with
    | Some _ => set_progress (downgrade_complete_ f) (downgrade_suspend_ f) false true f
    | None => f end.
Proof. intros Hs. destruct inline as [[m|]|]; cbn; unfold onSuccess, onFailure; by rewrite ?Hs. Qed.

Lemma service_encode_headers env rq h end_stream f st f' effs :
  service_fresh f -> encodeHeaders env rq h end_stream f = Ok (st, f', effs) ->
  (st = Continue /\ service_mode f' = Passing /\ (effs = [] \/ exists m, effs = [SendRequest m false])) \/
  (st = stop_status end_stream /\ service_mode f' = Sending end_stream /\ exists m, effs = [SendRequest m true]).
Proof.
  intros (Hb & Hc & Hsu & Hs & Hl & Hr & Hcfg) He. unfold encodeHeaders in He.
  destruct (should_downgrade_ f) eqn:Ed; cbn [negb] in He.
  2: { injection He as <- <- <-. left. split; [done|]. split; [|by left].
       unfold service_mode. by rewrite Hs, Hc, Ed. }
  destruct (router_config_ f) as [config|]; [|done].
  destruct (shouldDowngrade config h ENCODE); cbn [negb] in He.
  2: { injection He as <- <- <-. left. split; [done|]. split; [|by left]. unfold service_mode. cbn. by rewrite Hs, Hc. }
  cbv zeta in He.
  set (remote := match override_remote_ config with Some r => Some r | None => usedRemote env end) in He.
  set (message := {| Http.headers := _; body := _ |}) in He.
  destruct (httpx_sendRequest (cm env) remote message) as [[status request_] inline] eqn:Es.
  rewrite callback_inline in He by done. set (g := match inline with Some _ => _ | None => _ end) in He.
  assert (Hg : should_downgrade_ g = true /\ downgrade_complete_ g = false /\ downgrade_suspend_ g = false /\
      is_sending_request_ g = false /\ buffered_rpx_body_ g = "" /\ headers_only_resp_ g = end_stream /\
      request_sender_ g = Some request_ /\
      local_request_over_ g = match inline with Some _ => true | None => false end)
    by (unfold g; destruct inline; cbn; by rewrite ?Ed, ?Hc, ?Hsu, ?Hs, ?Hb, ?Hl).
  clearbody g. destruct Hg as (Hg1 & Hg2 & Hg3 & Hg4 & Hg5 & Hg6 & Hg7 & Hg8).
  destruct (sent_pending _ _ _ _ _ _ Es) as [Hreq Hpend]. set (pending := httpx_pending _ _ _) in *.
  assert (Heffs : pending = false ->
      (if httpx_reaches (cm env) remote then [SendRequest message pending] else []) = [] \/
      exists m, (if httpx_reaches (cm env) remote then [SendRequest message pending] else []) = [SendRequest m false])
    by (intros ->; destruct (httpx_reaches _ _); eauto).
  destruct status; rewrite Hreq in Hpend; cbn [andb] in Hpend.
  - injection He as <- <- <-. left. split; [done|]. split; [|auto]. unfold service_mode. cbn.
    by rewrite Hg4, Hg2, orb_true_r.
  - apply oncall_reaches in Es as [-> Hreach]. rewrite Hreach in *.
    rewrite Hg8 in He. destruct inline; cbn [negb] in He; injection He as <- <- <-.
    + left. split; [done|]. split; [|auto]. unfold service_mode. cbn. by rewrite Hg4, Hg2, orb_true_r.
    + right. rewrite Hpend. split; [done|]. split; [|eauto]. unfold service_mode. cbn.
      rewrite Hg1, Hg2, Hg3, Hg5, Hg6, Hg7. by rewrite bool_decide_eq_true_2.
Qed.

(** What the modes say of the members. *)
Lemma service_sending f only :
  service_mode f = Sending only ->
  is_sending_request_ f = true /\ request_sender_ f = Some true /\ should_downgrade_ f = true /\
  downgrade_complete_ f = false /\ downgrade_suspend_ f = false /\ buffered_rpx_body_ f = "" /\
  headers_only_resp_ f = only.
Proof.
  unfold service_mode. destruct (is_sending_request_ f).
  - destruct (bool_decide _ && _ && _ && _ && _) eqn:E; [|done]. intros [= <-].
    rewrite !andb_true_iff, !negb_true_iff, bool_decide_eq_true, String.eqb_eq in E. tauto.
  - destruct (downgrade_complete_ f); [done|]. by destruct (negb _ || _).
Qed.

Lemma service_still f m :
  service_mode f = m -> match m with Passing | Replacing _ => True | _ => False end ->
  is_sending_request_ f = false /\ downgrade_complete_ f = false /\
  match m with
  | Replacing b => should_downgrade_ f = true /\ downgrade_suspend_ f = false /\ buffered_rpx_body_ f = b
  | _ => should_downgrade_ f = false \/ downgrade_suspend_ f = true
  end.
Proof.
  intros <-. unfold service_mode. destruct (is_sending_request_ f); [by destruct (_ && _)|].
  destruct (downgrade_complete_ f); [done|].
  destruct (should_downgrade_ f), (downgrade_suspend_ f); cbn; auto.
Qed.

#[export] Instance service_laws : DowngradeLaws H RouteConfig Env Filter.
Proof.
  refine {| mark := "SERVICE"; Downgrade.fresh := service_fresh; mode := service_mode |};
    cbn [new_filter decode_headers decode_data encode_headers encode_data on_success on_failure on_destroy
         service_filter].
  - done.
  - intros f (_ & Hc & _ & Hs & _). unfold service_mode. rewrite Hs, Hc. by destruct (_ || _).
  - intros rc h. unfold decodeHeaders. by destruct rc as [config|]; split_and!; cbn.
  - intros d f (Hb & Hc & Hsu & Hs & Hl & Hr & Hcfg). unfold decodeData.
    eexists. split; [done|]. destruct (should_downgrade_ f) eqn:E; split_and!; cbn; try done; by rewrite ?E.
  - intros d f f' [= <-]. unfold decodeData. by destruct (should_downgrade_ f).
  - intros env rq h end_stream f st f' effs Hf He.
    destruct (service_encode_headers _ _ _ _ _ _ _ _ Hf He) as [(? & ? & Heffs)|?]; [left|by right].
    split; [done|]. split; [by left|]. destruct Heffs as [->|?]; [by left; constructor|by right].
  - intros m h f only (Hs & _ & Hd & Hc & Hsu & Hb & Ho)%service_sending. unfold onSuccess.
    rewrite Hs. cbn [negb downgrade_complete_ set_progress buffered_rqx_body_ buffered_rpx_body_]. rewrite Ho, Hb.
    destruct only; eexists; (split; [reflexivity|]); unfold service_mode; cbn; by rewrite ?Hd, ?Hsu, ?Hb.
  - intros f only (Hs & _ & Hd & Hc & Hsu & Hb & Ho)%service_sending. unfold onFailure. rewrite Hs. cbn [negb].
    eexists. split; [reflexivity|]. unfold service_mode. cbn. by rewrite Hc, orb_true_r.
  - intros d end_stream f Hm. destruct (service_still f _ Hm) as (Hs & Hc & Hp); [done|].
    unfold encodeData. rewrite Hc, orb_false_r.
    destruct Hp as [-> | ->]; cbn [negb orb]; rewrite ?orb_true_r; auto.
  - intros d end_stream f b Hm. destruct (service_still f _ Hm) as (Hs & Hc & Hd & Hsu & Hb); [done|].
    unfold encodeData. rewrite Hc, Hd, Hsu. cbn [negb orb].
    destruct end_stream; eexists; (split; [by rewrite ?Hb|]); [|done]. unfold service_mode. cbn. by rewrite Hs.
  - intros f. destruct (service_mode f) as [|only| | |] eqn:Em; intros Hne; try done; unfold onDestroy.
    all: try (assert (Hs : is_sending_request_ f = false)
      by (unfold service_mode in Em; destruct (is_sending_request_ f); [by destruct (_ && _)|done]);
      rewrite Hs; by destruct (request_sender_ f)).
    apply service_sending in Em as (-> & -> & _). done.
Defined.


(** ** The client of a downgraded service *)

Abbreviation ServiceStream := (@Stream H Filter).
Abbreviation ServiceEvent := (@event H RouteConfig Env).

(** C4. Whatever the order of callbacks, with trailers among them, the client of a stream gets either
    nothing yet, or the original response unchanged, or the answer of the other service: its
    headers marked SERVICE, nothing of the original body, and its own body exactly once
    when the original response has ended with its headers or its data.  The body comes in
    the place of the last data only: a response that ends with trailers instead
    has the headers of the answer, no body, and the trailers of the original.  Without an
    answer, as when no cluster can be reached or the request fails, it is the
    original response; at most one request is sent. *)
Theorem service_downgrade_client (es : list ServiceEvent) (s : ServiceStream) h :
  run new_stream es = Ok (Some s) -> original s = Some h ->
  (requests s <= 1)%nat /\
  match answer s with
  | None => (forwarded s = None /\ out_body s = "") \/ (forwarded s = Some h /\ out_body s = original_body s)
  | Some m =>
      forwarded s = Some (hm_addCopy "x-downgrade-status" "SERVICE" (replaceHeaders hm_empty (Http.headers m))) /\
      out_body s = if ended s && is_none (trailed s) then body m else ""
  end.
Proof. exact (client_gets es s h). Qed.

(** The data of a request, in order. *)
Fixpoint decoded_data (es : list ServiceEvent) : string :=
  match es with
  | [] => ""
  | DecodeData d :: es' => d +:+ decoded_data es'
  | _ :: es' => decoded_data es'
  end.

Definition is_data (e : ServiceEvent) : Prop := match e with DecodeData _ => True | _ => False end.

Lemma buffered_data (es : list ServiceEvent) (s s' : ServiceStream) :
  Forall is_data es -> run s es = Ok (Some s') ->
  should_downgrade_ (filter_ s') = should_downgrade_ (filter_ s) /\
  router_config_ (filter_ s') = router_config_ (filter_ s) /\
  original s' = original s /\
  (should_downgrade_ (filter_ s) = true ->
     buffered_rqx_body_ (filter_ s') = buffered_rqx_body_ (filter_ s) +:+ decoded_data es).
Proof.
  intros Hes. revert s. induction Hes as [|e es He _ IH]; intros s Hrun.
  - injection Hrun as <-. split_and!; [done..|]. intros _. by rewrite string_app_nil.
  - destruct e; try done. cbn [run decoded_data] in *. unfold step in Hrun.
    destruct (negb (alive s)); [done|]. destruct (decoded s); [|done]. cbn [obind] in Hrun.
    destruct (IH _ Hrun) as (H1 & H2 & H3 & H4). cbn [filter_ set_filter decode_data service_filter original] in *.
    unfold decodeData in *. destruct (should_downgrade_ (filter_ s)) eqn:E; cbn in *; split_and!; try congruence.
    intros _. rewrite (H4 ltac:(done)). by rewrite string_app_assoc.
Qed.

(** The request to the other service is made exactly when the route has a configuration whose request
    and response conditions hold and a cluster to ask; it carries the headers of the original
    request, directed to the URI of the route when that could be parsed, and all of the
    request body that had arrived. *)
Theorem service_downgrade_request (config : RouteConfig) rq es env rq' h end_stream (s : ServiceStream) st f effs :
  Forall is_data es ->
  run new_stream (DecodeHeaders (Some config) rq :: es) = Ok (Some s) ->
  encodeHeaders env rq' h end_stream (filter_ s) = Ok (st, f, effs) ->
  effs = if shouldDowngrade config rq DECODE && shouldDowngrade config h ENCODE &&
            httpx_reaches (cm env) (match override_remote_ config with Some r => Some r | None => usedRemote env end)
         then let message := {| Http.headers := redirect (downgrade_uri_ config) (replaceHeaders hm_empty rq');
                                body := decoded_data es |} in
              [SendRequest message (httpx_pending (cm env)
                 (match override_remote_ config with Some r => Some r | None => usedRemote env end) message)]
         else [].
Proof.
  intros Hes Hrun Henc. cbn [run step new_stream alive negb original is_none decoded andb obind] in Hrun.
  destruct (buffered_data es _ s Hes Hrun) as (H1 & H2 & _ & H4). clear Hrun.
  change (should_downgrade_ (filter_ s) = shouldDowngrade config rq DECODE) in H1.
  change (router_config_ (filter_ s) = Some config) in H2.
  change (shouldDowngrade config rq DECODE = true -> buffered_rqx_body_ (filter_ s) = decoded_data es) in H4.
  unfold encodeHeaders in Henc. rewrite H1, H2 in Henc. clear H1 H2. revert Henc H4.
  destruct (shouldDowngrade config rq DECODE); cbn [negb andb]; [|by intros [= <- <- <-]].
  destruct (shouldDowngrade config h ENCODE); cbn [negb andb]; [|by intros [= <- <- <-]].
  intros Henc H4. rewrite (H4 eq_refl) in Henc. cbv zeta in Henc.
  destruct (httpx_sendRequest _ _ _) as [[status request_] inline].
  destruct status; [|destruct (negb _)]; injection Henc as <- <- <-; by destruct (httpx_reaches _ _).
Qed.

End filter.

(** ** Witnesses *)

Definition example_route : @RouteConfig (string * string) :=
  new_RouteConfig {| downgrade_rqx := []; downgrade_rpx := [(":status", "503")];
    downgrade_uri := "http://backup/v1"; proto_override_remote := Some {| cluster := "backup"; timeout := None |} |}.

(** A cluster whose client accepts every request. *)
Definition example_env : @Env alist :=
  {| cm := fun name => if String.eqb name "backup"
                       then Some (fun _ _ => {| request := true; inline_callback := None |}) else None;
     usedRemote := None |}.

Definition example_request : alist := [(":path", "/v1"); (":method", "POST")].
Definition example_response : alist := [(":status", "503")].
Definition example_answer : Message alist := {| Http.headers := [(":status", "200")]; body := "backup" |}.

Lemma service_downgrade_client_witness :
  exists s : @Stream alist Filter,
    run (E := @Env alist) new_stream
      [DecodeHeaders (Some example_route) example_request; DecodeData "in";
       EncodeHeaders example_env example_request example_response false; Reply example_answer;
       EncodeData "fail" false; EncodeData "ure" true] = Ok (Some s) /\
    (requests s <= 1)%nat /\ forwarded s = Some [(":status", "200"); ("x-downgrade-status", "SERVICE")] /\
    out_body s = "backup".
Proof.
  eexists. split; [vm_compute; reflexivity|].
  match goal with |- _ /\ forwarded ?s = _ /\ _ =>
    exact (service_downgrade_client [DecodeHeaders (Some example_route) example_request; DecodeData "in";
       EncodeHeaders example_env example_request example_response false; Reply example_answer;
       EncodeData "fail" false; EncodeData "ure" true] s example_response eq_refl eq_refl)
  end.
Defined.

(** A response with trailers: the headers of the answer, no body. *)
Example replaced_before_trailers :
  match run (E := @Env alist) (new_stream (H := alist) (F := @Filter _))
      [DecodeHeaders (Some example_route) example_request;
       EncodeHeaders example_env example_request example_response false; Reply example_answer;
       EncodeData "failure" false; EncodeTrailers [("t", "1")]] with
  | Ok (Some s) =>
      forwarded s = Some [(":status", "200"); ("x-downgrade-status", "SERVICE")] /\ out_body s = "" /\
      trailed s = Some [("t", "1")] /\ ended s = true
  | _ => False
  end.
Proof. vm_compute. by split_and!. Qed.

Lemma service_downgrade_request_witness :
  exists (s : @Stream alist Filter) st f effs,
    run (E := @Env alist) new_stream [DecodeHeaders (Some example_route) example_request; DecodeData "in"] = Ok (Some s) /\
    encodeHeaders example_env example_request example_response true (filter_ s) = Ok (st, f, effs) /\
    effs = [SendRequest {| Http.headers := [(":method", "POST"); (":scheme", "http"); (":authority", "backup");
                                            (":path", "/v1")]; body := "in" |} true].
Proof.
  eexists _, _, _, _. split; [vm_compute; reflexivity|]. split; [vm_compute; reflexivity|].
  refine (eq_trans (service_downgrade_request example_route example_request [DecodeData "in"] example_env
    example_request example_response true _ _ _ _ _ _ _) _); try (vm_compute; reflexivity).
  by repeat constructor.
Defined.
