(* ===== verification/DynamicDowngrade.v ===== *)
(** * The dynamic downgrade filter (source/filters/http/dynamic_downgrade)

    Like the service downgrade filter, with a second source: a response kept in the
    caches.  Responses that are good enough to be used later are stored while they pass.
    Asking caches and storing in them is CacheSender's. *)

From S2P Require Import SuperCache.
From S2P Require Import Prelude Decimal Json Http CacheBase HttpCacheEntry CacheSender ProxyMatcher Downgrade.
From S2P Require Import ServiceDowngrade.
From Stdlib Require Import Ascii.
From stdpp Require Import base gmap strings numbers list.
Import HttpEntry.
#[local] Open Scope Z_scope.
#[local] Open Scope proxy_scope.

Module Dynamic.
Section filter.
Context {H StringMatcher HeaderMatcher QueryParameterMatcher : Type}
  `{!HeaderMap H, api : !MatcherApi H StringMatcher HeaderMatcher QueryParameterMatcher}.

(** ** Configuration *)

Inductive DowngradeSource := CACHE | HTTPX.

Record ProtoRouteConfig := {
  downgrade_rqx : list HeaderMatcher;
  downgrade_rpx : list HeaderMatcher;
  cache_rpx_rpx : list HeaderMatcher;
  downgrade_src : DowngradeSource;
  downgrade_uri : string;
  proto_override_remote : option ProtoRemote;
  key_maker : HttpCacheKeyMaker;
  cache_ttls : list (string * CacheTTL);
}.

Record DynamicDowngradeRouteConfig := {
  downgrade_rqx_ : list HeaderMatcher;
  downgrade_rpx_ : list HeaderMatcher;
  cache_rpx_rpx_ : list HeaderMatcher;
  has_no_donwgrade_rpx_ : bool;
  downgrade_with_cache_ : bool;
  cache_config_ : option SpecificCacheConfig;
  downgrade_uri_ : option HttpUri;
  override_remote_ : option HttpxRequestSenderConfig;
}.

(** The constructor returns early without response conditions, and for an HTTP source. *)
Definition new_DynamicDowngradeRouteConfig (config : ProtoRouteConfig) : DynamicDowngradeRouteConfig :=
  match downgrade_rpx config, downgrade_src config with
  | [], _ =>
      {| downgrade_rqx_ := downgrade_rqx config; downgrade_rpx_ := []; cache_rpx_rpx_ := [];
         has_no_donwgrade_rpx_ := true; downgrade_with_cache_ := false; cache_config_ := None;
         downgrade_uri_ := None; override_remote_ := None |}
  | rpx, HTTPX =>
      {| downgrade_rqx_ := downgrade_rqx config; downgrade_rpx_ := rpx; cache_rpx_rpx_ := [];
         has_no_donwgrade_rpx_ := false; downgrade_with_cache_ := false; cache_config_ := None;
         downgrade_uri_ := makeHttpUri (downgrade_uri config);
         override_remote_ := new_HttpxRequestSenderConfig <$> proto_override_remote config |}
  | rpx, CACHE =>
      let c := new_SpecificCacheConfig (key_maker config) (cache_ttls config) in
      {| downgrade_rqx_ := downgrade_rqx config; downgrade_rpx_ := rpx; cache_rpx_rpx_ := cache_rpx_rpx config;
         has_no_donwgrade_rpx_ := false; downgrade_with_cache_ := true;
         cache_config_ := Some {| cache_ttls_ := cache_ttls_ c; cache_key_prefix_ := "downgrade";
                                  key_maker_config_ := key_maker_config_ c |};
         downgrade_uri_ := None; override_remote_ := None |}
  end.

Definition shouldDowngrade (config : DynamicDowngradeRouteConfig) (headers : H) (direc : Direction) : bool :=
  if has_no_donwgrade_rpx_ config then false
  else match direc with
       | DECODE => matchHeaders headers (downgrade_rqx_ config)
       | ENCODE => matchHeaders headers (downgrade_rpx_ config)
       end.

Definition checkEnableCache (config : DynamicDowngradeRouteConfig) (response_headers : H) : bool :=
  if (length (cache_rpx_rpx_ config) =? 0)%nat || negb (downgrade_with_cache_ config) then false
  else matchHeaders response_headers (cache_rpx_rpx_ config).

(** The configuration of the filter: clusters, remote service, the number of its caches if it has
    caches; and the hash of cache keys. *)
Record Env := {
  cm : ClusterManager H;
  usedRemote : option HttpxRequestSenderConfig;
  usedCaches : option nat;
  md5_hex : string -> string;
}.

(** The configuration of the filter makes its remote service and installs an administration handler
    like the response cache's (SuperCache), below a root of its own; its destructor
    removes the handler. *)
Definition dynamic_downgrade_root : string := "/httpfilter/dynamic_downgrade/".
Definition new_DynamicDowngradeCommonConfig (used_remote : option ProtoRemote) (apis_prefix : string)
    (has_caches : bool) (random : nat) (a : AdminState) :
    option HttpxRequestSenderConfig * (HandlerConfig * AdminState) :=
  (new_HttpxRequestSenderConfig <$> used_remote,
   new_CommonCacheConfig dynamic_downgrade_root apis_prefix has_caches random a).

(** The handler has the response cache's code. *)
Definition readCacheKeys (getStringArray : string -> outcome (list string)) (json_body : string) : list string :=
  SuperCache.readCacheKeys getStringArray json_body.
Definition admin_handler {C} `{CC : CommonCacheBase (HttpCacheEntry H) C} (getStringArray : string -> outcome (list string))
    (action string_body : option string) (caches : list (string * C)) : outcome (admin_code * string * list (string * C)) :=
  SuperCache.admin_handler getStringArray action string_body caches.

Definition delete_DynamicDowngradeCommonConfig (c : HandlerConfig) (a : AdminState) : AdminState :=
  delete_CommonCacheConfig c a.

(** ** The filter *)

(** [CacheRequestSender] or [HttpxRequestSender]. *)
Inductive RequestSender :=
| CacheSenderOf (sender : CacheRequestSender)
| HttpxSenderOf (request_ : bool).

Record Filter := {
  cache_key_ : string;
  response_to_cache_ : option (Message H);
  buffered_rqx_body_ : string;
  buffered_rpx_body_ : string;
  should_downgrade_ : bool;
  downgrade_complete_ : bool;
  downgrade_suspend_ : bool;
  should_cache_rpx_ : bool;
  headers_only_resp_ : bool;
  is_sending_request_ : bool;
  local_request_over_ : bool;
  request_sender_ : option RequestSender;
  router_config_ : option DynamicDowngradeRouteConfig;
}.

Definition new_Filter : Filter :=
  {| cache_key_ := ""; response_to_cache_ := None; buffered_rqx_body_ := ""; buffered_rpx_body_ := "";
     should_downgrade_ := false; downgrade_complete_ := false; downgrade_suspend_ := false;
     should_cache_rpx_ := false; headers_only_resp_ := false; is_sending_request_ := false;
     local_request_over_ := false; request_sender_ := None; router_config_ := None |}.

(** Assignments to groups of members. *)
Definition set_should (b cache : bool) (f : Filter) : Filter :=
  {| cache_key_ := cache_key_ f; response_to_cache_ := response_to_cache_ f;
     buffered_rqx_body_ := buffered_rqx_body_ f; buffered_rpx_body_ := buffered_rpx_body_ f;
     should_downgrade_ := b; downgrade_complete_ := downgrade_complete_ f;
     downgrade_suspend_ := downgrade_suspend_ f; should_cache_rpx_ := cache;
     headers_only_resp_ := headers_only_resp_ f; is_sending_request_ := is_sending_request_ f;
     local_request_over_ := local_request_over_ f; request_sender_ := request_sender_ f;
     router_config_ := router_config_ f |}.
Definition set_bodies (rqx rpx : string) (f : Filter) : Filter :=
  {| cache_key_ := cache_key_ f; response_to_cache_ := response_to_cache_ f;
     buffered_rqx_body_ := rqx; buffered_rpx_body_ := rpx;
     should_downgrade_ := should_downgrade_ f; downgrade_complete_ := downgrade_complete_ f;
     downgrade_suspend_ := downgrade_suspend_ f; should_cache_rpx_ := should_cache_rpx_ f;
     headers_only_resp_ := headers_only_resp_ f; is_sending_request_ := is_sending_request_ f;
     local_request_over_ := local_request_over_ f; request_sender_ := request_sender_ f;
     router_config_ := router_config_ f |}.
Definition set_progress (complete suspend sending over : bool) (f : Filter) : Filter :=
  {| cache_key_ := cache_key_ f; response_to_cache_ := response_to_cache_ f;
     buffered_rqx_body_ := buffered_rqx_body_ f; buffered_rpx_body_ := buffered_rpx_body_ f;
     should_downgrade_ := should_downgrade_ f; downgrade_complete_ := complete;
     downgrade_suspend_ := suspend; should_cache_rpx_ := should_cache_rpx_ f;
     headers_only_resp_ := headers_only_resp_ f; is_sending_request_ := sending;
     local_request_over_ := over; request_sender_ := request_sender_ f;
     router_config_ := router_config_ f |}.
Definition set_sender (only : bool) (sender : option RequestSender) (f : Filter) : Filter :=
  {| cache_key_ := cache_key_ f; response_to_cache_ := response_to_cache_ f;
     buffered_rqx_body_ := buffered_rqx_body_ f; buffered_rpx_body_ := buffered_rpx_body_ f;
     should_downgrade_ := should_downgrade_ f; downgrade_complete_ := downgrade_complete_ f;
     downgrade_suspend_ := downgrade_suspend_ f; should_cache_rpx_ := should_cache_rpx_ f;
     headers_only_resp_ := only; is_sending_request_ := is_sending_request_ f;
     local_request_over_ := local_request_over_ f; request_sender_ := sender;
     router_config_ := router_config_ f |}.
Definition set_to_cache (key : string) (m : option (Message H)) (f : Filter) : Filter :=
  {| cache_key_ := key; response_to_cache_ := m;
     buffered_rqx_body_ := buffered_rqx_body_ f; buffered_rpx_body_ := buffered_rpx_body_ f;
     should_downgrade_ := should_downgrade_ f; downgrade_complete_ := downgrade_complete_ f;
     downgrade_suspend_ := downgrade_suspend_ f; should_cache_rpx_ := should_cache_rpx_ f;
     headers_only_resp_ := headers_only_resp_ f; is_sending_request_ := is_sending_request_ f;
     local_request_over_ := local_request_over_ f; request_sender_ := request_sender_ f;
     router_config_ := router_config_ f |}.
Definition set_config (c : option DynamicDowngradeRouteConfig) (f : Filter) : Filter :=
  {| cache_key_ := cache_key_ f; response_to_cache_ := response_to_cache_ f;
     buffered_rqx_body_ := buffered_rqx_body_ f; buffered_rpx_body_ := buffered_rpx_body_ f;
     should_downgrade_ := should_downgrade_ f; downgrade_complete_ := downgrade_complete_ f;
     downgrade_suspend_ := downgrade_suspend_ f; should_cache_rpx_ := should_cache_rpx_ f;
     headers_only_resp_ := headers_only_resp_ f; is_sending_request_ := is_sending_request_ f;
     local_request_over_ := local_request_over_ f; request_sender_ := request_sender_ f;
     router_config_ := c |}.

Definition decodeHeaders (route : option DynamicDowngradeRouteConfig) (headers : H) (f : Filter) : Filter :=
  let f := set_config route f in
  match route with
  | None => f
  | Some config => set_should (shouldDowngrade config headers DECODE) (should_cache_rpx_ f) f
  end.

Definition decodeData (data : string) (f : Filter) : outcome Filter :=
  if should_downgrade_ f then
    match router_config_ f with
    | None => Undefined "router_config_ is null"
    | Some config =>
        Ok (if negb (downgrade_with_cache_ config)
            then set_bodies (buffered_rqx_body_ f +:+ data) (buffered_rpx_body_ f) f else f)
    end
  else Ok f.

Definition onSuccess (response : Message H) (rpx_headers : H) (f : Filter) : Filter * H * list (effect H) :=
  if negb (is_sending_request_ f) then
    (set_progress (downgrade_complete_ f) (downgrade_suspend_ f) false true f, rpx_headers, [])
  else
    let f := set_progress (headers_only_resp_ f) (downgrade_suspend_ f) false (local_request_over_ f) f in
    let h := hm_addCopy "x-downgrade-status" "DYNAMIC" (replaceHeaders rpx_headers (Http.headers response)) in
    if downgrade_complete_ f then (f, h, [addEncodedData (body response); continueEncoding])
    else (set_bodies (buffered_rqx_body_ f) (buffered_rpx_body_ f +:+ body response) f, h, [continueEncoding]).

Definition onFailure (f : Filter) : Filter * list (effect H) :=
  if negb (is_sending_request_ f) then
    (set_progress (downgrade_complete_ f) (downgrade_suspend_ f) false true f, [])
  else
    (set_progress (downgrade_complete_ f) true false (local_request_over_ f) f, [continueEncoding]).

(** A callback the client makes while [send] runs. *)
Definition callback (o : option (AsyncResult H)) (rpx_headers : H) (f : Filter) : Filter :=
  match o with
  | Some (OnSuccess m) => (onSuccess m rpx_headers f).1.1
  | Some OnFailure => (onFailure f).1
  | None => f
  end.

(** [insertResponse] takes the message unless it is too large (CacheSender). *)
Definition left_over (m : Message H) : option (Message H) :=
  if MAX_CACHE_ENTRY_SIZE <? message_length m then Some m else None.

(** Making the sender: a sender of caches needs the configuration of caches. *)
Definition new_sender (env : Env) (config : DynamicDowngradeRouteConfig) : outcome RequestSender :=
  if downgrade_with_cache_ config then
    match usedCaches env with
    | Some _ => Ok (CacheSenderOf new_CacheRequestSender)
    | None => Undefined "the configuration of the sender is null"
    end
  else Ok (HttpxSenderOf false).

Definition specific_config (config : DynamicDowngradeRouteConfig) : outcome SpecificCacheConfig :=
  match cache_config_ config with Some c => Ok c | None => Undefined "cacheConfig() is null" end.

Definition key_of (env : Env) (config : SpecificCacheConfig) (request : H) : outcome string :=
  cacheKey removeQueryAndFragment parseQueryString (md5_hex env) (key_maker_config_ config) request
    (cache_key_prefix_ config).

(** A response that is not downgraded but stored. *)
Definition cache_response (env : Env) (config : DynamicDowngradeRouteConfig) (request response : H) (f : Filter) :
    outcome (FilterHeadersStatus * Filter * list (effect H)) :=
  let message := {| Http.headers := response; body := "" |} in
  let* specific := specific_config config in
  let* key := key_of env specific request in
  if headers_only_resp_ f then
    Ok (Continue, set_to_cache key (left_over message) f, [insertResponse key message])
  else Ok (Continue, set_to_cache key (Some message) f, []).

(** Sending the request: the status, the sender afterwards, the callback made inline, and, if
    a client or a cache was asked, whether its answer is pending: a cache answers later. *)
Definition send (env : Env) (config : DynamicDowngradeRouteConfig) (sender : RequestSender) (message : Message H) :
    outcome (bool * RequestSender * option (AsyncResult H) * option bool) :=
  match sender with
  | CacheSenderOf s =>
      let* specific := specific_config config in
      let* key := key_of env specific (Http.headers message) in
      let '(s', _, status) := CacheSender.sendRequest (H := H) (default 0%nat (usedCaches env)) key s in
      let oncall := match status with CacheSender.ONCALL => true | CacheSender.FAILED => false end in
      Ok (oncall, CacheSenderOf s', None, if oncall then Some true else None)
  | HttpxSenderOf _ =>
      let remote := match override_remote_ config with Some r => Some r | None => usedRemote env end in
      let '(status, request_, inline) := httpx_sendRequest (cm env) remote message in
      Ok (match status with ONCALL => true | FAILED => false end, HttpxSenderOf request_, inline,
          if httpx_reaches (cm env) remote then Some (httpx_pending (cm env) remote message) else None)
  end.

(** The request for another response; the cache is asked with the headers alone. *)
Definition downgrade_request (config : DynamicDowngradeRouteConfig) (request : H) (f : Filter) : Message H :=
  if downgrade_with_cache_ config then {| Http.headers := request; body := "" |}
  else {| Http.headers := redirect (downgrade_uri_ config) (replaceHeaders hm_empty request);
          body := buffered_rqx_body_ f |}.

Definition encodeHeaders (env : Env) (request response : H) (end_stream : bool) (f : Filter) :
    outcome (FilterHeadersStatus * Filter * list (effect H)) :=
  if negb (should_downgrade_ f) then Ok (Continue, f, [])
  else match router_config_ f with
  | None => Undefined "router_config_ is null"
  | Some config =>
      let should := shouldDowngrade config response ENCODE in
      let cache := if should then should_cache_rpx_ f else checkEnableCache config response in
      let f := set_should should cache f in
      if negb should && negb cache then Ok (Continue, f, [])
      else
        let* sender := new_sender env config in
        let f := set_sender end_stream (Some sender) f in
        if negb should && cache then cache_response env config request response f
        else
          let message := downgrade_request config request f in
          let f := if downgrade_with_cache_ config then f else set_bodies "" (buffered_rpx_body_ f) f in
          let* r := send env config sender message in
          let '(oncall, sender', inline, asked) := r in
          let f := callback inline response (set_sender end_stream (Some sender') f) in
          let effs := match asked with Some pending => [SendRequest message pending] | None => [] end in
          if oncall && negb (local_request_over_ f) then
            Ok (stop_status end_stream,
                set_progress (downgrade_complete_ f) (downgrade_suspend_ f) true (local_request_over_ f) f, effs)
          else Ok (Continue, set_progress (downgrade_complete_ f) true (is_sending_request_ f)
                               (local_request_over_ f) f, effs)
  end.

Definition encodeData (data : string) (end_stream : bool) (f : Filter) :
    outcome (FilterDataStatus * Filter * string * list (effect H)) :=
  if downgrade_complete_ f || downgrade_suspend_ f || (negb (should_downgrade_ f) && negb (should_cache_rpx_ f))
  then Ok (DataContinue, f, data, [])
  else if negb (should_downgrade_ f) && should_cache_rpx_ f then
    let f := set_bodies (buffered_rqx_body_ f) (buffered_rpx_body_ f +:+ data) f in
    match end_stream, request_sender_ f with
    | true, Some (CacheSenderOf _) =>
        match response_to_cache_ f with
        | None => Undefined "response_to_cache_ is null"
        | Some m =>
            let m' := {| Http.headers := Http.headers m; body := body m +:+ buffered_rpx_body_ f |} in
            Ok (DataContinue,
                set_to_cache (cache_key_ f) (left_over m') (set_bodies (buffered_rqx_body_ f) "" f),
                data, [insertResponse (cache_key_ f) m'])
        end
    | _, _ => Ok (DataContinue, f, data, [])
    end
  else if end_stream then
    Ok (DataContinue, set_progress true (downgrade_suspend_ f) (is_sending_request_ f) (local_request_over_ f)
          (set_bodies (buffered_rqx_body_ f) "" f), "", [addEncodedData (buffered_rpx_body_ f)])
  else Ok (StopIterationNoBuffer, f, "", []).

Definition onDestroy (f : Filter) : Filter * list (effect H) :=
  match request_sender_ f with
  | Some sender =>
      if is_sending_request_ f then
        match sender with
        | CacheSenderOf s => (set_sender (headers_only_resp_ f) (Some (CacheSenderOf (cancelLookup s))) f, [CancelRequest])
        | HttpxSenderOf request_ =>
            let '(request_', cancelled) := httpx_cancel request_ in
            (set_sender (headers_only_resp_ f) (Some (HttpxSenderOf request_')) f,
             if cancelled then [CancelRequest] else [])
        end
      else (f, [])
  | None => (f, [])
  end.

(** ** The interface *)

#[export] Instance dynamic_filter : DowngradeFilter H DynamicDowngradeRouteConfig Env Filter := {
  new_filter := new_Filter;
  decode_headers := decodeHeaders;
  decode_data := decodeData;
  encode_headers := encodeHeaders;
  encode_data := encodeData;
  on_success := onSuccess;
  on_failure := onFailure;
  on_destroy := onDestroy;
}.

(** Before the response. *)
Definition dynamic_fresh (f : Filter) : Prop :=
  buffered_rpx_body_ f = "" /\ downgrade_complete_ f = false /\ downgrade_suspend_ f = false /\
  should_cache_rpx_ f = false /\ is_sending_request_ f = false /\ local_request_over_ f = false /\
  (should_downgrade_ f = true -> is_Some (router_config_ f)).

(** A sender that can be cancelled. *)
Definition can_cancel (o : option RequestSender) : bool :=
  match o with Some (CacheSenderOf _) | Some (HttpxSenderOf true) => true | _ => false end.

Definition can_store (f : Filter) : bool :=
  match response_to_cache_ f, request_sender_ f with Some _, Some (CacheSenderOf _) => true | _, _ => false end.

(** A response that was stored before its end, and one that cannot be stored, have no more data. *)
Definition dynamic_mode (f : Filter) : Mode :=
  if is_sending_request_ f then
    if can_cancel (request_sender_ f) && should_downgrade_ f && negb (downgrade_complete_ f)
       && negb (downgrade_suspend_ f) && String.eqb (buffered_rpx_body_ f) ""
    then Sending (headers_only_resp_ f) else Other
  else if downgrade_complete_ f then Complete
  else if downgrade_suspend_ f then Passing
  else if should_downgrade_ f then Replacing (buffered_rpx_body_ f)
  else if should_cache_rpx_ f && negb (can_store f) then Complete
  else Passing.

(** A callback during [send] only sets [local_request_over_]. *)
Lemma dynamic_callback_inline inline h f :
  is_sending_request_ f = false ->
  callback inline h f = match inline with
    | Some _ => set_progress (downgrade_complete_ f) (downgrade_suspend_ f) false true f
    | None => f end.
Proof. intros Hs. destruct inline as [[m|]|]; cbn; unfold onSuccess, onFailure; by rewrite ?Hs. Qed.

(** A sender that was asked can be cancelled; its answer is pending unless it called back. *)
Lemma send_spec env config sender m oncall sender' inline asked :
  send env config sender m = Ok (oncall, sender', inline, asked) ->
  (oncall = true -> can_cancel (Some sender') = true) /\
  match asked with
  | Some pending => pending = oncall && match inline with None => true | Some _ => false end
  | None => oncall = false
  end.
Proof.
  destruct sender as [s|b]; cbn [send].
  - destruct (specific_config config) as [c|?|?|]; cbn [obind]; [|done..].
    destruct (key_of env c (Http.headers m)) as [k|?|?|]; cbn [obind]; [|done..].
    destruct (CacheSender.sendRequest _ k s) as [[s' calls] status]. intros [= <- <- <- <-]. by destruct status.
  - destruct (httpx_sendRequest _ _ m) as [[status request_] inl] eqn:Es. intros [= <- <- <- <-].
    destruct (sent_pending _ _ _ _ _ _ Es) as [-> ->]. destruct status; cbn; [by destruct (httpx_reaches _ _)|].
    by apply oncall_reaches in Es as [_ ->].
Qed.

Lemma cache_response_mode env config rq h f st f' effs :
  cache_response env config rq h f = Ok (st, f', effs) ->
  st = Continue /\ Forall is_insert effs /\ is_sending_request_ f' = is_sending_request_ f /\
  downgrade_complete_ f' = downgrade_complete_ f /\ downgrade_suspend_ f' = downgrade_suspend_ f /\
  should_downgrade_ f' = should_downgrade_ f /\ should_cache_rpx_ f' = should_cache_rpx_ f /\
  request_sender_ f' = request_sender_ f /\ (headers_only_resp_ f = false -> is_Some (response_to_cache_ f')).
Proof.
  unfold cache_response. destruct (specific_config config) as [c|?|?|]; cbn [obind]; [|done..].
  destruct (key_of env c rq) as [k|?|?|]; cbn [obind]; [|done..].
  destruct (headers_only_resp_ f); intros [= <- <- <-]; cbn; split_and!; try done; eauto.
  by repeat constructor.
Qed.

(** Asking for another response. *)
Lemma downgrade_mode env config sender m end_stream (g f' : Filter) h st effs :
  buffered_rpx_body_ g = "" -> downgrade_complete_ g = false -> downgrade_suspend_ g = false ->
  is_sending_request_ g = false -> should_downgrade_ g = true -> local_request_over_ g = false ->
  (let* r := send env config sender m in
   let '(oncall, sender', inline, asked) := r in
   let f := callback inline h (set_sender end_stream (Some sender') g) in
   let effs := match asked with Some pending => [SendRequest m pending] | None => [] end in
   if oncall && negb (local_request_over_ f) then
     Ok (stop_status end_stream,
         set_progress (downgrade_complete_ f) (downgrade_suspend_ f) true (local_request_over_ f) f, effs)
   else Ok (Continue, set_progress (downgrade_complete_ f) true (is_sending_request_ f)
                        (local_request_over_ f) f, effs)) = Ok (st, f', effs) ->
  (st = Continue /\ dynamic_mode f' = Passing /\ (effs = [] \/ exists m, effs = [SendRequest m false])) \/
  (st = stop_status end_stream /\ dynamic_mode f' = Sending end_stream /\ exists m, effs = [SendRequest m true]).
Proof.
  intros Hb Hc Hsu Hs Hd Hl. destruct (send env config sender m) as [[[[oncall sender'] inline] asked]|?|?|] eqn:Es;
    cbn [obind]; [|done..].
  rewrite dynamic_callback_inline by done. set (k := match inline with Some _ => _ | None => _ end).
  assert (Hk : should_downgrade_ k = true /\ downgrade_complete_ k = false /\ downgrade_suspend_ k = false /\
      is_sending_request_ k = false /\ buffered_rpx_body_ k = "" /\ headers_only_resp_ k = end_stream /\
      request_sender_ k = Some sender' /\ negb (local_request_over_ k) = match inline with None => true | Some _ => false end)
    by (unfold k; destruct inline; cbn; by rewrite ?Hl; split_and!).
  clearbody k. destruct Hk as (Hk1 & Hk2 & Hk3 & Hk4 & Hk5 & Hk6 & Hk7 & Hk8).
  apply send_spec in Es as [Hcan Hasked]. rewrite Hk8.
  destruct (oncall && match inline with None => true | Some _ => false end) eqn:Eo; intros [= <- <- <-].
  - right. apply andb_prop in Eo as [-> _]. specialize (Hcan eq_refl). destruct asked as [pending|]; [subst pending|done].
    split; [done|]. split; [|eauto]. unfold dynamic_mode. cbn. by rewrite Hk1, Hk2, Hk3, Hk5, Hk6, Hk7, Hcan.
  - left. split; [done|]. split; [|destruct asked; subst; eauto]. unfold dynamic_mode. cbn. by rewrite Hk4, Hk2.
Qed.

Lemma dynamic_encode_headers env rq h end_stream f st f' effs :
  dynamic_fresh f -> encodeHeaders env rq h end_stream f = Ok (st, f', effs) ->
  (st = Continue /\ (dynamic_mode f' = Passing \/ end_stream = true /\ dynamic_mode f' = Complete) /\
     (Forall is_insert effs \/ exists m, effs = [SendRequest m false])) \/
  (st = stop_status end_stream /\ dynamic_mode f' = Sending end_stream /\ exists m, effs = [SendRequest m true]).
Proof.
  intros (Hb & Hc & Hsu & Hca & Hs & Hl & Hcfg) He. unfold encodeHeaders in He.
  destruct (should_downgrade_ f) eqn:Ed; cbn [negb] in He.
  2: { injection He as <- <- <-. left. split; [done|]. split; [|left; constructor]. left.
       unfold dynamic_mode. by rewrite Hs, Hc, Hsu, Ed, Hca. }
  destruct (router_config_ f) as [config|]; [|done]. cbv zeta in He.
  destruct (shouldDowngrade config h ENCODE); cbn [negb andb] in He.
  - destruct (new_sender env config) as [sender|?|?|]; cbn [obind] in He; [|done..].
    apply downgrade_mode in He; [|destruct (downgrade_with_cache_ config); by cbn..].
    destruct He as [(-> & ? & [-> | ?])|?]; [left..|by right]; (split; [done|]); (split; [by left|]); [by left; constructor|by right].
  - left. destruct (checkEnableCache config h) eqn:Eca; cbn [negb] in He.
    2: { injection He as <- <- <-. split; [done|]. split; [|left; constructor]. left.
         unfold dynamic_mode. cbn. by rewrite Hs, Hc, Hsu. }
    destruct (new_sender env config) as [sender|?|?|] eqn:Es; cbn [obind] in He; [|done..].
    apply cache_response_mode in He as (-> & Hins & H1 & H2 & H3 & H4 & H5 & H6 & H7).
    cbn in H1, H2, H3, H4, H5, H6, H7. split; [done|]. split; [|by left].
    unfold dynamic_mode. rewrite H1, H2, H3, H4, H5, Hs, Hc, Hsu. cbn [andb].
    unfold can_store. rewrite H6. unfold checkEnableCache in Eca. unfold new_sender in Es.
    destruct (downgrade_with_cache_ config); [|by rewrite orb_true_r in Eca].
    destruct (usedCaches env); [|done]. injection Es as <-.
    destruct end_stream; [|destruct (H7 eq_refl) as [? ->]; left; by destruct (should_cache_rpx_ f')].
    destruct (response_to_cache_ f'); cbn; auto.
Qed.

(** What the modes say of the members. *)
Lemma dynamic_sending f only :
  dynamic_mode f = Sending only ->
  is_sending_request_ f = true /\ can_cancel (request_sender_ f) = true /\ should_downgrade_ f = true /\
  downgrade_complete_ f = false /\ downgrade_suspend_ f = false /\ buffered_rpx_body_ f = "" /\
  headers_only_resp_ f = only.
Proof.
  unfold dynamic_mode. destruct (is_sending_request_ f).
  - destruct (can_cancel _ && _ && _ && _ && _) eqn:E; [|done]. intros [= <-].
    rewrite !andb_true_iff, !negb_true_iff, String.eqb_eq in E. tauto.
  - destruct (downgrade_complete_ f), (downgrade_suspend_ f), (should_downgrade_ f); try done.
    by destruct (_ && _).
Qed.

Lemma dynamic_still f m :
  dynamic_mode f = m -> match m with Passing | Replacing _ => True | _ => False end ->
  is_sending_request_ f = false /\ downgrade_complete_ f = false /\
  match m with
  | Replacing b => should_downgrade_ f = true /\ downgrade_suspend_ f = false /\ buffered_rpx_body_ f = b
  | _ => downgrade_suspend_ f = true \/
         downgrade_suspend_ f = false /\ should_downgrade_ f = false /\ (should_cache_rpx_ f = true -> can_store f = true)
  end.
Proof.
  intros <-. unfold dynamic_mode. destruct (is_sending_request_ f); [by destruct (_ && _)|].
  destruct (downgrade_complete_ f); [done|].
  destruct (downgrade_suspend_ f); [by auto|]. destruct (should_downgrade_ f); [done|].
  destruct (should_cache_rpx_ f), (can_store f); cbn; try done; intros _; (split; [done|]); (split; [done|]); by right.
Qed.

Lemma dynamic_data_passing d end_stream f :
  dynamic_mode f = Passing ->
  match encodeData d end_stream f with
  | Ok (st, f', d', effs) =>
      st = DataContinue /\ d' = d /\ (dynamic_mode f' = Passing \/ end_stream = true /\ dynamic_mode f' = Complete) /\
      Forall is_insert effs
  | _ => False
  end.
Proof.
  intros Hm. destruct (dynamic_still f _ Hm) as (Hs & Hc & Hp); [done|]. unfold encodeData. rewrite Hc.
  destruct Hp as [-> | (Hsu & Hd & Hstore)]; cbn [orb]; [by auto|]. rewrite Hsu, Hd. cbn [orb negb andb].
  destruct (should_cache_rpx_ f) eqn:Eca; cbn [negb]; [|by auto]. specialize (Hstore eq_refl).
  unfold can_store in Hstore. destruct (response_to_cache_ f) as [m|] eqn:Er; [|done].
  destruct (request_sender_ f) as [[s|]|] eqn:Ese; try done. destruct end_stream; cbn.
  - rewrite Ese, Er. cbn. (split; [done|]); (split; [done|]); split; [|by repeat constructor]. unfold dynamic_mode. cbn. rewrite Hs, Hc, Hsu, Hd, Eca.
    unfold can_store. cbn. rewrite Ese. destruct (left_over _); auto.
  - (split; [done|]); (split; [done|]); split; [|by constructor]. left. unfold dynamic_mode. cbn. rewrite Hs, Hc, Hsu, Hd, Eca.
    unfold can_store. cbn. by rewrite Er, Ese.
Qed.

#[export] Instance dynamic_laws : DowngradeLaws H DynamicDowngradeRouteConfig Env Filter.
Proof.
  refine {| mark := "DYNAMIC"; Downgrade.fresh := dynamic_fresh; mode := dynamic_mode |};
    cbn [new_filter decode_headers decode_data encode_headers encode_data on_success on_failure on_destroy
         dynamic_filter].
  - done.
  - intros f (_ & Hc & Hsu & Hca & Hs & _). unfold dynamic_mode. rewrite Hs, Hc, Hsu, Hca.
    by destruct (should_downgrade_ f).
  - intros rc h. unfold decodeHeaders. by destruct rc as [config|]; split_and!; cbn.
  - intros d f (Hb & Hc & Hsu & Hca & Hs & Hl & Hcfg). unfold decodeData.
    destruct (should_downgrade_ f) eqn:E; [destruct (Hcfg eq_refl) as [config Hconf]; rewrite Hconf|];
      eexists; (split; [done|]); [destruct (downgrade_with_cache_ config)|]; split_and!; cbn; try done; by rewrite ?E.
  - intros d f f'. unfold decodeData. destruct (should_downgrade_ f); [|by intros [= <-]].
    destruct (router_config_ f) as [config|]; [|done]. intros [= <-]. by destruct (negb _).
  - apply dynamic_encode_headers.
  - intros m h f only (Hs & _ & Hd & Hc & Hsu & Hb & Ho)%dynamic_sending. unfold onSuccess.
    rewrite Hs. cbn [negb downgrade_complete_ set_progress buffered_rqx_body_ buffered_rpx_body_]. rewrite Ho, Hb.
    destruct only; eexists; (split; [reflexivity|]); unfold dynamic_mode; cbn; by rewrite ?Hd, ?Hsu, ?Hb.
  - intros f only (Hs & _ & Hd & Hc & Hsu & Hb & Ho)%dynamic_sending. unfold onFailure. rewrite Hs. cbn [negb].
    eexists. split; [reflexivity|]. unfold dynamic_mode. cbn. by rewrite Hc.
  - apply dynamic_data_passing.
  - intros d end_stream f b Hm. destruct (dynamic_still f _ Hm) as (Hs & Hc & Hd & Hsu & Hb); [done|].
    unfold encodeData. rewrite Hc, Hd, Hsu. cbn [negb orb andb].
    destruct end_stream; eexists; (split; [by rewrite ?Hb|]); [|done]. unfold dynamic_mode. cbn. by rewrite Hs.
  - intros f. destruct (dynamic_mode f) as [|only| | |] eqn:Em; intros Hne; try done; unfold onDestroy.
    all: try (assert (Hs : is_sending_request_ f = false)
      by (unfold dynamic_mode in Em; destruct (is_sending_request_ f); [by destruct (_ && _)|done]);
      rewrite Hs; by destruct (request_sender_ f)).
    apply dynamic_sending in Em as (-> & Hcan & _). destruct (request_sender_ f) as [[s|[]]|]; done.
Defined.

(** ** Properties *)

(** C12. A response is never held back in vain.  While nothing of it has gone on, a request of the filter
    that a client or the caches have taken and not yet answered is pending, and each outcome of it
    resumes the response: an answer with its own headers marked DYNAMIC, a failure with
    the original headers.  A request that the client has answered while it was being
    sent does not hold the response back.  When the stream ends instead, the request is
    cancelled, once, and only if it is pending. *)
Theorem dynamic_downgrade_resumes (es : list (event (H := H) (R := DynamicDowngradeRouteConfig) (E := Env)))
    (s : Stream (H := H) (F := Filter)) h :
  run new_stream es = Ok (Some s) -> alive s = true -> original s = Some h ->
  (forwarded s = None ->
     (forall m, exists s', step s (Reply (R := DynamicDowngradeRouteConfig) (E := Env) m) = Ok (Some s') /\
        forwarded s' = Some (hm_addCopy "x-downgrade-status" "DYNAMIC" (replaceHeaders hm_empty (Http.headers m)))) /\
     (exists s', step s (ReplyFailure (R := DynamicDowngradeRouteConfig) (E := Env)) = Ok (Some s') /\
        forwarded s' = Some h)) /\
  exists s', step s (Destroy (R := DynamicDowngradeRouteConfig) (E := Env)) = Ok (Some s') /\
    outstanding s' = false /\ cancelled s' = match forwarded s with None => 1%nat | Some _ => 0%nat end.
Proof. exact (response_resumes es s h). Qed.

(** The calls of the sender delivered to the filter, in order. *)
Fixpoint deliver (calls : list (CacheSender.call (H := H))) (h : H) (f : Filter) : Filter * H * list (effect H) :=
  match calls with
  | [] => (f, h, [])
  | OriginSuccess m :: calls' =>
      let '(f, h, effs) := onSuccess m h f in
      let '(f, h, effs') := deliver calls' h f in (f, h, effs ++ effs')
  | OriginFailure :: calls' =>
      let '(f, effs) := onFailure f in
      let '(f, h, effs') := deliver calls' h f in (f, h, effs ++ effs')
  | _ :: calls' => deliver calls' h f
  end.

(** The message of the first cache that has an entry. *)
Fixpoint first_message (answers : list (option (HttpCacheEntry H))) : option (Message H) :=
  match answers with
  | [] => None
  | Some e :: _ => cache_message_ e
  | None :: rest => first_message rest
  end.

Lemma deliver_lookup key i answers f h only :
  dynamic_mode f = Sending only ->
  (deliver (lookup_calls key i answers) h f).1.2 =
    match first_message answers with Some m => marked "DYNAMIC" m | None => h end /\
  (deliver (lookup_calls key i answers) h f).2 =
    match first_message answers with
    | Some m => (if only then [addEncodedData (body m)] else []) ++ [continueEncoding]
    | None => [continueEncoding]
    end.
Proof.
  intros Hm.
  assert (Hok : forall m, (deliver [OriginSuccess m] h f).1.2 = marked "DYNAMIC" m /\
    (deliver [OriginSuccess m] h f).2 = (if only then [addEncodedData (body m)] else []) ++ [continueEncoding]).
  { intros m. pose proof (on_success_mode (R := DynamicDowngradeRouteConfig) (E := Env) m h f only) as Hlaw.
    destruct (Hlaw Hm) as (f' & Hf' & _). cbn [on_success dynamic_filter] in Hf'.
    cbn [deliver]. rewrite Hf'. cbn. by rewrite app_nil_r. }
  assert (Hno : (deliver [OriginFailure] h f).1.2 = h /\ (deliver [OriginFailure] h f).2 = [continueEncoding]).
  { pose proof (on_failure_mode (R := DynamicDowngradeRouteConfig) (E := Env) f only) as Hlaw.
    destruct (Hlaw Hm) as (f' & Hf' & _). cbn [on_failure dynamic_filter] in Hf'.
    cbn [deliver]. by rewrite Hf'. }
  revert i. induction answers as [|[e|] answers IH]; intros i; cbn [lookup_calls first_message].
  - exact Hno.
  - cbn [deliver]. destruct (cache_message_ e) as [m|]; [apply Hok|exact Hno].
  - cbn [deliver]. apply IH.
Qed.

Lemma deliver_tail c calls h f :
  match c with AskCache _ _ => True | _ => False end -> deliver (c :: calls) h f = deliver calls h f.
Proof. by destruct c. Qed.

(** The sender of a filter that waits for the caches has asked the first one. *)
Lemma sender_waits env config rq h end_stream f f' st effs n :
  dynamic_fresh f -> router_config_ f = Some config -> downgrade_with_cache_ config = true ->
  usedCaches env = Some n ->
  encodeHeaders env rq h end_stream f = Ok (st, f', effs) -> st = stop_status end_stream ->
  dynamic_mode f' = Sending end_stream /\ (0 < n)%nat /\
  exists s key, request_sender_ f' = Some (CacheSenderOf s) /\ CacheSender.waiting key 0 s.
Proof.
  intros Hf Hcfg Hwith Hn He Hst.
  destruct (dynamic_encode_headers _ _ _ _ _ _ _ _ Hf He) as [(-> & _)|(_ & Hm & _)]; [by destruct end_stream|].
  split; [done|]. destruct Hf as (Hb & Hc & Hsu & Hca & Hs & Hl & _). revert He. unfold encodeHeaders.
  destruct (should_downgrade_ f); cbn [negb]; [|intros [= <- <- <-]; by destruct end_stream].
  rewrite Hcfg. cbv zeta. destruct (shouldDowngrade config h ENCODE); cbn [negb andb].
  2: { destruct (checkEnableCache config h); cbn [negb]; [|intros [= <- <- <-]; by destruct end_stream].
       destruct (new_sender env config); cbn [obind]; [|done..].
       intros (-> & _)%cache_response_mode. by destruct end_stream. }
  unfold new_sender. rewrite Hwith, Hn. cbn [obind send].
  destruct (specific_config config) as [c|?|?|]; cbn [obind]; [|done..].
  destruct (key_of env c _) as [key|?|?|]; cbn [obind]; [|done..]. rewrite Hn. change (default 0%nat (Some n)) with n.
  destruct (Nat.eq_dec n 0%nat) as [->|Hne].
  - cbn. intros [= <- <- <-]. by destruct end_stream.
  - destruct (sent_waiting (H := H) n key ltac:(lia)) as [Hw _].
    assert (Hst' : (CacheSender.sendRequest (H := H) n key new_CacheRequestSender).2 = CacheSender.ONCALL).
    { unfold CacheSender.sendRequest, getter_lookupCache. by destruct (Nat.eqb_spec n 0%nat). }
    destruct (CacheSender.sendRequest n key new_CacheRequestSender) as [[s calls] status]. cbn in Hw, Hst'. subst status.
    cbn. rewrite Hl. cbn. intros [= <- <- <-]. cbn. split; [lia|]. eauto.
Qed.

(** C24. A response held back for the caches is always resumed by their answers.  Once every cache has
    answered, in the order in which they are asked, the client gets the message of the first that has
    an entry, its headers marked DYNAMIC and its body now if the original response has none;
    if no cache has one, the original response goes on. *)
Theorem dynamic_downgrade_from_cache env config rq h end_stream (f f' : Filter) st effs n answers more :
  dynamic_fresh f -> router_config_ f = Some config -> downgrade_with_cache_ config = true ->
  usedCaches env = Some n ->
  encodeHeaders env rq h end_stream f = Ok (st, f', effs) -> st = stop_status end_stream ->
  length answers = n ->
  exists s, request_sender_ f' = Some (CacheSenderOf s) /\
    let calls := (lookup_run n s (map CacheAnswer answers ++ more)).2 in
    (deliver calls h f').1.2 =
      match first_message answers with
      | Some m => hm_addCopy "x-downgrade-status" "DYNAMIC" (replaceHeaders hm_empty (Http.headers m))
      | None => h
      end /\
    (deliver calls h f').2 =
      match first_message answers with
      | Some m => (if end_stream then [addEncodedData (body m)] else []) ++ [continueEncoding]
      | None => [continueEncoding]
      end.
Proof.
  intros Hf Hcfg Hwith Hn He Hst Hlen.
  destruct (sender_waits _ _ _ _ _ _ _ _ _ _ Hf Hcfg Hwith Hn He Hst) as (Hm & Hpos & s & key & Hs & Hw).
  exists s. split; [done|].
  destruct (answers_run n key 0 s answers more Hw ltac:(lia)) as [Hcalls _]; [by intros ->; cbn in Hlen; lia|].
  cbv zeta. rewrite <- (deliver_tail (AskCache 0 key)) by done. rewrite Hcalls. by apply deliver_lookup.
Qed.

(** The data of a response through the filter: what goes on, and the effects. *)
Fixpoint encode_all (pieces : list string) (last : string) (f : Filter) :
    outcome (Filter * list string * list (effect H)) :=
  match pieces with
  | [] =>
      let* r := encodeData last true f in
      let '(_, f, data, effs) := r in Ok (f, [data], effs)
  | piece :: rest =>
      let* r := encodeData piece false f in
      let '(_, f, data, effs) := r in
      let* r' := encode_all rest last f in
      let '(f, datas, effs') := r' in Ok (f, data :: datas, effs ++ effs')
  end.

Definition concat_strings (l : list string) : string := fold_right String.append "" l.

Lemma encode_stores m s pieces last f :
  downgrade_complete_ f = false -> downgrade_suspend_ f = false -> should_downgrade_ f = false ->
  should_cache_rpx_ f = true -> response_to_cache_ f = Some m -> request_sender_ f = Some (CacheSenderOf s) ->
  exists f', encode_all pieces last f = Ok (f', pieces ++ [last],
    [insertResponse (cache_key_ f)
       {| Http.headers := Http.headers m;
          body := body m +:+ (buffered_rpx_body_ f +:+ (concat_strings pieces +:+ last)) |}]).
Proof.
  revert f. induction pieces as [|p pieces IH]; intros f Hc Hsu Hd Hca Hr Hs; cbn [encode_all];
    unfold encodeData; rewrite Hc, Hsu, Hd, Hca; cbn [orb negb andb].
  - cbn. rewrite Hs, Hr. cbn. eauto.
  - cbn [obind]. destruct (IH (set_bodies (buffered_rqx_body_ f) (buffered_rpx_body_ f +:+ p) f)) as [f' Hf'];
      [done..|]. rewrite Hf'. cbn. rewrite !string_app_assoc. eauto.
Qed.

(** A response that the route caches passes as it is, and when it has ended all of it has been given to the
    sender of the caches: under the key of its request, with its headers and the whole of its
    body. *)
Theorem dynamic_downgrade_stores env config c rq rq' h end_stream pieces last n key :
  shouldDowngrade config rq DECODE = true -> shouldDowngrade config h ENCODE = false ->
  checkEnableCache config h = true -> cache_config_ config = Some c -> usedCaches env = Some n ->
  key_of env c rq' = Ok key ->
  exists f effs,
    encodeHeaders env rq' h end_stream (decodeHeaders (Some config) rq new_Filter) = Ok (Continue, f, effs) /\
    if end_stream then effs = [insertResponse key {| Http.headers := h; body := "" |}]
    else effs = [] /\ exists f',
      encode_all pieces last f =
        Ok (f', pieces ++ [last],
            [insertResponse key {| Http.headers := h; body := concat_strings pieces +:+ last |}]).
Proof.
  intros Hrq Hrp Hcache Hc Hn Hkey. unfold decodeHeaders, encodeHeaders. rewrite Hrq.
  cbn [should_downgrade_ set_should negb router_config_ set_config]. rewrite Hrp, Hcache. cbn [negb andb].
  assert (Hs : new_sender env config = Ok (CacheSenderOf new_CacheRequestSender)).
  { unfold new_sender. unfold checkEnableCache in Hcache.
    destruct (downgrade_with_cache_ config); [by rewrite Hn|by rewrite orb_true_r in Hcache]. }
  rewrite Hs. cbn [obind]. unfold cache_response, specific_config. rewrite Hc. cbn [obind]. rewrite Hkey. cbn [obind].
  destruct end_stream; cbn [headers_only_resp_ set_sender]; eexists _, _; (split; [reflexivity|]); [done|].
  split; [done|]. set (f := set_to_cache _ _ _).
  exact (encode_stores {| Http.headers := h; body := "" |} new_CacheRequestSender pieces last f
    eq_refl eq_refl eq_refl eq_refl eq_refl eq_refl).
Qed.

End filter.

(** ** Witnesses *)

(** Responses with status 503 are replaced from the caches, those with 200 are stored. *)
Definition example_route : @DynamicDowngradeRouteConfig (string * string) :=
  new_DynamicDowngradeRouteConfig {| downgrade_rqx := []; downgrade_rpx := [(":status", "503")];
    cache_rpx_rpx := [(":status", "200")]; downgrade_src := CACHE; downgrade_uri := "";
    proto_override_remote := None;
    key_maker := {| exclude_host := false; exclude_path := false; ignore_case := false;
                    query_params := []; headers_keys := [] |};
    cache_ttls := [("LocalCache", {| ttl_default := 60; ttl_customs := [] |})] |}.

Definition example_env : @Env alist :=
  {| cm := fun _ => None; usedRemote := None; usedCaches := Some 2%nat; md5_hex := fun s => s |}.

Definition example_request : alist := [(":method", "GET"); (":authority", "h"); (":path", "/p")].
Definition example_response : alist := [(":status", "503")].
Definition example_answer : Message alist := {| Http.headers := [(":status", "200")]; body := "cached" |}.
Definition example_fresh : @Filter alist (string * string) :=
  decodeHeaders (Some example_route) example_request new_Filter.

Lemma dynamic_downgrade_resumes_witness :
  exists s : Stream (H := alist) (F := Filter),
    run (E := @Env alist) new_stream
      [DecodeHeaders (Some example_route) example_request;
       EncodeHeaders example_env example_request example_response false] = Ok (Some s) /\
    forwarded s = None /\
    exists s', step s (ReplyFailure (R := @DynamicDowngradeRouteConfig (string * string)) (E := @Env alist)) = Ok (Some s') /\
      forwarded s' = Some example_response.
Proof.
  eexists. split; [vm_compute; reflexivity|]. split; [reflexivity|].
  match goal with |- exists s', step ?s _ = _ /\ _ =>
    exact (proj2 (proj1 (dynamic_downgrade_resumes
      [DecodeHeaders (Some example_route) example_request;
       EncodeHeaders example_env example_request example_response false] s example_response
      eq_refl eq_refl eq_refl) eq_refl))
  end.
Defined.

(** The second cache has the response. *)
Lemma dynamic_downgrade_from_cache_witness :
  exists (f' : @Filter alist (string * string)) s, request_sender_ f' = Some (CacheSenderOf s) /\
    (deliver (lookup_run 2 s [CacheAnswer None; CacheAnswer (Some (new_entry (Some example_answer) 0))]).2
       example_response f').1.2 = [(":status", "200"); ("x-downgrade-status", "DYNAMIC")].
Proof.
  destruct (encodeHeaders example_env example_request example_response false example_fresh) as [[[st f'] effs]|?|?|] eqn:E;
    [|discriminate E..].
  exists f'. assert (Hst : st = stop_status false) by (revert E; vm_compute; by intros [= <- _ _]).
  assert (Hf : dynamic_fresh example_fresh) by (vm_compute; repeat split; eauto).
  destruct (dynamic_downgrade_from_cache example_env example_route example_request example_response false example_fresh
    f' st effs 2 [None; Some (new_entry (Some example_answer) 0)] [] Hf eq_refl eq_refl eq_refl E Hst eq_refl)
    as (s & Hs & Hd & _).
  exists s. split; [exact Hs|exact Hd].
Defined.

Lemma dynamic_downgrade_stores_witness :
  exists (f f' : @Filter alist (string * string)) key, encodeHeaders example_env example_request [(":status", "200")] false example_fresh = Ok (Continue, f, []) /\
    encode_all ["a"; "b"] "c" f =
      Ok (f', ["a"; "b"; "c"], [insertResponse key {| Http.headers := [(":status", "200")]; body := "abc" |}]).
Proof.
  assert (Hc : exists c key, cache_config_ example_route = Some c /\
    key_of (api := simple_MatcherApi) example_env c example_request = Ok key)
    by (eexists _, _; split; vm_compute; reflexivity).
  destruct Hc as (c & key & Hc & Hkey).
  destruct (dynamic_downgrade_stores (api := simple_MatcherApi) example_env example_route c example_request
    example_request [(":status", "200")] false ["a"; "b"] "c" 2 key eq_refl eq_refl eq_refl Hc eq_refl Hkey)
    as (f & effs & He & -> & f' & Hf').
  exists f, f', key. split; [exact He|exact Hf'].
Defined.

End Dynamic.
