(* ===== verification/HeaderRewrite.v ===== *)
(** * The header rewrite filter (source/filters/http/header_rewrite)

    Extractors put parts of a request or response into a context; rewriters change headers, the
    path and the query parameters by templates over it.  RE2, the templates, the
    environment and the printer of query strings are parameters ([RewriteApi]). *)

From S2P Require Import Prelude Http ProxyMatcher.
From Stdlib Require Import Ascii.
From stdpp Require Import base gmap strings numbers list.
#[local] Open Scope proxy_scope.

(** [FullMatchN] gives the texts of the groups of a match of the whole text. *)
Class RewriteApi (Regex Template : Type) := {
  re2_compile : string -> outcome Regex;
  NumberOfCapturingGroups : Regex -> nat;
  FullMatchN : Regex -> string -> option (list string);
  template_parse : string -> outcome Template;
  template_render : Template -> gmap string string -> outcome string;
  getenv : string -> option string;
  queryParamsToString : gmap string string -> string;
}.

Module Rewrite.
Section filter.
Context {H StringMatcher HeaderMatcher QueryParameterMatcher Regex Template : Type}
  `{!HeaderMap H, api : !MatcherApi H StringMatcher HeaderMatcher QueryParameterMatcher,
    rapi : !RewriteApi Regex Template}.

Abbreviation Matchers := (list (@Matcher StringMatcher HeaderMatcher QueryParameterMatcher)).
Abbreviation MatcherProto := (@CommonMatcherProto StringMatcher HeaderMatcher QueryParameterMatcher).
Abbreviation ContextDict := (gmap string string).
Abbreviation Parameters := (gmap string string).

(** ** Configuration *)

Inductive ProtoSource :=
| kHeaderName (s : string) | kPath | kParameter (s : string) | kEnvironment (s : string) | SOURCE_NOT_SET.
Record ProtoExtractor := { source : ProtoSource; regex : string; group : nat }.

Inductive ProtoTarget := TargetHeader (s : string) | TargetPath | TargetParameter (s : string) | TARGET_NOT_SET.
Inductive ProtoOperation := kUpdate (s : string) | kAppend (s : string) | kRemove | OPERATION_NOT_SET.
Record ProtoRewriter := { target : ProtoTarget; operation : ProtoOperation; matcher : option MatcherProto }.

(** The map of extractors is given in the order in which its entries come. *)
Record ProtoExtractorRewriter := { extractors : list (string * ProtoExtractor); rewriters : list ProtoRewriter }.
Record ProtoHeaderRewrite := {
  decoder_rewriters : ProtoExtractorRewriter;
  encoder_rewriters : ProtoExtractorRewriter;
  proto_clear_route_cache : bool;
}.

(** ** Extractors *)

(** The functions an extractor can hold. *)
Inductive ExtractorF :=
| FromHeader (name : string) | FromParameter (name : string) | FromPath | FromEnvironment (env_value : string).

Record Extractor := { extractor_func_ : ExtractorF; group_ : nat; regex_ : option Regex }.

(** The name is that of the one source that has one. *)
Definition source_name (s : ProtoSource) : string :=
  match s with kHeaderName n | kParameter n | kEnvironment n => n | _ => "" end.

Definition new_regex (p : ProtoExtractor) : outcome (nat * option Regex) :=
  if negb (String.eqb (regex p) "") && negb (group p =? 0)%nat then
    let* r := re2_compile (regex p) in
    if (NumberOfCapturingGroups r <? group p)%nat then Throw "Group is but pattern only has"
    else Ok (group p, Some r)
  else Ok (0%nat, None).

Definition new_Extractor (p : ProtoExtractor) : outcome Extractor :=
  let* r := new_regex p in
  let name := source_name (source p) in
  let header_name := to_lower name in
  let env_value := default "" (getenv name) in
  let* f := match source p with
            | kHeaderName _ => Ok (FromHeader header_name)
            | kParameter _ => Ok (FromParameter name)
            | kPath => Ok FromPath
            | kEnvironment _ => Ok (FromEnvironment env_value)
            | SOURCE_NOT_SET => Throw "Unknown source type for header rewrite extractor"
            end in
  Ok {| extractor_func_ := f; group_ := r.1; regex_ := r.2 |}.

Definition extractor_run (f : ExtractorF) (h : H) (p : string) (q : Parameters) : string :=
  match f with
  | FromHeader name => match hm_get name h with v :: _ => v | [] => "" end
  | FromParameter name => default "" (q !! name)
  | FromPath => p
  | FromEnvironment v => v
  end.

(** Only the last of the arguments [RegexArgs] gives to [FullMatchN] stores its group. *)
Definition extract (e : Extractor) (headers : H) (path : string) (params : Parameters) : string :=
  let value := extractor_run (extractor_func_ e) headers path params in
  match regex_ e with
  | Some r =>
      if String.eqb value "" || (group_ e =? 0)%nat then value
      else match FullMatchN r value with
           | Some groups => nth (group_ e - 1) groups ""
           | None => ""
           end
  | None => value
  end.

(** ** Rewriters *)

(** The functions a rewriter can hold. *)
Inductive RewriterF :=
| RemoveHeader (name : string) | RemoveParameter (name : string)
| AppendHeader (name : string) | AppendPath | AppendParameter (name : string)
| UpdateHeader (name : string) | UpdatePath | UpdateParameter (name : string).

Record Rewriter := {
  rewriter_func_ : option RewriterF;
  template_ : Template;
  matcher_ : option Matchers;
}.

Definition template_string (o : ProtoOperation) : string :=
  match o with kUpdate s | kAppend s => s | _ => "" end.
Definition target_name (t : ProtoTarget) : string :=
  match t with TargetHeader n | TargetParameter n => n | _ => "" end.

Definition updates_path (t : ProtoTarget) : bool :=
  match t with TargetParameter _ | TargetPath => true | _ => false end.

(** A rewriter, and whether it sets [would_update_path_] of its configuration. *)
Definition new_Rewriter (p : ProtoRewriter) : outcome (Rewriter * bool) :=
  let matcher_ := new_CommonMatcher <$> matcher p in
  let* template_ := template_parse (template_string (operation p)) in
  let name := target_name (target p) in
  let header_name := to_lower name in
  let* f := match operation p, target p with
            | kRemove, TargetHeader _ => Ok (Some (RemoveHeader header_name))
            | kRemove, TargetPath => Ok None
            | kRemove, TargetParameter _ => Ok (Some (RemoveParameter name))
            | kAppend _, TargetHeader _ => Ok (Some (AppendHeader header_name))
            | kAppend _, TargetPath => Ok (Some AppendPath)
            | kAppend _, TargetParameter _ => Ok (Some (AppendParameter name))
            | kUpdate _, TargetHeader _ => Ok (Some (UpdateHeader header_name))
            | kUpdate _, TargetPath => Ok (Some UpdatePath)
            | kUpdate _, TargetParameter _ => Ok (Some (UpdateParameter name))
            | _, _ => Throw "Un-supported target: or operation: for header rewrite"
            end in
  Ok ({| rewriter_func_ := f; template_ := template_; matcher_ := matcher_ |}, updates_path (target p)).

(** What a rewriter works on. *)
Record Rewritten := { headers_of : H; path_of : string; params_of : Parameters }.

Definition set_headers (h : H) (s : Rewritten) : Rewritten :=
  {| headers_of := h; path_of := path_of s; params_of := params_of s |}.
Definition set_path (p : string) (s : Rewritten) : Rewritten :=
  {| headers_of := headers_of s; path_of := p; params_of := params_of s |}.
Definition set_params (q : Parameters) (s : Rewritten) : Rewritten :=
  {| headers_of := headers_of s; path_of := path_of s; params_of := q |}.

(** Runs to the end or to an exception, keeping what was done before it. *)
Definition rewriter_run (f : RewriterF) (t : Template) (s : Rewritten) (c : ContextDict) :
    outcome unit * Rewritten :=
  let rendered (s : Rewritten) (k : string -> Rewritten) :=
    match template_render t c with
    | Ok value => (Ok tt, k value)
    | Throw w => (Throw w, s)
    | Undefined w => (Undefined w, s)
    | OutOfFuel => (OutOfFuel, s)
    end in
  let h := headers_of s in
  let q := params_of s in
  match f with
  | RemoveHeader name => (Ok tt, set_headers (hm_remove name h) s)
  | RemoveParameter name => (Ok tt, set_params (delete name q) s)
  | AppendHeader name => rendered s (fun value => set_headers (hm_addCopy name value h) s)
  | AppendPath => rendered s (fun value => set_path (path_of s +:+ value) s)
  | AppendParameter name => rendered s (fun value => set_params (<[name := default "" (q !! name) +:+ value]> q) s)
  | UpdateHeader name =>
      let h' := hm_remove name h in
      rendered (set_headers h' s) (fun value => set_headers (hm_addCopy name value h') s)
  | UpdatePath => rendered s (fun value => set_path (if String.eqb value "" then path_of s else value) s)
  | UpdateParameter name => rendered s (fun value => set_params (<[name := value]> q) s)
  end.

Definition enableRewrite (r : Rewriter) (headers : H) : outcome bool :=
  match matcher_ r with
  | Some m => let* res := common_match m (new_HttpCommonMatcherContext headers) in Ok res.1
  | None => Ok true
  end.

(** Exceptions of a rewriter are logged. *)
Definition rewrite (r : Rewriter) (s : Rewritten) (c : ContextDict) : outcome Rewritten :=
  let* enabled := enableRewrite r (headers_of s) in
  match enabled, rewriter_func_ r with
  | true, Some f =>
      match rewriter_run f (template_ r) s c with
      | (Ok _, s') | (Throw _, s') => Ok s'
      | (Undefined w, _) => Undefined w
      | (OutOfFuel, _) => OutOfFuel
      end
  | _, _ => Ok s
  end.

(** ** Configurations of a direction *)

Record ExtractorRewriterConfig := {
  would_update_path_ : bool;
  extractors_ : list (string * Extractor);
  rewriters_ : list Rewriter;
}.

Fixpoint new_extractors (l : list (string * ProtoExtractor)) : outcome (list (string * Extractor)) :=
  match l with
  | [] => Ok []
  | (key, p) :: l' =>
      let* e := new_Extractor p in
      let* rest := new_extractors l' in Ok ((key, e) :: rest)
  end.

Fixpoint new_rewriters (l : list ProtoRewriter) : outcome (list Rewriter * bool) :=
  match l with
  | [] => Ok ([], false)
  | p :: l' =>
      let* r := new_Rewriter p in
      let* rest := new_rewriters l' in Ok (r.1 :: rest.1, r.2 || rest.2)
  end.

Definition new_ExtractorRewriterConfig (p : ProtoExtractorRewriter) : outcome ExtractorRewriterConfig :=
  let* es := new_extractors (extractors p) in
  let* rs := new_rewriters (rewriters p) in
  Ok {| would_update_path_ := rs.2; extractors_ := es; rewriters_ := rs.1 |}.

Definition extractContext (config : ExtractorRewriterConfig) (s : Rewritten) (c : ContextDict) : ContextDict :=
  fold_left (fun c pair => <[pair.1 := extract pair.2 (headers_of s) (path_of s) (params_of s)]> c)
    (extractors_ config) c.

Fixpoint rewrite_all (rs : list Rewriter) (s : Rewritten) (c : ContextDict) : outcome Rewritten :=
  match rs with
  | [] => Ok s
  | item :: rs' => let* s' := rewrite item s c in rewrite_all rs' s' c
  end.
Definition rewriteHeaders (config : ExtractorRewriterConfig) : Rewritten -> ContextDict -> outcome Rewritten :=
  rewrite_all (rewriters_ config).

(** One configuration at work: its context, then its rewriters. *)
Definition apply_config (config : ExtractorRewriterConfig) (s : Rewritten) (c : ContextDict) :
    outcome (Rewritten * ContextDict) :=
  let c' := extractContext config s c in
  let* s' := rewriteHeaders config s c' in Ok (s', c').

Record HeaderRewriteConfig := {
  decoder_config_ : ExtractorRewriterConfig;
  encoder_config_ : ExtractorRewriterConfig;
  clear_route_cache_ : bool;
}.

Definition new_HeaderRewriteConfig (p : ProtoHeaderRewrite) : outcome HeaderRewriteConfig :=
  let* d := new_ExtractorRewriterConfig (decoder_rewriters p) in
  let* e := new_ExtractorRewriterConfig (encoder_rewriters p) in
  if would_update_path_ e then Throw "Illegal target: only header target can be set for encode rewrite"
  else Ok {| decoder_config_ := d; encoder_config_ := e; clear_route_cache_ := proto_clear_route_cache p |}.

Record RouteConfig := { config_ : HeaderRewriteConfig; disabled_ : bool }.

(** ** The filter *)

Record Filter := {
  render_context_ : ContextDict;
  path_ : string;
  parameter_ : Parameters;
  route_config_ : option RouteConfig;
}.

Definition new_Filter : Filter :=
  {| render_context_ := ∅; path_ := ""; parameter_ := ∅; route_config_ := None |}.

Inductive effect := clearRouteCache.

(** The common configuration, then that of the route. *)
Definition apply_both (common : ExtractorRewriterConfig) (route : option ExtractorRewriterConfig)
    (s : Rewritten) (c : ContextDict) : outcome (Rewritten * ContextDict) :=
  let* r := apply_config common s c in
  match route with
  | Some config => apply_config config r.1 r.2
  | None => Ok r
  end.

Definition is_disabled (route : option RouteConfig) : bool :=
  match route with Some r => disabled_ r | None => false end.

(** [headers.Path()->value(text)]: the entry must be there. *)
Definition set_path_value (text : string) (h : H) : outcome H :=
  match hm_get ":path" h with
  | [] => Undefined "headers.Path() is null"
  | _ :: _ => Ok (hm_set ":path" text h)
  end.

Definition decodeHeaders (common : HeaderRewriteConfig) (route : option RouteConfig) (headers : H) (f : Filter) :
    outcome (H * Filter * list effect) :=
  let path_with_query := getPathValue headers in
  let path := removeQueryAndFragment path_with_query in
  let parameter : Parameters := list_to_map (parseQueryString path_with_query) in
  if is_disabled route then
    Ok (headers, {| render_context_ := render_context_ f; path_ := path; parameter_ := parameter;
                    route_config_ := route |}, [])
  else
    let* r := apply_both (decoder_config_ common) ((fun r => decoder_config_ (config_ r)) <$> route)
                {| headers_of := headers; path_of := path; params_of := parameter |} (render_context_ f) in
    let s := r.1 in
    let would_update_path := would_update_path_ (decoder_config_ common) ||
      match route with Some r => would_update_path_ (decoder_config_ (config_ r)) | None => false end in
    let clear_route_cache := clear_route_cache_ common ||
      match route with Some r => clear_route_cache_ (config_ r) | None => false end in
    let* h := if would_update_path
              then set_path_value (path_of s +:+ queryParamsToString (params_of s)) (headers_of s)
              else Ok (headers_of s) in
    Ok (h, {| render_context_ := r.2; path_ := path_of s; parameter_ := params_of s; route_config_ := route |},
        if clear_route_cache then [clearRouteCache] else []).

Definition encodeHeaders (common : HeaderRewriteConfig) (headers : H) (f : Filter) : outcome (H * Filter) :=
  if is_disabled (route_config_ f) then Ok (headers, f)
  else
    let* r := apply_both (encoder_config_ common) ((fun r => encoder_config_ (config_ r)) <$> route_config_ f)
                {| headers_of := headers; path_of := path_ f; params_of := parameter_ f |} (render_context_ f) in
    Ok (headers_of r.1, {| render_context_ := r.2; path_ := path_of r.1; parameter_ := params_of r.1;
                           route_config_ := route_config_ f |}).

(** ** What a rewriter does *)

(** The text a rewriter writes. *)
Definition text_of (p : ProtoRewriter) (c : ContextDict) : outcome string :=
  let* t := template_parse (template_string (operation p)) in template_render t c.

Definition header_key (t : ProtoTarget) : option string :=
  match t with TargetHeader n => Some (to_lower n) | _ => None end.

(** The values of the target afterwards; an update removes a header before its text is known.  A header gets one
    more value, or a predefined one a longer value; a parameter is extended without a separator. *)
Definition header_after (o : ProtoOperation) (text : outcome string) (inline : option string) (old : list string) : list string :=
  match o, text with
  | kAppend _, Ok v => add_value inline old v
  | kAppend _, _ => old
  | kUpdate _, Ok v => [v]
  | _, _ => []
  end.
Definition path_after (o : ProtoOperation) (text : outcome string) (old : string) : string :=
  match o, text with
  | kAppend _, Ok v => old +:+ v
  | kUpdate _, Ok v => if String.eqb v "" then old else v
  | _, _ => old
  end.
Definition parameter_after (o : ProtoOperation) (text : outcome string) (old : option string) : option string :=
  match o, text with
  | kAppend _, Ok v => Some (default "" old +:+ v)
  | kUpdate _, Ok v => Some v
  | kRemove, _ => None
  | _, _ => old
  end.

(** Exactly the target changes. *)
Definition target_changed (p : ProtoRewriter) (text : outcome string) (s s' : Rewritten) : Prop :=
  match target p with
  | TargetHeader n =>
      path_of s' = path_of s /\ params_of s' = params_of s /\
      (forall k, k ≠ to_lower n -> hm_get k (headers_of s') = hm_get k (headers_of s)) /\
      hm_get (to_lower n) (headers_of s') =
        header_after (operation p) text (hm_inline (headers_of s) (to_lower n)) (hm_get (to_lower n) (headers_of s))
  | TargetPath =>
      headers_of s' = headers_of s /\ params_of s' = params_of s /\
      path_of s' = path_after (operation p) text (path_of s)
  | TargetParameter n =>
      headers_of s' = headers_of s /\ path_of s' = path_of s /\
      (forall k, k ≠ n -> params_of s' !! k = params_of s !! k) /\
      params_of s' !! n = parameter_after (operation p) text (params_of s !! n)
  | TARGET_NOT_SET => False
  end.

Context `{!HeaderMapLaws H}.

Lemma new_Rewriter_parts p r b :
  new_Rewriter p = Ok (r, b) ->
  b = updates_path (target p) /\ matcher_ r = new_CommonMatcher <$> matcher p /\
  template_parse (template_string (operation p)) = Ok (template_ r).
Proof.
  unfold new_Rewriter. intros Hr. invert_bind Hr.
  destruct (match operation p with kUpdate _ => _ | _ => _ end) as [f|?|?|]; [|done..]. by injection Hr as <- <-.
Qed.

(** The run of a rewriter that does not end in undefined behaviour. *)
Lemma rewrite_runs p r b f s c s' :
  new_Rewriter p = Ok (r, b) -> rewriter_func_ r = Some f ->
  match rewriter_run f (template_ r) s c with
  | (Ok _, s1) | (Throw _, s1) => Ok s1
  | (Undefined w, _) => Undefined w
  | (OutOfFuel, _) => OutOfFuel
  end = Ok s' ->
  target_changed p (text_of p c) s s'.
Proof.
  intros Hr Hf. destruct (new_Rewriter_parts _ _ _ Hr) as (_ & _ & Ht).
  unfold text_of. rewrite Ht. cbn [obind]. unfold new_Rewriter in Hr. rewrite Ht in Hr. cbn [obind] in Hr.
  unfold target_changed.
  destruct (operation p) as [u|u| |], (target p) as [n| |n|]; cbn [obind target_name] in Hr;
    try discriminate Hr; injection Hr as Hr Hb; rewrite <- Hr in Hf; try discriminate Hf; injection Hf as <-;
    cbn [rewriter_run];
    try (destruct (template_render (template_ r) c) as [v|w|w|]);
    intros [= <-]; cbn [headers_of path_of params_of set_headers set_path set_params];
    split_and!; try done; intros;
    rewrite ?get_add_eq, ?inline_remove, ?get_remove_eq, ?get_remove_ne, ?get_add_ne, ?get_remove_ne, ?lookup_insert_eq,
      ?lookup_delete_eq, ?lookup_insert_ne, ?lookup_delete_ne by done; try done;
    by destruct (hm_inline (headers_of s) (to_lower n)).
Qed.

Lemma rewrite_spec p r b s c s' :
  new_Rewriter p = Ok (r, b) -> rewrite r s c = Ok s' ->
  exists enabled, enableRewrite r (headers_of s) = Ok enabled /\
    if enabled then target_changed p (text_of p c) s s' else s' = s.
Proof.
  intros Hr. unfold rewrite. destruct (enableRewrite r (headers_of s)) as [enabled|?|?|]; cbn [obind]; [|done..].
  intros Hs. exists enabled. split; [done|]. destruct enabled; [|by injection Hs as <-].
  destruct (rewriter_func_ r) as [f|] eqn:Hf; [by eapply rewrite_runs|]. injection Hs as <-.
  unfold new_Rewriter in Hr. invert_bind Hr. unfold target_changed.
  destruct (operation p), (target p); cbn [obind] in Hr; try discriminate Hr;
    injection Hr as Hr Hb; rewrite <- Hr in Hf; done.
Qed.

(** On a request a rewriter is enabled exactly when its matcher holds. *)
Lemma enabled_spec p r b h :
  new_Rewriter p = Ok (r, b) -> is_request h = true ->
  exists enabled, enableRewrite r h = Ok enabled /\
    (enabled = true <-> forall m, matcher p = Some m -> request_satisfies m h).
Proof.
  intros Hr Hreq. destruct (new_Rewriter_parts _ _ _ Hr) as (_ & Hm & _). unfold enableRewrite. rewrite Hm.
  destruct (matcher p) as [m|]; cbn [fmap option_fmap option_map].
  - destruct (common_match_spec h (new_CommonMatcher m) _ Hreq (new_context_of h)) as (c' & -> & _).
    cbn [obind fst]. eexists. split; [done|]. rewrite new_CommonMatcher_spec. naive_solver.
  - exists true. split; [done|]. naive_solver.
Qed.

(** ** What a list of rewriters does *)

Definition built_rewriter (p : ProtoRewriter) (r : Rewriter) : Prop := exists b, new_Rewriter p = Ok (r, b).
Definition some_updates_path (ps : list ProtoRewriter) : bool := existsb (fun p => updates_path (target p)) ps.
Definition keeps_header (k : string) (ps : list ProtoRewriter) : Prop :=
  Forall (fun p => header_key (target p) ≠ Some k) ps.

Lemma new_rewriters_spec ps rs b :
  new_rewriters ps = Ok (rs, b) -> Forall2 built_rewriter ps rs /\ b = some_updates_path ps.
Proof.
  revert rs b. induction ps as [|p ps IH]; intros rs b; cbn [new_rewriters].
  - intros [= <- <-]. by split.
  - intros Hr. invert_bind Hr. invert_bind Hr. injection Hr as <- <-. destruct r as [r b1], r0 as [rs0 b0].
    destruct (IH _ _ eq_refl) as [Hrs ->]. destruct (new_Rewriter_parts _ _ _ E) as (-> & _).
    split; [|done]. constructor; [by eexists|done].
Qed.

Definition keeps_path (ps : list ProtoRewriter) : Prop := Forall (fun p => target p ≠ TargetPath) ps.
Definition keeps_parameter (k : string) (ps : list ProtoRewriter) : Prop :=
  Forall (fun p => target p ≠ TargetParameter k) ps.

(** What rewriters do one after the other, over one context: each that is enabled on the headers it finds changes
    its target, and nothing else; the others change nothing. *)
Inductive applied (c : ContextDict) : list ProtoRewriter -> Rewritten -> Rewritten -> Prop :=
| applied_nil s : applied c [] s s
| applied_cons p r b enabled ps s s1 s2 :
    new_Rewriter p = Ok (r, b) -> enableRewrite r (headers_of s) = Ok enabled ->
    (if enabled : bool then target_changed p (text_of p c) s s1 else s1 = s) ->
    applied c ps s1 s2 -> applied c (p :: ps) s s2.

Lemma rewrite_all_applied ps rs s c s' :
  Forall2 built_rewriter ps rs -> rewrite_all rs s c = Ok s' -> applied c ps s s'.
Proof.
  intros Hrs. revert s. induction Hrs as [|p r ps rs [b Hr] _ IH]; intros s; cbn [rewrite_all].
  - intros [= <-]. constructor.
  - intros Hs. invert_bind Hs. destruct (rewrite_spec _ _ _ _ _ _ Hr E) as (enabled & He & Hc).
    econstructor; [done..|]. by apply IH.
Qed.

(** Nothing but targets changes. *)
Definition changes_within (ps : list ProtoRewriter) (s s' : Rewritten) : Prop :=
  (forall k, keeps_header k ps -> hm_get k (headers_of s') = hm_get k (headers_of s)) /\
  (keeps_path ps -> path_of s' = path_of s) /\
  (forall k, keeps_parameter k ps -> params_of s' !! k = params_of s !! k).

Lemma changes_app ps1 ps2 s1 s2 s3 :
  changes_within ps1 s1 s2 -> changes_within ps2 s2 s3 -> changes_within (ps1 ++ ps2) s1 s3.
Proof.
  intros (Hh1 & Hp1 & Hq1) (Hh2 & Hp2 & Hq2). split_and!.
  - intros k [Hk1 Hk2]%Forall_app. by rewrite (Hh2 k Hk2), (Hh1 k Hk1).
  - intros [H1 H2]%Forall_app. by rewrite (Hp2 H2), (Hp1 H1).
  - intros k [Hk1 Hk2]%Forall_app. by rewrite (Hq2 k Hk2), (Hq1 k Hk1).
Qed.

Lemma target_changes p text s s' : target_changed p text s s' -> changes_within [p] s s'.
Proof.
  unfold target_changed, changes_within, keeps_header, keeps_path, keeps_parameter. intros Hc.
  destruct (target p) as [n| |n|] eqn:Et; [| | |done]; [destruct Hc as (Hp & Hq & Hh & _)|destruct Hc as (Hh & Hq & _)|
    destruct Hc as (Hh & Hp & Hq & _)]; (split_and!; [intros k [Hk _]%Forall_cons_1|intros [Hk _]%Forall_cons_1|
    intros k [Hk _]%Forall_cons_1]); rewrite Et in Hk; cbn [header_key] in Hk;
    first [done|by rewrite Hh|by rewrite Hq|apply Hh; congruence|apply Hq; congruence].
Qed.

Lemma applied_changes c ps s s' : applied c ps s s' -> changes_within ps s s'.
Proof.
  induction 1 as [s|p r b enabled ps s s1 s2 _ _ Hc _ IH]; [done|].
  apply (changes_app [p] ps s s1 s2); [|done]. destruct enabled; [by eapply target_changes|by subst s1].
Qed.

Lemma no_updates_keep ps : some_updates_path ps = false -> keeps_path ps /\ forall k, keeps_parameter k ps.
Proof.
  unfold some_updates_path, keeps_path, keeps_parameter. intros Hps.
  assert (Hall : Forall (fun p => updates_path (target p) = false) ps).
  { induction ps as [|p ps IH]; [done|]. cbn [existsb] in Hps. apply orb_false_elim in Hps as [Hp Hps]. auto. }
  split; [|intros k]; (eapply Forall_impl; [exact Hall|]); cbn beta; intros p Hp Ht; by rewrite Ht in Hp.
Qed.

Lemma apply_config_applied p config s c r :
  new_ExtractorRewriterConfig p = Ok config -> apply_config config s c = Ok r ->
  r.2 = extractContext config s c /\ applied r.2 (rewriters p) s r.1 /\
  would_update_path_ config = some_updates_path (rewriters p).
Proof.
  unfold new_ExtractorRewriterConfig. intros Hn. invert_bind Hn. invert_bind Hn. injection Hn as <-.
  destruct r1 as [rs b]. destruct (new_rewriters_spec _ _ _ E0) as [Hrs ->]. unfold apply_config.
  intros Ha. invert_bind Ha. injection Ha as <-. split_and!; [done| |done]. eapply rewrite_all_applied; [exact Hrs|exact E1].
Qed.

(** The configuration of a route belongs to its description. *)
Definition built_route (p : option ProtoHeaderRewrite) (r : option RouteConfig) : Prop :=
  match p, r with
  | Some p, Some r => new_HeaderRewriteConfig p = Ok (config_ r)
  | None, None => True
  | _, _ => False
  end.

(** The rewriters of one direction, in their order. *)
Definition in_order (dir : ProtoHeaderRewrite -> ProtoExtractorRewriter) (p : ProtoHeaderRewrite)
    (route : option ProtoHeaderRewrite) : list ProtoRewriter :=
  rewriters (dir p) ++ match route with Some p' => rewriters (dir p') | None => [] end.

Lemma built_parts p config :
  new_HeaderRewriteConfig p = Ok config ->
  new_ExtractorRewriterConfig (decoder_rewriters p) = Ok (decoder_config_ config) /\
  new_ExtractorRewriterConfig (encoder_rewriters p) = Ok (encoder_config_ config) /\
  would_update_path_ (encoder_config_ config) = false /\ clear_route_cache_ config = proto_clear_route_cache p.
Proof.
  unfold new_HeaderRewriteConfig. intros Hn. invert_bind Hn. invert_bind Hn.
  destruct (would_update_path_ r0) eqn:Ew; [done|]. by injection Hn as <-.
Qed.

(** Both configurations at work: the rewriters of the route find what the common ones left, and its extractors add to
    their context. *)
Definition applied_both (dir : ProtoHeaderRewrite -> ProtoExtractorRewriter)
    (dirc : HeaderRewriteConfig -> ExtractorRewriterConfig) p common rp route (s : Rewritten) (c : ContextDict)
    (s' : Rewritten) (c' : ContextDict) : Prop :=
  exists s1, let c1 := extractContext (dirc common) s c in
    applied c1 (rewriters (dir p)) s s1 /\
    match rp, route with
    | Some p', Some r => c' = extractContext (dirc (config_ r)) s1 c1 /\ applied c' (rewriters (dir p')) s1 s'
    | _, _ => c' = c1 /\ s' = s1
    end.

Lemma apply_both_applied (dir : ProtoHeaderRewrite -> ProtoExtractorRewriter)
    (dirc : HeaderRewriteConfig -> ExtractorRewriterConfig) p common rp route s c r :
  (forall p config, new_HeaderRewriteConfig p = Ok config -> new_ExtractorRewriterConfig (dir p) = Ok (dirc config)) ->
  new_HeaderRewriteConfig p = Ok common -> built_route rp route ->
  apply_both (dirc common) ((fun r => dirc (config_ r)) <$> route) s c = Ok r ->
  applied_both dir dirc p common rp route s c r.1 r.2 /\
  would_update_path_ (dirc common) ||
    match route with Some r => would_update_path_ (dirc (config_ r)) | None => false end
  = some_updates_path (in_order dir p rp).
Proof.
  intros Hdir Hp Hroute Ha. unfold apply_both in Ha. invert_bind Ha.
  destruct (apply_config_applied _ _ _ _ _ (Hdir _ _ Hp) E) as (Hctx & Hc & Hw). rewrite Hw.
  unfold in_order, some_updates_path, applied_both. rewrite existsb_app. rewrite Hctx in Hc.
  destruct rp as [p'|], route as [r'|]; cbn [built_route] in Hroute; try done; cbn [fmap option_fmap option_map] in Ha.
  - destruct (apply_config_applied _ _ _ _ _ (Hdir _ _ Hroute) Ha) as (Hctx' & Hc' & ->). split; [|done].
    exists r0.1. split; [done|]. split; [by rewrite <- Hctx|done].
  - injection Ha as <-. split; [by exists r0.1|done].
Qed.

Lemma applied_both_changes dir dirc p common rp route s c s' c' :
  built_route rp route -> applied_both dir dirc p common rp route s c s' c' -> changes_within (in_order dir p rp) s s'.
Proof.
  intros Hroute (s1 & H1 & H2). unfold in_order.
  destruct rp as [p'|], route as [r'|]; cbn [built_route] in Hroute; try done; destruct H2 as [_ H2].
  - eapply changes_app; by eapply applied_changes.
  - subst s'. rewrite app_nil_r. by eapply applied_changes.
Qed.

(** ** Exceptions *)

Lemma matcher_match_no_throw m c w : matcher_match (H := H) m c ≠ Throw w.
Proof.
  destruct m; cbn [matcher_match]; [by destruct (getPath c)|done|by destruct (getQueryParams c)|].
  unfold getCookies. destruct (cookies_ c); [done|]. by destruct (is_request (headers_ c)).
Qed.

Lemma common_match_no_throw (l : Matchers) c w : common_match (H := H) l c ≠ Throw w.
Proof.
  revert c. induction l as [|m l IH]; intros c; cbn [common_match]; [done|].
  pose proof (matcher_match_no_throw m c w). destruct (matcher_match m c) as [r|?|?|]; cbn [obind]; try done.
  by destruct r.1.
Qed.

Lemma enableRewrite_no_throw r h w : enableRewrite r h ≠ Throw w.
Proof.
  unfold enableRewrite. destruct (matcher_ r) as [m|]; [|done].
  pose proof (common_match_no_throw m (new_HttpCommonMatcherContext h) w).
  destruct (common_match _ _); cbn [obind]; try done. by intros [= ->].
Qed.

Lemma rewrite_no_throw r s c w : rewrite r s c ≠ Throw w.
Proof.
  unfold rewrite. pose proof (enableRewrite_no_throw r (headers_of s) w).
  destruct (enableRewrite _ _) as [[]|?|?|]; cbn [obind]; try done; [|by intros [= ->]].
  destruct (rewriter_func_ r) as [f|]; [|done]. by destruct (rewriter_run _ _ _ _) as [[]].
Qed.

Lemma apply_both_no_throw common route s c w : apply_both common route s c ≠ Throw w.
Proof.
  assert (Hall : forall rs s c, rewrite_all rs s c ≠ Throw w).
  { intros rs. induction rs as [|r rs IH]; intros s0 c0; cbn [rewrite_all]; [done|].
    pose proof (rewrite_no_throw r s0 c0 w). by destruct (rewrite r s0 c0); cbn [obind]. }
  assert (Hone : forall config s c, apply_config config s c ≠ Throw w).
  { intros config s0 c0. unfold apply_config, rewriteHeaders.
    pose proof (Hall (rewriters_ config) s0 (extractContext config s0 c0)).
    destruct (rewrite_all _ _ _); cbn [obind]; try done. by intros [= ->]. }
  unfold apply_both. pose proof (Hone common s c). destruct (apply_config common s c); cbn [obind]; try done.
  by destruct route.
Qed.

(** ** Properties *)

(** C15. A rewriter whose matcher holds for the request changes exactly its target, by its template over
    the context, and one whose matcher fails changes nothing.  A header is removed, gets one more value (a header the
    proxy predefines gets its one value extended, as adding to it does) or becomes the text; the path is extended or
    replaced unless the text is empty; a parameter is removed, replaced, or extended by the text itself, without the
    semicolon that the documentation of [append] puts between values.  When the template fails, the target keeps its
    value, except that a header to be updated is gone. *)
Theorem rewriter_effect (p : ProtoRewriter) (r : Rewriter) b (s s' : Rewritten) (c : ContextDict) :
  new_Rewriter p = Ok (r, b) -> is_request (headers_of s) = true -> rewrite r s c = Ok s' ->
  ((forall m, matcher p = Some m -> request_satisfies m (headers_of s)) /\ target_changed p (text_of p c) s s') \/
  (~ (forall m, matcher p = Some m -> request_satisfies m (headers_of s)) /\ s' = s).
Proof.
  intros Hr Hreq Hs. destruct (rewrite_spec _ _ _ _ _ _ Hr Hs) as (enabled & He & Hc).
  destruct (enabled_spec _ _ _ _ Hr Hreq) as (enabled' & He' & Hiff).
  rewrite He in He'. injection He' as <-. destruct enabled; [left|right]; (split; [|done]); naive_solver.
Qed.

(** C14. A request goes through the rewriters of the filter, then those of its route (not disabled), in their order:
    each finds what the ones before left, in the context its configuration extracted before its first rewriter ran, and
    changes its target or nothing.  What they leave is what the filter remembers and, for headers, what goes on; the
    path header is rewritten path and parameters together exactly when a rewriter may change one of them.  So headers,
    parameters and path that no rewriter targets are those of the request, whatever the others do; and the route cache
    is cleared exactly when one of the configurations asks for it. *)
Theorem request_rewritten p common rp route h (f f' : Filter) h' effs :
  new_HeaderRewriteConfig p = Ok common -> built_route rp route -> is_disabled route = false ->
  decodeHeaders common route h f = Ok (h', f', effs) ->
  let ps := in_order decoder_rewriters p rp in
  let s := {| headers_of := h; path_of := removeQueryAndFragment (getPathValue h);
              params_of := list_to_map (parseQueryString (getPathValue h)) |} in
  (exists s', applied_both decoder_rewriters decoder_config_ p common rp route s (render_context_ f) s' (render_context_ f') /\
     path_ f' = path_of s' /\ parameter_ f' = params_of s' /\
     (forall k, k ≠ ":path" -> hm_get k h' = hm_get k (headers_of s')) /\
     hm_get ":path" h' = if some_updates_path ps then [path_of s' +:+ queryParamsToString (params_of s')]
                         else hm_get ":path" (headers_of s')) /\
  (forall k, keeps_header k ps -> k ≠ ":path" \/ some_updates_path ps = false -> hm_get k h' = hm_get k h) /\
  (keeps_path ps -> path_ f' = removeQueryAndFragment (getPathValue h)) /\
  (forall k, keeps_parameter k ps -> parameter_ f' !! k = params_of s !! k) /\
  effs = if proto_clear_route_cache p || match rp with Some p' => proto_clear_route_cache p' | None => false end
         then [clearRouteCache] else [].
Proof.
  intros Hp Hroute Hd. unfold decodeHeaders. rewrite Hd. cbv zeta. intros He. invert_bind He.
  destruct (apply_both_applied decoder_rewriters decoder_config_ p common rp route _ _ _
    (fun p c Hc => proj1 (built_parts p c Hc)) Hp Hroute E) as [Ha Hw].
  destruct (applied_both_changes _ _ _ _ _ _ _ _ _ _ Hroute Ha) as (Hh & Hpath & Hq).
  rewrite Hw in He. destruct (built_parts _ _ Hp) as (_ & _ & _ & <-).
  assert (Hclear : match route with Some r => clear_route_cache_ (config_ r) | None => false end =
    match rp with Some p' => proto_clear_route_cache p' | None => false end).
  { destruct rp, route; cbn [built_route] in Hroute; try done. by destruct (built_parts _ _ Hroute) as (_ & _ & _ & ->). }
  rewrite Hclear in He. cbn [headers_of path_of params_of] in Hh, Hpath, Hq.
  destruct (some_updates_path (in_order decoder_rewriters p rp)).
  - invert_bind He. injection He as <- <- <-. cbn [path_ parameter_ render_context_]. unfold set_path_value in E0.
    destruct (hm_get ":path" (headers_of r.1)); [done|]. injection E0 as <-.
    split_and!; [|intros k Hk [Hne|]; [|done]|done..].
    + exists r.1. split_and!; [done..| |by rewrite get_set_eq]. intros k Hk. by rewrite get_set_ne.
    + rewrite get_set_ne by done. by apply Hh.
  - injection He as <- <- <-. cbn [path_ parameter_ render_context_]. split_and!; [by exists r.1|auto|done..].
Qed.

(** Rewriting a response has no effect on what the filter knows of the request: its path and
    parameters, which later extractors read, stay; headers no rewriter names stay; and no
    exception of a template leaves the filter, on either way. *)
Theorem response_rewritten p common rp h (f : Filter) :
  new_HeaderRewriteConfig p = Ok common -> built_route rp (route_config_ f) ->
  (forall w, encodeHeaders common h f ≠ Throw w) /\
  (forall route h w, decodeHeaders common route h f ≠ Throw w) /\
  forall h' f', encodeHeaders common h f = Ok (h', f') ->
    path_ f' = path_ f /\ parameter_ f' = parameter_ f /\ route_config_ f' = route_config_ f /\
    forall k, keeps_header k (in_order encoder_rewriters p rp) -> hm_get k h' = hm_get k h.
Proof.
  intros Hp Hroute. split_and!.
  - intros w. unfold encodeHeaders. destruct (is_disabled _); [done|].
    match goal with |- obind ?o _ ≠ _ => pose proof (apply_both_no_throw _ _ _ _ w : o ≠ Throw w) as Hn; destruct o end;
      cbn [obind]; try done. by intros [= ->].
  - intros route h0 w. unfold decodeHeaders. destruct (is_disabled _); [done|]. cbv zeta.
    match goal with |- obind ?o _ ≠ _ => pose proof (apply_both_no_throw _ _ _ _ w : o ≠ Throw w) as Hn; destruct o end;
      cbn [obind]; try done; [|by intros [= ->]].
    destruct (would_update_path_ _ || _); [|done]. unfold set_path_value. by destruct (hm_get _ _).
  - intros h' f'. unfold encodeHeaders. destruct (is_disabled _); [by intros [= <- <-]|].
    intros He. invert_bind He. injection He as <- <-. cbn [path_ parameter_ route_config_].
    destruct (apply_both_applied encoder_rewriters encoder_config_ p common rp (route_config_ f) _ _ _
      (fun p c Hc => proj1 (proj2 (built_parts p c Hc))) Hp Hroute E) as [Ha Hw].
    destruct (applied_both_changes _ _ _ _ _ _ _ _ _ _ Hroute Ha) as (Hh & Hpath & Hq).
    destruct (built_parts _ _ Hp) as (_ & _ & Hno & _).
    assert (Hno' : match route_config_ f with Some r => would_update_path_ (encoder_config_ (config_ r)) | None => false end = false).
    { destruct rp, (route_config_ f); cbn [built_route] in Hroute; try done.
      by destruct (built_parts _ _ Hroute) as (_ & _ & -> & _). }
    rewrite Hno, Hno' in Hw. destruct (no_updates_keep _ (eq_sym Hw)) as [Hkp Hkq].
    split_and!; [by apply Hpath|by apply map_eq; auto|done..].
Qed.

End filter.

(** ** Witnesses *)

(** A text with a dollar sign in front names a variable; a regular expression is a prefix with one group
    for the rest. *)
#[export] Instance simple_RewriteApi : RewriteApi string string := {
  re2_compile s := Ok s;
  NumberOfCapturingGroups _ := 1%nat;
  FullMatchN r s := if starts_with s r then Some [String.substring (String.length r) (String.length s) s] else None;
  template_parse s := Ok s;
  template_render t c :=
    match t with
    | String "$" name => match c !! name with Some v => Ok v | None => Throw "variable not found" end
    | _ => Ok t
    end;
  getenv _ := None;
  queryParamsToString q := "?" +:+ fold_right (fun p acc => p.1 +:+ "=" +:+ p.2 +:+ acc) "" (map_to_list q);
}.

Definition example_rewriter : @ProtoRewriter string (string * string) (string * string) :=
  {| target := TargetHeader "X-User"; operation := kUpdate "$user";
     matcher := Some {| path := Some "/u/joe"; headers := []; parameters := []; cookies := [] |} |}.
Definition example_proto : @ProtoHeaderRewrite string (string * string) (string * string) :=
  {| decoder_rewriters :=
       {| extractors := [("user", {| source := kPath; regex := "/u/"; group := 1 |})];
          rewriters := [example_rewriter; {| target := TargetPath; operation := kUpdate "/me"; matcher := None |}] |};
     encoder_rewriters :=
       {| extractors := [];
          rewriters := [{| target := TargetHeader "x-u"; operation := kAppend "$user"; matcher := None |}] |};
     proto_clear_route_cache := true |}.
Definition example_headers : alist := [(":path", "/u/joe?a=b"); ("x-user", "old")].

Definition example_rewritten : @Rewritten alist :=
  {| headers_of := example_headers; path_of := "/u/joe"; params_of := ∅ |}.
Definition example_context : gmap string string := {["user" := "joe"]}.

Lemma rewriter_effect_witness :
  exists r b s', new_Rewriter example_rewriter = Ok (r, b) /\
    rewrite r example_rewritten example_context = Ok s' /\
    hm_get "x-user" (headers_of s') = ["joe"].
Proof.
  eexists _, _, _. split; [vm_compute; reflexivity|]. split; [vm_compute; reflexivity|].
  match goal with |- context [headers_of ?s'] =>
    destruct (rewriter_effect (HeaderMap0 := alist_HeaderMap) (api := simple_MatcherApi) (rapi := simple_RewriteApi) example_rewriter _ _
      example_rewritten s' example_context
      eq_refl eq_refl ltac:(vm_compute; reflexivity)) as [(_ & _ & _ & _ & Hv)|[Hno _]]
  end.
  - exact Hv.
  - exfalso. apply Hno. intros m [= <-]. split_and!; cbn; try done; try constructor. by intros ? [= <-].
Defined.

(** Appending to a parameter writes no separator. *)
Example append_parameter :
  match new_Rewriter {| target := TargetParameter "a"; operation := kAppend "2"; matcher := None |} with
  | Ok r => match rewrite r.1 {| headers_of := example_headers; path_of := ""; params_of := {["a" := "1"]} |} ∅ with
            | Ok s => params_of s !! "a"
            | _ => None
            end
  | _ => None
  end = Some "12".
Proof. vm_compute. reflexivity. Qed.

Lemma request_rewritten_witness :
  exists common h' f' effs, new_HeaderRewriteConfig example_proto = Ok common /\
    decodeHeaders common None example_headers new_Filter = Ok (h', f', effs) /\
    hm_get ":path" h' = ["/me?a=b"] /\ parameter_ f' !! "a" = Some "b" /\ effs = [clearRouteCache].
Proof.
  eexists _, _, _, _. split; [vm_compute; reflexivity|]. split; [vm_compute; reflexivity|].
  match goal with |- hm_get _ ?h' = _ /\ parameter_ ?f' !! _ = _ /\ ?effs = _ =>
    destruct (request_rewritten (HeaderMap0 := alist_HeaderMap) (api := simple_MatcherApi) (rapi := simple_RewriteApi) example_proto _ None None example_headers new_Filter f' h' effs
      ltac:(vm_compute; reflexivity) I eq_refl ltac:(vm_compute; reflexivity)) as (_ & _ & _ & Hq & Heffs)
  end.
  split; [vm_compute; reflexivity|]. split; [|exact Heffs].
  refine (eq_trans (Hq "a" _) _); [|vm_compute; reflexivity]. repeat constructor; discriminate.
Defined.

Lemma response_rewritten_witness :
  exists common h' f', new_HeaderRewriteConfig example_proto = Ok common /\
    encodeHeaders common [(":status", "200")] new_Filter = Ok (h', f') /\
    hm_get ":status" h' = ["200"] /\ path_ f' = "".
Proof.
  eexists _, _, _. split; [vm_compute; reflexivity|]. split; [vm_compute; reflexivity|].
  match goal with |- hm_get _ ?h' = _ /\ path_ ?f' = _ =>
    destruct (response_rewritten (HeaderMap0 := alist_HeaderMap) (api := simple_MatcherApi) (rapi := simple_RewriteApi) example_proto _ None [(":status", "200")] new_Filter ltac:(vm_compute; reflexivity) I) as (_ & _ & Hr);
    destruct (Hr h' f' ltac:(vm_compute; reflexivity)) as (Hp & _ & _ & Hk)
  end.
  split; [|exact Hp]. refine (eq_trans (Hk ":status" _) _); [|reflexivity]. by repeat constructor.
Defined.

End Rewrite.
