(* ===== verification/MetadataHub.v ===== *)
(** * The metadata hub and typed metadata
      (source/filters/http/metadata_hub, source/common/metadata/typed_metadata.cc,
       source/common/filter_state/plain_state.cc)

    The filter copies headers and route metadata into the filter state of a stream.  The filter
    state belongs to the proxy: [FilterState] and its documented laws; a name that is read-only
    cannot be written again. *)

From S2P Require Import Prelude Decimal Json Http ProxyMatcher TrafficMark.
From Stdlib Require Import Ascii SpecFloat.
From stdpp Require Import base gmap strings numbers list.
#[local] Open Scope Z_scope.
#[local] Open Scope proxy_scope.

Module Hub.

(** ** Typed metadata *)

(** The exact value of a finite double, as a fraction with a power of two. *)
Definition double_num (d : double) : Z :=
  match d with
  | S754_finite s m e => (if s then Z.neg m else Z.pos m) * 2 ^ Z.max 0 e
  | _ => 0
  end.
Definition double_den (d : double) : Z :=
  match d with S754_finite _ _ e => 2 ^ Z.max 0 (- e) | _ => 1 end.

(** [int64_t(number)]: truncation, undefined when the result does not fit. *)
Definition int64_of_double (d : double) : outcome Z :=
  match d with
  | S754_nan | S754_infinity _ => Undefined "int64_t of an infinity or NaN"
  | _ =>
      let z := Z.quot (double_num d) (double_den d) in
      if (- 2 ^ 63 <=? z) && (z <? 2 ^ 63) then Ok z else Undefined "int64_t out of range"
  end.

(** Division to the nearest integer, to the even one in the middle. *)
Definition round_half_even (a b : Z) : Z :=
  let q := a / b in
  let r := 2 * (a mod b) in
  if r <? b then q else if b <? r then q + 1 else if Z.even q then q else q + 1.

(** [std::to_string(double)]: six decimals. *)
Definition sign_text (d : double) : string :=
  match d with S754_finite true _ _ => "-" | _ => "" end.
Definition fixed6 (d : double) : string :=
  let n := round_half_even (1000000 * Z.abs (double_num d)) (double_den d) in
  sign_text d +:+ to_string_nonneg (n / 1000000) +:+ String "." (pad_left 6 (to_string_nonneg (n mod 1000000))).

(** The truncated value is itself a double, so that comparing it with the number is exact. *)
Definition doubleToString (number : double) : outcome string :=
  let* z := int64_of_double number in
  Ok (if z * double_den number =? double_num number then to_string z else fixed6 number).

Definition field_text (v : Value) : outcome string :=
  match v with
  | BoolValue b => Ok (if b then "true" else "false")
  | StringValue s => Ok s
  | NumberValue d => doubleToString d
  | _ => Ok ""
  end.

(** [metadata_values_[key] = text], in the order of a [std::map]. *)
Fixpoint map_assign (k v : string) (l : list (string * string)) : list (string * string) :=
  match l with
  | [] => [(k, v)]
  | (k', v') :: l' =>
      match String.compare k k' with
      | Lt => (k, v) :: l
      | Eq => (k, v) :: l'
      | Gt => (k', v') :: map_assign k v l'
      end
  end.

(** The fields of a struct in the order in which they come. *)
Fixpoint MetadataToSimpleMap (fields : list (string * Value)) (metadata_values_ : list (string * string)) :
    outcome (list (string * string)) :=
  match fields with
  | [] => Ok metadata_values_
  | (key, v) :: rest =>
      let* field_string := field_text v in
      MetadataToSimpleMap rest (map_assign key field_string metadata_values_)
  end.

(** ** The text of a number *)

Lemma double_den_pos d : 0 < double_den d.
Proof. destruct d as [| | |s m e]; cbn; lia. Qed.

Lemma round_half_even_close a b :
  0 <= a -> 0 < b -> 0 <= round_half_even a b /\ 2 * Z.abs (round_half_even a b * b - a) <= b.
Proof.
  intros Ha Hb. unfold round_half_even. cbv zeta. pose proof (Z.div_mod a b ltac:(lia)) as Hdiv.
  pose proof (Z.mod_pos_bound a b Hb) as Hmod. pose proof (Z.div_pos a b Ha Hb) as Hq.
  set (q := a / b) in *. set (r := a mod b) in *.
  destruct (Z.ltb_spec (2 * r) b); [|destruct (Z.ltb_spec b (2 * r)); [|destruct (Z.even q)]]; split; nia.
Qed.

(** The text of a number is exact when it is an integer; otherwise it has its sign, an integral part
    in usual decimal notation and six decimals, and differs from the number by at most half a
    millionth. *)
Theorem number_text_close (d : double) (t : string) :
  doubleToString d = Ok t ->
  (exists z, z * double_den d = double_num d /\ t = to_string z) \/
  (exists whole frac, t = sign_text d +:+ whole +:+ String "." frac /\
     canonical_decimal whole /\ all_digits frac = true /\ String.length frac = 6%nat /\
     2 * Z.abs ((dec_value whole * 1000000 + dec_value frac) * double_den d - 1000000 * Z.abs (double_num d))
       <= double_den d).
Proof.
  unfold doubleToString. intros Ht. invert_bind Ht. injection Ht as <-.
  destruct (Z.eqb_spec (r * double_den d) (double_num d)) as [Hz|_]; [left; by exists r|right].
  destruct (round_half_even_close (1000000 * Z.abs (double_num d)) (double_den d)) as [Hn Hclose];
    [lia|apply double_den_pos|]. unfold fixed6. set (n := round_half_even _ _) in *.
  pose proof (Z.mod_pos_bound n 1000000 ltac:(lia)) as Hmod. pose proof (Z.div_pos n 1000000 Hn ltac:(lia)) as Hdiv.
  eexists _, _. split; [reflexivity|]. split; [by apply to_string_nonneg_canonical|].
  rewrite pad_left_digits, pad_left_value, to_string_nonneg_digits, !to_string_nonneg_value by lia.
  split; [done|]. split.
  - apply pad_left_length, (to_string_nonneg_length _ 5). lia.
  - replace (n / 1000000 * 1000000 + n mod 1000000) with n by (pose proof (Z.div_mod n 1000000); lia). exact Hclose.
Qed.

Lemma number_text_close_witness :
  (** 0.1 *)
  doubleToString (S754_finite false 7205759403792794 (-56)) = Ok "0.100000" /\
  ((exists z, z * 2 ^ 56 = 7205759403792794 /\ "0.100000" = to_string z) \/
   exists whole frac, "0.100000" = whole +:+ String "." frac /\ String.length frac = 6%nat).
Proof.
  split; [vm_compute; reflexivity|].
  destruct (number_text_close (S754_finite false 7205759403792794 (-56)) "0.100000" ltac:(vm_compute; reflexivity))
    as [(z & Hz & Ht)|(whole & frac & Ht & _ & _ & Hlen & _)].
  - left. exists z. split; [exact Hz|exact Ht].
  - right. exists whole, frac. split; [exact Ht|exact Hlen].
Defined.

(** ** The filter state *)

Inductive StateType := ReadOnly | Mutable.
#[global] Instance StateType_eq_dec : EqDecision StateType.
Proof. solve_decision. Defined.

(** An entry has a value (the text of a [PlainStateImpl]), a type and whether it lives as long as the filter
    chain. *)
Record StateEntry := { state_value : string; state_type : StateType; chain_life : bool }.

Class FilterState (S : Type) := {
  getData : string -> S -> option StateEntry;
  setData : string -> string -> StateType -> S -> outcome S;
}.

(** Writing a name that is not used, or used by mutable data of the chain for mutable data, succeeds;
    any other name in use is refused. *)
Definition writable (t : StateType) (e : option StateEntry) : bool :=
  match e with
  | None => true
  | Some e => bool_decide (state_type e = Mutable) && bool_decide (t = Mutable) && chain_life e
  end.

Class FilterStateLaws (S : Type) `{!FilterState S} := {
  set_writable : forall k v t s, writable t (getData k s) = true ->
    exists s', setData k v t s = Ok s' /\
      getData k s' = Some {| state_value := v; state_type := t; chain_life := true |} /\
      forall k', k' ≠ k -> getData k' s' = getData k' s;
  set_refused : forall k v t s, writable t (getData k s) = false -> exists w, setData k v t s = Throw w;
}.

Section filter.
Context {H StringMatcher HeaderMatcher QueryParameterMatcher S : Type}
  `{!HeaderMap H, api : !MatcherApi H StringMatcher HeaderMatcher QueryParameterMatcher, !FilterState S}.

(** ** Configuration *)

Record ProtoRecord := { name : string; rename : string }.
Record ProtoCommonConfig := {
  set_to_metadata : list ProtoRecord;
  decode_headers_to_state : list ProtoRecord;
  encode_headers_to_state : list ProtoRecord;
  route_metadata_to_state : list string;
}.

(** A handler holds the name of its header; it is kept with the name in the state. *)
Record MetadataHubCommonConfig := {
  decode_headers_to_state_ : list (string * string);
  encode_headers_to_state_ : list (string * string);
  route_metadata_to_state_ : list string;
}.

Definition handle_headers_to_state (records : list ProtoRecord) : list (string * string) :=
  flat_map (fun record =>
    if String.eqb (name record) "" then []
    else [(to_lower (if String.eqb (rename record) "" then name record else rename record),
           to_lower (name record))]) records.

Definition new_MetadataHubCommonConfig (config : ProtoCommonConfig) : MetadataHubCommonConfig :=
  {| decode_headers_to_state_ :=
       handle_headers_to_state (decode_headers_to_state config ++ set_to_metadata config);
     encode_headers_to_state_ := handle_headers_to_state (encode_headers_to_state config);
     route_metadata_to_state_ := route_metadata_to_state config |}.

(** ** The filter *)

Inductive effect := setOperation (operation : string) | setTag (key value : string).

(** The handler of a header: its first value. *)
Definition header_value (n : string) (h : H) : string :=
  match hm_get n h with v :: _ => v | [] => "" end.

Fixpoint headers_to_state (records : list (string * string)) (h : H) (state : S) : outcome S :=
  match records with
  | [] => Ok state
  | record :: rest =>
      let value_view := header_value record.2 h in
      if String.eqb value_view "" then headers_to_state rest h state
      else
        let* state := setData record.1 value_view ReadOnly state in
        headers_to_state rest h state
  end.

Definition filter_name : string := "proxy.filters.http.metadatahub".

(** The typed metadata of a route: the one factory of this type parses the namespace that has its name (when
    the route is loaded). *)
Definition typed_metadata (filter_metadata : gmap string (list (string * Value))) (ns : string) :
    outcome (option (list (string * string))) :=
  if String.eqb ns filter_name then
    match filter_metadata !! ns with
    | Some fields => let* m := MetadataToSimpleMap fields [] in Ok (Some m)
    | None => Ok None
    end
  else Ok None.

Fixpoint pairs_to_state (pairs : list (string * string)) (state : S) : outcome (S * list effect) :=
  match pairs with
  | [] => Ok (state, [])
  | kv :: rest =>
      let* state := setData kv.1 kv.2 Mutable state in
      let* r := pairs_to_state rest state in
      Ok (r.1, setTag kv.1 kv.2 :: r.2)
  end.

Definition metadataToState (filter_metadata : gmap string (list (string * Value))) (ns : string) (state : S) :
    outcome (S * list effect) :=
  let* o := typed_metadata filter_metadata ns in
  match o with
  | None => Ok (state, [])
  | Some metadata_values_ => pairs_to_state metadata_values_ state
  end.

Fixpoint namespaces_to_state (filter_metadata : gmap string (list (string * Value))) (l : list string) (state : S) :
    outcome (S * list effect) :=
  match l with
  | [] => Ok (state, [])
  | ns :: rest =>
      let* r := metadataToState filter_metadata ns state in
      let* r' := namespaces_to_state filter_metadata rest r.1 in
      Ok (r'.1, r.2 ++ r'.2)
  end.

(** A route with its entry, if it has one, gives its metadata. *)
Definition decodeHeaders (config : MetadataHubCommonConfig)
    (route : option (gmap string (list (string * Value)))) (headers : H) (state : S) :
    outcome (FilterHeadersStatus * S * list effect) :=
  match hm_get ":path" headers with
  | [] => Undefined "headers.Path() is null"
  | path :: _ =>
      let operation := setOperation (removeQueryAndFragment path) in
      let* state := headers_to_state (decode_headers_to_state_ config) headers state in
      match route_metadata_to_state_ config, route with
      | [], _ | _, None => Ok (Continue, state, [operation])
      | namespaces, Some filter_metadata =>
          let* r := namespaces_to_state filter_metadata namespaces state in
          Ok (Continue, r.1, operation :: r.2)
      end
  end.

Definition encodeHeaders (config : MetadataHubCommonConfig) (headers : H) (state : S) :
    outcome (FilterHeadersStatus * S) :=
  let* state := headers_to_state (encode_headers_to_state_ config) headers state in Ok (Continue, state).

(** ** What is written *)

Record write := { write_name : string; write_value : string; write_type : StateType }.

Fixpoint write_all (ws : list write) (s : S) : outcome S :=
  match ws with
  | [] => Ok s
  | w :: ws' => let* s' := setData (write_name w) (write_value w) (write_type w) s in write_all ws' s'
  end.

(** One name is written twice only as mutable data. *)
Definition may_follow (a b : write) : Prop :=
  write_name a = write_name b -> write_type a = Mutable /\ write_type b = Mutable.
#[local] Instance may_follow_dec a b : Decision (may_follow a b).
Proof. unfold may_follow. apply _. Defined.
Fixpoint compatible (ws : list write) : bool :=
  match ws with
  | [] => true
  | w :: ws' => bool_decide (Forall (may_follow w) ws') && compatible ws'
  end.

(** What a name has in the end: the last write, or what it had. *)
Fixpoint last_written (k : string) (ws : list write) (old : option StateEntry) : option StateEntry :=
  match ws with
  | [] => old
  | w :: ws' =>
      last_written k ws' (if decide (write_name w = k)
        then Some {| state_value := write_value w; state_type := write_type w; chain_life := true |} else old)
  end.

Context `{!FilterStateLaws S}.

Lemma last_written_ext k ws o o' : o = o' -> last_written k ws o = last_written k ws o'.
Proof. by intros ->. Qed.

(** A write that is refused now stays refused whatever is written before it. *)
Lemma write_all_refused ws w s :
  w ∈ ws -> writable (write_type w) (getData (write_name w) s) = false -> exists m, write_all ws s = Throw m.
Proof.
  revert s. induction ws as [|w1 ws IH]; intros s Hin Hno; [by apply elem_of_nil in Hin|]. cbn [write_all].
  destruct (writable (write_type w1) (getData (write_name w1) s)) eqn:E1;
    [|destruct (set_refused _ (write_value w1) _ _ E1) as [m ->]; by exists m].
  apply elem_of_cons in Hin as [->|Hin]; [congruence|].
  destruct (set_writable _ (write_value w1) _ _ E1) as (s2 & -> & Hget & Hother). cbn [obind].
  apply IH; [done|]. destruct (decide (write_name w = write_name w1)) as [E|E]; [|by rewrite (Hother _ E)].
  rewrite E in Hno |- *. rewrite Hget. destruct (getData (write_name w1) s) as [e|]; [|done].
  cbn in E1, Hno |- *. rewrite !andb_true_iff, !bool_decide_eq_true in E1. destruct E1 as [[H1 H2] H3].
  rewrite H1, H3, andb_true_r in Hno. rewrite H2, andb_true_r. exact Hno.
Qed.

(** Every write finds its name unused or written by one that it may follow. *)
Lemma write_all_spec ws s :
  Forall (fun w => writable (write_type w) (getData (write_name w) s) = true) ws ->
  if compatible ws
  then exists s', write_all ws s = Ok s' /\ forall k, getData k s' = last_written k ws (getData k s)
  else exists w, write_all ws s = Throw w.
Proof.
  revert s. induction ws as [|w ws IH]; intros s; cbn [compatible write_all last_written]; [by eauto|].
  intros [Hw Hws]%Forall_cons_1. destruct (set_writable _ (write_value w) _ _ Hw) as (s1 & -> & Hget & Hother).
  cbn [obind]. case_bool_decide as Hf; cbn [andb].
  - assert (Hnext : Forall (fun w' => writable (write_type w') (getData (write_name w') s1) = true) ws).
    { rewrite Forall_forall in Hf, Hws |- *. intros w' Hin. destruct (decide (write_name w' = write_name w)) as [E|E].
      - rewrite E, Hget. destruct (Hf _ Hin (eq_sym E)) as [H1 H2]. cbn. by rewrite H1, H2.
      - rewrite (Hother _ E). by apply Hws. }
    specialize (IH s1 Hnext). destruct (compatible ws); [|done]. destruct IH as (s' & Hs' & Hk). exists s'.
    split; [done|]. intros k. rewrite Hk. apply last_written_ext. case_decide as E; [by subst|]. by apply Hother.
  - apply not_Forall_Exists in Hf; [|apply _]. apply Exists_exists in Hf as (w' & Hin & Hbad).
    apply (write_all_refused ws w' s1 Hin). change (~ may_follow w w') in Hbad.
    unfold may_follow in Hbad.
    destruct (decide (write_name w = write_name w')) as [E|E]; [|destruct Hbad; intros ?; congruence].
    rewrite <- E, Hget. cbn. rewrite !andb_true_r.
    destruct (write_type w), (write_type w'); try reflexivity. destruct Hbad. by intros _.
Qed.

(** What the filter writes: the headers that have a value, and the pairs of the route. *)
Definition header_writes (records : list (string * string)) (h : H) : list write :=
  flat_map (fun r => let v := header_value r.2 h in
    if String.eqb v "" then [] else [{| write_name := r.1; write_value := v; write_type := ReadOnly |}]) records.
Definition pair_writes (pairs : list (string * string)) : list write :=
  (fun kv => {| write_name := kv.1; write_value := kv.2; write_type := Mutable |}) <$> pairs.

Lemma write_all_app ws ws' s : write_all (ws ++ ws') s = obind (write_all ws s) (write_all ws').
Proof.
  revert s. induction ws as [|w ws IH]; intros s; [done|]. cbn [app write_all].
  destruct (setData _ _ _ s); cbn [obind]; [apply IH|done..].
Qed.

Lemma headers_to_state_writes records h s : headers_to_state records h s = write_all (header_writes records h) s.
Proof.
  revert s. induction records as [|r records IH]; intros s; [done|].
  cbn [headers_to_state header_writes flat_map]. destruct (String.eqb (header_value r.2 h) ""); [apply IH|].
  cbn [app write_all write_name write_value write_type]. destruct (setData _ _ _ s); cbn [obind]; [apply IH|done..].
Qed.

Lemma pairs_to_state_writes pairs s :
  pairs_to_state pairs s =
  let* s' := write_all (pair_writes pairs) s in Ok (s', (fun kv => setTag kv.1 kv.2) <$> pairs).
Proof.
  revert s. induction pairs as [|kv pairs IH]; intros s; [done|].
  cbn [pairs_to_state pair_writes fmap list_fmap write_all write_name write_value write_type].
  destruct (setData _ _ _ s) as [s1|?|?|]; cbn [obind]; [|done..]. rewrite IH. unfold pair_writes.
  by destruct (write_all _ s1).
Qed.

(** The pairs of the namespaces of a route, in order. *)
Fixpoint route_pairs (filter_metadata : gmap string (list (string * Value))) (l : list string) :
    outcome (list (string * string)) :=
  match l with
  | [] => Ok []
  | ns :: rest =>
      let* o := typed_metadata filter_metadata ns in
      let* rest := route_pairs filter_metadata rest in
      Ok (default [] o ++ rest)
  end.

Lemma namespaces_writes filter_metadata l pairs s :
  route_pairs filter_metadata l = Ok pairs ->
  namespaces_to_state filter_metadata l s =
  let* s' := write_all (pair_writes pairs) s in Ok (s', (fun kv => setTag kv.1 kv.2) <$> pairs).
Proof.
  revert pairs s. induction l as [|ns l IH]; intros pairs s; cbn [route_pairs namespaces_to_state]; [by intros [= <-]|].
  intros Hp. invert_bind Hp. invert_bind Hp. injection Hp as <-. unfold metadataToState. rewrite E. cbn [obind].
  unfold pair_writes in *. rewrite fmap_app, write_all_app, (fmap_app (fun kv => setTag kv.1 kv.2)).
  destruct r as [kvs|]; cbn [default].
  - rewrite pairs_to_state_writes. unfold pair_writes. destruct (write_all _ s) as [s1|?|?|]; cbn [obind fst snd]; [|done..].
    rewrite (IH _ s1 eq_refl). by destruct (write_all _ s1).
  - cbn [obind fst snd write_all fmap list_fmap app]. rewrite (IH _ s eq_refl). by destruct (write_all _ s).
Qed.

(** ** Properties *)

(** C26. On a stream that has none of the names in its filter state, the filter either
    writes them all or throws.  It throws exactly when a name is to be written twice and not both times
    from route metadata; otherwise each name has its last value in the end, that
    of a header, read-only, or of the route, mutable, and nothing else changes; every pair of the
    route becomes a tag of the span. *)
Theorem hub_writes (config : MetadataHubCommonConfig) route h (s : S) pairs :
  hm_get ":path" h ≠ [] ->
  match route with
  | Some metadata => route_pairs metadata (route_metadata_to_state_ config) = Ok pairs
  | None => pairs = []
  end ->
  let ws := header_writes (decode_headers_to_state_ config) h ++ pair_writes pairs in
  Forall (fun w => getData (write_name w) s = None) ws ->
  if compatible ws
  then exists s' operation,
    decodeHeaders config route h s = Ok (Continue, s', setOperation operation :: ((fun kv => setTag kv.1 kv.2) <$> pairs)) /\
    forall k, getData k s' = last_written k ws (getData k s)
  else exists w, decodeHeaders config route h s = Throw w.
Proof.
  intros Hpath Hroute ws Hnew. unfold decodeHeaders. destruct (hm_get ":path" h) as [|path ?]; [done|]. clear Hpath.
  pose proof (write_all_spec ws s) as Hws. specialize (Hws ltac:(eapply Forall_impl; [exact Hnew|]; by intros w ->)).
  unfold ws in Hws at 2 4. rewrite write_all_app, <- headers_to_state_writes in Hws.
  destruct (headers_to_state _ h s) as [s1|m|m|]; cbn [obind] in *;
    [|destruct (compatible ws); naive_solver..].
  assert (Hend : forall r, (route_metadata_to_state_ config = [] \/ route = None -> pairs = []) ->
    r = (let* s' := write_all (pair_writes pairs) s1 in
         Ok (Continue, s', setOperation (removeQueryAndFragment path) :: ((fun kv => setTag kv.1 kv.2) <$> pairs))) ->
    if compatible ws
    then exists s' operation,
      r = Ok (Continue, s', setOperation operation :: ((fun kv => setTag kv.1 kv.2) <$> pairs)) /\
      forall k, getData k s' = last_written k ws (getData k s)
    else exists w, r = Throw w).
  { intros r _ ->. destruct (compatible ws).
    - destruct Hws as (s' & -> & Hk). cbn [obind]. eauto.
    - destruct Hws as (w & ->). cbn [obind]. eauto. }
  destruct route as [metadata|].
  - destruct (route_metadata_to_state_ config) as [|ns nss] eqn:El.
    + cbn in Hroute. injection Hroute as <-. by apply Hend.
    + apply Hend; [by intros [?|?]|]. rewrite (namespaces_writes _ _ _ s1 Hroute). by destruct (write_all _ s1).
  - subst pairs. by destruct (route_metadata_to_state_ config); apply Hend.
Qed.

End filter.

(** ** Witnesses *)

(** A filter state of the chain. *)
#[export] Instance map_FilterState : FilterState (gmap string StateEntry) := {
  getData k s := s !! k;
  setData k v t s :=
    if writable t (s !! k) then Ok (<[k := {| state_value := v; state_type := t; chain_life := true |}]> s)
    else Throw "FilterState::setData<T> called twice on same ReadOnly state.";
}.

#[export] Instance map_FilterStateLaws : FilterStateLaws (gmap string StateEntry).
Proof.
  split; cbn; intros k v t s Hw; rewrite Hw; [|by eauto]. eexists. split; [done|].
  split; [by rewrite lookup_insert_eq|]. intros k' Hk. by rewrite lookup_insert_ne.
Qed.

Definition example_config : MetadataHubCommonConfig :=
  new_MetadataHubCommonConfig {| set_to_metadata := [{| name := "X-Id"; rename := "" |}];
    decode_headers_to_state := [{| name := "X-User"; rename := "user" |}; {| name := "x-none"; rename := "" |}];
    encode_headers_to_state := []; route_metadata_to_state := [filter_name] |}.
Definition example_headers : alist := [(":path", "/p?q"); ("x-user", "joe"); ("x-id", "7")].
Definition example_metadata : gmap string (list (string * Value)) :=
  {[filter_name := [("zone", StringValue "a"); ("weight", NumberValue (S754_finite false 5 (-1)))]]}.

Lemma hub_writes_witness :
  exists s' operation,
    decodeHeaders example_config (Some example_metadata) example_headers (∅ : gmap string StateEntry)
      = Ok (Continue, s', [setOperation operation; setTag "weight" "2.500000"; setTag "zone" "a"]) /\
    getData "user" s' = Some {| state_value := "joe"; state_type := ReadOnly; chain_life := true |} /\
    getData "weight" s' = Some {| state_value := "2.500000"; state_type := Mutable; chain_life := true |}.
Proof.
  destruct (hub_writes example_config (Some example_metadata) example_headers (∅ : gmap string StateEntry)
    [("weight", "2.500000"); ("zone", "a")]) as (s' & operation & Hd & Hget).
  - by vm_compute.
  - vm_compute. reflexivity.
  - by repeat constructor.
  - exists s', operation. split; [exact Hd|]. split; rewrite Hget; vm_compute; reflexivity.
Defined.

(** A name in two records is not refused when the configuration is read, but throws with the first request that
    has both headers. *)
Lemma duplicate_names_throw :
  exists w, decodeHeaders
    (new_MetadataHubCommonConfig {| set_to_metadata := [{| name := "x-id"; rename := "user" |}];
       decode_headers_to_state := [{| name := "x-user"; rename := "user" |}];
       encode_headers_to_state := []; route_metadata_to_state := [] |})
    None example_headers (∅ : gmap string StateEntry) = Throw w.
Proof. eexists. vm_compute. reflexivity. Qed.

End Hub.
