(* ===== verification/EscapeFilter.v ===== *)
(** * The escape filter of access logs
      (source/filters/access_log/escape_filter, escapeForJson of
       source/common/common/proxy_utility.cc)

    Before a line of an access log is written, header values are escaped so that they can stand in a
    JSON text.  The reader of JSON strings, as RFC 8259 has it, is the specification. *)

From S2P Require Import Prelude Http.
From Stdlib Require Import Ascii.
From stdpp Require Import base gmap strings numbers list.

(** ** Escaping *)

Definition byte (n : nat) : ascii := ascii_of_nat n.
Definition hex_digit_of (n : nat) : ascii := byte (if (n <? 10)%nat then 48 + n else 87 + n).

(** [std::hex << std::setw(4) << std::setfill('0')] of a number below 256. *)
Definition hex4 (n : nat) : string :=
  String "0" (String "0" (String (hex_digit_of (n / 16)) (String (hex_digit_of (n mod 16)) ""))).

(** Characters are signed: from 128 on they are not between 0 and 31. *)
Definition escape_char (c : ascii) : string :=
  let n := nat_of_ascii c in
  let backslash t := String (byte 92) t in
  if (n =? 34)%nat then backslash (String (byte 34) "")
  else if (n =? 92)%nat then backslash (backslash "")
  else if (n =? 8)%nat then backslash "b"
  else if (n =? 12)%nat then backslash "f"
  else if (n =? 10)%nat then backslash "n"
  else if (n =? 13)%nat then backslash "r"
  else if (n =? 9)%nat then backslash "t"
  else if (n <=? 31)%nat then backslash ("u" +:+ hex4 n)
  else String c "".

Fixpoint escapeForJson (source : string) : string :=
  match source with
  | EmptyString => ""
  | String c rest => escape_char c +:+ escapeForJson rest
  end.

(** ** The filter *)

(** [result[0]->value(v)]: the first value of a header is replaced in place. *)
Class HeaderEntries (H : Type) `{!HeaderMap H} := {
  set_first : string -> string -> H -> H;
}.
Class HeaderEntriesLaws (H : Type) `{!HeaderMap H, !HeaderEntries H} := {
  get_set_first : forall k v v0 vs h, hm_get k h = v0 :: vs -> hm_get k (set_first k v h) = v :: vs;
  get_set_first_ne : forall k k' v h, k ≠ k' -> hm_get k' (set_first k v h) = hm_get k' h;
}.

Section filter.
Context {H : Type} `{!HeaderMap H, !HeaderEntries H}.

Inductive ProtoEscape := kRqxHeader (s : string) | kRpxHeader (s : string) | TO_ESCAPE_NOT_SET.

Record EscapeFilter := { escape_rqx_ : list string; escape_rpx_ : list string }.

Fixpoint add_escapes (to_escapes : list ProtoEscape) (f : EscapeFilter) : EscapeFilter :=
  match to_escapes with
  | [] => f
  | to_escape :: rest =>
      add_escapes rest
        match to_escape with
        | kRqxHeader s => {| escape_rqx_ := escape_rqx_ f ++ [to_lower s]; escape_rpx_ := escape_rpx_ f |}
        | kRpxHeader s => {| escape_rqx_ := escape_rqx_ f; escape_rpx_ := escape_rpx_ f ++ [to_lower s] |}
        | TO_ESCAPE_NOT_SET => f
        end
  end.
Definition new_EscapeFilter (to_escapes : list ProtoEscape) : EscapeFilter :=
  add_escapes to_escapes {| escape_rqx_ := []; escape_rpx_ := [] |}.

Definition escape_header (h : H) (header : string) : H :=
  match hm_get header h with
  | [] => h
  | v :: _ => set_first header (escapeForJson v) h
  end.

(** [evaluate] changes the headers of the stream itself. *)
Definition evaluate (f : EscapeFilter) (request_headers response_headers : H) : bool * H * H :=
  (true, fold_left escape_header (escape_rqx_ f) request_headers,
         fold_left escape_header (escape_rpx_ f) response_headers).

End filter.

(** ** Reading a JSON string *)

Definition hex_of (a : ascii) : option nat :=
  let n := nat_of_ascii a in
  if ((48 <=? n) && (n <=? 57))%nat then Some (n - 48)%nat
  else if ((97 <=? n) && (n <=? 102))%nat then Some (n - 87)%nat
  else if ((65 <=? n) && (n <=? 70))%nat then Some (n - 55)%nat
  else None.

(** The text between the quotes: no quote, no control character; escapes of one letter, or of four hexadecimal
    digits (here only those of one byte, ASCII). *)
Fixpoint json_string (s : string) : option string :=
  match s with
  | EmptyString => Some ""
  | String a rest =>
      if (nat_of_ascii a =? 92)%nat then
        match rest with
        | String b rest' =>
            let one c := String (byte c) <$> json_string rest' in
            match nat_of_ascii b with
            | 34 => one 34 | 92 => one 92 | 47 => one 47 | 98 => one 8 | 102 => one 12
            | 110 => one 10 | 114 => one 13 | 116 => one 9
            | 117 =>
                match rest' with
                | String "0" (String "0" (String x (String y rest''))) =>
                    match hex_of x, hex_of y with
                    | Some i, Some j =>
                        if (16 * i + j <? 128)%nat then String (byte (16 * i + j)) <$> json_string rest'' else None
                    | _, _ => None
                    end
                | _ => None
                end
            | _ => None
            end
        | EmptyString => None
        end
      else if ((nat_of_ascii a =? 34) || (nat_of_ascii a <=? 31))%nat then None
      else String a <$> json_string rest
  end.

Lemma json_string_escape c t : json_string (escape_char c +:+ t) = String c <$> json_string t.
Proof. destruct c as [[] [] [] [] [] [] [] []]; reflexivity. Qed.

(** C28. Every text of bytes survives: its escaped form can stand between the quotes of a JSON string, without a
    quote, a lone backslash or a control character, and a reader of JSON gives the text
    back. *)
Theorem escape_roundtrip (s : string) : json_string (escapeForJson s) = Some s.
Proof.
  induction s as [|c s IH]; [done|]. cbn [escapeForJson]. by rewrite json_string_escape, IH.
Qed.
