(* ===== verification/DetailedStats.v ===== *)
(** * Detailed statistics (source/filters/http/detailed_stats)

    A route or an upstream host names in its metadata the scopes its requests are counted in.
    Module [Scopes]: objects with the same metadata share their scopes through a cache of weak
    pointers; construction and destruction on any threads are sequences of critical sections.
    Module [Detailed]: the filter, which records one count and three values per stream, with tags
    that describe the response and tags of the configurations whose matchers accept the request. *)

From S2P Require Import Prelude Http Decimal ProxyMatcher.
From stdpp Require Import base gmap strings numbers list.
#[local] Open Scope Z_scope.
#[local] Open Scope proxy_scope.

(** A statistics tag; a name in the symbol table stands for its text. *)
Abbreviation StatNameTag := (string * string)%type.

Module Scopes.

Record PrefixedStatTags := { stat_prefix : string; stat_tags : list StatNameTag }.

(** A scope of the host is its prefix. *)
Record StatsScopes := {
  string_config_ : string;
  scope_tags_ : list StatNameTag;
  request_total_scope_ : string;
  request_bytes_scope_ : string;
  response_bytes_scope_ : string;
  request_time_scope_ : string;
}.

Definition new_StatsScopes (proto_config : PrefixedStatTags) (string_config : string) : StatsScopes :=
  {| string_config_ := string_config;
     scope_tags_ := stat_tags proto_config;
     request_total_scope_ := stat_prefix proto_config +:+ ".requests_total";
     request_bytes_scope_ := stat_prefix proto_config +:+ ".request_bytes";
     response_bytes_scope_ := stat_prefix proto_config +:+ ".response_bytes";
     request_time_scope_ := stat_prefix proto_config +:+ ".request_duration_milliseconds" |}.

(** ** Shared and weak pointers *)

(** Live objects with their strong counts.  A weak pointer is a location that may be dead. *)
Record Registry := {
  heap : gmap nat (StatsScopes * nat);
  next : nat;
  cached_stats_scopes_ : gmap string nat;
}.

Definition set_heap (h : gmap nat (StatsScopes * nat)) (s : Registry) : Registry :=
  {| heap := h; next := next s; cached_stats_scopes_ := cached_stats_scopes_ s |}.
Definition set_cached (c : gmap string nat) (s : Registry) : Registry :=
  {| heap := heap s; next := next s; cached_stats_scopes_ := c |}.

Definition expired (l : nat) (s : Registry) : bool := bool_decide (heap s !! l = None).

(** [weak_ptr::lock] gives a null pointer when the object is dead. *)
Definition lock (l : nat) (s : Registry) : option nat * Registry :=
  match heap s !! l with
  | Some (o, n) => (Some l, set_heap (<[l := (o, S n)]> (heap s)) s)
  | None => (None, s)
  end.

Definition make_shared (o : StatsScopes) (s : Registry) : nat * Registry :=
  (next s, {| heap := <[next s := (o, 1%nat)]> (heap s); next := S (next s);
              cached_stats_scopes_ := cached_stats_scopes_ s |}).

Definition reset (l : nat) (s : Registry) : Registry :=
  match heap s !! l with
  | Some (o, S (S n)) => set_heap (<[l := (o, S n)]> (heap s)) s
  | _ => set_heap (delete l (heap s)) s
  end.

Section scopes.
(** The text format printer of protobuf. *)
Context (messageToString : PrefixedStatTags -> string).

Definition getStatsScopesFromProto (proto_config : PrefixedStatTags) (s : Registry) :
    option nat * Registry :=
  let string_config := messageToString proto_config in
  let make :=
    let r := make_shared (new_StatsScopes proto_config string_config) s in
    (Some r.1, set_cached (<[string_config := r.1]> (cached_stats_scopes_ r.2)) r.2) in
  match cached_stats_scopes_ s !! string_config with
  | None => make
  | Some l => if expired l s then make else lock l s
  end.

Definition eraseStatsScopes (scopes : nat) (s : Registry) : outcome Registry :=
  match heap s !! scopes with
  | None => Undefined "scopes is dead"
  | Some (o, n) =>
      let s := if (n =? 1)%nat then set_cached (delete (string_config_ o) (cached_stats_scopes_ s)) s else s in
      Ok (reset scopes s)
  end.

(** ** Objects that share scopes *)

(** An object of [TagsMetadataStats]: alive, or in its destructor in front of the mutex, with its
    pointer moved into the argument of [eraseStatsScopes].  [metadata] only serves the theorems. *)
Record TagsMetadataStats := { scopes_ : nat; erasing : bool; metadata : PrefixedStatTags }.

Record World := { registry : Registry; objects : gmap nat TagsMetadataStats }.
Definition empty_world : World :=
  {| registry := {| heap := ∅; next := 0; cached_stats_scopes_ := ∅ |}; objects := ∅ |}.

Inductive Event :=
| Construct (id : nat) (proto_config : PrefixedStatTags)
| Destruct (id : nat)
| Erase (id : nat).

(** What the program can do next. *)
Definition enabled (w : World) (e : Event) : bool :=
  match e with
  | Construct id _ => bool_decide (objects w !! id = None)
  | Destruct id => match objects w !! id with Some o => negb (erasing o) | None => false end
  | Erase id => match objects w !! id with Some o => erasing o | None => false end
  end.

(** The mutex makes each of them one step; an event that is not possible changes nothing. *)
Definition step (w : World) (e : Event) : outcome World :=
  if negb (enabled w e) then Ok w
  else
    match e, objects w !! (match e with Construct id _ | Destruct id | Erase id => id end) with
    | Construct id proto_config, _ =>
        match getStatsScopesFromProto proto_config (registry w) with
        | (Some l, s) =>
            Ok {| registry := s;
                  objects := <[id := {| scopes_ := l; erasing := false; metadata := proto_config |}]> (objects w) |}
        | (None, _) => Undefined "scopes_ is null"
        end
    | Destruct id, Some o =>
        Ok {| registry := registry w;
              objects := <[id := {| scopes_ := scopes_ o; erasing := true; metadata := metadata o |}]> (objects w) |}
    | Erase id, Some o =>
        let* s := eraseStatsScopes (scopes_ o) (registry w) in
        Ok {| registry := s; objects := delete id (objects w) |}
    | _, None => Ok w
    end.

Fixpoint steps (w : World) (es : list Event) : outcome World :=
  match es with
  | [] => Ok w
  | e :: es' => let* w' := step w e in steps w' es'
  end.

(** ** The invariant *)

Definition use_count (l : nat) (m : gmap nat TagsMetadataStats) : nat :=
  size (filter (fun p => scopes_ p.2 = l) m).

Definition text (t : TagsMetadataStats) : string := messageToString (metadata t).

Record consistent (w : World) : Prop := {
  counted : forall l o n, heap (registry w) !! l = Some (o, n) -> n = use_count l (objects w) /\ (0 < n)%nat;
  built : forall l o n, heap (registry w) !! l = Some (o, n) ->
    cached_stats_scopes_ (registry w) !! string_config_ o = Some l /\
    exists p, o = new_StatsScopes p (messageToString p);
  cached : forall k l, cached_stats_scopes_ (registry w) !! k = Some l ->
    exists o n, heap (registry w) !! l = Some (o, n) /\ string_config_ o = k;
  fresh_next : forall l, is_Some (heap (registry w) !! l) -> (l < next (registry w))%nat;
  held : forall id t, objects w !! id = Some t ->
    exists o n, heap (registry w) !! scopes_ t = Some (o, n) /\ string_config_ o = text t;
}.

Lemma use_count_insert l id t m : m !! id = None ->
  use_count l (<[id := t]> m) = ((if decide (scopes_ t = l) then 1 else 0) + use_count l m)%nat.
Proof.
  intros Hid. unfold use_count. case_decide as E.
  - rewrite map_filter_insert_True by done. rewrite map_size_insert_None; [done|].
    apply map_lookup_filter_None. auto.
  - by rewrite map_filter_insert_not' by (cbn; congruence).
Qed.

Lemma use_count_delete l id t m : m !! id = Some t ->
  use_count l m = ((if decide (scopes_ t = l) then 1 else 0) + use_count l (delete id m))%nat.
Proof.
  intros Hid. rewrite <- (insert_delete_id m id t Hid) at 1. apply use_count_insert, lookup_delete_eq.
Qed.

Lemma use_count_replace l id t t' m : m !! id = Some t -> scopes_ t = scopes_ t' ->
  use_count l (<[id := t']> m) = use_count l m.
Proof.
  intros Hid E. rewrite (use_count_delete l id t m Hid), <- insert_delete_eq.
  rewrite use_count_insert by apply lookup_delete_eq. by rewrite E.
Qed.

Lemma use_count_zero l m : use_count l m = 0%nat <-> forall id t, m !! id = Some t -> scopes_ t ≠ l.
Proof.
  unfold use_count. rewrite map_size_empty_iff, map_empty_filter. unfold map_Forall. naive_solver.
Qed.

Lemma consistent_empty : consistent empty_world.
Proof. split; cbn; intros *; try done. intros [? E]. done. Qed.

(** Without an entry of its text, a new object is alone with its scopes. *)
Lemma made_consistent w id p :
  consistent w -> objects w !! id = None -> cached_stats_scopes_ (registry w) !! messageToString p = None ->
  let r := make_shared (new_StatsScopes p (messageToString p)) (registry w) in
  consistent {| registry := set_cached (<[messageToString p := r.1]> (cached_stats_scopes_ r.2)) r.2;
                objects := <[id := {| scopes_ := r.1; erasing := false; metadata := p |}]> (objects w) |}.
Proof.
  intros [Hcount Hbuilt Hcached Hnext Hheld] Hid Hnone r.
  assert (Hdead : heap (registry w) !! next (registry w) = None).
  { apply eq_None_not_Some. intros Hl. specialize (Hnext _ Hl). lia. }
  assert (Hzero : use_count (next (registry w)) (objects w) = 0%nat).
  { apply use_count_zero. intros i t Ht E. destruct (Hheld i t Ht) as (o & n & Ho & _). congruence. }
  split; cbn.
  - intros l o n. rewrite lookup_insert_Some, use_count_insert by done. cbn [scopes_].
    intros [[<- [= <- <-]]|[Hne Ho]]; [rewrite decide_True, Hzero by done; lia|].
    rewrite decide_False by done. by apply (Hcount l o).
  - intros l o n. rewrite lookup_insert_Some. intros [[<- [= <- <-]]|[Hne Ho]]; [split; [apply lookup_insert_eq|eauto]|].
    destruct (Hbuilt l o n Ho) as [Hc Hp]. split; [|done]. rewrite lookup_insert_ne; [done|]. congruence.
  - intros k l. rewrite lookup_insert_Some. intros [[<- <-]|[Hne Hk]]; [do 2 eexists; by rewrite lookup_insert_eq|].
    destruct (Hcached k l Hk) as (o & n & Ho & Hk'). exists o, n. rewrite lookup_insert_ne; [done|]. congruence.
  - intros l. destruct (decide (next (registry w) = l)) as [<-|Hne]; [intros _; lia|].
    rewrite lookup_insert_ne by done. intros Hl. specialize (Hnext l Hl). lia.
  - intros i t. rewrite lookup_insert_Some. intros [[<- <-]|[Hne Ht]]; cbn [scopes_ text metadata].
    { do 2 eexists. rewrite lookup_insert_eq. done. }
    destruct (Hheld i t Ht) as (o & n & Ho & Htext). exists o, n. rewrite lookup_insert_ne; [done|]. congruence.
Qed.

(** Changing a strong count together with the objects that hold it. *)
Lemma recounted_consistent w l o n n' objs :
  consistent w -> heap (registry w) !! l = Some (o, n) ->
  n' = use_count l objs -> (0 < n')%nat ->
  (forall l', l' ≠ l -> use_count l' objs = use_count l' (objects w)) ->
  (forall id t, objs !! id = Some t ->
     (exists id' t', objects w !! id' = Some t' /\ scopes_ t = scopes_ t' /\ text t = text t') \/
     (scopes_ t = l /\ string_config_ o = text t)) ->
  consistent {| registry := set_heap (<[l := (o, n')]> (heap (registry w))) (registry w); objects := objs |}.
Proof.
  intros [Hcount Hbuilt Hcached Hnext Hheld] Hl Hn Hpos Hothers Hobjs.
  assert (Hlive : forall l' o', (exists n0, heap (registry w) !! l' = Some (o', n0)) ->
            exists n0, <[l := (o, n')]> (heap (registry w)) !! l' = Some (o', n0)).
  { intros l' o' [n0 H0]. destruct (decide (l = l')) as [<-|Hne]; [|exists n0; by rewrite lookup_insert_ne].
    exists n'. rewrite lookup_insert_eq. congruence. }
  split; cbn.
  - intros l' o' m. rewrite lookup_insert_Some. intros [[<- [= <- <-]]|[Hne Ho]]; [done|].
    rewrite Hothers by done. by apply (Hcount l' o').
  - intros l' o' m. rewrite lookup_insert_Some. intros [[<- [= <- <-]]|[Hne Ho]]; eauto.
  - intros k l' Hk. destruct (Hcached k l' Hk) as (o' & m & Ho & Hk').
    destruct (Hlive l' o' (ex_intro _ m Ho)). eauto.
  - intros l' [[o' m] Hm]. apply Hnext. rewrite lookup_insert_Some in Hm. destruct Hm as [[<- _]|[_ Hm]]; eauto.
  - intros id t Ht. destruct (Hobjs id t Ht) as [(id' & t' & Ht' & -> & ->)|[-> Ho]].
    + destruct (Hheld id' t' Ht') as (o' & m & Ho & Htext). destruct (Hlive _ _ (ex_intro _ m Ho)). eauto.
    + exists o, n'. by rewrite lookup_insert_eq.
Qed.

Lemma construct_consistent w id p :
  consistent w -> objects w !! id = None ->
  exists l s, getStatsScopesFromProto p (registry w) = (Some l, s) /\
    consistent {| registry := s; objects := <[id := {| scopes_ := l; erasing := false; metadata := p |}]> (objects w) |}.
Proof.
  intros Hw Hid. unfold getStatsScopesFromProto.
  destruct (cached_stats_scopes_ (registry w) !! messageToString p) as [l|] eqn:E.
  2: { do 2 eexists. split; [done|]. by apply made_consistent. }
  destruct (cached w Hw _ _ E) as (o & n & Ho & Htext). destruct (counted w Hw _ _ _ Ho) as [Hn Hpos].
  unfold expired. rewrite bool_decide_false by congruence. unfold lock. rewrite Ho.
  do 2 eexists. split; [done|]. eapply recounted_consistent; eauto; try lia.
  - rewrite use_count_insert by done. cbn [scopes_]. rewrite decide_True by done. by rewrite Hn.
  - intros l' Hne. rewrite use_count_insert by done. cbn [scopes_]. by rewrite decide_False.
  - intros i t. rewrite lookup_insert_Some. intros [[_ <-]|[_ Ht]]; [by right|left; eauto].
Qed.

Lemma destruct_consistent w id t :
  consistent w -> objects w !! id = Some t ->
  consistent {| registry := registry w;
                objects := <[id := {| scopes_ := scopes_ t; erasing := true; metadata := metadata t |}]> (objects w) |}.
Proof.
  intros [Hcount Hbuilt Hcached Hnext Hheld] Ht. split; cbn; try done.
  - intros l o n Ho. rewrite (use_count_replace l id t) by done. by apply (Hcount l o).
  - intros i t'. rewrite lookup_insert_Some. intros [[<- <-]|[Hne Ht']]; [by apply (Hheld id t)|by apply (Hheld i)].
Qed.

(** The last object takes the scopes and their entry with it. *)
Lemma last_consistent w id t o :
  consistent w -> objects w !! id = Some t -> heap (registry w) !! scopes_ t = Some (o, 1%nat) ->
  consistent {| registry := {| heap := delete (scopes_ t) (heap (registry w)); next := next (registry w);
                               cached_stats_scopes_ := delete (string_config_ o) (cached_stats_scopes_ (registry w)) |};
                objects := delete id (objects w) |}.
Proof.
  intros Hw Ht Ho. pose proof Hw as [Hcount Hbuilt Hcached Hnext Hheld].
  destruct (Hcount _ _ _ Ho) as [Hone _]. rewrite (use_count_delete _ id t), decide_True in Hone by done.
  assert (Hzero : use_count (scopes_ t) (delete id (objects w)) = 0%nat) by lia.
  destruct (Hbuilt _ _ _ Ho) as [Hc _]. split; cbn.
  - intros l o' n. rewrite lookup_delete_Some. intros [Hne Ho']. destruct (Hcount _ _ _ Ho') as [-> Hpos].
    split; [|done]. rewrite (use_count_delete l id t) by done. by rewrite decide_False.
  - intros l o' n. rewrite lookup_delete_Some. intros [Hne Ho']. destruct (Hbuilt _ _ _ Ho') as [Hc' Hp].
    split; [|done]. rewrite lookup_delete_ne; [done|]. congruence.
  - intros k l. rewrite lookup_delete_Some. intros [Hne Hk]. destruct (Hcached _ _ Hk) as (o' & n & Ho' & <-).
    exists o', n. rewrite lookup_delete_ne; [done|]. intros E. rewrite <- E in Ho'. congruence.
  - intros l [x Hx]. rewrite lookup_delete_Some in Hx. destruct Hx as [_ Hx]. eauto.
  - intros i t'. intros Ht'. pose proof (proj1 (use_count_zero _ _) Hzero i t' Ht') as Hne.
    rewrite lookup_delete_Some in Ht'. destruct Ht' as [_ Ht']. destruct (Hheld i t' Ht') as (o' & n & Ho' & Htext).
    exists o', n. by rewrite lookup_delete_ne.
Qed.

Lemma erase_consistent w id t :
  consistent w -> objects w !! id = Some t ->
  exists s, eraseStatsScopes (scopes_ t) (registry w) = Ok s /\
    consistent {| registry := s; objects := delete id (objects w) |}.
Proof.
  intros Hw Ht. destruct (held w Hw id t Ht) as (o & n & Ho & Htext). destruct (counted w Hw _ _ _ Ho) as [Hn Hpos].
  unfold eraseStatsScopes. rewrite Ho. destruct n as [|[|n]]; [lia| |].
  - cbn [Nat.eqb]. eexists. split; [done|]. unfold reset. cbn [set_cached heap]. rewrite Ho. by apply last_consistent.
  - cbn [Nat.eqb]. eexists. split; [done|]. unfold reset. rewrite Ho.
    rewrite (use_count_delete _ id t), decide_True in Hn by done.
    eapply recounted_consistent; eauto; try lia.
    + intros l Hne. rewrite (use_count_delete l id t (objects w)), decide_False by done. done.
    + intros i t'. rewrite lookup_delete_Some. intros [_ Ht']. left. eauto.
Qed.

Lemma step_consistent w e : consistent w -> exists w', step w e = Ok w' /\ consistent w'.
Proof.
  intros Hw. unfold step. destruct (enabled w e) eqn:He; cbn [negb]; [|eauto].
  destruct e as [id p|id|id]; cbn [enabled] in He.
  - apply bool_decide_eq_true in He. destruct (construct_consistent w id p Hw He) as (l & s & -> & Hs). eauto.
  - destruct (objects w !! id) as [t|] eqn:E; [|done]. eexists. split; [done|]. by apply destruct_consistent.
  - destruct (objects w !! id) as [t|] eqn:E; [|done].
    destruct (erase_consistent w id t Hw E) as (s & -> & Hs). cbn [obind]. eauto.
Qed.

Lemma steps_consistent w es : consistent w -> exists w', steps w es = Ok w' /\ consistent w'.
Proof.
  revert w. induction es as [|e es IH]; intros w Hw; cbn [steps]; [eauto|].
  destruct (step_consistent w e Hw) as (w' & -> & Hw'). cbn [obind]. by apply IH.
Qed.

(** C21. Whatever objects with metadata are constructed and destroyed, and however their destructors
    are delayed in front of the mutex: no dead scopes are ever used, two objects have the same scopes
    exactly when their metadata have the same text, these scopes are alive and were built for that
    text, and neither scopes nor entries of the cache stay behind when the last object is gone. *)
Theorem scopes_shared (es : list Event) :
  exists w, steps empty_world es = Ok w /\
    (forall i j t u, objects w !! i = Some t -> objects w !! j = Some u ->
       (scopes_ t = scopes_ u <-> text t = text u)) /\
    (forall i t, objects w !! i = Some t ->
       exists p n, messageToString p = text t /\
         heap (registry w) !! scopes_ t = Some (new_StatsScopes p (text t), n)) /\
    (forall l, is_Some (heap (registry w) !! l) <-> exists i t, objects w !! i = Some t /\ scopes_ t = l) /\
    (forall k, is_Some (cached_stats_scopes_ (registry w) !! k) <-> exists i t, objects w !! i = Some t /\ text t = k).
Proof.
  destruct (steps_consistent empty_world es consistent_empty) as (w & Hrun & Hw). exists w. split; [done|].
  destruct Hw as [Hcount Hbuilt Hcached Hnext Hheld].
  assert (Hlive : forall l, is_Some (heap (registry w) !! l) <-> exists i t, objects w !! i = Some t /\ scopes_ t = l).
  { intros l. split; [|intros (i & t & Ht & <-); destruct (Hheld i t Ht) as (? & ? & ? & _); eauto].
    intros [[o n] Ho]. destruct (Hcount _ _ _ Ho) as [-> Hpos].
    destruct (map_size_ne_0_lookup_1 (filter (fun p => scopes_ p.2 = l) (objects w))) as [i [t Hi]].
    { unfold use_count in Hpos. lia. }
    apply map_lookup_filter_Some in Hi. naive_solver. }
  split_and!; [| |done|].
  - intros i j t u Ht Hu. destruct (Hheld i t Ht) as (o & n & Ho & Hto), (Hheld j u Hu) as (o' & n' & Ho' & Huo').
    split; intros E; [congruence|].
    destruct (Hbuilt _ _ _ Ho) as [Hc _], (Hbuilt _ _ _ Ho') as [Hc' _]. congruence.
  - intros i t Ht. destruct (Hheld i t Ht) as (o & n & Ho & Hto).
    destruct (Hbuilt _ _ _ Ho) as (_ & p & ->). cbn [new_StatsScopes string_config_] in Hto.
    exists p, n. split; [done|]. by rewrite <- Hto.
  - intros k. split.
    + intros [l Hl]. destruct (Hcached _ _ Hl) as (o & n & Ho & <-).
      destruct (proj1 (Hlive l)) as (i & t & Ht & <-); [eauto|].
      exists i, t. split; [done|]. destruct (Hheld i t Ht) as (o' & n' & Ho' & Hto). congruence.
    + intros (i & t & Ht & <-). destruct (Hheld i t Ht) as (o & n & Ho & <-). destruct (Hbuilt _ _ _ Ho); eauto.
Qed.

End scopes.
End Scopes.

Module Detailed.
Import Scopes.

(** [Thread::AtomicPtrArray]: the first [get] of an index makes its element, later ones find it. *)
Class AtomicPtrArray (T : Type) := {
  array_empty : T;
  array_at : T -> Z -> option string;
  array_get : T -> Z -> string -> string * T;
}.
Class AtomicPtrArrayLaws (T : Type) `{!AtomicPtrArray T} := {
  at_empty : forall i, array_at array_empty i = None;
  get_value : forall a i made, (array_get a i made).1 = default made (array_at a i);
  get_kept : forall a i made, array_at (array_get a i made).2 i = Some (default made (array_at a i));
  get_other : forall a i j made, i ≠ j -> array_at (array_get a i made).2 j = array_at a j;
}.

Section filter.
Context {H StringMatcher HeaderMatcher QueryParameterMatcher T : Type}
  `{!HeaderMap H, api : !MatcherApi H StringMatcher HeaderMatcher QueryParameterMatcher, !AtomicPtrArray T}.
#[local] Abbreviation Matcher := (@Matcher StringMatcher HeaderMatcher QueryParameterMatcher).
#[local] Abbreviation MatcherProto := (@CommonMatcherProto StringMatcher HeaderMatcher QueryParameterMatcher).

(** The status code of a response, if it has one, and the response flags with their letters. *)
Context (getResponseStatusNoThrow : H -> option Z) (ALL_RESPONSE_STRING_FLAGS : list (string * Z)).

(** ** Configurations *)

Record ProtoMatchedStats := { matcher : MatcherProto; matched_tags : list StatNameTag }.

Abbreviation MatchedStatTags := (list Matcher * list StatNameTag)%type.

Definition new_matched_stats (config : list ProtoMatchedStats) : list MatchedStatTags :=
  (fun m => (new_CommonMatcher (matcher m), matched_tags m)) <$> config.

Record CommonConfig := {
  matched_stats_ : list MatchedStatTags;
  code_stat_names_ : T;
  flag_stat_names_ : T;
}.
Definition none_flags_or_code_ : string := "-".
Definition NumHttpCodes : Z := 500.
Definition HttpCodeOffset : Z := 100.

Definition new_CommonConfig (config : list ProtoMatchedStats) : CommonConfig :=
  {| matched_stats_ := new_matched_stats config; code_stat_names_ := array_empty; flag_stat_names_ := array_empty |}.

(** The index is computed in 32 bits, the name from all of the code. *)
Definition responseCodeToStatName (code : Z) (c : CommonConfig) : string * CommonConfig :=
  let rc_index := u32 (u32 code - HttpCodeOffset) in
  if NumHttpCodes <=? rc_index then (none_flags_or_code_, c)
  else
    let r := array_get (code_stat_names_ c) rc_index (to_string code) in
    (r.1, {| matched_stats_ := matched_stats_ c; code_stat_names_ := r.2; flag_stat_names_ := flag_stat_names_ c |}).

(** The first flag of the list that is set; the array of names has 64 places. *)
Fixpoint first_flag (flags : Z) (l : list (string * Z)) (i : nat) : option (nat * string) :=
  match l with
  | [] => None
  | (name, flag) :: l' => if Z.land flags flag =? 0 then first_flag flags l' (S i) else Some (i, name)
  end.

Definition responseFlagToStatName (flags : Z) (c : CommonConfig) : outcome (string * CommonConfig) :=
  if flags =? 0 then Ok (none_flags_or_code_, c)
  else
    match first_flag flags ALL_RESPONSE_STRING_FLAGS 0 with
    | None => Ok (none_flags_or_code_, c)
    | Some (i, name) =>
        if (i <? 64)%nat then
          let r := array_get (flag_stat_names_ c) (Z.of_nat i) name in
          Ok (r.1, {| matched_stats_ := matched_stats_ c; code_stat_names_ := code_stat_names_ c; flag_stat_names_ := r.2 |})
        else Undefined "index out of the range of flag_stat_names_"
    end.

(** ** A stream *)

(** [requestComplete] is in nanoseconds; [upstreamInfo] has the metadata of the upstream host, if
    there are an upstream, a host and metadata. *)
Record StreamInfo := {
  responseFlags : Z;
  bytesReceived : Z;
  bytesSent : Z;
  requestComplete : option Z;
  getRequestHeaders : option H;
  upstreamInfo : option (option (option StatsScopes));
}.

Record StreamStatsContext := {
  request_tags_ : list StatNameTag;
  request_bytes_ : Z;
  response_bytes_ : Z;
  request_time_ : Z;
}.
Definition add_tags (tags : list StatNameTag) (context : StreamStatsContext) : StreamStatsContext :=
  {| request_tags_ := request_tags_ context ++ tags; request_bytes_ := request_bytes_ context;
     response_bytes_ := response_bytes_ context; request_time_ := request_time_ context |}.

Definition streamStatsContext (response_headers : H) (stream_info : StreamInfo) (c : CommonConfig) :
    outcome (StreamStatsContext * CommonConfig) :=
  let code := responseCodeToStatName (default 0 (getResponseStatusNoThrow response_headers)) c in
  let* flags := responseFlagToStatName (responseFlags stream_info) code.2 in
  Ok ({| request_tags_ := [("request_protocol", "http"); ("response_code", code.1); ("response_flags", flags.1)];
         request_bytes_ := bytesReceived stream_info;
         response_bytes_ := bytesSent stream_info;
         request_time_ := match requestComplete stream_info with
                          | Some duration => u64 (Z.quot duration 1000000)
                          | None => 0
                          end |}, flags.2).

Fixpoint completeStreamStatsContextImpl (matched_stats : list MatchedStatTags)
    (match_context : HttpCommonMatcherContext) (context : StreamStatsContext) :
    outcome (HttpCommonMatcherContext (H := H) * StreamStatsContext) :=
  match matched_stats with
  | [] => Ok (match_context, context)
  | matched_stat :: rest =>
      let* r := common_match matched_stat.1 match_context in
      completeStreamStatsContextImpl rest r.2 (if r.1 then add_tags matched_stat.2 context else context)
  end.

(** The configurations of a route from the outermost to the innermost; one of another type is [None]. *)
Record RouterConfig := { route_matched_stats_ : list MatchedStatTags }.
Definition new_RouterConfig (config : list ProtoMatchedStats) : RouterConfig :=
  {| route_matched_stats_ := new_matched_stats config |}.
Record Route := { route_metadata : option StatsScopes; perFilterConfig : list (option RouterConfig) }.

Fixpoint traversePerFilterConfig (configs : list (option RouterConfig))
    (match_context : HttpCommonMatcherContext) (context : StreamStatsContext) :
    outcome (HttpCommonMatcherContext (H := H) * StreamStatsContext) :=
  match configs with
  | [] => Ok (match_context, context)
  | Some type_config :: rest =>
      let* r := completeStreamStatsContextImpl (route_matched_stats_ type_config) match_context context in
      traversePerFilterConfig rest r.1 r.2
  | None :: rest => traversePerFilterConfig rest match_context context
  end.

Inductive Unit := Bytes | Milliseconds.
Inductive effect :=
| inc (scope : string) (tags : list StatNameTag)
| recordValue (scope : string) (tags : list StatNameTag) (unit : Unit) (value : Z).

Definition onStreamComplete (scopes : StatsScopes) (context : StreamStatsContext) : list effect :=
  let final_tags := scope_tags_ scopes ++ request_tags_ context in
  [inc (request_total_scope_ scopes) final_tags;
   recordValue (request_bytes_scope_ scopes) final_tags Bytes (request_bytes_ context);
   recordValue (response_bytes_scope_ scopes) final_tags Bytes (response_bytes_ context);
   recordValue (request_time_scope_ scopes) final_tags Milliseconds (request_time_ context)].

(** ** The filter *)

Record Filter := { response_headers_ : option H }.
Definition new_Filter : Filter := {| response_headers_ := None |}.

Definition encodeHeaders (headers : H) (f : Filter) : FilterHeadersStatus * Filter :=
  (Continue, {| response_headers_ := Some headers |}).

Definition when_some (o : option StatsScopes) (context : StreamStatsContext) : list effect :=
  match o with Some scopes => onStreamComplete scopes context | None => [] end.

Definition onDestroy (f : Filter) (stream_info : StreamInfo) (route : option Route) (c : CommonConfig) :
    outcome (list effect * CommonConfig) :=
  match response_headers_ f, route with
  | None, _ | _, None => Ok ([], c)
  | Some response_headers, Some route =>
      let host_typed_metadata :=
        match upstreamInfo stream_info with
        | Some upstream_host => match upstream_host with Some m => m | None => None end
        | None => None
        end in
      match route_metadata route, host_typed_metadata with
      | None, None => Ok ([], c)
      | route_typed_metadata, _ =>
          match getRequestHeaders stream_info with
          | None => Undefined "request_header is null"
          | Some request_header =>
              let* context := streamStatsContext response_headers stream_info c in
              let* r := traversePerFilterConfig (perFilterConfig route)
                          (new_HttpCommonMatcherContext request_header) context.1 in
              let* r := completeStreamStatsContextImpl (matched_stats_ context.2) r.1 r.2 in
              Ok (when_some route_typed_metadata r.2 ++ when_some host_typed_metadata r.2, context.2)
          end
      end
  end.

(** ** What is recorded *)

(** A stream with its response, if one was seen, and its route, if it has one. *)
Record Stream := { response : option H; info : StreamInfo; route : option Route }.

Definition destroy_stream (s : Stream) (c : CommonConfig) : outcome (list effect * CommonConfig) :=
  let f := match response s with Some h => (encodeHeaders h new_Filter).2 | None => new_Filter end in
  onDestroy f (info s) (route s) c.

Fixpoint serve (c : CommonConfig) (streams : list Stream) : outcome (list (list effect) * CommonConfig) :=
  match streams with
  | [] => Ok ([], c)
  | s :: rest =>
      let* r := destroy_stream s c in
      let* r' := serve r.2 rest in Ok (r.1 :: r'.1, r'.2)
  end.

Definition code_name (code : Z) : string :=
  if (100 <=? code) && (code <? 600) then to_string code else "-".
Definition flag_name (flags : Z) : string :=
  match find (fun p => negb (Z.land flags p.2 =? 0)) ALL_RESPONSE_STRING_FLAGS with
  | Some p => p.1
  | None => "-"
  end.
Definition tags_of (request : H) (matched_stats : list MatchedStatTags) : list StatNameTag :=
  flat_map (fun m => if forallb (matcher_holds request) m.1 then m.2 else []) matched_stats.

Definition recorded (i : StreamInfo) (tags : list StatNameTag) (scopes : StatsScopes) : list effect :=
  let tags := scope_tags_ scopes ++ tags in
  [inc (request_total_scope_ scopes) tags;
   recordValue (request_bytes_scope_ scopes) tags Bytes (bytesReceived i);
   recordValue (response_bytes_scope_ scopes) tags Bytes (bytesSent i);
   recordValue (request_time_scope_ scopes) tags Milliseconds
     (match requestComplete i with Some d => u64 (Z.quot d 1000000) | None => 0 end)].

Definition expected (config : list ProtoMatchedStats) (s : Stream) : list effect :=
  match response s, route s, getRequestHeaders (info s) with
  | Some h, Some r, Some request =>
      let tags :=
        [("request_protocol", "http"); ("response_code", code_name (default 0 (getResponseStatusNoThrow h)));
         ("response_flags", flag_name (responseFlags (info s)))] ++
        flat_map (fun c => match c with Some c => tags_of request (route_matched_stats_ c) | None => [] end)
          (perFilterConfig r) ++
        tags_of request (new_matched_stats config) in
      flat_map (recorded (info s) tags)
        (option_list (route_metadata r) ++ option_list (mjoin (mjoin (upstreamInfo (info s)))))
  | _, _, _ => []
  end.

(** The host gives the request's headers, and no status needs more than 32 bits. *)
Definition stream_ok (s : Stream) : Prop :=
  (exists request, getRequestHeaders (info s) = Some request /\ is_request request = true) /\
  forall h code, response s = Some h -> getResponseStatusNoThrow h = Some code -> 0 <= code < 2 ^ 32.

Context `{!AtomicPtrArrayLaws T}.

Definition flag_at (i : Z) (name : string) : Prop :=
  exists n flag, i = Z.of_nat n /\ ALL_RESPONSE_STRING_FLAGS !! n = Some (name, flag).

(** The names found so far are those of their index. *)
Record names_right (config : list ProtoMatchedStats) (c : CommonConfig) : Prop := {
  names_matched : matched_stats_ c = new_matched_stats config;
  names_codes : forall i name, array_at (code_stat_names_ c) i = Some name -> name = to_string (i + 100);
  names_flags : forall i name, array_at (flag_stat_names_ c) i = Some name -> flag_at i name;
}.

Lemma new_names_right config : names_right config (new_CommonConfig config).
Proof. split; [done| |]; cbn; intros i name; by rewrite at_empty. Qed.

(** An array stays right when the element of an index depends on the index only. *)
Lemma array_get_right (P : Z -> string -> Prop) a i made :
  P i made -> (forall j name, array_at a j = Some name -> P j name) ->
  P i (array_get a i made).1 /\ forall j name, array_at (array_get a i made).2 j = Some name -> P j name.
Proof.
  intros Hi Ha. rewrite get_value. assert (Hd : P i (default made (array_at a i))).
  { destruct (array_at a i) as [name|] eqn:E; cbn; auto. }
  split; [done|]. intros j name. destruct (decide (i = j)) as [<-|Hne].
  - rewrite get_kept. by intros [= <-].
  - rewrite get_other by done. auto.
Qed.

Lemma response_code_right config c code :
  0 <= code < 2 ^ 32 -> names_right config c ->
  (responseCodeToStatName code c).1 = code_name code /\ names_right config (responseCodeToStatName code c).2.
Proof.
  intros Hcode Hc. pose proof Hc as [Hm Hk Hf]. unfold responseCodeToStatName, code_name, NumHttpCodes, HttpCodeOffset.
  rewrite (u32_small code) by done.
  destruct (decide (100 <= code < 600)) as [Hin|Hout].
  - rewrite u32_small by lia. rewrite (proj2 (Z.leb_gt _ _)) by lia.
    rewrite (proj2 (Z.leb_le 100 code)), (proj2 (Z.ltb_lt code 600)) by lia. cbn [andb].
    destruct (array_get_right (fun i name => name = to_string (i + 100)) (code_stat_names_ c) (code - 100) (to_string code))
      as [E Hk']; [f_equal; lia|done|].
    rewrite E. split; [cbn; f_equal; lia|]. by split.
  - assert (Hidx : 500 <= u32 (code - 100)).
    { destruct (decide (code < 100)) as [Hlow|Hhigh].
      - unfold u32. rewrite <- (Z.mod_unique (code - 100) (2 ^ 32) (-1) (code - 100 + 2 ^ 32)); lia.
      - rewrite u32_small; lia. }
    rewrite (proj2 (Z.leb_le _ _)) by done. split; [|done].
    destruct (Z.leb_spec 100 code), (Z.ltb_spec code 600); cbn [andb]; try done. lia.
Qed.

Lemma first_flag_spec flags l i :
  match first_flag flags l i with
  | None => find (fun p => negb (Z.land flags p.2 =? 0)) l = None
  | Some (j, name) => exists flag, (i <= j)%nat /\ l !! (j - i)%nat = Some (name, flag) /\
      find (fun p => negb (Z.land flags p.2 =? 0)) l = Some (name, flag)
  end.
Proof.
  revert i. induction l as [|[name flag] l IH]; intros i; cbn [first_flag find snd]; [done|].
  destruct (Z.land flags flag =? 0); cbn [negb].
  - specialize (IH (S i)). destruct (first_flag flags l (S i)) as [[j n]|]; [|done].
    destruct IH as (f & Hle & Hj & Hfind). exists f. split; [lia|]. split; [|done].
    by replace (j - i)%nat with (S (j - S i)) by lia.
  - exists flag. split; [lia|]. by rewrite Nat.sub_diag.
Qed.

Lemma response_flag_right config c flags :
  (length ALL_RESPONSE_STRING_FLAGS <= 64)%nat -> names_right config c ->
  exists c', responseFlagToStatName flags c = Ok (flag_name flags, c') /\ names_right config c'.
Proof.
  intros Hlen Hc. unfold responseFlagToStatName, flag_name.
  pose proof (first_flag_spec flags ALL_RESPONSE_STRING_FLAGS 0) as Hfirst.
  destruct (Z.eqb_spec flags 0) as [->|Hne].
  { exists c. split; [|done]. assert (find (fun p => negb (Z.land 0 p.2 =? 0)) ALL_RESPONSE_STRING_FLAGS = None) as ->; [|done].
    clear. induction ALL_RESPONSE_STRING_FLAGS as [|p l IH]; cbn [find]; [done|]. by rewrite Z.land_0_l. }
  destruct (first_flag _ _ _) as [[i name]|]; [|rewrite Hfirst; eauto].
  destruct Hfirst as (flag & _ & Hi & ->). rewrite Nat.sub_0_r in Hi.
  pose proof (lookup_lt_Some _ _ _ Hi). rewrite (proj2 (Nat.ltb_lt i 64)) by lia.
  pose proof Hc as [Hm Hk Hf].
  destruct (array_get_right flag_at (flag_stat_names_ c) (Z.of_nat i) name) as [(n & f & Hn & Hn') Hf'];
    [by exists i, flag|done|].
  apply Nat2Z.inj in Hn as <-. rewrite Hi in Hn'. injection Hn' as Hn' _. rewrite <- Hn'.
  eexists. split; [done|]. by split.
Qed.

Lemma complete_tags h l mc context :
  is_request h = true -> context_of h mc ->
  exists mc', completeStreamStatsContextImpl l mc context = Ok (mc', add_tags (tags_of h l) context) /\
    context_of h mc'.
Proof.
  intros Hreq. revert mc context. induction l as [|m l IH]; intros mc context Hmc; cbn [completeStreamStatsContextImpl].
  - exists mc. split; [|done]. unfold add_tags, tags_of. cbn [flat_map]. rewrite app_nil_r. by destruct context.
  - destruct (common_match_spec h m.1 mc Hreq Hmc) as (mc1 & -> & Hmc1). cbn [obind fst snd].
    destruct (IH mc1 (if forallb (matcher_holds h) m.1 then add_tags m.2 context else context) Hmc1)
      as (mc2 & -> & Hmc2).
    exists mc2. split; [|done]. unfold tags_of. cbn [flat_map]. do 2 f_equal.
    destruct (forallb (matcher_holds h) m.1); [|done]. unfold add_tags. cbn. by rewrite <- app_assoc.
Qed.

Definition route_tags (h : H) (configs : list (option RouterConfig)) : list StatNameTag :=
  flat_map (fun c => match c with Some c => tags_of h (route_matched_stats_ c) | None => [] end) configs.

Lemma traverse_tags h configs mc context :
  is_request h = true -> context_of h mc ->
  exists mc', traversePerFilterConfig configs mc context = Ok (mc', add_tags (route_tags h configs) context) /\
    context_of h mc'.
Proof.
  intros Hreq. revert mc context. induction configs as [|[c|] configs IH]; intros mc context Hmc;
    cbn [traversePerFilterConfig]; [| |by apply IH].
  - exists mc. split; [|done]. unfold add_tags, route_tags. cbn [flat_map]. rewrite app_nil_r. by destruct context.
  - destruct (complete_tags h (route_matched_stats_ c) mc context Hreq Hmc) as (mc1 & -> & Hmc1). cbn [obind fst snd].
    destruct (IH mc1 (add_tags (tags_of h (route_matched_stats_ c)) context) Hmc1) as (mc2 & -> & Hmc2).
    exists mc2. split; [|done]. unfold add_tags, route_tags. cbn. by rewrite <- app_assoc.
Qed.

(** One stream, whatever was served before. *)
Lemma destroy_stream_records config s c :
  (length ALL_RESPONSE_STRING_FLAGS <= 64)%nat -> stream_ok s -> names_right config c ->
  exists c', destroy_stream s c = Ok (expected config s, c') /\ names_right config c'.
Proof.
  intros Hlen [(request & Hreq & Hisreq) Hcode] Hc. unfold destroy_stream, expected, onDestroy. rewrite Hreq.
  destruct (response s) as [h|] eqn:Eresp; cbn [encodeHeaders new_Filter response_headers_ snd]; [|eauto].
  destruct (route s) as [r|]; [|eauto].
  set (code := default 0 (getResponseStatusNoThrow h)).
  assert (Hrange : 0 <= code < 2 ^ 32).
  { unfold code. destruct (getResponseStatusNoThrow h) as [n|] eqn:E; cbn; [by eapply Hcode|lia]. }
  destruct (response_code_right config c code Hrange Hc) as [Ecode Hc1].
  destruct (response_flag_right config (responseCodeToStatName code c).2 (responseFlags (info s)) Hlen Hc1)
    as (c2 & Eflag & Hc2).
  destruct (route_metadata r) as [rm|], (upstreamInfo (info s)) as [[[hm|]|]|]; try by eauto.
  all: unfold streamStatsContext; fold code; rewrite Eflag; cbn [obind fst snd].
  all: match goal with
       | |- context [traversePerFilterConfig _ _ ?ctx] =>
           destruct (traverse_tags request (perFilterConfig r) _ ctx Hisreq (new_context_of request))
             as (mc1 & -> & Hmc1); cbn [obind fst snd];
           destruct (complete_tags request (matched_stats_ c2) mc1 (add_tags (route_tags request (perFilterConfig r)) ctx)
                       Hisreq Hmc1) as (mc2 & -> & _); cbn [obind fst snd]
       end.
  all: exists c2; split; [|done]; rewrite (names_matched config c2 Hc2), Ecode.
  all: cbn; unfold onStreamComplete, recorded, route_tags; cbn; by rewrite ?app_nil_r, <- ?app_assoc.
Qed.

(** C17. Every stream with a response and a route counts once, and records its bytes and its duration
    once, in the scopes of the route and in those of the upstream host, where there are such, and
    nowhere else; the tags are those of the scopes, then protocol, code and first response flag, then
    the tags of the matching entries of the route's configurations and of the filter's.  The names
    that are remembered from earlier streams never change what is recorded. *)
Theorem stats_recorded (config : list ProtoMatchedStats) (streams : list Stream) :
  (length ALL_RESPONSE_STRING_FLAGS <= 64)%nat -> Forall stream_ok streams ->
  exists c, serve (new_CommonConfig config) streams = Ok (expected config <$> streams, c).
Proof.
  intros Hlen Hok. assert (Hc := new_names_right config). revert Hc.
  generalize (new_CommonConfig config). induction Hok as [|s streams Hs Hok IH]; intros c Hc; cbn [serve]; [eauto|].
  destruct (destroy_stream_records config s c Hlen Hs Hc) as (c1 & -> & Hc1). cbn [obind fst snd].
  destruct (IH c1 Hc1) as (c2 & ->). cbn [obind fst snd]. eauto.
Qed.

End filter.
(** ** An executable instance *)

#[export] Instance map_AtomicPtrArray : AtomicPtrArray (gmap Z string) := {
  array_empty := ∅;
  array_at a i := a !! i;
  array_get a i made := match a !! i with Some name => (name, a) | None => (made, <[i := made]> a) end;
}.
#[export] Instance map_AtomicPtrArrayLaws : AtomicPtrArrayLaws (gmap Z string).
Proof.
  split; cbn; intros *.
  - apply lookup_empty.
  - by destruct (a !! i).
  - destruct (a !! i) eqn:E; cbn; [done|apply lookup_insert_eq].
  - intros Hne. destruct (a !! i); cbn; [done|by apply lookup_insert_ne].
Qed.

(** Status codes in decimal. *)
Fixpoint number (acc : Z) (s : string) : Z :=
  match s with
  | EmptyString => acc
  | String a s' => number (10 * acc + (Z.of_nat (Ascii.nat_of_ascii a) - 48)) s'
  end.
Definition example_status (h : alist) : option Z := number 0 <$> head (alist_get ":status" h).
Definition example_flags : list (string * Z) := [("LH", 1); ("UH", 2); ("UT", 4)].
Definition example_config : list (@ProtoMatchedStats string (string * string) (string * string)) :=
  [{| matcher := {| path := Some "/pay"; headers := []; parameters := []; cookies := [] |};
      matched_tags := [("service", "pay")] |}].
Definition example_scopes (prefix : string) : StatsScopes :=
  new_StatsScopes {| stat_prefix := prefix; stat_tags := [("cluster", prefix)] |} prefix.
Abbreviation ExampleStream := (@Stream alist string (string * string) (string * string)).
Definition example_stream (status path : string) (flags : Z) : ExampleStream :=
  {| response := Some [(":status", status)];
     info := {| responseFlags := flags; bytesReceived := 10; bytesSent := 20; requestComplete := Some 3999999;
                getRequestHeaders := Some [(":path", path)];
                upstreamInfo := Some (Some (Some (example_scopes "host"))) |};
     route := Some {| route_metadata := Some (example_scopes "route"); perFilterConfig := [] |} |}.
Definition example_streams : list ExampleStream :=
  [example_stream "200" "/pay?n=1" 0; example_stream "503" "/other" 6].

Lemma example_streams_recorded :
  (fun r => r.1) <$> (match serve example_status example_flags (new_CommonConfig (T := gmap Z string) example_config)
                              example_streams with Ok r => Some r | _ => None end) =
  Some [
    let tags s := [("cluster", s); ("request_protocol", "http"); ("response_code", "200");
                   ("response_flags", "-"); ("service", "pay")] in
    [inc "route.requests_total" (tags "route"); recordValue "route.request_bytes" (tags "route") Bytes 10;
     recordValue "route.response_bytes" (tags "route") Bytes 20;
     recordValue "route.request_duration_milliseconds" (tags "route") Milliseconds 3;
     inc "host.requests_total" (tags "host"); recordValue "host.request_bytes" (tags "host") Bytes 10;
     recordValue "host.response_bytes" (tags "host") Bytes 20;
     recordValue "host.request_duration_milliseconds" (tags "host") Milliseconds 3];
    let tags s := [("cluster", s); ("request_protocol", "http"); ("response_code", "503"); ("response_flags", "UH")] in
    [inc "route.requests_total" (tags "route"); recordValue "route.request_bytes" (tags "route") Bytes 10;
     recordValue "route.response_bytes" (tags "route") Bytes 20;
     recordValue "route.request_duration_milliseconds" (tags "route") Milliseconds 3;
     inc "host.requests_total" (tags "host"); recordValue "host.request_bytes" (tags "host") Bytes 10;
     recordValue "host.response_bytes" (tags "host") Bytes 20;
     recordValue "host.request_duration_milliseconds" (tags "host") Milliseconds 3]].
Proof. reflexivity. Qed.

Lemma example_stream_ok status path flags :
  0 <= number 0 status < 2 ^ 32 -> stream_ok example_status (example_stream status path flags).
Proof. intros Hs. split; cbn; [by eexists|]. by intros h code [= <-] [= <-]. Qed.

Lemma stats_recorded_witness :
  (length example_flags <= 64)%nat /\ Forall (stream_ok example_status) example_streams /\
  exists c, serve example_status example_flags (new_CommonConfig (T := gmap Z string) example_config) example_streams =
    Ok (expected example_status example_flags example_config <$> example_streams, c).
Proof.
  assert (Hok : Forall (stream_ok example_status) example_streams).
  { constructor; [|constructor; [|constructor]]; by apply example_stream_ok. }
  split; [vm_compute; lia|]. split; [exact Hok|].
  apply (stats_recorded (T := gmap Z string) example_status example_flags example_config example_streams);
    [vm_compute; lia|exact Hok].
Defined.

(** The two halves of a code of more than 32 bits part: it is stored as the name of another one,
    and from then on it is recorded for that one. *)
Lemma wide_code_keeps_name :
  let c := (responseCodeToStatName (2 ^ 32 + 200) (new_CommonConfig (T := gmap Z string) example_config)).2 in
  (responseCodeToStatName 200 c).1 = "4294967496".
Proof. reflexivity. Qed.

(** A route and a host with the same metadata have the same scopes, in which each stream counts twice. *)
Lemma same_metadata_counts_twice scopes :
  let s := example_stream "200" "/" 0 in
  let s := {| response := response s;
              info := {| responseFlags := 0; bytesReceived := 10; bytesSent := 20; requestComplete := None;
                         getRequestHeaders := Some [(":path", "/")]; upstreamInfo := Some (Some (Some scopes)) |};
              route := Some {| route_metadata := Some scopes; perFilterConfig := [] |} |} in
  let tags := scope_tags_ scopes ++ [("request_protocol", "http"); ("response_code", "200"); ("response_flags", "-")] in
  exists rest rest', expected example_status example_flags [] s =
    inc (request_total_scope_ scopes) tags :: rest ++ inc (request_total_scope_ scopes) tags :: rest'.
Proof. cbn. eexists [_; _; _], _. cbn. reflexivity. Qed.

End Detailed.
