(* ===== verification/Waf.v ===== *)
(** * The web application firewall (source/filters/http/waf)

    A filter keeps a transaction of ModSecurity for the rules of the listener and one for those of
    the route, passes it every part of a request and its response, and asks after each part whether
    it intervenes.  ModSecurity and its rules are not part of this code ([ModSecurity]). *)

From S2P Require Import Prelude Decimal Json Http TrafficMark MetadataHub.
From Stdlib Require Import Ascii SpecFloat.
From stdpp Require Import base gmap strings numbers list.
From S2P Require Import Effects.
#[local] Open Scope Z_scope.
#[local] Open Scope proxy_scope.

Module Firewall.

(** Rules [R] and transactions [T].  [appendRequestBody] and [appendResponseBody] tell whether the
    data was taken, [intervention] gives a status when the request must not go on. *)
Class ModSecurity (R T : Type) := {
  no_rules : R;
  load : string -> R -> R;
  loadFromUri : string -> R -> R;
  new_transaction : R -> T;
  processConnection : string -> Z -> string -> Z -> T -> T;
  processURI : string -> string -> string -> T -> T;
  addRequestHeader : string -> string -> T -> T;
  processRequestHeaders : T -> T;
  getRequestBodyLength : T -> Z;
  appendRequestBody : string -> T -> T * bool;
  processRequestBody : T -> T;
  addResponseHeader : string -> string -> T -> T;
  processResponseHeaders : Z -> string -> T -> T;
  getResponseBodyLength : T -> Z;
  appendResponseBody : string -> T -> T * bool;
  processResponseBody : T -> T;
  intervention : T -> T * option Z;
  engine_enabled : T -> bool;
  processLogging : T -> T;
}.

(** ** The configuration *)

Definition waf_dir : string := "/etc/envoy/waf/common/".
Definition modsecurity_conf_path : string := waf_dir +:+ "modsecurity.conf".
Definition crs_conf_path : string := waf_dir +:+ "crs-setup.conf".
Definition before_conf_path : string := waf_dir +:+ "before.conf".
Definition evaluation_conf_path : string := waf_dir +:+ "evaluation.conf".
Definition after_conf_path : string := waf_dir +:+ "after.conf".
Definition quote : string := String (Ascii.ascii_of_nat 34) "".
Definition rule_str_prefix : string := "SecAction " +:+ quote +:+ "id:900700,phase:1,nolog,pass,t:none".
Definition set_var : string := "setvar:".

(** [std::to_string] of a double *)
Definition std_to_string (d : double) : string :=
  match d with
  | S754_nan => "nan"
  | S754_infinity s => if s then "-inf" else "inf"
  | S754_zero true => "-0.000000"
  | _ => Hub.fixed6 d
  end.

(** A rule file with its variables, in the order in which the map of the message is read. *)
Record Rule := { waf_rule_path : string; fields : list (string * Value) }.
Record RuleSetConfig (R : Type) := { modsec_rules_ : option R; rule_str_ : string; rule_files_ : list string }.
Arguments modsec_rules_ {R} _.
Arguments rule_str_ {R} _.
Arguments rule_files_ {R} _.

Definition var_value (v : Value) : outcome string :=
  match v with
  | NumberValue d => Ok (std_to_string d)
  | StringValue s => Ok s
  | BoolValue b => Ok (if b then "true" else "false")
  | _ => Throw "Unsupport waf var type"
  end.

Fixpoint rule_vars (l : list (string * Value)) : outcome string :=
  match l with
  | [] => Ok ""
  | (name, v) :: l' =>
      let* value := var_value v in
      let* rest := rule_vars l' in
      Ok ("," +:+ set_var +:+ "'" +:+ name +:+ "=" +:+ value +:+ "'" +:+ rest)
  end.
Fixpoint all_vars (rules : list Rule) : outcome string :=
  match rules with
  | [] => Ok ""
  | r :: rules' => let* a := rule_vars (fields r) in let* b := all_vars rules' in Ok (a +:+ b)
  end.

Section waf.
Context {R T H : Type} `{!ModSecurity R T, !HeaderMap H}.

(** Rules that cannot be loaded are logged and left out. *)
Definition new_RuleSetConfig (ruleset : list Rule) : outcome (RuleSetConfig R) :=
  match ruleset with
  | [] => Ok {| modsec_rules_ := None; rule_str_ := ""; rule_files_ := [] |}
  | _ =>
      let* vars := all_vars ruleset in
      let rule_str := if String.eqb vars "" then "" else rule_str_prefix +:+ vars +:+ quote in
      let files := [modsecurity_conf_path; crs_conf_path; before_conf_path] ++ (waf_rule_path <$> ruleset) ++
        [evaluation_conf_path; after_conf_path] in
      let loaded := if String.eqb rule_str "" then no_rules else load (c_str rule_str) no_rules in
      Ok {| modsec_rules_ := Some (fold_left (fun r f => if String.eqb f "" then r else loadFromUri (c_str f) r) files loaded);
            rule_str_ := rule_str; rule_files_ := files |}
  end.

(** ** State *)

Inductive Protocol := Http10 | Http11 | Http2 | Http3.

Inductive Side := Listener | OfRoute.
#[global] Instance Side_eq_dec : EqDecision Side.
Proof. solve_decision. Defined.

(** [Http::FilterDataStatus] *)
Inductive DataStatus := DataContinue | StopIterationAndBuffer | StopIterationNoBuffer.
#[global] Instance DataStatus_eq_dec : EqDecision DataStatus.
Proof. solve_decision. Defined.

(** The filter with the headers [response_headers_] points to, and the host's buffer of the response.
    [status_] has no initial value. *)
Record WafFilter := {
  modsec_transaction_ : option T;
  modsec_transaction_route_ : option T;
  intervined_ : bool;
  request_processed_ : bool;
  response_processed_ : bool;
  end_stream_ : bool;
  is_send_local_reply_ : bool;
  status_ : option Z;
  response_headers_ : option H;
  encodingBuffer : option string;
}.

Definition new_WafFilter (config : RuleSetConfig R) : WafFilter :=
  {| modsec_transaction_ := new_transaction <$> modsec_rules_ config; modsec_transaction_route_ := None;
     intervined_ := false; request_processed_ := false; response_processed_ := false; end_stream_ := false;
     is_send_local_reply_ := false; status_ := None; response_headers_ := None; encodingBuffer := None |}.

Definition transaction (side : Side) (f : WafFilter) : option T :=
  match side with Listener => modsec_transaction_ f | OfRoute => modsec_transaction_route_ f end.
Definition set_transaction (side : Side) (t : option T) (f : WafFilter) : WafFilter :=
  {| modsec_transaction_ := match side with Listener => t | OfRoute => modsec_transaction_ f end;
     modsec_transaction_route_ := match side with Listener => modsec_transaction_route_ f | OfRoute => t end;
     intervined_ := intervined_ f; request_processed_ := request_processed_ f; response_processed_ := response_processed_ f;
     end_stream_ := end_stream_ f; is_send_local_reply_ := is_send_local_reply_ f; status_ := status_ f;
     response_headers_ := response_headers_ f; encodingBuffer := encodingBuffer f |}.
Definition set_intervined (status : Z) (f : WafFilter) : WafFilter :=
  {| modsec_transaction_ := modsec_transaction_ f; modsec_transaction_route_ := modsec_transaction_route_ f;
     intervined_ := true; request_processed_ := request_processed_ f; response_processed_ := response_processed_ f;
     end_stream_ := end_stream_ f; is_send_local_reply_ := is_send_local_reply_ f; status_ := Some status;
     response_headers_ := response_headers_ f; encodingBuffer := encodingBuffer f |}.
Definition set_processed (request response : bool) (f : WafFilter) : WafFilter :=
  {| modsec_transaction_ := modsec_transaction_ f; modsec_transaction_route_ := modsec_transaction_route_ f;
     intervined_ := intervined_ f; request_processed_ := request_processed_ f || request;
     response_processed_ := response_processed_ f || response;
     end_stream_ := end_stream_ f; is_send_local_reply_ := is_send_local_reply_ f; status_ := status_ f;
     response_headers_ := response_headers_ f; encodingBuffer := encodingBuffer f |}.
Definition set_local_reply (f : WafFilter) : WafFilter :=
  {| modsec_transaction_ := modsec_transaction_ f; modsec_transaction_route_ := modsec_transaction_route_ f;
     intervined_ := intervined_ f; request_processed_ := request_processed_ f; response_processed_ := response_processed_ f;
     end_stream_ := end_stream_ f; is_send_local_reply_ := true; status_ := status_ f;
     response_headers_ := response_headers_ f; encodingBuffer := encodingBuffer f |}.
Definition set_response (end_stream : bool) (headers : option H) (buffer : option string) (f : WafFilter) : WafFilter :=
  {| modsec_transaction_ := modsec_transaction_ f; modsec_transaction_route_ := modsec_transaction_route_ f;
     intervined_ := intervined_ f; request_processed_ := request_processed_ f; response_processed_ := response_processed_ f;
     end_stream_ := end_stream; is_send_local_reply_ := is_send_local_reply_ f; status_ := status_ f;
     response_headers_ := headers; encodingBuffer := buffer |}.

(** What the filter answers to the host, with the data it leaves in the buffer it was given;
    to trailers it always answers that they may go on. *)
Inductive Reply :=
| HeadersReply (status : FilterHeadersStatus)
| DataReply (status : DataStatus) (data : string)
| TrailersContinue
| NoReply.

(** Calls on the host.  [Reentered]: the answer to an event the host delivers during a local reply. *)
Inductive Call :=
| sendLocalReply (code : Z) (body : string)
| Reentered (reply : Reply)
| addEncodedData (body : string)
| modifyEncodingBuffer (body : string).

#[local] Abbreviation prog := (M WafFilter Call).

(** ** Decisions *)

(** [intervention] and [interventionRoute]: asked only once it has said no so far. *)
Definition intervene (side : Side) : prog bool :=
  do f <- mget;
  if intervined_ f then mret true
  else
    match transaction side f with
    | None => lift (Undefined "the transaction is null")
    | Some t =>
        let '(t', it) := intervention t in
        modify (set_transaction side (Some t')) ;;
        match it with
        | Some status => modify (set_intervined status) ;; mret true
        | None => mret false
        end
    end.

(** The state of the route's rules has the last word. *)
Definition enabledRuleEngine (f : WafFilter) : bool :=
  let enabled := match modsec_transaction_ f with Some t => engine_enabled t | None => false end in
  match modsec_transaction_route_ f with Some t => engine_enabled t | None => enabled end.

Definition getRequestHeadersStatus : prog FilterHeadersStatus :=
  do f <- mget;
  mret (if intervined_ f then StopIteration
        else if request_processed_ f then Continue
        else if enabledRuleEngine f then StopIteration else Continue).
Definition getRequestStatus : prog DataStatus :=
  do f <- mget;
  mret (if intervined_ f then StopIterationNoBuffer
        else if request_processed_ f then DataContinue
        else if enabledRuleEngine f then StopIterationAndBuffer else DataContinue).
Definition getResponseHeadersStatus : prog FilterHeadersStatus :=
  do f <- mget;
  mret (if intervined_ f || response_processed_ f then Continue
        else if enabledRuleEngine f then StopIteration else Continue).
Definition getResponseStatus : prog DataStatus :=
  do f <- mget;
  mret (if intervined_ f || response_processed_ f then DataContinue
        else if enabledRuleEngine f then StopIterationAndBuffer else DataContinue).

Definition reply_text : string := "ModSecurity Action.".

(** The answer takes the place of the response when all of it has come. *)
Definition sendEncodeReply : prog unit :=
  do f <- mget;
  if end_stream_ f then
    match response_headers_ f, status_ f with
    | Some h, Some status =>
        let h' := hm_set "content-length" (to_string (Z.of_nat (String.length reply_text)))
          (hm_remove "content-length" (hm_set ":status" (to_string status) h)) in
        emit (match encodingBuffer f with None => addEncodedData reply_text | Some _ => modifyEncodingBuffer reply_text end) ;;
        modify (set_response (end_stream_ f) (Some h') (Some reply_text))
    | _, _ => lift (Undefined "the response headers or the status are not set")
    end
  else mret tt.

(** One part on one side: [g] is applied to the transaction if there is one, then it is asked. *)
Definition part (side : Side) (g : T -> T) (act : prog unit) : prog bool :=
  do f <- mget;
  match transaction side f with
  | None => mret false
  | Some t =>
      modify (set_transaction side (Some (g t))) ;;
      do b <- intervene side;
      if b then act ;; mret true else mret false
  end.
Definition on_side (side : Side) (g : T -> T) : prog unit :=
  modify (fun f => set_transaction side (g <$> transaction side f) f).
Definition unless {A} (m : prog bool) (stop : A) (k : prog A) : prog A :=
  do b <- m; if b then mret stop else k.
(** Both sides, that of the listener first. *)
Definition both (g : T -> T) (act : prog unit) : prog bool :=
  do b <- part Listener g act; if b then mret true else part OfRoute g act.

Definition no_transaction (f : WafFilter) : bool :=
  match modsec_transaction_ f, modsec_transaction_route_ f with None, None => true | _, _ => false end.

(** ** The response *)

Section handlers.
(** [Http::Utility::getResponseStatus] of the host, which throws without a status. *)
Context (getResponseStatus_ : H -> outcome Z).

Definition getProtocolString (protocol : Protocol) : string :=
  match protocol with Http10 => "1.0" | Http11 => "1.1" | Http2 => "2.0" | Http3 => "3.0" end.

Definition add_headers (add : string -> string -> T -> T) (headers : H) (t : T) : T :=
  fold_left (fun t p => add (c_str p.1) (c_str p.2) t) (hm_entries headers) t.

Definition encodeHeaders (protocol : option Protocol) (headers : H) (end_stream : bool) : prog FilterHeadersStatus :=
  do f <- mget;
  if no_transaction f then mret Continue
  else if intervined_ f || response_processed_ f then getResponseHeadersStatus
  else
    modify (fun f => set_response end_stream (Some headers) (encodingBuffer f) f) ;;
    do code <- lift (getResponseStatus_ headers);
    on_side Listener (add_headers addResponseHeader headers) ;;
    on_side OfRoute (add_headers addResponseHeader headers) ;;
    unless (both (processResponseHeaders code (getProtocolString (default Http11 protocol))) sendEncodeReply) StopIteration
      getResponseHeadersStatus.

(** The loop over the slices: [true] when a transaction takes no more. *)
Definition append_to (append : string -> T -> T * bool) (len : T -> Z) (side : Side) (slice : string) : prog bool :=
  do f <- mget;
  match transaction side f with
  | None => mret false
  | Some t =>
      let '(t', taken) := append slice t in
      modify (set_transaction side (Some t')) ;;
      mret (negb taken || (0 <? Z.of_nat (String.length slice)) && (len t =? len t'))
  end.
Fixpoint append_slices (append : string -> T -> T * bool) (len : T -> Z) (slices : list string) : prog bool :=
  match slices with
  | [] => mret false
  | slice :: slices' =>
      do full <- append_to append len Listener slice;
      if full then mret true
      else
        do full <- append_to append len OfRoute slice;
        if full then mret true else append_slices append len slices'
  end.

Definition text (slices : list string) : string := String.concat "" slices.

Definition encodeData (slices : list string) (end_stream : bool) : prog (DataStatus * string) :=
  do f <- mget;
  if no_transaction f then mret (DataContinue, text slices)
  else if response_processed_ f || is_send_local_reply_ f then
    do s <- getResponseStatus; mret (s, text slices)
  else
    modify (fun f => set_response end_stream (response_headers_ f) (encodingBuffer f) f) ;;
    if intervined_ f then
      if end_stream then sendEncodeReply ;; do s <- getResponseStatus; mret (s, "")
      else mret (StopIterationNoBuffer, "")
    else
      do full <- append_slices appendResponseBody getResponseBodyLength slices;
      let go := do s <- getResponseStatus; mret (s, text slices) in
      if full || end_stream then
        modify (set_processed false true) ;;
        unless (both processResponseBody sendEncodeReply) (DataContinue, text slices) go
      else go.

(** ** The request *)

Inductive EncodeEvent :=
| EncodeHeaders (protocol : option Protocol) (headers : H) (end_stream : bool)
| EncodeData (slices : list string) (end_stream : bool)
| EncodeTrailers.

(** The callbacks for trailers are those of [PassThroughFilter]. *)
Definition handle_encode (e : EncodeEvent) : prog Reply :=
  match e with
  | EncodeHeaders protocol headers end_stream =>
      do s <- encodeHeaders protocol headers end_stream; mret (HeadersReply s)
  | EncodeData slices end_stream => do r <- encodeData slices end_stream; mret (DataReply r.1 r.2)
  | EncodeTrailers => mret TrailersContinue
  end.

(** The host passes a local reply through the filters, this one among them, before the call returns. *)
Fixpoint reenter (during : list EncodeEvent) : prog unit :=
  match during with
  | [] => mret tt
  | e :: during' => do r <- handle_encode e; emit (Reentered r) ;; reenter during'
  end.

Definition send_local_reply (during : list EncodeEvent) : prog unit :=
  modify set_local_reply ;;
  do f <- mget;
  match status_ f with
  | Some status => emit (sendLocalReply status reply_text) ;; reenter during
  | None => lift (Undefined "status_ is not initialised")
  end.

(** The address of the stream's downstream side and that of the connection, where they are IP
    addresses; both are local. *)
Record Connection := { downstream_ip : string; downstream_port : Z; local_ip : string; local_port : Z }.

Definition request_header (name value : string) (t : T) : T :=
  let t := addRequestHeader name value t in
  if String.eqb name ":authority" then addRequestHeader "host" value t else t.

(** The configuration on the route may have no rules. *)
Definition take_route (route : option (RuleSetConfig R)) : prog unit :=
  match route with
  | Some c =>
      match modsec_rules_ c with
      | Some rules => modify (set_transaction OfRoute (Some (new_transaction rules)))
      | None => mret tt
      end
  | None => mret tt
  end.

Definition inspect_headers (connection : option Connection) (protocol : option Protocol)
    (during : list EncodeEvent) (headers : H) (end_stream : bool) : prog FilterHeadersStatus :=
  let act := send_local_reply during in
  match connection with
  | None => lift (Undefined "an address is not an IP address")
  | Some c =>
      unless (both (processConnection (downstream_ip c) (downstream_port c) (local_ip c) (local_port c)) act) StopIteration
        (match hm_get ":path" headers, hm_get ":method" headers with
         | uri :: _, method :: _ =>
             unless (both (processURI (c_str uri) (c_str method) (getProtocolString (default Http11 protocol))) act) StopIteration
               (on_side Listener (add_headers request_header headers) ;;
                on_side OfRoute (add_headers request_header headers) ;;
                modify (set_processed end_stream false) ;;
                unless (both processRequestHeaders act) StopIteration getRequestHeadersStatus)
         | _, _ => lift (Undefined "Path() or Method() is null")
         end)
  end.

Definition decodeHeaders (route : option (RuleSetConfig R)) (connection : option Connection) (protocol : option Protocol)
    (during : list EncodeEvent) (headers : H) (end_stream : bool) : prog FilterHeadersStatus :=
  do f <- mget;
  if intervined_ f || request_processed_ f then getRequestHeadersStatus
  else
    take_route route ;;
    do f <- mget;
    if no_transaction f then mret Continue
    else inspect_headers connection protocol during headers end_stream.

Definition decodeData (during : list EncodeEvent) (slices : list string) (end_stream : bool) : prog DataStatus :=
  let act := send_local_reply during in
  do f <- mget;
  if no_transaction f then mret DataContinue
  else if intervined_ f || request_processed_ f then getRequestStatus
  else
    do full <- append_slices appendRequestBody getRequestBodyLength slices;
    if full || end_stream then
      modify (set_processed true false) ;;
      unless (both processRequestBody act) StopIterationNoBuffer getRequestStatus
    else getRequestStatus.

Definition onDestroy : prog unit := on_side Listener processLogging ;; on_side OfRoute processLogging.

(** ** A stream *)

Inductive Event :=
| DecodeHeaders (route : option (RuleSetConfig R)) (connection : option Connection) (protocol : option Protocol)
    (during : list EncodeEvent) (headers : H) (end_stream : bool)
| DecodeData (during : list EncodeEvent) (slices : list string) (end_stream : bool)
| DecodeTrailers
| Encode (e : EncodeEvent)
| Destroy.

Definition handle (e : Event) : prog Reply :=
  match e with
  | DecodeHeaders route connection protocol during headers end_stream =>
      do s <- decodeHeaders route connection protocol during headers end_stream; mret (HeadersReply s)
  | DecodeData during slices end_stream => do s <- decodeData during slices end_stream; mret (DataReply s (text slices))
  | DecodeTrailers => mret TrailersContinue
  | Encode e => handle_encode e
  | Destroy => onDestroy ;; mret NoReply
  end.

Fixpoint run (es : list Event) : prog (list Reply) :=
  match es with
  | [] => mret []
  | e :: es' => do r <- handle e; do rs <- run es'; mret (r :: rs)
  end.
End handlers.

(** ** What the programs compute *)

Section facts.
Context (getResponseStatus_ : H -> outcome Z).

(** The transaction of a side after a part, and what it says. *)
Definition ask (side : Side) (g : T -> T) (f : WafFilter) : WafFilter * option Z :=
  match transaction side f with
  | None => (f, None)
  | Some t =>
      let '(t', it) := intervention (g t) in
      let f' := set_transaction side (Some t') f in
      (match it with Some st => set_intervined st f' | None => f' end, it)
  end.
Definition ask_both (g : T -> T) (f : WafFilter) : WafFilter * option Z :=
  let '(f1, it) := ask Listener g f in match it with Some st => (f1, Some st) | None => ask OfRoute g f1 end.

(** A filter that has not intervened, has no transaction less than another and is otherwise like it. *)
Record steady (f f' : WafFilter) : Prop := {
  sd_none : no_transaction f' = no_transaction f;
  sd_intervined : intervined_ f' = intervined_ f;
  sd_reply : is_send_local_reply_ f' = is_send_local_reply_ f;
  sd_request : request_processed_ f' = request_processed_ f;
  sd_response : response_processed_ f' = response_processed_ f;
  sd_end : end_stream_ f' = end_stream_ f;
  sd_headers : response_headers_ f' = response_headers_ f;
  sd_buffer : encodingBuffer f' = encodingBuffer f;
  sd_status : status_ f' = status_ f;
}.

Lemma steady_refl f : steady f f.
Proof. by split. Qed.
Lemma steady_trans f1 f2 f3 : steady f1 f2 -> steady f2 f3 -> steady f1 f3.
Proof. intros [] []. split; congruence. Qed.

Lemma set_transaction_twice side o o' f : set_transaction side o (set_transaction side o' f) = set_transaction side o f.
Proof. by destruct side. Qed.
Lemma transaction_set side o f : transaction side (set_transaction side o f) = o.
Proof. by destruct side. Qed.

Lemma steady_set side t t' f : transaction side f = Some t -> steady f (set_transaction side (Some t') f).
Proof.
  intros Ht. split; try by destruct side.
  unfold no_transaction. destruct side; cbn in *; rewrite Ht; [done|by destruct (modsec_transaction_ f)].
Qed.

Lemma ask_spec side g f :
  let '(f', it) := ask side g f in
  match it with
  | None => steady f f'
  | Some st => intervined_ f' = true /\ status_ f' = Some st /\ no_transaction f' = false /\
      is_send_local_reply_ f' = is_send_local_reply_ f /\ end_stream_ f' = end_stream_ f /\
      response_headers_ f' = response_headers_ f /\ encodingBuffer f' = encodingBuffer f /\
      response_processed_ f' = response_processed_ f
  end.
Proof.
  unfold ask. destruct (transaction side f) as [t|] eqn:Ht; [|apply steady_refl].
  destruct (intervention (g t)) as [t' [st|]]; [|by eapply steady_set]. split_and!; try by destruct side.
  unfold no_transaction. destruct side; cbn; [done|by destruct (modsec_transaction_ f)].
Qed.

Lemma ask_both_spec g f :
  let '(f', it) := ask_both g f in
  match it with
  | None => steady f f'
  | Some st => intervined_ f' = true /\ status_ f' = Some st /\ no_transaction f' = false /\
      is_send_local_reply_ f' = is_send_local_reply_ f /\ end_stream_ f' = end_stream_ f /\
      response_headers_ f' = response_headers_ f /\ encodingBuffer f' = encodingBuffer f /\
      response_processed_ f' = response_processed_ f
  end.
Proof.
  unfold ask_both. pose proof (ask_spec Listener g f) as H1. destruct (ask Listener g f) as [f1 [st|]]; [done|].
  pose proof (ask_spec OfRoute g f1) as H2. destruct (ask OfRoute g f1) as [f2 [st|]]; [|by eapply steady_trans].
  destruct H1. naive_solver congruence.
Qed.

Lemma part_run side g act f :
  intervined_ f = false ->
  part side g act f = let '(f', it) := ask side g f in match it with None => (f', [], Ok false) | Some _ => (act ;; mret true) f' end.
Proof.
  intros Hi. unfold part, ask, intervene, mlet, mget, modify, mret. destruct (transaction side f) as [t|] eqn:Ht; [|done].
  cbv beta iota zeta. rewrite transaction_set. cbn [intervined_ set_transaction]. rewrite Hi.
  destruct (intervention (g t)) as [t' [st|]]; cbv beta iota zeta; rewrite set_transaction_twice; [|done].
  destruct (act _) as [[f2 cs] [[]| | |]]; cbn; by rewrite ?app_nil_r.
Qed.

Lemma both_run g act f :
  intervined_ f = false ->
  both g act f = let '(f', it) := ask_both g f in match it with None => (f', [], Ok false) | Some _ => (act ;; mret true) f' end.
Proof.
  intros Hi. unfold both, mlet at 1. rewrite part_run by done. unfold ask_both.
  pose proof (ask_spec Listener g f) as H1. destruct (ask Listener g f) as [f1 [st|]].
  - unfold mlet. destruct (act f1) as [[f2 cs] [[]| | |]]; cbn; by rewrite ?app_nil_r.
  - rewrite part_run by (rewrite (sd_intervined _ _ H1); done). destruct (ask OfRoute g f1) as [f2 [st|]]; [|done].
    unfold mlet. by destruct (act f2) as [[f3 cs] [[]| | |]].
Qed.

(** *** A local reply *)

(** A filter that has answered. *)
Record quiet (f : WafFilter) : Prop := {
  qt_reply : is_send_local_reply_ f = true;
  qt_intervined : intervined_ f = true;
  qt_some : no_transaction f = false;
}.

Definition pass (e : EncodeEvent) : Reply :=
  match e with EncodeHeaders _ _ _ => HeadersReply Continue | EncodeData slices _ => DataReply DataContinue (text slices) | EncodeTrailers => TrailersContinue end.
Definition stopped (e : Event) : Reply :=
  match e with
  | DecodeHeaders _ _ _ _ _ _ => HeadersReply StopIteration
  | DecodeData _ slices _ => DataReply StopIterationNoBuffer (text slices)
  | DecodeTrailers => TrailersContinue
  | Encode e => pass e
  | Destroy => NoReply
  end.

Lemma encode_quiet e f : quiet f -> handle_encode getResponseStatus_ e f = (f, [], Ok (pass e)).
Proof.
  intros [H1 H2 H3]. destruct e as [protocol headers es|slices es|]; cbn [handle_encode pass]; [| |done].
  - unfold encodeHeaders, mlet, mget, getResponseHeadersStatus. rewrite H3, H2. cbn. by rewrite H2.
  - unfold encodeData, mlet, mget, getResponseStatus. rewrite H3, H1, orb_true_r. cbn. by rewrite H2.
Qed.

Lemma reenter_quiet during f : quiet f -> reenter getResponseStatus_ during f = (f, Reentered ∘ pass <$> during, Ok tt).
Proof.
  intros Hq. induction during as [|e during IH]; cbn [reenter]; [done|]. unfold mlet at 1. rewrite encode_quiet by done.
  unfold mlet, emit. by rewrite IH.
Qed.

Definition reply_calls (st : Z) (during : list EncodeEvent) : list Call :=
  sendLocalReply st reply_text :: (Reentered ∘ pass <$> during).

Lemma local_reply_run during f st :
  intervined_ f = true -> status_ f = Some st -> no_transaction f = false ->
  send_local_reply getResponseStatus_ during f = (set_local_reply f, reply_calls st during, Ok tt) /\ quiet (set_local_reply f).
Proof.
  intros H1 H2 H3. assert (Hq : quiet (set_local_reply f)) by by split. split; [|done].
  unfold send_local_reply, mlet, modify, mget, emit. cbn [status_ set_local_reply]. rewrite H2. cbn.
  by rewrite (reenter_quiet during) by done.
Qed.

(** The parts of a request: either all is well, or the request has been answered. *)
Lemma request_part g during f :
  intervined_ f = false ->
  both g (send_local_reply getResponseStatus_ during) f =
    let '(f', it) := ask_both g f in
    match it with None => (f', [], Ok false) | Some st => (set_local_reply f', reply_calls st during, Ok true) end.
Proof.
  intros Hi. rewrite both_run by done. pose proof (ask_both_spec g f) as Hs. destruct (ask_both g f) as [f' [st|]]; [|done].
  destruct Hs as (H1 & H2 & H3 & _). unfold mlet. rewrite (proj1 (local_reply_run during f' st H1 H2 H3)). cbn.
  by rewrite app_nil_r.
Qed.
(** *** Events of a stream that has not been answered *)

Definition calm (f : WafFilter) : Prop :=
  is_send_local_reply_ f = false /\ (intervined_ f = true -> is_Some (status_ f) /\ no_transaction f = false).

Lemma steady_calm f f' : steady f f' -> calm f -> calm f'.
Proof. intros [] [H1 H2]. split; [congruence|]. intros H3. rewrite sd_status0, sd_none0. apply H2. congruence. Qed.

Definition is_local_reply (c : Call) : bool := match c with sendLocalReply _ _ => true | _ => false end.
Definition silent (cs : list Call) : Prop := Forall (fun c => is_local_reply c = false) cs.

Lemma request_part_wp {A} g during (stop : A) (k : prog A) f Q :
  intervined_ f = false ->
  (forall f' st, quiet f' -> Q f' (reply_calls st during) (inl stop)) ->
  (forall f', steady f f' -> wp k f' Q) ->
  wp (unless (both g (send_local_reply getResponseStatus_ during)) stop k) f Q.
Proof.
  intros Hi Hq Hk. apply wp_let. unfold wp at 1. rewrite request_part by done.
  pose proof (ask_both_spec g f) as Hs. destruct (ask_both g f) as [f' [st|]]; [|by apply Hk].
  apply wp_ret. rewrite app_nil_r. apply Hq. destruct Hs as (H1 & H2 & H3 & _). by split.
Qed.

Lemma sendEncodeReply_wp f (Q : WafFilter -> list Call -> unit + string -> Prop) :
  calm f -> (forall f' cs, calm f' -> silent cs -> Q f' cs (inl tt)) -> wp sendEncodeReply f Q.
Proof.
  intros Hc HQ. apply wp_let. unfold wp at 1. cbn [mget]. destruct (end_stream_ f); [|apply wp_ret; apply HQ; [done|constructor]].
  destruct (response_headers_ f); [|apply wp_undefined]. destruct (status_ f) eqn:Hs; [|apply wp_undefined].
  apply wp_let, wp_emit, wp_modify. apply HQ; [|by destruct (encodingBuffer f); repeat constructor].
  destruct Hc as [H1 H2]. split; [done|]. intros H3. destruct (H2 H3) as [_ H4]. cbn [status_ set_response]. rewrite Hs. by split.
Qed.

Lemma response_part_wp {A} g (stop : A) (k : prog A) f Q :
  calm f -> intervined_ f = false ->
  (forall f' cs, calm f' -> silent cs -> Q f' cs (inl stop)) ->
  (forall f', calm f' -> wp k f' Q) ->
  wp (unless (both g sendEncodeReply) stop k) f Q.
Proof.
  intros Hc Hi Hq Hk. apply wp_let. unfold wp at 1. rewrite both_run by done.
  pose proof (ask_both_spec g f) as Hs. destruct (ask_both g f) as [f' [st|]]; [|by apply Hk; eapply steady_calm].
  destruct Hs as (H1 & H2 & H3 & H4 & _). assert (Hc' : calm f').
  { split; [rewrite H4; apply Hc|]. rewrite H2. by split. }
  fold (wp (sendEncodeReply ;; mret true) f' (fun f2 e2 r2 => match r2 with
    | inl a => wp (if a then mret stop else k) f2 (fun s2 e3 r3 => Q s2 (e2 ++ e3) r3) | inr w => Q f2 e2 (inr w) end)).
  apply wp_let. apply sendEncodeReply_wp; [done|]. intros f2 cs Hc2 Hcs. apply wp_ret, wp_ret. rewrite !app_nil_r. by apply Hq.
Qed.

Lemma append_to_run append len side slice f :
  exists f' b, append_to append len side slice f = (f', [], Ok b) /\ steady f f'.
Proof.
  unfold append_to, mlet, mget, modify, mret. destruct (transaction side f) as [t|] eqn:Ht.
  - destruct (append slice t) as [t' b]. eexists _, _. split; [reflexivity|]. by eapply steady_set.
  - eexists _, _. split; [reflexivity|]. apply steady_refl.
Qed.
Lemma append_slices_run append len slices f :
  exists f' b, append_slices append len slices f = (f', [], Ok b) /\ steady f f'.
Proof.
  revert f. induction slices as [|slice slices IH]; intros f; cbn [append_slices].
  { eexists _, _. split; [reflexivity|]. apply steady_refl. }
  destruct (append_to_run append len Listener slice f) as (f1 & b1 & E1 & S1). unfold mlet at 1. rewrite E1.
  destruct b1; [by eexists _, _|]. destruct (append_to_run append len OfRoute slice f1) as (f2 & b2 & E2 & S2).
  unfold mlet. rewrite E2. destruct b2; [eexists _, _; split; [reflexivity|]; by eapply steady_trans|].
  destruct (IH f2) as (f3 & b3 & E3 & S3). rewrite E3. eexists _, _. split; [reflexivity|]. eauto using steady_trans.
Qed.

Lemma append_slices_wp append len slices f (Q : WafFilter -> list Call -> bool + string -> Prop) :
  (forall f' b, steady f f' -> Q f' [] (inl b)) -> wp (append_slices append len slices) f Q.
Proof.
  intros HQ. destruct (append_slices_run append len slices f) as (f' & b & E & S). unfold wp. rewrite E. by apply HQ.
Qed.

Lemma steady_on_side side g f : steady f (set_transaction side (g <$> transaction side f) f).
Proof.
  destruct (transaction side f) as [t|] eqn:Ht; [by eapply steady_set|].
  split; try by destruct side. unfold no_transaction. destruct side; cbn in *; by rewrite Ht.
Qed.
Lemma on_side_wp side g f (Q : WafFilter -> list Call -> unit + string -> Prop) :
  (forall f', steady f f' -> Q f' [] (inl tt)) -> wp (on_side side g) f Q.
Proof. intros HQ. apply wp_modify, HQ, steady_on_side. Qed.

Lemma status_wp {A} (g : WafFilter -> A) f (Q : WafFilter -> list Call -> A + string -> Prop) :
  Q f [] (inl (g f)) -> wp (do f <- mget; mret (g f)) f Q.
Proof. done. Qed.

(** What an event does to such a stream: no local reply, or one that ends the request. *)
Definition answers (e : Event) : option (list EncodeEvent) :=
  match e with DecodeHeaders _ _ _ during _ _ | DecodeData during _ _ => Some during | _ => None end.
Definition event_done (e : Event) (f' : WafFilter) (cs : list Call) (r : Reply + string) : Prop :=
  (calm f' /\ silent cs) \/
  exists st during, answers e = Some during /\ quiet f' /\ cs = reply_calls st during /\ r = inl (stopped e).
Lemma waf_encode_wp e f : calm f ->
  wp (handle_encode getResponseStatus_ e) f (fun f' cs r => calm f' /\ silent cs).
Proof.
  intros Hc. assert (Hnil : silent []) by constructor. destruct e as [protocol headers es|slices es|]; [apply wp_let..|by apply wp_ret].
  - eapply wp_mono with (Q := fun f' cs r => calm f' /\ silent cs).
    2: { intros f' cs [r|what] [Hf' Hcs]; [|done]. apply wp_ret. by rewrite app_nil_r. }
    apply wp_let. unfold wp at 1. cbn [mget]. destruct (no_transaction f); [by apply wp_ret|].
    destruct (intervined_ f || response_processed_ f) eqn:Hi; [by apply status_wp|]. apply orb_false_iff in Hi as [Hi _].
    apply wp_let, wp_modify. set (f1 := set_response _ _ _ f). assert (H1 : calm f1) by done.
    apply wp_let. destruct (getResponseStatus_ headers); [|by apply wp_throw|apply wp_undefined|done]. unfold wp at 1. cbn [lift].
    apply wp_let, on_side_wp. intros f2 S2. apply wp_let, on_side_wp. intros f3 S3.
    assert (H3 : calm f3) by (eapply steady_calm; [|done]; by eapply steady_trans).
    assert (Hi3 : intervined_ f3 = false) by (rewrite (sd_intervined _ _ S3), (sd_intervined _ _ S2); exact Hi).
    apply response_part_wp; [done|done|by intros|]. intros f4 H4. by apply status_wp.
  - eapply wp_mono with (Q := fun f' cs r => calm f' /\ silent cs).
    2: { intros f' cs [r|what] [Hf' Hcs]; [|done]. apply wp_ret. by rewrite app_nil_r. }
    apply wp_let. unfold wp at 1. cbn [mget]. destruct (no_transaction f); [by apply wp_ret|].
    destruct (response_processed_ f || is_send_local_reply_ f); [by apply wp_let, status_wp, wp_ret|].
    apply wp_let, wp_modify. set (f1 := set_response _ _ _ f). assert (H1 : calm f1) by done.
    destruct (intervined_ f) eqn:Hi.
    + destruct es; [|by apply wp_ret]. apply wp_let, sendEncodeReply_wp; [done|]. intros f2 cs H2 Hcs.
      apply wp_let, status_wp, wp_ret. by rewrite !app_nil_r.
    + apply wp_let, append_slices_wp. intros f2 full S2. assert (H2 : calm f2) by by eapply steady_calm.
      destruct (full || es); [|by apply wp_let, status_wp, wp_ret]. apply wp_let, wp_modify.
      apply response_part_wp; [done|rewrite <- Hi; exact (sd_intervined _ _ S2)|by intros|].
      intros f3 H3. by apply wp_let, status_wp, wp_ret.
Qed.

Lemma waf_headers_wp route connection protocol during headers end_stream f : calm f ->
  wp (handle getResponseStatus_ (DecodeHeaders route connection protocol during headers end_stream)) f
    (event_done (DecodeHeaders route connection protocol during headers end_stream)).
Proof.
  intros Hc. assert (Hnil : silent []) by constructor. set (e := DecodeHeaders _ _ _ _ _ _). apply wp_let.
  set (Q := fun (f' : WafFilter) cs (r : FilterHeadersStatus + string) => (calm f' /\ silent cs) \/
    exists st, quiet f' /\ cs = reply_calls st during /\ r = inl StopIteration).
  eapply wp_mono with (Q := Q).
  2: { intros f' cs [r|what] [[Hf' Hcs]|(st & Hq & -> & Hr)]; try done; [| |by left].
    - apply wp_ret. rewrite app_nil_r. by left.
    - injection Hr as ->. apply wp_ret. rewrite app_nil_r. right. by exists st, during. }
  assert (Hcalm : forall f' r, calm f' -> Q f' [] r) by (intros; by left).
  assert (Hquiet : forall f' st, quiet f' -> Q f' (reply_calls st during) (inl StopIteration)) by (intros f' st ?; right; by exists st).
  assert (Hgo : forall f1, calm f1 -> intervined_ f1 = false ->
    wp (do f <- mget; if no_transaction f then mret Continue
        else inspect_headers getResponseStatus_ connection protocol during headers end_stream) f1 Q).
  { intros f1 H1 Hi1. apply wp_let. unfold wp at 1. cbn [mget]. destruct (no_transaction f1); [by apply wp_ret, Hcalm|].
    unfold inspect_headers. destruct connection as [c|]; [|by apply wp_undefined].
    apply request_part_wp; [done|done|]. intros f2 S2.
    destruct (hm_get ":path" headers); [apply wp_undefined|]. destruct (hm_get ":method" headers); [apply wp_undefined|].
    apply request_part_wp; [by rewrite (sd_intervined _ _ S2)|done|]. intros f3 S3.
    apply wp_let, on_side_wp. intros f4 S4. apply wp_let, on_side_wp. intros f5 S5. apply wp_let, wp_modify.
    pose proof (steady_trans _ _ _ S2 (steady_trans _ _ _ S3 (steady_trans _ _ _ S4 S5))) as S.
    apply request_part_wp; [cbn; by rewrite (sd_intervined _ _ S)|done|]. intros f6 S6. apply status_wp, Hcalm.
    eapply steady_calm; [exact S6|]. pose proof (steady_calm _ _ S H1) as H5. done. }
  unfold decodeHeaders. apply wp_let. unfold wp at 1. cbn [mget].
  destruct (intervined_ f || request_processed_ f) eqn:Hi; [by apply status_wp, Hcalm|]. apply orb_false_iff in Hi as [Hi _].
  apply wp_let. unfold take_route. destruct route as [rc|]; [destruct (modsec_rules_ rc)|].
  - apply wp_modify. apply Hgo; [|done]. split; [apply Hc|]. cbn. congruence.
  - apply wp_ret. by apply Hgo.
  - apply wp_ret. by apply Hgo.
Qed.

Lemma waf_data_wp during slices end_stream f : calm f ->
  wp (handle getResponseStatus_ (DecodeData during slices end_stream)) f (event_done (DecodeData during slices end_stream)).
Proof.
  intros Hc. assert (Hnil : silent []) by constructor. set (e := DecodeData _ _ _). apply wp_let.
  set (Q := fun (f' : WafFilter) cs (r : DataStatus + string) => (calm f' /\ silent cs) \/
    exists st, quiet f' /\ cs = reply_calls st during /\ r = inl StopIterationNoBuffer).
  eapply wp_mono with (Q := Q).
  2: { intros f' cs [r|what] [[Hf' Hcs]|(st & Hq & -> & Hr)]; try done; [| |by left].
    - apply wp_ret. rewrite app_nil_r. by left.
    - injection Hr as ->. apply wp_ret. rewrite app_nil_r. right. by exists st, during. }
  apply wp_let. unfold wp at 1. cbn [mget]. destruct (no_transaction f); [by apply wp_ret; left|].
  destruct (intervined_ f || request_processed_ f) eqn:Hi; [by apply status_wp; left|]. apply orb_false_iff in Hi as [Hi _].
  apply wp_let, append_slices_wp. intros f1 full S1. pose proof (steady_calm _ _ S1 Hc) as H1.
  destruct (full || end_stream); [|by apply status_wp; left]. apply wp_let, wp_modify.
  apply request_part_wp.
  - cbn. by rewrite (sd_intervined _ _ S1).
  - intros f' st Hq. right. by exists st.
  - intros f2 S2. apply status_wp. left. split; [|done]. by eapply steady_calm.
Qed.

Lemma waf_event_wp e f : calm f -> wp (handle getResponseStatus_ e) f (event_done e).
Proof.
  intros Hc. destruct e as [route connection protocol during headers es|during slices es| |e|].
  - by apply waf_headers_wp.
  - by apply waf_data_wp.
  - apply wp_ret. left. split; [done|constructor].
  - eapply wp_mono; [by apply waf_encode_wp|]. intros f' cs r Hr. by left.
  - apply wp_let. unfold onDestroy. apply wp_let, on_side_wp. intros f1 S1. apply on_side_wp. intros f2 S2. apply wp_ret.
    left. split; [|constructor]. eapply steady_calm; [|done]. by eapply steady_trans.
Qed.

Lemma run_quiet es f : quiet f ->
  exists f', run getResponseStatus_ es f = (f', [], Ok (stopped <$> es)) /\ quiet f'.
Proof.
  revert f. induction es as [|e es IH]; intros f Hq; cbn [run]; [by exists f|].
  assert (He : exists f', handle getResponseStatus_ e f = (f', [], Ok (stopped e)) /\ quiet f').
  { destruct Hq as [H1 H2 H3]. destruct e as [route connection protocol during headers es'|during slices es'| |e|]; cbn [handle stopped].
    - exists f. unfold decodeHeaders, getRequestHeadersStatus, mlet, mget, mret. rewrite H2. cbn. by rewrite H2.
    - exists f. unfold decodeData, getRequestStatus, mlet, mget, mret. rewrite H3, H2. cbn. by rewrite H2.
    - by exists f.
    - exists f. by rewrite encode_quiet.
    - eexists. split; [reflexivity|]. split; [done|done|]. cbn. unfold no_transaction in *. cbn.
      by destruct (modsec_transaction_ f), (modsec_transaction_route_ f). }
  destruct He as (f1 & E1 & Q1). destruct (IH f1 Q1) as (f2 & E2 & Q2). exists f2. split; [|done].
  unfold mlet. by rewrite E1, E2.
Qed.
(** C13. A request is answered by the firewall at most once.  From then on nothing of its headers and data
    goes on, and the answer, which the host passes through this same filter before the call
    returns, is left as it is.  (Trailers the filter never stops, of any message.) *)
Theorem waf_blocks_once config es f cs rs :
  run getResponseStatus_ es (new_WafFilter config) = (f, cs, Ok rs) ->
  silent cs \/
  exists es1 e es2 during st cs1 rs1,
    es = es1 ++ e :: es2 /\ answers e = Some during /\ silent cs1 /\ cs = cs1 ++ reply_calls st during /\
    length rs1 = length es1 /\ rs = rs1 ++ (stopped <$> e :: es2).
Proof.
  assert (Hc : calm (new_WafFilter config)) by (split; [done|]; cbn; done).
  revert Hc. generalize (new_WafFilter config). revert f cs rs. clear config.
  induction es as [|e es IH]; intros f cs rs f0 Hc Hrun; cbn [run] in Hrun.
  { injection Hrun as <- <- <-. left. constructor. }
  pose proof (waf_event_wp e f0 Hc) as He. unfold wp in He. unfold mlet in Hrun.
  destruct (handle getResponseStatus_ e f0) as [[f1 cs1] [r| | |]] eqn:E1; try done.
  destruct He as [[H1 S1]|(st & during & Ha & Hq & -> & [= ->])].
  - destruct (run getResponseStatus_ es f1) as [[f2 cs2] [rs2| | |]] eqn:E2; try done. injection Hrun as <- <- <-.
    rewrite app_nil_r. destruct (IH f2 cs2 rs2 f1 H1 E2) as [S2|(es1 & e' & es2 & during & st & cs' & rs1 & -> & Ha & S & -> & Hl & ->)].
    + left. by apply Forall_app.
    + right. exists (e :: es1), e', es2, during, st, (cs1 ++ cs'), (r :: rs1). rewrite <- app_assoc. cbn. split_and!; try done.
      * by apply Forall_app.
      * by rewrite Hl.
  - destruct (run_quiet es f1 Hq) as (f2 & E2 & _). rewrite E2 in Hrun. injection Hrun as <- <- <-. rewrite !app_nil_r.
    right. exists [], e, es, during, st, [], []. split_and!; try done. constructor.
Qed.

(** *** A request that is inspected by one set of rules *)











(** ** The reference: parts one after the other, the first intervention ends it *)


Definition is_last (rest : list (list string)) (trailers : bool) : bool :=
  match rest with [] => negb trailers | _ => false end.


Fixpoint data_events (during : list EncodeEvent) (pieces : list (list string)) (trailers : bool) : list Event :=
  match pieces with
  | [] => if trailers then [DecodeTrailers] else []
  | piece :: rest => DecodeData during piece (is_last rest trailers) :: data_events during rest trailers
  end.












(** *** A response that is replaced *)

(** The response is withheld: the rules have intervened on its headers [h] with [st]. *)
Record withheld (st : Z) (h : H) (b : option string) (f : WafFilter) : Prop := {
  wh_some : no_transaction f = false;
  wh_intervined : intervined_ f = true;
  wh_reply : is_send_local_reply_ f = false;
  wh_open : response_processed_ f = false;
  wh_status : status_ f = Some st;
  wh_headers : response_headers_ f = Some h;
  wh_buffer : encodingBuffer f = b;
}.

Fixpoint encode_events (pieces : list (list string)) (trailers : bool) : list Event :=
  match pieces with
  | [] => if trailers then [Encode EncodeTrailers] else []
  | piece :: rest => Encode (EncodeData piece (is_last rest trailers)) :: encode_events rest trailers
  end.

(** The call with which the text takes the place of the body. *)
Definition text_call (b : option string) : Call :=
  match b with None => addEncodedData reply_text | Some _ => modifyEncodingBuffer reply_text end.

Definition replaced_headers (st : Z) (h : H) : H :=
  hm_set "content-length" (to_string (Z.of_nat (String.length reply_text)))
    (hm_remove "content-length" (hm_set ":status" (to_string st) h)).

Lemma withheld_piece piece last st h b f : withheld st h b f ->
  handle getResponseStatus_ (Encode (EncodeData piece last)) f =
    if last then
      (set_response true (Some (replaced_headers st h)) (Some reply_text) f,
       [match b with None => addEncodedData reply_text | Some _ => modifyEncodingBuffer reply_text end],
       Ok (DataReply DataContinue ""))
    else (set_response false (Some h) b f, [], Ok (DataReply StopIterationNoBuffer "")).
Proof.
  intros [H1 H2 H3 H4 H5 H6 H7]. cbn [handle handle_encode]. unfold encodeData, sendEncodeReply, getResponseStatus, mlet, mget, mret, modify, emit.
  rewrite H1, H3, H4. cbn [orb]. cbv beta iota zeta. rewrite H2, H6, H7. destruct last; [|done].
  cbn [end_stream_ set_response response_headers_ status_ encodingBuffer intervined_]. rewrite H5. cbn. rewrite H2. by destruct b.
Qed.

Lemma withheld_again st h b f : withheld st h b f -> withheld st h b (set_response false (Some h) b f).
Proof. intros []. by split. Qed.

Lemma withheld_run pieces st h b f : withheld st h b f -> pieces ≠ [] ->
  exists f', run getResponseStatus_ (encode_events pieces false) f =
      (f', [text_call b],
       Ok (replicate (length pieces - 1) (DataReply StopIterationNoBuffer "") ++ [DataReply DataContinue ""])) /\
    response_headers_ f' = Some (replaced_headers st h) /\ encodingBuffer f' = Some reply_text.
Proof.
  revert f. induction pieces as [|piece rest IH]; intros f Hw Hne; [done|]. cbn [encode_events run].
  destruct rest as [|piece' rest]; cbn [is_last negb].
  - unfold mlet, mret. rewrite (withheld_piece _ _ st h b) by done. cbv beta iota zeta. eexists. split_and!; [reflexivity|done|done].
  - destruct (IH _ (withheld_again _ _ _ _ Hw)) as (f' & Hrun & Hh & Hb); [done|]. exists f'. split; [|done].
    unfold mlet, mret. rewrite (withheld_piece _ _ st h b) by done. cbv beta iota zeta. rewrite Hrun. cbv beta iota zeta.
    cbn [length Nat.sub replicate app]. by rewrite Nat.sub_0_r.
Qed.

(** Trailers go on while the response is still withheld. *)
Lemma withheld_trailers pieces st h b f : withheld st h b f ->
  exists f', run getResponseStatus_ (encode_events pieces true) f =
      (f', [], Ok (replicate (length pieces) (DataReply StopIterationNoBuffer "") ++ [TrailersContinue])) /\
    withheld st h b f'.
Proof.
  revert f. induction pieces as [|piece rest IH]; intros f Hw; [by exists f|]. cbn [encode_events run].
  destruct (IH _ (withheld_again _ _ _ _ Hw)) as (f' & Hrun & Hf'). exists f'. split; [|done].
  assert (Hl : is_last rest true = false) by by destruct rest. unfold mlet, mret.
  rewrite Hl, (withheld_piece _ _ st h b) by done. cbv beta iota zeta. rewrite Hrun. done.
Qed.

(** The response as the firewall leaves it. *)
Definition replaced `{!HeaderMapLaws H} (st : Z) (headers : H) (f : WafFilter) : Prop :=
  encodingBuffer f = Some reply_text /\
  exists h, response_headers_ f = Some h /\ hm_get ":status" h = [to_string st] /\ hm_get "content-length" h = ["19"] /\
    (forall k, k ≠ ":status" -> k ≠ "content-length" -> hm_get k h = hm_get k headers).

Lemma replaced_intro `{!HeaderMapLaws H} st headers f :
  response_headers_ f = Some (replaced_headers st headers) -> encodingBuffer f = Some reply_text -> replaced st headers f.
Proof.
  intros Hh Hb. split; [done|]. exists (replaced_headers st headers). unfold replaced_headers. split_and!; [done|..].
  - rewrite get_set_ne, get_remove_ne by done. apply get_set_eq.
  - by rewrite get_set_eq.
  - intros k H1 H2. by rewrite get_set_ne, get_remove_ne, get_set_ne by done.
Qed.

(** The headers when the rules intervene on them. *)
Lemma encodeHeaders_intervened protocol headers end_stream f f1 cs r :
  calm f -> intervined_ f = false -> response_processed_ f = false ->
  encodeHeaders getResponseStatus_ protocol headers end_stream f = (f1, cs, Ok r) -> intervined_ f1 = true ->
  r = StopIteration /\ exists st, status_ f1 = Some st /\
    if end_stream
    then cs = [text_call (encodingBuffer f)] /\
      response_headers_ f1 = Some (replaced_headers st headers) /\ encodingBuffer f1 = Some reply_text
    else cs = [] /\ withheld st headers (encodingBuffer f) f1.
Proof.
  intros [Hc _] Hi Hp Hrun Hi1. unfold encodeHeaders, mlet at 1, mget at 1 in Hrun. cbv beta iota zeta in Hrun.
  destruct (no_transaction f) eqn:Hn; [injection Hrun as <- _ _; congruence|]. rewrite Hi, Hp in Hrun. cbn [orb] in Hrun.
  rewrite modify_let in Hrun. unfold mlet at 1, lift at 1 in Hrun.
  destruct (getResponseStatus_ headers) as [code| | |]; try done. cbv beta iota zeta in Hrun.
  unfold on_side in Hrun. rewrite !modify_let in Hrun.
  set (f2 := set_transaction OfRoute _ (set_transaction Listener _ _)) in Hrun.
  assert (S2 : steady (set_response end_stream (Some headers) (encodingBuffer f) f) f2) by (eapply steady_trans; apply steady_on_side).
  assert (Hi2 : intervined_ f2 = false) by (rewrite (sd_intervined _ _ S2); exact Hi).
  unfold unless, mlet at 1 in Hrun. rewrite both_run in Hrun by done.
  pose proof (ask_both_spec (processResponseHeaders code (getProtocolString (default Http11 protocol))) f2) as Hs.
  destruct (ask_both _ f2) as [f3 [st|]].
  - destruct Hs as (H1 & H2 & H3 & H4 & H5 & H6 & H7 & H8). rewrite (sd_end _ _ S2) in H5. rewrite (sd_reply _ _ S2) in H4.
    rewrite (sd_headers _ _ S2) in H6. rewrite (sd_buffer _ _ S2) in H7. rewrite (sd_response _ _ S2) in H8.
    cbn in H4, H5, H6, H7, H8. unfold sendEncodeReply, mlet, mget, mret, emit, modify in Hrun. cbv beta iota zeta in Hrun.
    rewrite H5 in Hrun. destruct end_stream.
    + rewrite H6, H2, H7 in Hrun. cbn in Hrun. injection Hrun as <- <- <-. split; [done|]. by exists st.
    + cbn in Hrun. injection Hrun as <- <- <-. split; [done|]. exists st. split_and!; [done|done|]. split; congruence.
  - cbv beta iota zeta in Hrun. unfold getResponseHeadersStatus, mlet, mget, mret in Hrun. injection Hrun as <- _ _.
    rewrite (sd_intervined _ _ Hs) in Hi1. congruence.
Qed.

(** C16. When the rules intervene on the headers of a response, these are held back, and what becomes of
    the response depends on how it ends.  With data: nothing of the body passes, and at
    its end the answer of the firewall takes its place: the headers have the status of the
    intervention and the length of the text, the buffer holds the text, and all other headers are
    as they were.  With its headers: the answer takes its place at once, but the filter has
    stopped it and no callback of the filter will come that could let it go on.  With
    trailers: the answer never takes its place, and its own headers go on with the trailers and
    without the body. *)
Theorem waf_response_replaced `{!HeaderMapLaws H} protocol headers end_stream f f1 cs r pieces :
  calm f -> intervined_ f = false -> response_processed_ f = false ->
  encodeHeaders getResponseStatus_ protocol headers end_stream f = (f1, cs, Ok r) -> intervined_ f1 = true ->
  r = StopIteration /\
  exists st, status_ f1 = Some st /\
    if end_stream then cs = [text_call (encodingBuffer f)] /\ replaced st headers f1
    else
      cs = [] /\
      (pieces ≠ [] -> exists f',
         run getResponseStatus_ (encode_events pieces false) f1 =
           (f', [text_call (encodingBuffer f)],
            Ok (replicate (length pieces - 1) (DataReply StopIterationNoBuffer "") ++ [DataReply DataContinue ""])) /\
         replaced st headers f') /\
      (exists f',
         run getResponseStatus_ (encode_events pieces true) f1 =
           (f', [], Ok (replicate (length pieces) (DataReply StopIterationNoBuffer "") ++ [TrailersContinue])) /\
         response_headers_ f' = Some headers /\ encodingBuffer f' = encodingBuffer f).
Proof.
  intros Hc Hi Hp Hrun Hi1.
  destruct (encodeHeaders_intervened protocol headers end_stream f f1 cs r Hc Hi Hp Hrun Hi1) as (-> & st & Hst & Hw).
  split; [done|]. exists st. split; [done|]. destruct end_stream.
  - destruct Hw as (-> & Hh & Hb). split; [done|]. by apply replaced_intro.
  - destruct Hw as [-> Hw]. split_and!; [done| |].
    + intros Hne. destruct (withheld_run pieces st headers _ f1 Hw Hne) as (f' & Hr & Hh & Hb). exists f'.
      split; [done|]. by apply replaced_intro.
    + destruct (withheld_trailers pieces st headers _ f1 Hw) as (f' & Hr & Hf'). exists f'. split; [done|].
      split; [apply Hf'|apply Hf'].
Qed.

End facts.

End waf.

(** ** Examples *)

(** Rules that intervene, with 403, on anything that says "attack"; a transaction is what it has been told. *)
#[export] Instance example_ModSecurity : ModSecurity (list string) (list string) := {
  no_rules := [];
  load s r := r ++ [s];
  loadFromUri s r := r ++ [s];
  new_transaction _ := [];
  processConnection c _ s _ t := t ++ [c; s];
  processURI u m p t := t ++ [u; m; p];
  addRequestHeader k v t := t ++ [k; v];
  processRequestHeaders t := t ++ ["request headers"];
  getRequestBodyLength t := Z.of_nat (length t);
  appendRequestBody s t := (t ++ [s], true);
  processRequestBody t := t ++ ["request body"];
  addResponseHeader k v t := t ++ [k; v];
  processResponseHeaders _ p t := t ++ [p; "response headers"];
  getResponseBodyLength t := Z.of_nat (length t);
  appendResponseBody s t := (t ++ [s], true);
  processResponseBody t := t ++ ["response body"];
  intervention t := (t, if bool_decide ("attack" ∈ t) then Some 403 else None);
  engine_enabled _ := true;
  processLogging t := t ++ ["logged"];
}.

Definition example_rules : RuleSetConfig (list string) := {| modsec_rules_ := Some []; rule_str_ := ""; rule_files_ := [] |}.
Definition example_connection : Connection := {| downstream_ip := "10.0.0.1"; downstream_port := 80; local_ip := "10.0.0.1"; local_port := 80 |}.
Definition example_request : alist := [(":path", "/a"); (":method", "POST"); (":authority", "b")].
Definition example_response : alist := [(":status", "200"); ("content-length", "6"); ("x", "y")].
Definition bad_response : alist := [(":status", "200"); ("x", "attack")].
Definition example_status (_ : alist) : outcome Z := Ok 200.
Definition reply_events : list (@EncodeEvent alist) :=
  [EncodeHeaders None [(":status", "403")] false; EncodeData [reply_text] true].

Definition example_events : list (@Event (list string) alist) :=
  DecodeHeaders None (Some example_connection) None reply_events example_request false ::
  data_events reply_events [["good"]; ["x"; "attack"]] false.

Definition after {A} (r : @WafFilter (list string) alist * list Call * outcome A) (d : A) : @WafFilter (list string) alist * list Call * A :=
  match r with (f, cs, Ok a) => (f, cs, a) | (f, cs, _) => (f, cs, d) end.
Definition example_run := after (run example_status example_events (new_WafFilter example_rules)) [].

Lemma waf_blocks_once_witness :
  ~ silent example_run.1.2 /\
  exists es1 e es2 during st cs1 rs1,
    example_events = es1 ++ e :: es2 /\ answers e = Some during /\ silent cs1 /\
    example_run.1.2 = cs1 ++ reply_calls st during /\ length rs1 = length es1 /\ example_run.2 = rs1 ++ (stopped <$> e :: es2).
Proof.
  assert (Hn : ~ silent example_run.1.2).
  { vm_compute. intros Hs. inversion Hs as [|? ? Hc]. discriminate Hc. }
  split; [exact Hn|].
  destruct (waf_blocks_once example_status example_rules example_events example_run.1.1 example_run.1.2 example_run.2) as [Hs|Hr];
    [vm_compute; reflexivity|contradiction|exact Hr].
Defined.


(** The same body, but ended by trailers: it passes unchecked. *)
Example waf_trailers_pass :
  (after (run example_status (DecodeHeaders None (Some example_connection) None reply_events example_request false ::
     data_events reply_events [["good"]; ["x"; "attack"]] true) (new_WafFilter example_rules)) []).2 =
  [HeadersReply StopIteration; DataReply StopIterationAndBuffer "good"; DataReply StopIterationAndBuffer "xattack";
   TrailersContinue].
Proof. vm_compute. reflexivity. Qed.

Definition bad_start := after (encodeHeaders example_status None bad_response false (new_WafFilter example_rules)) Continue.

Lemma waf_response_replaced_witness :
  bad_start.2 = StopIteration /\
  exists st, status_ bad_start.1.1 = Some st /\ exists f',
    run example_status (encode_events [["secret "]; ["data"]] false) bad_start.1.1 =
      (f', [addEncodedData reply_text], Ok [DataReply StopIterationNoBuffer ""; DataReply DataContinue ""]) /\
    replaced st bad_response f'.
Proof.
  destruct (waf_response_replaced (HeaderMap0 := alist_HeaderMap) example_status None bad_response false (new_WafFilter example_rules)
    bad_start.1.1 bad_start.1.2 bad_start.2 [["secret "]; ["data"]]) as (Hr & st & Hst & _ & Hd & _);
    [split; [reflexivity|discriminate]|reflexivity|reflexivity|vm_compute; reflexivity|vm_compute; reflexivity|].
  split; [exact Hr|]. exists st. split; [exact Hst|]. exact (Hd ltac:(discriminate)).
Defined.

(** When they intervene on its body the original data is passed on behind the text. *)
Lemma waf_response_leaks :
  exists f cs, run example_status [Encode (EncodeHeaders None example_response false); Encode (EncodeData ["attack"] true)]
      (new_WafFilter example_rules) = (f, cs, Ok [HeadersReply StopIteration; DataReply DataContinue "attack"]) /\
    intervined_ f = true /\ encodingBuffer f = Some reply_text /\
    (hm_get "content-length" <$> response_headers_ f) = Some ["19"].
Proof. eexists _, _. split_and!; vm_compute; reflexivity. Qed.
End Firewall.
