(* ===== verification/RiderContext.v ===== *)
(** * What a Lua script sees of its stream
      (source/filters/http/rider: common.h, context.h, ffi.cc, the data interfaces of filter.cc)

    Scripts reach the stream through C functions with return codes and buffers they pass in.  The
    functions come in two versions: the first takes the context as an argument, the second takes it
    from a variable of the thread (see RiderFilter).  LuaJIT is not part of this code. *)

From S2P Require Import Prelude Decimal Json Http TrafficMark MetadataHub.
From Stdlib Require Import Ascii.
From stdpp Require Import base gmap strings numbers list.
From S2P Require Import Effects.
#[local] Open Scope Z_scope.
#[local] Open Scope proxy_scope.

Module Context.

(** ** Codes and buffers *)

Definition Success : Z := 0.
Definition BadContext : Z := -1.
Definition NotFound : Z := -2.
Definition BadArgument : Z := -3.
Definition Unsupported : Z := -4.

Inductive StreamDirection := DownstreamToUpstream | UpstreamToDownstream.
#[global] Instance StreamDirection_eq_dec : EqDecision StreamDirection.
Proof. solve_decision. Defined.

(** A value that is no constructor of the enumeration can come from a script. *)
Inductive LuaStreamOpSourceType := Request | Response | OtherSource.

(** [envoy_lua_ffi_str_t] after a call: the text it points to, if that still exists. *)
Inductive View := Live (s : string) | Dangling.

(** [envoy_lua_ffi_string_pairs]: whether it has memory, its first [size] entries, its capacity. *)
Record Pairs := { has_data : bool; entries : list (string * string); capacity : Z }.

Definition usable (buf : option Pairs) : option Pairs :=
  match buf with
  | Some b => if has_data b && negb (capacity b =? 0) then Some b else None
  | None => None
  end.

(** Entries are written from the start until the buffer is full. *)
Definition fill (l : list (string * string)) (b : Pairs) : outcome Pairs :=
  if capacity b <? 0 then
    match l with
    | [] => Ok {| has_data := has_data b; entries := []; capacity := capacity b |}
    | _ :: _ => Undefined "write behind the buffer"
    end
  else Ok {| has_data := has_data b; entries := take (Z.to_nat (capacity b)) l; capacity := capacity b |}.

(** ** Headers *)

Section headers.
Context {H : Type} `{!HeaderMap H}.

(** [hm_entries] in the order of the iteration of the host. *)
Definition getHeaderMapSize (headers : option H) : Z :=
  match headers with Some h => Z.of_nat (length (hm_entries h)) | None => 0 end.

Definition null_headers {A} : outcome A := Undefined "headers is null".

Definition getHeaderMap (headers : option H) (buf : option Pairs) : outcome (Z * option Pairs) :=
  match usable buf with
  | None => Ok (BadArgument, buf)
  | Some b =>
      match headers with
      | None => null_headers
      | Some h => let* b' := fill (hm_entries h) b in Ok (Success, Some b')
      end
  end.

(** The texts of several values are joined in an object that dies before the call returns. *)
Definition getHeaderMapValue (headers : option H) (key : string) : Z * option View :=
  match headers with
  | None => (BadArgument, None)
  | Some h =>
      if String.eqb key "" then (BadArgument, None)
      else
        match hm_get (to_lower key) h with
        | [] => (NotFound, None)
        | [v] => (Success, Some (Live v))
        | _ => (Success, Some Dangling)
        end
  end.

Definition getHeaderMapValueSize (headers : option H) (key : string) : outcome Z :=
  if String.eqb key "" then Ok BadArgument
  else match headers with
       | None => null_headers
       | Some h => Ok (Z.of_nat (length (hm_get (to_lower key) h)))
       end.

Definition getHeaderMapValueIndex (headers : option H) (key : string) (index : Z) : Z * option View :=
  match headers with
  | None => (BadArgument, None)
  | Some h =>
      if String.eqb key "" then (BadArgument, None)
      else
        let get_result := hm_get (to_lower key) h in
        if (index <? 0) || (Z.of_nat (length get_result) <=? index) then (NotFound, None)
        else
          match get_result !! Z.to_nat index with
          | Some v => (Success, Some (Live v))
          | None => (NotFound, None)
          end
  end.

(** All keys are removed, then the entries of the buffer are added. *)
Definition setHeaderMap (headers : option H) (buf : option Pairs) : outcome (Z * option H) :=
  match usable buf with
  | None => Ok (BadArgument, headers)
  | Some b =>
      match headers with
      | None => null_headers
      | Some h =>
          let cleared := fold_left (fun h k => hm_remove (to_lower k) h) (fst <$> hm_entries h) h in
          Ok (Success, Some (fold_left (fun h p => hm_addCopy (to_lower p.1) p.2 h) (entries b) cleared))
      end
  end.

Definition setHeaderMapValue (headers : option H) (key value : string) : Z * option H :=
  match headers with
  | None => (BadArgument, headers)
  | Some h =>
      if String.eqb key "" || String.eqb value "" then (BadArgument, headers)
      else (Success, Some (hm_set (to_lower key) value h))
  end.

Definition removeHeaderMapValue (headers : option H) (key : string) : Z * option H :=
  match headers with
  | None => (BadArgument, headers)
  | Some h => if String.eqb key "" then (BadArgument, headers) else (Success, Some (hm_remove (to_lower key) h))
  end.

(** ** The data of a stream *)

Record RoutePluginConfig := { name_ : string; configuration_ : string; hash_ : Z }.

(** The message of a plugin, of which the name is read; its JSON text and its hash are made from all of it. *)
Definition new_RoutePluginConfig {M : Type} (name json : M -> string) (hash : M -> Z) (proto_config : M) : RoutePluginConfig :=
  {| name_ := name proto_config; configuration_ := json proto_config; hash_ := hash proto_config |}.
Definition new_RouteConfig {M : Type} (name json : M -> string) (hash : M -> Z) (plugins : list M) : list RoutePluginConfig :=
  map (new_RoutePluginConfig name json hash) plugins.

(** The members of the filter that the interfaces use. *)
Record StreamData := {
  route_config_ : option RoutePluginConfig;
  request_headers_ : option H;
  response_headers_ : option H;
  shared_table_reference_ : Z;
}.

Definition set_request_headers (h : option H) (d : StreamData) : StreamData :=
  {| route_config_ := route_config_ d; request_headers_ := h; response_headers_ := response_headers_ d;
     shared_table_reference_ := shared_table_reference_ d |}.
Definition set_response_headers (h : option H) (d : StreamData) : StreamData :=
  {| route_config_ := route_config_ d; request_headers_ := request_headers_ d; response_headers_ := h;
     shared_table_reference_ := shared_table_reference_ d |}.
Definition set_shared_table (r : Z) (d : StreamData) : StreamData :=
  {| route_config_ := route_config_ d; request_headers_ := request_headers_ d;
     response_headers_ := response_headers_ d; shared_table_reference_ := r |}.

(** What the host answers while a script runs; metadata is absent where there is no route entry. *)
Record StreamInfo := {
  current_time : Z;
  has_log_file : bool;
  plugin_configuration : string;
  new_reference : Z;
  parse_query : string -> list (string * string);
  upstream_host : option (option (string * string));
  local_address : option string;
  remote_address : option string;
  start_time_ms : Z;
  route_metadata : option (gmap string (gmap string Value));
  dynamic_metadata : gmap string (gmap string Value);
  decodingBuffer : option string;
  encodingBuffer : option string;
}.

(** The functions of both versions; arguments that may be null are options. *)
Inductive FfiCall :=
| log (level : Z) (message : string)
| get_current_time_milliseconds
| get_configuration (has_buffer : bool)
| file_log (buf : string)
| get_shared_table
| get_route_configuration
| get_route_config_hash
| get_header_map_size (source : LuaStreamOpSourceType)
| get_header_map (source : LuaStreamOpSourceType) (buffer : option Pairs)
| get_header_map_value (source : LuaStreamOpSourceType) (key : string)
| get_header_map_value_size (source : LuaStreamOpSourceType) (key : string)
| get_header_map_value_index (source : LuaStreamOpSourceType) (key : string) (index : Z)
| set_header_map (source : LuaStreamOpSourceType) (buffer : option Pairs)
| set_header_map_value (source : LuaStreamOpSourceType) (key value : string)
| remove_header_map_value (source : LuaStreamOpSourceType) (key : string)
| get_query_parameters (buf : option Pairs)
| get_upstream_host
| get_upstream_cluster
| get_downstream_local_address
| get_downstream_remote_address
| get_start_time
| get_metadata (filter_name key : string)
| get_dynamic_metadata_value (filter_name key : string)
| get_body (source : LuaStreamOpSourceType).

Inductive FfiAnswer :=
| Code (rc : Z)
| CodeText (rc : Z) (value : option View)
| CodePairs (rc : Z) (buffer : option Pairs)
| Number (n : Z)
| Text (s : option string).

Inductive effect := script_log (level : Z) (message : string) | write_log_file (buf : string) | create_table.

Definition source_headers (source : LuaStreamOpSourceType) (d : StreamData) : outcome (option H) :=
  match source with
  | Request => Ok (request_headers_ d)
  | Response => Ok (response_headers_ d)
  | OtherSource => Undefined "NOT_REACHED"
  end.
Definition store_headers (source : LuaStreamOpSourceType) (h : option H) (d : StreamData) : StreamData :=
  match source with
  | Request => set_request_headers h d
  | Response => set_response_headers h d
  | OtherSource => d
  end.

(** [Filter::getOrCreateSharedTable] *)
Definition getOrCreateSharedTable (info : StreamInfo) (d : StreamData) : Z * StreamData * list effect :=
  if 0 <? shared_table_reference_ d then (shared_table_reference_ d, d, [])
  else (new_reference info, set_shared_table (new_reference info) d, [create_table]).

(** [Filter::getQueryParameters]: no capacity is asked for here. *)
Definition getQueryParameters (info : StreamInfo) (d : StreamData) (buf : option Pairs) :
    outcome (Z * option Pairs) :=
  match request_headers_ d, buf with
  | Some h, Some b =>
      if has_data b then
        match hm_get ":path" h with
        | [] => Ok (Success, Some {| has_data := true; entries := []; capacity := capacity b |})
        | path :: _ => let* b' := fill (parse_query info path) b in Ok (Success, Some b')
        end
      else Ok (BadArgument, buf)
  | _, _ => Ok (BadArgument, buf)
  end.

(** A field of the metadata: integers and strings only. *)
Definition metadata_text (metadatas : gmap string (gmap string Value)) (filter_name key : string) :
    outcome (Z * option View) :=
  match metadatas !! filter_name with
  | None => Ok (NotFound, None)
  | Some fields =>
      match fields !! key with
      | None => Ok (NotFound, None)
      | Some (NumberValue d) => let* z := Hub.int64_of_double d in Ok (Success, Some (Live (to_string z)))
      | Some (StringValue s) => Ok (Success, Some (Live s))
      | Some _ => Ok (Unsupported, None)
      end
  end.
Definition getMetadataValue (info : StreamInfo) (filter_name key : string) : outcome (Z * option View) :=
  match route_metadata info with
  | None => Ok (NotFound, None)
  | Some metadatas => metadata_text metadatas filter_name key
  end.
Definition getDynamicMetadataValue (info : StreamInfo) (filter_name key : string) : outcome (Z * option View) :=
  metadata_text (dynamic_metadata info) filter_name key.

Definition getBody (info : StreamInfo) (source : LuaStreamOpSourceType) : outcome (Z * option View) :=
  let text b := Ok (match b with Some s => (Success, Some (Live s)) | None => (NotFound, None) end) in
  match source with
  | Request => text (decodingBuffer info)
  | Response => text (encodingBuffer info)
  | OtherSource => Undefined "NOT_REACHED"
  end.

(** Levels of the host's logger: trace to err. *)
Definition log_message (level : Z) (message : string) : outcome (list effect) :=
  if (0 <=? level) && (level <=? 4) then Ok [script_log level message] else Undefined "NOT_REACHED".

(** [Filter::fileLog] *)
Definition fileLog (info : StreamInfo) (buf : string) : list effect :=
  if has_log_file info then [write_log_file buf] else [].

Definition getRouteConfigHash (d : StreamData) : Z :=
  match route_config_ d with Some c => hash_ c | None => 0 end.

Definition getRouteConfiguration (d : StreamData) : Z * option View :=
  match route_config_ d with
  | Some c => (Success, Some (Live (configuration_ c)))
  | None => (NotFound, None)
  end.

(** The upstream info or the host in it may be missing. *)
Definition upstreamHost (info : StreamInfo) : option string :=
  match upstream_host info with Some (Some p) => Some p.1 | _ => None end.
Definition upstreamCluster (info : StreamInfo) : option string :=
  match upstream_host info with Some (Some p) => Some p.2 | _ => None end.
Definition downstreamLocalAddress (info : StreamInfo) : option string := local_address info.
Definition downstreamRemoteAddress (info : StreamInfo) : option string := remote_address info.

(** A call that reaches the context of a stream. *)
Definition stream_call (info : StreamInfo) (call : FfiCall) (d : StreamData) :
    outcome (FfiAnswer * StreamData * list effect) :=
  let text (o : outcome (Z * option View)) := let* r := o in Ok (CodeText r.1 r.2, d, []) in
  let written source (r : Z * option H) := Ok (Code r.1, store_headers source r.2 d, []) in
  match call with
  | log level message => let* e := log_message level message in Ok (Code 0, d, e)
  | get_current_time_milliseconds => Ok (Number (current_time info), d, [])
  | get_configuration has_buffer =>
      if has_buffer then text (Ok (Success, Some (Live (plugin_configuration info))))
      else text (Ok (BadArgument, None))
  | file_log buf => Ok (Number 0, d, fileLog info buf)
  | get_shared_table =>
      let r := getOrCreateSharedTable info d in Ok (Number r.1.1, r.1.2, r.2)
  | get_route_configuration => text (Ok (getRouteConfiguration d))
  | get_route_config_hash => Ok (Number (getRouteConfigHash d), d, [])
  | get_header_map_size source =>
      let* h := source_headers source d in Ok (Number (getHeaderMapSize h), d, [])
  | get_header_map source buffer =>
      let* h := source_headers source d in
      let* r := getHeaderMap h buffer in Ok (CodePairs r.1 r.2, d, [])
  | get_header_map_value source key =>
      let* h := source_headers source d in text (Ok (getHeaderMapValue h key))
  | get_header_map_value_size source key =>
      let* h := source_headers source d in
      let* n := getHeaderMapValueSize h key in Ok (Code n, d, [])
  | get_header_map_value_index source key index =>
      let* h := source_headers source d in text (Ok (getHeaderMapValueIndex h key index))
  | set_header_map source buffer =>
      let* h := source_headers source d in
      let* r := setHeaderMap h buffer in written source r
  | set_header_map_value source key value =>
      let* h := source_headers source d in written source (setHeaderMapValue h key value)
  | remove_header_map_value source key =>
      let* h := source_headers source d in written source (removeHeaderMapValue h key)
  | get_query_parameters buf =>
      let* r := getQueryParameters info d buf in Ok (CodePairs r.1 r.2, d, [])
  | get_upstream_host => Ok (Text (upstreamHost info), d, [])
  | get_upstream_cluster => Ok (Text (upstreamCluster info), d, [])
  | get_downstream_local_address => Ok (Text (downstreamLocalAddress info), d, [])
  | get_downstream_remote_address => Ok (Text (downstreamRemoteAddress info), d, [])
  | get_start_time => Ok (Number (start_time_ms info), d, [])
  | get_metadata filter_name key => text (getMetadataValue info filter_name key)
  | get_dynamic_metadata_value filter_name key => text (getDynamicMetadataValue info filter_name key)
  | get_body source => text (getBody info source)
  end.

(** [ContextBase::getConfiguration]; a null plugin has none. *)
Definition getConfiguration (configuration : option string) (has_buffer : bool) : FfiAnswer :=
  if has_buffer then
    match configuration with
    | Some c => CodeText Success (Some (Live c))
    | None => CodeText NotFound None
    end
  else CodeText BadArgument None.

(** The context a plugin is configured in has the configuration and the log only. *)
Definition root_call (configuration : option string) (call : FfiCall) : outcome (FfiAnswer * list effect) :=
  match call with
  | log level message => let* e := log_message level message in Ok (Code 0, e)
  | get_configuration has_buffer => Ok (getConfiguration configuration has_buffer, [])
  | _ => Undefined "NOT_REACHED"
  end.

(** ** Headers written by a script *)

Context `{!HeaderMapLaws H}.

Lemma get_removed ks k h :
  hm_get k (fold_left (fun h k => hm_remove (to_lower k) h) ks h) = if decide (k ∈ to_lower <$> ks) then [] else hm_get k h.
Proof.
  revert h. induction ks as [|k' ks IH]; intros h; cbn [fold_left fmap list_fmap]; [by rewrite decide_False by apply not_elem_of_nil|].
  rewrite IH. destruct (decide (k = to_lower k')) as [->|Hne].
  - rewrite get_remove_eq. rewrite (decide_True (P := to_lower k' ∈ to_lower k' :: _)) by left. by case_decide.
  - rewrite get_remove_ne by done. destruct (decide (k ∈ to_lower <$> ks)) as [Hin|Hin].
    + rewrite (decide_True (P := k ∈ _ :: _)); [done|by right].
    + rewrite (decide_False (P := k ∈ _ :: _)); [done|]. rewrite elem_of_cons. by intros [?|?].
Qed.

(** The values a buffer has for a key. *)
Definition values_of (k : string) (l : list (string * string)) : list string :=
  snd <$> filter (fun p => to_lower p.1 = k) l.

Lemma get_added l k h :
  hm_get k (fold_left (fun h p => hm_addCopy (to_lower p.1) p.2 h) l h) = add_values (hm_inline h k) (hm_get k h) (values_of k l).
Proof.
  unfold values_of. revert h. induction l as [|p l IH]; intros h; cbn [fold_left]; [done|].
  rewrite IH, filter_cons, inline_add. destruct (decide (to_lower p.1 = k)) as [<-|Hne].
  - by rewrite get_add_eq.
  - by rewrite get_add_ne.
Qed.

Lemma inline_removed ks h : hm_inline (fold_left (fun h k => hm_remove (to_lower k) h) ks h) = hm_inline h.
Proof. revert h. induction ks as [|k ks IH]; intros h; cbn [fold_left]; [done|]. by rewrite IH, inline_remove. Qed.

Definition lower_keys (h : H) : Prop := Forall (fun p => to_lower p.1 = p.1) (hm_entries h).

(** All old values go: the host keeps its keys in lower case. *)
Lemma get_cleared k h : lower_keys h ->
  hm_get k (fold_left (fun h k => hm_remove (to_lower k) h) (fst <$> hm_entries h) h) = [].
Proof.
  intros Hl. rewrite get_removed. case_decide as Hin; [done|]. rewrite get_entries.
  destruct (filter _ (hm_entries h)) as [|[k' v] l] eqn:E; [done|]. destruct Hin.
  assert (Hkv : (k', v) ∈ filter (fun p => p.1 = k) (hm_entries h)) by (rewrite E; left).
  apply list_elem_of_filter in Hkv as [Hk Hkv]. cbn in Hk. subst k'. unfold lower_keys in Hl. rewrite Forall_forall in Hl.
  apply list_elem_of_fmap. exists k. split; [symmetry; by apply (Hl (k, v))|]. apply list_elem_of_fmap. by exists (k, v).
Qed.

Definition headers_of (source : LuaStreamOpSourceType) (d : StreamData) : option H :=
  match source with Request => request_headers_ d | Response => response_headers_ d | OtherSource => None end.

(** C27. A script that replaces all headers of a side reads back, for every key it asks for, exactly the
    values it wrote under a key with the same lower case letters, by number and one by one; for a header that the proxy
    predefines these are one value, the written ones joined in their order.  The old values are gone, and the
    other side is untouched. *)
Theorem script_headers_replaced (info : StreamInfo) (source : LuaStreamOpSourceType) (b : Pairs) (d : StreamData) (h : H) :
  headers_of source d = Some h -> lower_keys h -> has_data b = true -> capacity b ≠ 0 ->
  exists d', stream_call info (set_header_map source (Some b)) d = Ok (Code Success, d', []) /\
    (forall key, key ≠ "" ->
       let written := values_of (to_lower key) (entries b) in
       let values := add_values (hm_inline h (to_lower key)) [] written in
       (hm_inline h (to_lower key) = None -> values = written) /\
       stream_call info (get_header_map_value_size source key) d' = Ok (Code (Z.of_nat (length values)), d', []) /\
       (forall i v, values !! i = Some v ->
          stream_call info (get_header_map_value_index source key (Z.of_nat i)) d' = Ok (CodeText Success (Some (Live v)), d', [])) /\
       (values = [] -> stream_call info (get_header_map_value source key) d' = Ok (CodeText NotFound None, d', []))) /\
    (forall other, other ≠ source -> headers_of other d' = headers_of other d).
Proof.
  intros Hh Hl Hd Hc. set (cleared := fold_left (fun h k => hm_remove (to_lower k) h) (fst <$> hm_entries h) h).
  set (h' := fold_left (fun h p => hm_addCopy (to_lower p.1) p.2 h) (entries b) cleared).
  assert (Hget : forall k, hm_get k h' = add_values (hm_inline h k) [] (values_of k (entries b))).
  { intros k. unfold h'. rewrite get_added. unfold cleared. by rewrite get_cleared, inline_removed. }
  exists (store_headers source (Some h') d).
  assert (Hset : setHeaderMap (Some h) (Some b) = Ok (Success, Some h')).
  { unfold setHeaderMap, usable. by rewrite Hd, (proj2 (Z.eqb_neq _ _) Hc). }
  assert (Hsrc : source_headers source d = Ok (Some h)) by (destruct source; cbn in *; congruence).
  assert (Hsrc' : source_headers source (store_headers source (Some h') d) = Ok (Some h')) by by destruct source.
  split; [|split].
  - cbn [stream_call]. rewrite Hsrc. cbn [obind]. by rewrite Hset.
  - intros key Hkey written values. cbn [stream_call]. rewrite Hsrc'. cbn [obind].
    unfold getHeaderMapValueSize, getHeaderMapValueIndex, getHeaderMapValue. rewrite (proj2 (String.eqb_neq _ _) Hkey), Hget.
    fold written values. split_and!; [|done| |].
    + intros Hn. unfold values. rewrite Hn. apply add_values_plain.
    + intros i v Hi. pose proof (lookup_lt_Some _ _ _ Hi) as Hlt.
      rewrite (proj2 (Z.ltb_ge _ _)), (proj2 (Z.leb_gt _ _)) by lia. cbn [orb]. by rewrite Nat2Z.id, Hi.
    + by intros ->.
  - by intros [] Ho; destruct source.
Qed.
End headers.

Definition example_info : StreamInfo :=
  {| current_time := 0; has_log_file := false; plugin_configuration := ""; new_reference := 1; parse_query := fun _ => [];
     upstream_host := None; local_address := None; remote_address := None; start_time_ms := 0; route_metadata := None;
     dynamic_metadata := ∅; decodingBuffer := None; encodingBuffer := None |}.

Definition example_pairs : Pairs :=
  {| has_data := true; entries := [("X-A", "1"); ("x-b", "2"); ("x-a", "3"); ("via", "p"); ("Via", "q")]; capacity := 5 |}.
Definition example_data : @StreamData alist :=
  {| route_config_ := None; request_headers_ := Some [("x-a", "0"); ("x-c", "9")]; response_headers_ := None;
     shared_table_reference_ := 0 |}.

Lemma script_headers_replaced_witness :
  exists d', stream_call example_info (set_header_map Request (Some example_pairs)) example_data = Ok (Code Success, d', []) /\
    stream_call example_info (get_header_map_value_index Request "X-a" 1) d' = Ok (CodeText Success (Some (Live "3")), d', []) /\
    stream_call example_info (get_header_map_value_index Request "via" 0) d' = Ok (CodeText Success (Some (Live "p,q")), d', []) /\
    stream_call example_info (get_header_map_value Request "x-c") d' = Ok (CodeText NotFound None, d', []).
Proof.
  destruct (script_headers_replaced example_info Request example_pairs example_data [("x-a", "0"); ("x-c", "9")]) as (d' & Hs & Hr & _);
    [reflexivity|repeat constructor|reflexivity|discriminate|].
  exists d'. split; [exact Hs|]. split_and!.
  - destruct (Hr "X-a" ltac:(discriminate)) as (_ & _ & Hi & _). apply (Hi 1%nat). vm_compute. reflexivity.
  - destruct (Hr "via" ltac:(discriminate)) as (_ & _ & Hi & _). apply (Hi 0%nat). vm_compute. reflexivity.
  - destruct (Hr "x-c" ltac:(discriminate)) as (_ & _ & _ & Hn). apply Hn. vm_compute. reflexivity.
Defined.
End Context.
