(* ===== verification/RiderFilter.v ===== *)
(** * Lua scripts on a stream (source/filters/http/rider/filter.{h,cc}, Coroutine of vm.cc, capi.h)

    A filter runs the functions of a plugin in coroutines, one per direction.  A script stops when
    it waits for the body or for an HTTP call, and when it has answered the request; the callbacks
    of the host and of the HTTP client resume it.  Many filters share a thread, and the functions of
    version 2 find their stream in a variable of the thread.

    LuaJIT is not part of this code: what a script does between two stops is a tree of the calls it
    makes ([Script]), chosen by the host of each event, and values of Lua are a parameter. *)

From S2P Require Import Prelude Decimal Json Http TrafficMark MetadataHub RiderContext.
From stdpp Require Import base gmap strings numbers list.
From S2P Require Import Effects.
#[local] Open Scope Z_scope.
#[local] Open Scope proxy_scope.

Module Rider.
Import Context.

(** Arguments on the Lua stack, and the checks of the auxiliary library: [inl] is the error raised. *)
Class LuaValues (V : Type) := {
  lua_none : V;
  lua_userdata : V;
  lua_integer : Z -> V;
  lua_table : V -> option (list (V * V));
  luaL_checkstring : V -> string + string;
  luaL_optlstring : V -> string + option string;
  luaL_checkint : V -> string + Z;
}.

Inductive State := Running | WaitForBody | WaitForBodyChunk | WaitForTrailers | HttpCall | Responded.
#[global] Instance State_eq_dec : EqDecision State.
Proof. solve_decision. Defined.

Inductive Status := NotStarted | Yielded | Finished.

(** A Lua thread: nothing of it runs, it is suspended, or it died with an error. *)
Inductive Thread := Startable | Suspended | Dead.

Inductive Version := v1 | v2.
#[global] Instance Version_eq_dec : EqDecision Version.
Proof. solve_decision. Defined.

(** [Http::FilterHeadersStatus] and [Http::FilterDataStatus] *)
Inductive DataStatus := Continue | StopIterationAndBuffer | StopIterationNoBuffer.
#[global] Instance DataStatus_eq_dec : EqDecision DataStatus.
Proof. solve_decision. Defined.

(** The handle of a plugin: [None] is [LUA_NOREF]. *)
Record PluginHandle := {
  version : Version;
  onRequestRef : option nat;
  onResponseRef : option nat;
  onRequestHeaderRef : option nat;
  onRequestBodyRef : option nat;
  onResponseHeaderRef : option nat;
  onResponseBodyRef : option nat;
}.
Record Config := { pluginHandle : PluginHandle; pluginName : string; allowNoRoute : bool }.

(** What C++ leaves on the stack of a script. *)
Inductive Pushed := PTable (l : list (string * string)) | PString (s : string) | PNil | PBuffer (s : string).
Inductive Answer := Raised (what : string) | Returned (l : list Pushed).

Section filter.
Context {H V : Type} `{!HeaderMap H, !LuaValues V}.
#[local] Abbreviation StreamData := (@StreamData H).

(** What a script does until it ends or stops: errors of its calls come back to it, as with [pcall]. *)
Inductive Script :=
| Return
| Raise (what : option string)
| Yield
| CallRespond (args : list V) (k : string -> Script)
| CallHttp (args : list V) (k : Answer -> Script)
| CallBody (direction : StreamDirection) (k : Answer -> Script)
| CallFfi (version : Version) (call : FfiCall) (k : FfiAnswer -> Script).

(** ** State *)

Record StreamWrapper := {
  state_ : State;
  status_ : Status;
  thread_ : Thread;
  http_request_ : bool;
  saw_body_ : bool;
  buffered_body_ : bool;
  end_stream_ : bool;
  headers_continued_ : bool;
  start_body_ : bool;
  function_ref_body_ : option nat;
}.

Definition new_StreamWrapper (end_stream : bool) : StreamWrapper :=
  {| state_ := Running; status_ := NotStarted; thread_ := Startable; http_request_ := false; saw_body_ := false;
     buffered_body_ := false; end_stream_ := end_stream; headers_continued_ := false; start_body_ := false;
     function_ref_body_ := None |}.

(** The filter, with the host's buffers of its two directions. *)
Record Filter := {
  data_ : StreamData;
  request_stream_wrapper_ : option StreamWrapper;
  response_stream_wrapper_ : option StreamWrapper;
  destroyed_ : bool;
  error_ : bool;
  responded : bool;
  decoding_buffer : option string;
  encoding_buffer : option string;
}.

Definition new_Filter : Filter :=
  {| data_ := {| route_config_ := None; request_headers_ := None; response_headers_ := None; shared_table_reference_ := 0 |};
     request_stream_wrapper_ := None; response_stream_wrapper_ := None; destroyed_ := false; error_ := false;
     responded := false; decoding_buffer := None; encoding_buffer := None |}.

(** The filters of a thread and its [global_ctx]. *)
Record World := { filters : gmap nat Filter; global_ctx : option nat }.

(** Calls on the host.  [FfiReached] tells whose data a call of a script reached. *)
Inductive HostCall :=
| addData (direction : StreamDirection) (data : string)
| continueIteration (direction : StreamDirection)
| encodeHeadersCb (headers : H) (end_stream : bool)
| encodeDataCb (body : string) (end_stream : bool)
| httpSend (direction : StreamDirection) (cluster : string) (headers : H) (body : option string) (timeout : option Z)
| httpCancel (direction : StreamDirection)
| unrefTable (reference : Z)
| FfiReached (target : nat) (effects : list Context.effect)
| errorLog (what : string).

#[local] Abbreviation prog := (M World (nat * HostCall)).

(** What the host and the scripts do during one event. *)
Inductive SendResult := SendPending | SendFailed | SendDone (headers : H) (body : string).
Record Host := {
  info : nat -> StreamInfo;
  simple_atoi : string -> option Z;
  cluster_exists : string -> bool;
  send_result : string -> H -> option string -> option Z -> SendResult;
  is_function : nat -> bool;
  on_start : nat -> Script;
  on_resume : list Pushed -> Script;
  destroyed_by_answer : bool;
}.

(** ** Members *)

Definition set_data (d : StreamData) (f : Filter) : Filter :=
  {| data_ := d; request_stream_wrapper_ := request_stream_wrapper_ f; response_stream_wrapper_ := response_stream_wrapper_ f;
     destroyed_ := destroyed_ f; error_ := error_ f; responded := responded f;
     decoding_buffer := decoding_buffer f; encoding_buffer := encoding_buffer f |}.
Definition set_flags (destroyed error r : bool) (f : Filter) : Filter :=
  {| data_ := data_ f; request_stream_wrapper_ := request_stream_wrapper_ f; response_stream_wrapper_ := response_stream_wrapper_ f;
     destroyed_ := destroyed; error_ := error; responded := r;
     decoding_buffer := decoding_buffer f; encoding_buffer := encoding_buffer f |}.
Definition set_wrapper (direction : StreamDirection) (w : option StreamWrapper) (f : Filter) : Filter :=
  {| data_ := data_ f;
     request_stream_wrapper_ := if decide (direction = DownstreamToUpstream) then w else request_stream_wrapper_ f;
     response_stream_wrapper_ := if decide (direction = DownstreamToUpstream) then response_stream_wrapper_ f else w;
     destroyed_ := destroyed_ f; error_ := error_ f; responded := responded f;
     decoding_buffer := decoding_buffer f; encoding_buffer := encoding_buffer f |}.
Definition set_buffer (direction : StreamDirection) (b : option string) (f : Filter) : Filter :=
  {| data_ := data_ f; request_stream_wrapper_ := request_stream_wrapper_ f; response_stream_wrapper_ := response_stream_wrapper_ f;
     destroyed_ := destroyed_ f; error_ := error_ f; responded := responded f;
     decoding_buffer := if decide (direction = DownstreamToUpstream) then b else decoding_buffer f;
     encoding_buffer := if decide (direction = DownstreamToUpstream) then encoding_buffer f else b |}.

Definition wrapper (direction : StreamDirection) (f : Filter) : option StreamWrapper :=
  match direction with
  | DownstreamToUpstream => request_stream_wrapper_ f
  | UpstreamToDownstream => response_stream_wrapper_ f
  end.
Definition buffer (direction : StreamDirection) (f : Filter) : option string :=
  match direction with
  | DownstreamToUpstream => decoding_buffer f
  | UpstreamToDownstream => encoding_buffer f
  end.

Definition set_state (s : State) (w : StreamWrapper) : StreamWrapper :=
  {| state_ := s; status_ := status_ w; thread_ := thread_ w; http_request_ := http_request_ w; saw_body_ := saw_body_ w;
     buffered_body_ := buffered_body_ w; end_stream_ := end_stream_ w; headers_continued_ := headers_continued_ w;
     start_body_ := start_body_ w; function_ref_body_ := function_ref_body_ w |}.
Definition set_coroutine (s : Status) (t : Thread) (w : StreamWrapper) : StreamWrapper :=
  {| state_ := state_ w; status_ := s; thread_ := t; http_request_ := http_request_ w; saw_body_ := saw_body_ w;
     buffered_body_ := buffered_body_ w; end_stream_ := end_stream_ w; headers_continued_ := headers_continued_ w;
     start_body_ := start_body_ w; function_ref_body_ := function_ref_body_ w |}.
Definition set_request (b : bool) (w : StreamWrapper) : StreamWrapper :=
  {| state_ := state_ w; status_ := status_ w; thread_ := thread_ w; http_request_ := b; saw_body_ := saw_body_ w;
     buffered_body_ := buffered_body_ w; end_stream_ := end_stream_ w; headers_continued_ := headers_continued_ w;
     start_body_ := start_body_ w; function_ref_body_ := function_ref_body_ w |}.
Definition set_buffered (b : bool) (w : StreamWrapper) : StreamWrapper :=
  {| state_ := state_ w; status_ := status_ w; thread_ := thread_ w; http_request_ := http_request_ w; saw_body_ := saw_body_ w;
     buffered_body_ := b; end_stream_ := end_stream_ w; headers_continued_ := headers_continued_ w;
     start_body_ := start_body_ w; function_ref_body_ := function_ref_body_ w |}.
Definition set_seen (end_stream : bool) (w : StreamWrapper) : StreamWrapper :=
  {| state_ := state_ w; status_ := status_ w; thread_ := thread_ w; http_request_ := http_request_ w; saw_body_ := true;
     buffered_body_ := buffered_body_ w; end_stream_ := end_stream; headers_continued_ := headers_continued_ w;
     start_body_ := start_body_ w; function_ref_body_ := function_ref_body_ w |}.
Definition set_continued (w : StreamWrapper) : StreamWrapper :=
  {| state_ := state_ w; status_ := status_ w; thread_ := thread_ w; http_request_ := http_request_ w; saw_body_ := saw_body_ w;
     buffered_body_ := buffered_body_ w; end_stream_ := end_stream_ w; headers_continued_ := true;
     start_body_ := start_body_ w; function_ref_body_ := function_ref_body_ w |}.
Definition set_start_body (b : bool) (r : option nat) (w : StreamWrapper) : StreamWrapper :=
  {| state_ := state_ w; status_ := status_ w; thread_ := thread_ w; http_request_ := http_request_ w; saw_body_ := saw_body_ w;
     buffered_body_ := buffered_body_ w; end_stream_ := end_stream_ w; headers_continued_ := headers_continued_ w;
     start_body_ := b; function_ref_body_ := r |}.

(** ** Access *)

Definition filter_of (me : nat) : prog Filter := fun w =>
  match filters w !! me with
  | Some f => (w, [], Ok f)
  | None => (w, [], Undefined "the filter is gone")
  end.
Definition put_filter (me : nat) (f : Filter) : prog unit :=
  modify (fun w => {| filters := <[me := f]> (filters w); global_ctx := global_ctx w |}).
Definition change (me : nat) (g : Filter -> Filter) : prog unit := do f <- filter_of me; put_filter me (g f).
Definition set_global_ctx (me : nat) : prog unit :=
  modify (fun w => {| filters := filters w; global_ctx := Some me |}).
Definition call (me : nat) (c : HostCall) : prog unit := emit (me, c).

Definition wrapper_of (me : nat) (direction : StreamDirection) : prog StreamWrapper :=
  do f <- filter_of me;
  match wrapper direction f with
  | Some w => mret w
  | None => lift (Undefined "the stream wrapper is null")
  end.
Definition change_wrapper (me : nat) (direction : StreamDirection) (g : StreamWrapper -> StreamWrapper) : prog unit :=
  do w <- wrapper_of me direction; change me (set_wrapper direction (Some (g w))).

(** ** What scripts call *)

(** [None]: the coroutine yields. *)
Definition luaBody (me : nat) (direction : StreamDirection) : prog (option Answer) :=
  do f <- filter_of me;
  do w <- wrapper_of me direction;
  if end_stream_ w then
    if negb (buffered_body_ w) && saw_body_ w then
      mret (Some (Raised "cannot call body() after body has been streamed"))
    else
      match buffer direction f with
      | None => mret (Some (Returned []))
      | Some b => mret (Some (Returned [PBuffer b]))
      end
  else if saw_body_ w then mret (Some (Raised "cannot call body() after body streaming has started"))
  else
    change_wrapper me direction (fun w => set_buffered true (set_state WaitForBody w)) ;;
    mret None.

(** The stack of [respond] and [httpCall]: the arguments, then the context and the direction, which
    the entry points push on top of them. *)
Definition direction_code (direction : StreamDirection) : Z :=
  match direction with DownstreamToUpstream => 0 | UpstreamToDownstream => 1 end.
Definition stack (args : list V) (direction : StreamDirection) (i : nat) : V :=
  default lua_none ((args ++ [lua_userdata; lua_integer (direction_code direction)]) !! (i - 1)%nat).

(** The loop of [buildHeadersFromTable]; texts end at a NUL character. *)
Fixpoint buildHeadersFromTable (headers : H) (table : list (V * V)) : string + H :=
  match table with
  | [] => inr headers
  | (k, v) :: rest =>
      match luaL_checkstring k, luaL_checkstring v with
      | inr key, inr value => buildHeadersFromTable (hm_addCopy (to_lower (c_str key)) (c_str value) headers) rest
      | inl what, _ => inl what
      | _, inl what => inl what
      end
  end.

Definition setContentLength (n : nat) (headers : H) : H := hm_set "content-length" (to_string (Z.of_nat n)) headers.

(** The headers and the body of an answer, or the error raised by the checks. *)
Definition respond_arguments (h : Host) (args : list V) (direction : StreamDirection) :
    string + (H * option string) :=
  match lua_table (stack args direction 1) with
  | None => inl "bad argument #1 (table expected)"
  | Some table =>
      match luaL_optlstring (stack args direction 2) with
      | inl what => inl what
      | inr raw_body =>
          match buildHeadersFromTable hm_empty table with
          | inl what => inl what
          | inr headers =>
              match simple_atoi h (default "" (head (hm_get ":status" headers))) with
              | Some status =>
                  if (status <? 200) || (600 <=? status) then inl ":status must be between 200-599"
                  else
                    inr (match raw_body with
                         | Some b => setContentLength (String.length b) headers
                         | None => headers
                         end, raw_body)
              | None => inl ":status must be between 200-599"
              end
          end
      end
  end.

(** [Filter::resetInternalState] *)
Definition onReset (me : nat) (direction : StreamDirection) : prog unit :=
  do f <- filter_of me;
  match wrapper direction f with
  | Some w =>
      if http_request_ w then
        call me (httpCancel direction) ;; change_wrapper me direction (set_request false)
      else mret tt
  | None => mret tt
  end.
Definition resetInternalState (me : nat) : prog unit :=
  change me (fun f => set_flags true (error_ f) (responded f) f) ;;
  onReset me DownstreamToUpstream ;;
  onReset me UpstreamToDownstream ;;
  do f <- filter_of me;
  if 0 <? shared_table_reference_ (data_ f) then call me (unrefTable (shared_table_reference_ (data_ f))) else mret tt.
Definition onDestroy (me : nat) : prog unit := resetInternalState me.

(** The answer goes through the response path of the host before the call returns; whatever that
    does to the response direction of this filter and to others is an event of its own, since the
    script only yields after it.  The stream may be destroyed in the meantime. *)
Definition callbacks_respond (me : nat) (direction : StreamDirection) (h : Host) (headers : H)
    (body : option string) : prog (option string) :=
  match direction with
  | DownstreamToUpstream =>
      call me (encodeHeadersCb headers (match body with Some _ => false | None => true end)) ;;
      (if destroyed_by_answer h then onDestroy me else mret tt) ;;
      do f <- filter_of me;
      match body with
      | Some b => if destroyed_ f then mret None else call me (encodeDataCb b true) ;; mret None
      | None => mret None
      end
  | UpstreamToDownstream => mret (Some "respond not currently supported in the response path")
  end.

(** [Some what]: the error that is raised; [None]: the coroutine yields. *)
Definition luaRespond (me : nat) (direction : StreamDirection) (h : Host) (args : list V) : prog (option string) :=
  do w <- wrapper_of me direction;
  if headers_continued_ w then mret (Some "respond() cannot be called if headers have been continued")
  else
    match respond_arguments h args direction with
    | inl what => mret (Some what)
    | inr (headers, body) =>
        change me (fun f => set_flags (destroyed_ f) (error_ f) true f) ;;
        do r <- callbacks_respond me direction h headers body;
        match r with
        | Some what => mret (Some what)
        | None => change_wrapper me direction (set_state Responded) ;; mret None
        end
    end.

(** The checks of [luaHttpCall], in their order. *)
Definition http_arguments (h : Host) (args : list V) (direction : StreamDirection) :
    string + (string * H * option string * option Z) :=
  match luaL_checkstring (stack args direction 1) with
  | inl what => inl what
  | inr cluster =>
  match lua_table (stack args direction 2) with
  | None => inl "bad argument #2 (table expected)"
  | Some table =>
  match luaL_optlstring (stack args direction 3) with
  | inl what => inl what
  | inr body =>
  match luaL_checkint (stack args direction 4) with
  | inl what => inl what
  | inr timeout_ms =>
      if timeout_ms <? 0 then inl "http call timeout must be >= 0"
      else if negb (cluster_exists h (c_str cluster)) then inl "http call cluster invalid. Must be configured"
      else
        match buildHeadersFromTable hm_empty table with
        | inl what => inl what
        | inr headers =>
            match hm_get ":path" headers, hm_get ":method" headers, hm_get ":authority" headers with
            | _ :: _, _ :: _, _ :: _ =>
                inr (c_str cluster,
                     match body with Some b => setContentLength (String.length b) headers | None => headers end,
                     body, if 0 <? timeout_ms then Some timeout_ms else None)
            | _, _, _ => inl "http call headers must include ':path', ':method', and ':authority'"
            end
        end
  end end end end.

(** What [onSuccess] pushes, and the response [onFailure] makes up. *)
Definition pushed_response (headers : H) (body : string) : list Pushed :=
  [PTable (hm_entries headers); if String.eqb body "" then PNil else PString body].
Definition failure_headers : H := hm_addCopy ":status" "503" hm_empty.
Definition failure_body : string := "upstream failure".

(** The client may call back before [send] returns a null pointer. *)
Definition luaHttpCall (me : nat) (direction : StreamDirection) (h : Host) (args : list V) : prog (option Answer) :=
  do w <- wrapper_of me direction;
  match http_arguments h args direction with
  | inl what => mret (Some (Raised what))
  | inr (cluster, headers, body, timeout) =>
      call me (httpSend direction cluster headers body timeout) ;;
      match send_result h cluster headers body timeout with
      | SendPending =>
          change_wrapper me direction (fun w => set_state HttpCall (set_request true w)) ;; mret None
      | SendFailed =>
          change_wrapper me direction (set_request false) ;;
          mret (Some (Returned (pushed_response failure_headers failure_body)))
      | SendDone response_headers response_body =>
          change_wrapper me direction (set_request false) ;;
          mret (Some (Returned (pushed_response response_headers response_body)))
      end
  end.

(** A call on a stream's data; the host's buffers are those of that stream. *)
Definition with_buffers (f : Filter) (i : StreamInfo) : StreamInfo :=
  {| current_time := current_time i; has_log_file := has_log_file i; plugin_configuration := plugin_configuration i;
     new_reference := new_reference i; parse_query := parse_query i; upstream_host := upstream_host i;
     local_address := local_address i; remote_address := remote_address i; start_time_ms := start_time_ms i;
     route_metadata := route_metadata i; dynamic_metadata := dynamic_metadata i;
     decodingBuffer := decoding_buffer f; encodingBuffer := encoding_buffer f |}.
Definition reach (me target : nat) (h : Host) (c : FfiCall) : prog FfiAnswer :=
  do f <- filter_of target;
  do r <- lift (stream_call (with_buffers f (info h target)) c (data_ f));
  put_filter target (set_data r.1.2 f) ;;
  call me (FfiReached target r.2) ;;
  mret r.1.1.

(** Version 1 passes the context of its coroutine, version 2 uses that of the thread. *)
Definition luaFfi (me : nat) (v : Version) (h : Host) (c : FfiCall) : prog FfiAnswer :=
  match v with
  | v1 => reach me me h c
  | v2 => do w <- mget;
      match global_ctx w with
      | Some target => reach me target h c
      | None => lift (Undefined "global_ctx is null")
      end
  end.

(** ** Coroutines *)

Inductive Stop := StopReturned | StopYielded | StopErrored (what : option string).

Fixpoint run (me : nat) (direction : StreamDirection) (h : Host) (s : Script) : prog Stop :=
  match s with
  | Return => mret StopReturned
  | Raise what => mret (StopErrored what)
  | Yield => mret StopYielded
  | CallRespond args k =>
      do r <- luaRespond me direction h args;
      match r with Some what => run me direction h (k what) | None => mret StopYielded end
  | CallHttp args k =>
      do r <- luaHttpCall me direction h args;
      match r with Some a => run me direction h (k a) | None => mret StopYielded end
  | CallBody d k =>
      do r <- luaBody me d;
      match r with Some a => run me direction h (k a) | None => mret StopYielded end
  | CallFfi v c k => do a <- luaFfi me v h c; run me direction h (k a)
  end.

(** [lua_resume] and what [Coroutine::resume] makes of its result.  [start_function]: a function has
    been pushed, with [None] only arguments. *)
Definition resume (me : nat) (direction : StreamDirection) (h : Host) (start_function : option nat)
    (arguments : list Pushed) : prog unit :=
  do w <- wrapper_of me direction;
  do stop <- match thread_ w, start_function with
             | Dead, _ => mret (StopErrored (Some "cannot resume dead coroutine"))
             | Suspended, Some _ => run me direction h (on_resume h [])
             | Suspended, None => run me direction h (on_resume h arguments)
             | Startable, Some ref => run me direction h (on_start h ref)
             | Startable, None => lift (Undefined "there is nothing to resume")
             end;
  match stop with
  | StopReturned => change_wrapper me direction (set_coroutine Finished Startable)
  | StopYielded =>
      change_wrapper me direction (set_coroutine Yielded Suspended) ;;
      do w <- wrapper_of me direction;
      if decide (state_ w = Running) then lift (Throw "Lua code performed an unexpected yield") else mret tt
  | StopErrored what =>
      change_wrapper me direction (set_coroutine Finished Dead) ;;
      lift (Throw (match what with
                   | Some what => "runtime error: " +:+ what
                   | None => "runtime error"
                   end))
  end.
Definition coroutine_start (me : nat) (direction : StreamDirection) (h : Host) (function_ref : nat) : prog unit :=
  if is_function h function_ref then
    change_wrapper me direction (fun w => set_coroutine Yielded (thread_ w) w) ;;
    resume me direction h (Some function_ref) []
  else lift (Throw "error start coroutine, expect lua function").

Definition scriptError (me : nat) (what : string) : prog unit :=
  change me (fun f => set_flags (destroyed_ f) true (responded f) f) ;;
  call me (errorLog what).

(** ** The stream wrapper *)

Definition stops_headers (s : State) : bool :=
  match s with WaitForBody | HttpCall | Responded => true | _ => false end.

(** [StreamWrapper::start] of version 1. *)
Definition start (me : nat) (direction : StreamDirection) (h : Host) (function_ref : nat) : prog FilterHeadersStatus :=
  coroutine_start me direction h function_ref ;;
  do w <- wrapper_of me direction;
  if stops_headers (state_ w) then mret StopIteration
  else change_wrapper me direction set_continued ;; mret Http.Continue.

Definition startBody (me : nat) (direction : StreamDirection) (h : Host) (function_ref : nat) : prog unit :=
  set_global_ctx me ;; coroutine_start me direction h function_ref.

(** [StreamWrapper::start] of version 2. *)
Definition start_v2 (me : nat) (direction : StreamDirection) (h : Host) (function_ref : nat)
    (function_ref_body : option nat) : prog FilterHeadersStatus :=
  set_global_ctx me ;;
  coroutine_start me direction h function_ref ;;
  do w <- wrapper_of me direction;
  match state_ w with
  | HttpCall =>
      match function_ref_body with
      | Some _ =>
          if end_stream_ w then
            change_wrapper me direction (set_start_body true function_ref_body) ;; mret StopAllIterationAndBuffer
          else mret StopAllIterationAndBuffer
      | None => mret StopAllIterationAndBuffer
      end
  | Responded => mret StopIteration
  | _ =>
      if end_stream_ w then
        match function_ref_body with
        | None => mret Http.Continue
        | Some ref =>
            mcatch (startBody me direction h ref) (scriptError me) ;;
            do w <- wrapper_of me direction;
            mret (match state_ w with HttpCall | Responded => StopIteration | _ => Http.Continue end)
        end
      else mret StopIteration
  end.

(** [StreamWrapper::onData]: the status, and what is left of the data. *)
Definition onData (me : nat) (direction : StreamDirection) (h : Host) (data : string) (end_stream : bool) :
    prog (DataStatus * string) :=
  change_wrapper me direction (set_seen end_stream) ;;
  do w <- wrapper_of me direction;
  do data <-
    (if bool_decide (state_ w = WaitForBody) && end_stream_ w then
       call me (addData direction data) ;;
       change me (fun f => set_buffer direction (Some (default "" (buffer direction f) +:+ data)) f) ;;
       change_wrapper me direction (set_state Running) ;;
       do a <- luaBody me direction;
       match a with
       | Some (Returned l) => resume me direction h None l ;; mret ""
       | Some (Raised what) => lift (Undefined "an error is raised outside of a script")
       | None => lift (Undefined "a yield outside of a script")
       end
     else mret data);
  do w <- wrapper_of me direction;
  match state_ w with
  | HttpCall | WaitForBody => mret (StopIterationAndBuffer, data)
  | Responded => mret (StopIterationNoBuffer, data)
  | _ => change_wrapper me direction set_continued ;; mret (Continue, data)
  end.

Definition onData_v2 (me : nat) (direction : StreamDirection) (h : Host) (function_ref : nat) (data : string)
    (end_stream : bool) : prog (DataStatus * string) :=
  change_wrapper me direction (set_seen end_stream) ;;
  do w <- wrapper_of me direction;
  do data <-
    (if end_stream_ w && bool_decide (state_ w = Running) then
       call me (addData direction data) ;;
       change me (fun f => set_buffer direction (Some (default "" (buffer direction f) +:+ data)) f) ;;
       mcatch (startBody me direction h function_ref) (scriptError me) ;;
       mret ""
     else mret data);
  do w <- wrapper_of me direction;
  match state_ w with
  | HttpCall => mret (StopIterationAndBuffer, data)
  | Responded => mret (StopIterationNoBuffer, data)
  | _ => if negb (end_stream_ w) then mret (StopIterationAndBuffer, data) else mret (Continue, data)
  end.

(** The end of [onSuccess]: a script that has come to its end lets the message go on, if need be after
    the body function. *)
Definition continue_after_call (me : nat) (direction : StreamDirection) (h : Host) : prog unit :=
  do w <- wrapper_of me direction;
  if decide (state_ w = Running) then
    match start_body_ w, function_ref_body_ w with
    | true, Some ref =>
        change_wrapper me direction (set_start_body false (Some ref)) ;;
        mcatch (startBody me direction h ref) (scriptError me) ;;
        do w <- wrapper_of me direction;
        if decide (state_ w = Running) then call me (continueIteration direction) else mret tt
    | true, None => lift (Undefined "function_ref_body_ is not set")
    | false, _ => call me (continueIteration direction)
    end
  else mret tt.

(** [StreamWrapper::onSuccess]: only a script that waits for the call is resumed. *)
Definition onSuccess (me : nat) (direction : StreamDirection) (h : Host) (headers : H) (body : string) : prog unit :=
  change_wrapper me direction (set_request false) ;;
  do w <- wrapper_of me direction;
  if decide (state_ w = HttpCall) then
    change_wrapper me direction (set_state Running) ;;
    mcatch (set_global_ctx me ;; resume me direction h None (pushed_response headers body))
      (fun what => scriptError me what ;; change_wrapper me direction (set_state Running)) ;;
    continue_after_call me direction h
  else mret tt.

Definition onFailure (me : nat) (direction : StreamDirection) (h : Host) : prog unit :=
  onSuccess me direction h failure_headers failure_body.

(** ** The filter *)

(** The configuration of the plugin on the route, if it has one; otherwise the old one stays. *)
Fixpoint lookupPerFilterConfig (name : string) (config : option RoutePluginConfig) (plugins : list RoutePluginConfig) :
    option RoutePluginConfig :=
  match plugins with
  | [] => config
  | it :: rest => if String.eqb name (name_ it) then Some it else lookupPerFilterConfig name config rest
  end.

(** A route with a route entry, and its plugins where its configuration is one of this filter. *)
Record Route := { route_plugins : option (list RoutePluginConfig) }.

Section handlers.
(** Every filter of the thread with its configuration. *)
Context (config_ : nat -> Config).

Definition new_wrapper (me : nat) (direction : StreamDirection) (end_stream : bool) : prog unit :=
  change me (set_wrapper direction (Some (new_StreamWrapper end_stream))).

Definition doHeaders (me : nat) (direction : StreamDirection) (h : Host) (function_ref : option nat) (end_stream : bool) :
    prog FilterHeadersStatus :=
  do f <- filter_of me;
  match error_ f, function_ref with
  | true, _ | _, None => mret Http.Continue
  | false, Some ref =>
      new_wrapper me direction end_stream ;;
      mcatch (start me direction h ref) (fun what => scriptError me what ;; mret Http.Continue)
  end.

Definition doHeaders_v2 (me : nat) (direction : StreamDirection) (h : Host) (function_ref function_ref_body : option nat)
    (end_stream : bool) : prog FilterHeadersStatus :=
  do f <- filter_of me;
  match function_ref with
  | None =>
      if responded f then
        change me (fun f => set_flags (destroyed_ f) (error_ f) false f) ;; mret StopIteration
      else mret Http.Continue
  | Some ref =>
      if error_ f then mret Http.Continue
      else
        new_wrapper me direction end_stream ;;
        mcatch (start_v2 me direction h ref function_ref_body) (fun what => scriptError me what ;; mret Http.Continue)
  end.

Definition handle (me : nat) : PluginHandle := pluginHandle (config_ me).

Definition doDirection (me : nat) (direction : StreamDirection) (h : Host) (end_stream : bool) : prog FilterHeadersStatus :=
  let p := handle me in
  match version p, direction with
  | v1, DownstreamToUpstream => doHeaders me direction h (onRequestRef p) end_stream
  | v1, UpstreamToDownstream => doHeaders me direction h (onResponseRef p) end_stream
  | v2, DownstreamToUpstream => doHeaders_v2 me direction h (onRequestHeaderRef p) (onRequestBodyRef p) end_stream
  | v2, UpstreamToDownstream => doHeaders_v2 me direction h (onResponseHeaderRef p) (onResponseBodyRef p) end_stream
  end.

Definition decodeHeaders (me : nat) (h : Host) (route : option Route) (headers : H) (end_stream : bool) :
    prog FilterHeadersStatus :=
  let go :=
    change me (fun f => set_data (set_request_headers (Some headers) (data_ f)) f) ;;
    doDirection me DownstreamToUpstream h end_stream in
  match route with
  | None => if allowNoRoute (config_ me) then go else mret Http.Continue
  | Some r =>
      change me (fun f =>
        let d := data_ f in
        let c := lookupPerFilterConfig (pluginName (config_ me)) (route_config_ d) (default [] (route_plugins r)) in
        set_data {| route_config_ := c; request_headers_ := request_headers_ d; response_headers_ := response_headers_ d;
                    shared_table_reference_ := shared_table_reference_ d |} f) ;;
      go
  end.

Definition encodeHeaders (me : nat) (h : Host) (headers : H) (end_stream : bool) : prog FilterHeadersStatus :=
  do f <- filter_of me;
  if negb (allowNoRoute (config_ me)) && bool_decide (route_config_ (data_ f) = None) then mret Http.Continue
  else
    change me (fun f => set_data (set_response_headers (Some headers) (data_ f)) f) ;;
    doDirection me UpstreamToDownstream h end_stream.

(** [decodeData] and [encodeData] *)
Definition onStreamData (me : nat) (direction : StreamDirection) (h : Host) (data : string) (end_stream : bool) :
    prog (DataStatus * string) :=
  do f <- filter_of me;
  let p := handle me in
  match version p with
  | v1 =>
      match error_ f, wrapper direction f with
      | true, _ | _, None => mret (Continue, data)
      | false, Some _ =>
          mcatch (onData me direction h data end_stream)
            (fun what =>
               change me (fun f => set_flags (destroyed_ f) true (responded f) f) ;;
               call me (errorLog what) ;; mret (Continue, ""))
      end
  | v2 =>
      match error_ f, match direction with DownstreamToUpstream => onRequestBodyRef p | _ => onResponseBodyRef p end with
      | true, _ | _, None => mret (Continue, data)
      | false, Some ref =>
          match wrapper direction f with
          | None => new_wrapper me direction end_stream
          | Some _ => mret tt
          end ;;
          onData_v2 me direction h ref data end_stream
      end
  end.
Definition decodeData (me : nat) : Host -> string -> bool -> prog (DataStatus * string) :=
  onStreamData me DownstreamToUpstream.
Definition encodeData (me : nat) : Host -> string -> bool -> prog (DataStatus * string) :=
  onStreamData me UpstreamToDownstream.

(** The trailers: the filter inherits the handlers of [PassThroughFilter], which let
    them through whatever the script is doing; the host passes on with them all that it
    has kept. *)
Definition passThroughTrailers : prog (DataStatus * string) := mret (Continue, "").

(** ** A thread with its streams *)

Inductive Event :=
| Create (id : nat)
| RequestHeaders (id : nat) (route : option Route) (headers : H) (end_stream : bool)
| RequestData (id : nat) (data : string) (end_stream : bool)
| RequestTrailers (id : nat)
| ResponseHeaders (id : nat) (headers : H) (end_stream : bool)
| ResponseData (id : nat) (data : string) (end_stream : bool)
| ResponseTrailers (id : nat)
| CallSucceeded (id : nat) (direction : StreamDirection) (headers : H) (body : string)
| CallFailed (id : nat) (direction : StreamDirection)
| Destroy (id : nat).

Definition id_of (e : Event) : nat :=
  match e with
  | Create id | RequestHeaders id _ _ _ | RequestData id _ _ | RequestTrailers id | ResponseHeaders id _ _
  | ResponseData id _ _ | ResponseTrailers id | CallSucceeded id _ _ _ | CallFailed id _ | Destroy id => id
  end.

(** What the host does with data after the filter: it keeps it, or passes it on with what it kept. *)
Definition keep_data (me : nat) (direction : StreamDirection) (r : DataStatus * string) : prog unit :=
  match r.1 with
  | Continue => change me (set_buffer direction None)
  | StopIterationAndBuffer =>
      change me (fun f => set_buffer direction (Some (default "" (buffer direction f) +:+ r.2)) f)
  | StopIterationNoBuffer => mret tt
  end.

(** The direction that passes on by the status returned. *)
Definition handle_event (e : Event) (h : Host) : prog (option StreamDirection) :=
  let headers_status direction (s : FilterHeadersStatus) :=
    match s with Http.Continue => Some direction | _ => None end in
  let data_status direction (r : DataStatus * string) :=
    match r.1 with Continue => Some direction | _ => None end in
  match e with
  | Create id => put_filter id new_Filter ;; set_global_ctx id ;; mret None
  | RequestHeaders id route headers end_stream =>
      do s <- decodeHeaders id h route headers end_stream; mret (headers_status DownstreamToUpstream s)
  | RequestData id data end_stream =>
      do r <- decodeData id h data end_stream;
      keep_data id DownstreamToUpstream r ;; mret (data_status DownstreamToUpstream r)
  | RequestTrailers id =>
      do r <- passThroughTrailers;
      keep_data id DownstreamToUpstream r ;; mret (data_status DownstreamToUpstream r)
  | ResponseHeaders id headers end_stream =>
      do s <- encodeHeaders id h headers end_stream; mret (headers_status UpstreamToDownstream s)
  | ResponseData id data end_stream =>
      do r <- encodeData id h data end_stream;
      keep_data id UpstreamToDownstream r ;; mret (data_status UpstreamToDownstream r)
  | ResponseTrailers id =>
      do r <- passThroughTrailers;
      keep_data id UpstreamToDownstream r ;; mret (data_status UpstreamToDownstream r)
  | CallSucceeded id direction headers body => onSuccess id direction h headers body ;; mret None
  | CallFailed id direction => onFailure id direction h ;; mret None
  | Destroy id => onDestroy id ;; mret None
  end.

(** How far the request of a stream is: its headers have come, all of it has come, it had trailers,
    its headers have passed the filter, and how often a script has answered it. *)
Record Progress := { started : bool; ended : bool; trailers : bool; passed : bool; answered : nat }.
Definition fresh : Progress :=
  {| started := false; ended := false; trailers := false; passed := false; answered := 0 |}.

Definition is_answer (c : nat * HostCall) : bool := match c.2 with encodeHeadersCb _ _ => true | _ => false end.
Definition is_continue (c : nat * HostCall) : bool :=
  match c.2 with continueIteration DownstreamToUpstream => true | _ => false end.
Definition answers (cs : list (nat * HostCall)) : nat := length (filter is_answer cs).

Definition advance (e : Event) (reply : option StreamDirection) (cs : list (nat * HostCall)) (p : Progress) : Progress :=
  {| started := started p || match e with RequestHeaders _ _ _ _ => true | _ => false end;
     ended := ended p ||
       match e with RequestHeaders _ _ _ b | RequestData _ _ b => b | RequestTrailers _ => true | _ => false end;
     trailers := trailers p || match e with RequestTrailers _ => true | _ => false end;
     passed := passed p || bool_decide (reply = Some DownstreamToUpstream) || existsb is_continue cs;
     answered := answered p + answers cs |}.

Record System := { world : World; progress : gmap nat Progress }.
Definition empty_system : System := {| world := {| filters := ∅; global_ctx := None |}; progress := ∅ |}.

(** What the host does: it delivers a request in order and not after an answer, a response after the
    request has passed or has been answered, and the results of calls that are pending; nothing comes
    for a stream that is destroyed. *)
Definition allowed (s : System) (e : Event) : bool :=
  match filters (world s) !! id_of e, progress s !! id_of e with
  | Some f, Some p =>
      negb (destroyed_ f) &&
      match e with
      | Create _ => false
      | RequestHeaders _ _ _ _ => negb (started p)
      | RequestData _ _ _ | RequestTrailers _ => started p && negb (ended p) && (answered p =? 0)%nat
      | ResponseHeaders _ _ _ | ResponseData _ _ _ | ResponseTrailers _ => started p && (passed p || negb (answered p =? 0)%nat)
      | CallSucceeded _ direction _ _ | CallFailed _ direction =>
          match wrapper direction f with Some w => http_request_ w | None => false end
      | Destroy _ => true
      end
  | _, _ => match e with Create id => bool_decide (filters (world s) !! id = None) | _ => false end
  end.

(** One event; one that is not allowed does not happen. *)
Definition step (s : System) (e : Event) (h : Host) : outcome (System * list (nat * HostCall)) :=
  if allowed s e then
    let '(w, cs, r) := handle_event e h (world s) in
    let* reply := r in
    let p := advance e reply cs (default fresh (progress s !! id_of e)) in
    Ok ({| world := w; progress := <[id_of e := p]> (progress s) |}, cs)
  else Ok (s, []).

Fixpoint steps (s : System) (es : list (Event * Host)) : outcome (System * list (nat * HostCall)) :=
  match es with
  | [] => Ok (s, [])
  | (e, h) :: es' =>
      let* r := step s e h in
      let* r' := steps r.1 es' in Ok (r'.1, r.2 ++ r'.2)
  end.

(** Scripts that ask for the body of their own direction only, and do not use the functions of
    version 2 in a plugin of version 1. *)
Fixpoint proper (v : Version) (direction : StreamDirection) (s : Script) : Prop :=
  match s with
  | Return | Raise _ | Yield => True
  | CallRespond _ k => forall what, proper v direction (k what)
  | CallHttp _ k => forall a, proper v direction (k a)
  | CallBody d k => d = direction /\ forall a, proper v direction (k a)
  | CallFfi v' _ k => (v = v1 -> v' = v1) /\ forall a, proper v direction (k a)
  end.
Definition proper_host (v : Version) (direction : StreamDirection) (h : Host) : Prop :=
  (forall ref, proper v direction (on_start h ref)) /\ (forall l, proper v direction (on_resume h l)).

Definition direction_of (e : Event) : StreamDirection :=
  match e with
  | ResponseHeaders _ _ _ | ResponseData _ _ _ | ResponseTrailers _ => UpstreamToDownstream
  | CallSucceeded _ d _ _ | CallFailed _ d => d
  | _ => DownstreamToUpstream
  end.
Definition proper_event (e : Event * Host) : Prop :=
  proper_host (version (handle (id_of e.1))) (direction_of e.1) e.2.
End handlers.
End filter.
End Rider.
