(* ===== verification/RiderProofs.v ===== *)
(** * Lua scripts and their streams: what they can and cannot do to a request

    For every operation of the filter (RiderFilter.v) a rule tells where it leaves the wrapper of a
    direction and which calls it makes; from them an invariant of every reachable state of a thread
    follows, and the properties of the filter from the invariant. *)

From S2P Require Import Prelude Decimal Json Http TrafficMark MetadataHub RiderContext.
From stdpp Require Import base gmap strings numbers list.
From S2P Require Import Effects RiderFilter.
#[local] Open Scope Z_scope.
#[local] Open Scope proxy_scope.

Import Context Rider.

Section filter.
Context {H V : Type} `{!HeaderMap H, !LuaValues V}.
#[local] Abbreviation Filter := (@Filter H).
#[local] Abbreviation World := (@World H).
#[local] Abbreviation HostCall := (@HostCall H).
#[local] Abbreviation Host := (@Host H V).
#[local] Abbreviation Event := (@Event H).
#[local] Abbreviation prog := (M World (nat * HostCall)).
Context (config_ : nat -> Config).
Implicit Types (h : Host) (args : list V) (e cs : list (nat * HostCall)) (w : World) (f : Filter).

(** ** Running a script *)

Definition put (me : nat) (f : Filter) (w : World) : World :=
  {| filters := <[me := f]> (filters w); global_ctx := global_ctx w |}.
Definition opposite (direction : StreamDirection) : StreamDirection :=
  match direction with DownstreamToUpstream => UpstreamToDownstream | _ => DownstreamToUpstream end.

(** All of a filter but the data its script works on. *)
Definition control (f : Filter) :=
  (request_stream_wrapper_ f, response_stream_wrapper_ f, destroyed_ f, error_ f, responded f).

Definition own (c : nat * HostCall) : Prop := match c.2 with FfiReached target _ => target = c.1 | _ => True end.
Definition continued (cs : list (nat * HostCall)) : bool := existsb is_continue cs.

(** Work of filter [me] on one direction leaves the other direction and the other filters alone. *)
Record moved (me : nat) (d : StreamDirection) (w : World) (f : Filter) (w' : World) (f' : Filter)
    (e : list (nat * HostCall)) : Prop := {
  mv_at : filters w' !! me = Some f';
  mv_destroyed : destroyed_ f = true -> destroyed_ f' = true;
  mv_other : destroyed_ f' = false -> wrapper (opposite d) f' = wrapper (opposite d) f;
  mv_else : forall i, i ≠ me -> control <$> filters w' !! i = control <$> filters w !! i;
  mv_ctx : global_ctx w = Some me -> global_ctx w' = Some me;
  mv_own : Forall (fun c => c.1 = me /\ own c) e;
}.

Lemma moved_refl me d w f : filters w !! me = Some f -> moved me d w f w f [].
Proof. by split. Qed.

Lemma moved_trans me d w1 f1 w2 f2 w3 f3 e1 e2 :
  moved me d w1 f1 w2 f2 e1 -> moved me d w2 f2 w3 f3 e2 -> moved me d w1 f1 w3 f3 (e1 ++ e2).
Proof.
  intros [A1 D1 O1 E1 C1 W1] [A2 D2 O2 E2 C2 W2]. split; auto.
  - intros H3. rewrite O2 by done. apply O1. destruct (destroyed_ f2) eqn:E; [|done]. rewrite D2 in H3; done.
  - intros i Hi. by rewrite E2, E1.
  - by apply Forall_app.
Qed.

Lemma moved_put me d w f f' e :
  (destroyed_ f = true -> destroyed_ f' = true) ->
  (destroyed_ f' = false -> wrapper (opposite d) f' = wrapper (opposite d) f) ->
  Forall (fun c => c.1 = me /\ own c) e -> moved me d w f (put me f' w) f' e.
Proof.
  intros Hd Ho He. split; cbn; auto; [apply lookup_insert_eq|]. intros i Hi. by rewrite lookup_insert_ne.
Qed.

Lemma moved_calls me d w f e :
  filters w !! me = Some f -> Forall (fun c => c.1 = me /\ own c) e -> moved me d w f w f e.
Proof. intros Hf He. by split. Qed.

(** Where a script leaves its wrapper, with the answers it has given. *)
Inductive rests (d : StreamDirection) (end_stream : bool) : State -> bool -> nat -> Prop :=
| rests_running : rests d end_stream Running false 0
| rests_body : end_stream = false -> rests d end_stream WaitForBody false 0
| rests_http : rests d end_stream HttpCall true 0
| rests_responded : d = DownstreamToUpstream -> rests d end_stream Responded false 1.

(** [worked]: the direction [d] of [me] went from wrapper [wr] to [wr'], making the calls [e]. *)
Record worked (me : nat) (d : StreamDirection) (w : World) (f : Filter) (wr : StreamWrapper)
    (w' : World) (wr' : StreamWrapper) (e : list (nat * HostCall)) : Prop := {
  wk_moved : exists f', moved me d w f w' f' e /\ wrapper d f' = Some wr';
  wk_end : end_stream_ wr' = end_stream_ wr;
  wk_rests : rests d (end_stream_ wr) (state_ wr') (http_request_ wr') (answers e);
  wk_calm : continued e = false;
}.

Definition idle (wr : StreamWrapper) : Prop := state_ wr = Running /\ http_request_ wr = false.

Lemma answers_app e1 e2 : answers (e1 ++ e2) = (answers e1 + answers e2)%nat.
Proof. unfold answers. by rewrite filter_app, length_app. Qed.
Lemma continued_app e1 e2 : continued (e1 ++ e2) = continued e1 || continued e2.
Proof. apply existsb_app. Qed.

Lemma worked_idle me d w f wr : filters w !! me = Some f -> wrapper d f = Some wr -> idle wr -> worked me d w f wr w wr [].
Proof.
  intros Hf Hw [Hs Hh]. split; [|done| |done].
  - exists f. split; [by apply moved_refl|done].
  - rewrite Hs, Hh. apply rests_running.
Qed.

(** First calls without an answer, then the rest. *)
Lemma worked_after me d w f wr w1 f1 wr1 e1 w2 wr2 e2 :
  moved me d w f w1 f1 e1 -> answers e1 = 0%nat -> continued e1 = false -> end_stream_ wr1 = end_stream_ wr ->
  worked me d w1 f1 wr1 w2 wr2 e2 -> worked me d w f wr w2 wr2 (e1 ++ e2).
Proof.
  intros Hm Ha Hc He [(f2 & Hm2 & Hw2) He2 Hr2 Hc2]. split.
  - exists f2. split; [by eapply moved_trans|done].
  - congruence.
  - rewrite answers_app, Ha. cbn. by rewrite <- He.
  - by rewrite continued_app, Hc.
Qed.

(** Rules for the primitive programs. *)
Lemma wp_filter_of me w f Q : filters w !! me = Some f -> Q w [] (inl f) -> wp (filter_of me) w Q.
Proof. unfold wp, filter_of. by intros ->. Qed.
Lemma wp_wrapper_of me d w f wr Q :
  filters w !! me = Some f -> wrapper d f = Some wr -> Q w [] (inl wr) -> wp (wrapper_of me d) w Q.
Proof. intros Hf Hw HQ. apply wp_let. eapply wp_filter_of; [done|]. rewrite Hw. by apply wp_ret. Qed.
Lemma wp_change me g w f Q : filters w !! me = Some f -> Q (put me (g f) w) [] (inl tt) -> wp (change me g) w Q.
Proof. intros Hf HQ. apply wp_let. eapply wp_filter_of; [done|]. by apply wp_modify. Qed.
Lemma wp_change_wrapper me d g w f wr Q :
  filters w !! me = Some f -> wrapper d f = Some wr ->
  Q (put me (set_wrapper d (Some (g wr)) f) w) [] (inl tt) -> wp (change_wrapper me d g) w Q.
Proof. intros Hf Hw HQ. apply wp_let. eapply wp_wrapper_of; [done..|]. by eapply wp_change. Qed.
Lemma wp_call me c w Q : Q w [(me, c)] (inl tt) -> wp (call me c) w Q.
Proof. apply wp_emit. Qed.

Lemma wrapper_set d o f : wrapper d (set_wrapper d o f) = o.
Proof. by destruct d. Qed.
Lemma wrapper_set_opposite d o f : wrapper (opposite d) (set_wrapper d o f) = wrapper (opposite d) f.
Proof. by destruct d. Qed.
Lemma put_at me f w : filters (put me f w) !! me = Some f.
Proof. apply lookup_insert_eq. Qed.

Lemma moved_wrapper me d w f o e :
  Forall (fun c => c.1 = me /\ own c) e -> moved me d w f (put me (set_wrapper d o f) w) (set_wrapper d o f) e.
Proof. intros He. apply moved_put; [by destruct d|by rewrite wrapper_set_opposite|done]. Qed.

(** Calls without an answer or a resumption. *)
Definition silent (me : nat) (e : list (nat * HostCall)) : Prop :=
  Forall (fun c => c.1 = me /\ own c) e /\ answers e = 0%nat /\ continued e = false.

Lemma silent_nil me : silent me [].
Proof. by split. Qed.
Lemma silent_app me e1 e2 : silent me e1 -> silent me e2 -> silent me (e1 ++ e2).
Proof.
  intros (H1 & A1 & C1) (H2 & A2 & C2). split_and!; [by apply Forall_app|rewrite answers_app; lia|].
  by rewrite continued_app, C1.
Qed.
Lemma silent_one me c : own (me, c) -> is_answer (me, c) = false -> is_continue (me, c) = false -> silent me [(me, c)].
Proof.
  intros Ho Ha Hc. split_and!; [by repeat constructor| |by cbn; rewrite Hc].
  unfold answers. rewrite filter_cons, Ha. by rewrite decide_False by (intros []).
Qed.

(** Cancelling the calls that wait touches only their marks. *)
Definition marks (f f' : Filter) : Prop :=
  destroyed_ f' = destroyed_ f /\
  forall d, wrapper d f' = wrapper d f \/
    exists wr, wrapper d f = Some wr /\ http_request_ wr = true /\ wrapper d f' = Some (set_request false wr).

Lemma onReset_wp me d w f :
  filters w !! me = Some f ->
  wp (onReset me d) w (fun w' e r => r = inl tt /\ silent me e /\ global_ctx w' = global_ctx w /\
    (forall i, i ≠ me -> filters w' !! i = filters w !! i) /\
    exists f', filters w' !! me = Some f' /\ marks f f').
Proof.
  intros Hf. apply wp_let. eapply wp_filter_of; [done|].
  assert (Hstay : forall e, silent me e -> @inl unit string tt = inl tt /\ silent me e /\ global_ctx w = global_ctx w /\
    (forall i, i ≠ me -> filters w !! i = filters w !! i) /\ exists f', filters w !! me = Some f' /\ marks f f').
  { intros e He. split_and!; [done..|]. exists f. split; [done|]. split; auto. }
  destruct (wrapper d f) as [wr|] eqn:E; [|apply wp_ret, Hstay, silent_nil].
  destruct (http_request_ wr) eqn:Eh; [|apply wp_ret, Hstay, silent_nil].
  apply wp_let. apply wp_call. eapply wp_change_wrapper; [done..|]. cbn. split_and!; [done| |done| |].
  - by apply silent_one.
  - intros i Hi. by rewrite lookup_insert_ne.
  - eexists. split; [apply lookup_insert_eq|]. split; [by destruct d|]. intros d'.
    destruct d, d'; cbn in *; eauto 6.
Qed.

Lemma onDestroy_wp me d w f :
  filters w !! me = Some f ->
  wp (onDestroy me) w (fun w' e r => r = inl tt /\ silent me e /\ exists f', moved me d w f w' f' e /\
    destroyed_ f' = true /\ forall wr, wrapper d f = Some wr -> http_request_ wr = false -> wrapper d f' = Some wr).
Proof.
  intros Hf. unfold onDestroy, resetInternalState. apply wp_let. eapply wp_change; [done|].
  apply wp_let. eapply wp_mono; [eapply onReset_wp, put_at|].
  intros w1 e1 r (-> & S1 & C1 & E1 & f1 & F1 & D1 & M1). apply wp_let. eapply wp_mono; [by eapply onReset_wp|].
  intros w2 e2 r (-> & S2 & C2 & E2 & f2 & F2 & D2 & M2). apply wp_let. eapply wp_filter_of; [done|].
  assert (Hd : destroyed_ f2 = true) by by rewrite D2, D1.
  assert (Hw2 : forall wr, wrapper d f = Some wr -> http_request_ wr = false -> wrapper d f2 = Some wr).
  { intros wr Hw Hh. assert (Hw1 : wrapper d f1 = Some wr).
    { destruct (M1 d) as [->|(wr' & Hwr & Ht & _)]; [by destruct d|]. assert (wrapper d f = Some wr') by by destruct d. congruence. }
    destruct (M2 d) as [->|(wr' & Hwr & Ht & _)]; [done|congruence]. }
  assert (Hgo : forall e3, silent me e3 -> @inl unit string tt = inl tt /\ silent me ([] ++ e1 ++ e2 ++ [] ++ e3) /\
      exists f', moved me d w f w2 f' ([] ++ e1 ++ e2 ++ [] ++ e3) /\ destroyed_ f' = true /\
        forall wr, wrapper d f = Some wr -> http_request_ wr = false -> wrapper d f' = Some wr).
  { intros e3 S3. pose proof (silent_app _ _ _ S1 (silent_app _ _ _ S2 S3)) as S. split_and!; [done|done|].
    exists f2. split_and!; [|done|done]. split; cbn; [done|done|by rewrite Hd| | |apply S].
    - intros i Hi. rewrite E2, E1 by done. cbn. by rewrite lookup_insert_ne.
    - intros Hc. by rewrite C2, C1. }
  case_match; [apply wp_call|apply wp_ret]; apply Hgo; [by apply silent_one|apply silent_nil].
Qed.

(** ** The calls of a script *)

Lemma luaBody_wp me d w f wr :
  filters w !! me = Some f -> wrapper d f = Some wr -> idle wr ->
  wp (luaBody me d) w (fun w' e r =>
    match r with
    | inl (Some a) => w' = w /\ e = []
    | inl None => exists wr', worked me d w f wr w' wr' e
    | inr _ => False
    end).
Proof.
  intros Hf Hw [Hs Hh]. apply wp_let. eapply wp_filter_of; [done|]. apply wp_let. eapply wp_wrapper_of; [done..|].
  destruct (end_stream_ wr) eqn:Ee.
  { destruct (negb (buffered_body_ wr) && saw_body_ wr); [by apply wp_ret|]. destruct (buffer d f); by apply wp_ret. }
  destruct (saw_body_ wr); [by apply wp_ret|]. apply wp_let. eapply wp_change_wrapper; [done..|]. apply wp_ret. cbn.
  exists (set_buffered true (set_state WaitForBody wr)). split; cbn; [|done| |done].
  - eexists. split; [by apply moved_wrapper|apply wrapper_set].
  - rewrite Hh. by apply rests_body.
Qed.

Lemma moved_set me d w f w2 f2 o e :
  moved me d w f w2 f2 e -> moved me d w f (put me (set_wrapper d o f2) w2) (set_wrapper d o f2) e.
Proof.
  intros Hm. rewrite <- (app_nil_r e). eapply moved_trans; [done|]. by apply moved_wrapper.
Qed.

Lemma moved_with me d w f w' f' e e' :
  moved me d w f w' f' e -> Forall (fun c => c.1 = me /\ own c) e' -> moved me d w f w' f' e'.
Proof. intros [? ? ? ? ? _] ?. by split. Qed.

Lemma answered_worked me w f wr w2 f2 e :
  moved me DownstreamToUpstream w f w2 f2 e -> wrapper DownstreamToUpstream f2 = Some wr ->
  http_request_ wr = false -> answers e = 1%nat -> continued e = false ->
  worked me DownstreamToUpstream w f wr
    (put me (set_wrapper DownstreamToUpstream (Some (set_state Responded wr)) f2) w2) (set_state Responded wr) e.
Proof.
  intros Hm Hw Hh Ha Hc. split; [|done| |done].
  - eexists. split; [by apply moved_set|done].
  - cbn. rewrite Hh, Ha. by apply rests_responded.
Qed.

(** A program that is done between silent calls. *)
Definition answering (me : nat) (w : World) (f : Filter) (wr : StreamWrapper) (w' : World) (e : list (nat * HostCall)) : Prop :=
  exists f', moved me DownstreamToUpstream w f w' f' e /\ wrapper DownstreamToUpstream f' = Some wr /\
    answers e = 1%nat /\ continued e = false.

Lemma answering_more me w f wr w' e e' :
  answering me w f wr w' e -> silent me e' -> answering me w f wr w' (e ++ e').
Proof.
  intros (f' & Hm & Hw & Ha & Hc) (F' & A' & C'). exists f'. split_and!; [|done| |].
  - eapply moved_with; [done|]. apply Forall_app. split; [by destruct Hm|done].
  - rewrite answers_app. lia.
  - by rewrite continued_app, Hc.
Qed.

Lemma callbacks_respond_wp me d h headers body w f wr :
  filters w !! me = Some f -> wrapper d f = Some wr -> http_request_ wr = false ->
  wp (callbacks_respond me d h headers body) w (fun w' e r =>
    match r with
    | inl (Some _) => w' = w /\ e = []
    | inl None => d = DownstreamToUpstream /\ answering me w f wr w' e
    | inr _ => False
    end).
Proof.
  intros Hf Hw Hh. destruct d; cbn [callbacks_respond]; [|by apply wp_ret].
  set (headers_call := encodeHeadersCb _ _). apply wp_let. apply wp_call. apply wp_let.
  eapply wp_mono with (Q := fun w' e r => r = inl tt /\ answering me w f wr w' ([(me, headers_call)] ++ e)).
  { assert (Hstart : forall w' f' e, moved me DownstreamToUpstream w f w' f' e -> silent me e ->
      wrapper DownstreamToUpstream f' = Some wr -> answering me w f wr w' ([(me, headers_call)] ++ e)).
    { intros w' f' e Hm (F & A & C) Hw'. exists f'. split_and!; [|done| |by rewrite continued_app, C].
      - eapply moved_with; [done|]. by constructor.
      - rewrite answers_app, A. unfold answers. by rewrite filter_cons, decide_True. }
    destruct (destroyed_by_answer h).
    - eapply wp_mono; [by eapply (onDestroy_wp me DownstreamToUpstream)|]. intros ??? (-> & ? & f' & ? & _ & ?). eauto.
    - apply wp_ret. split; [done|]. eapply Hstart; [by apply moved_refl|apply silent_nil|done]. }
  intros w2 e2 r (-> & Hans). pose proof Hans as (f2 & M2 & _). apply wp_let. eapply wp_filter_of; [by destruct M2|].
  destruct body as [b|]; [destruct (destroyed_ f2)|].
  - apply wp_ret. cbn in *. by rewrite app_nil_r.
  - apply wp_let, wp_call, wp_ret. split; [done|]. apply (answering_more me w f wr w2 ([(me, headers_call)] ++ e2)); [done|].
    by apply silent_one.
  - apply wp_ret. cbn in *. by rewrite app_nil_r.
Qed.

Lemma luaRespond_wp me d h args w f wr :
  filters w !! me = Some f -> wrapper d f = Some wr -> idle wr ->
  wp (luaRespond me d h args) w (fun w' e r =>
    match r with
    | inl (Some _) => exists f', moved me d w f w' f' e /\ wrapper d f' = Some wr /\ silent me e
    | inl None => exists wr', worked me d w f wr w' wr' e
    | inr _ => False
    end).
Proof.
  intros Hf Hw [Hs Hh]. apply wp_let. eapply wp_wrapper_of; [done..|].
  assert (Hstay : exists f', moved me d w f w f' [] /\ wrapper d f' = Some wr /\ silent me []).
  { exists f. split_and!; [by apply moved_refl|done|by apply silent_nil]. }
  destruct (headers_continued_ wr); [by apply wp_ret|].
  destruct (respond_arguments h args d) as [what|[headers body]]; [by apply wp_ret|].
  apply wp_let. eapply wp_change; [done|]. set (f1 := set_flags _ _ _ f).
  assert (Hw1 : wrapper d f1 = Some wr) by by destruct d.
  assert (Hm1 : moved me d w f (put me f1 w) f1 []) by (apply moved_put; [done|by destruct d|done]).
  apply wp_let. eapply wp_mono; [by eapply callbacks_respond_wp; [apply put_at|..]|].
  intros w2 e2 [[what|]|?]; [|intros [-> (f2 & M2 & W2 & A2 & C2)]|done].
  { intros [-> ->]. apply wp_ret. exists f1. split_and!; [done..|]. by apply silent_nil. }
  apply wp_let. eapply wp_change_wrapper; [by destruct M2|done|]. apply wp_ret. rewrite !app_nil_r, app_nil_l.
  exists (set_state Responded wr). apply answered_worked; [|done..].
  apply (moved_trans me DownstreamToUpstream w f (put me f1 w) f1 w2 f2 [] e2); done.
Qed.

Lemma set_request_same b wr : http_request_ wr = b -> set_request b wr = wr.
Proof. by destruct wr; cbn; intros ->. Qed.

Lemma luaHttpCall_wp me d h args w f wr :
  filters w !! me = Some f -> wrapper d f = Some wr -> idle wr ->
  wp (luaHttpCall me d h args) w (fun w' e r =>
    match r with
    | inl (Some _) => exists f', moved me d w f w' f' e /\ wrapper d f' = Some wr /\ silent me e
    | inl None => exists wr', worked me d w f wr w' wr' e
    | inr _ => False
    end).
Proof.
  intros Hf Hw [Hs Hh]. apply wp_let. eapply wp_wrapper_of; [done..|].
  destruct (http_arguments h args d) as [what|[[[cluster headers] body] timeout]].
  { apply wp_ret. exists f. split_and!; [by apply moved_refl|done|by apply silent_nil]. }
  assert (Hsend : silent me [(me, httpSend d cluster headers body timeout)]) by by apply silent_one.
  apply wp_let, wp_call. destruct (send_result h cluster headers body timeout) as [| |rh rb].
  - apply wp_let. eapply wp_change_wrapper; [done..|]. apply wp_ret. rewrite app_nil_l, !app_nil_r.
    exists (set_state HttpCall (set_request true wr)). destruct Hsend as (F & A & C). split; [|done| |done].
    + eexists. split; [by apply moved_wrapper|apply wrapper_set].
    + rewrite A. apply rests_http.
  - apply wp_let. eapply wp_change_wrapper; [done..|]. apply wp_ret. rewrite app_nil_l, !app_nil_r.
    eexists. split_and!; [apply moved_wrapper; apply Hsend|rewrite wrapper_set; by rewrite set_request_same|done].
  - apply wp_let. eapply wp_change_wrapper; [done..|]. apply wp_ret. rewrite app_nil_l, !app_nil_r.
    eexists. split_and!; [apply moved_wrapper; apply Hsend|rewrite wrapper_set; by rewrite set_request_same|done].
Qed.

(** A call on the data of any filter changes that data only. *)
Lemma reach_wp me d h c w f :
  filters w !! me = Some f ->
  wp (reach me me h c) w (fun w' e r =>
    match r with
    | inl _ => exists f', moved me d w f w' f' e /\ wrapper d f' = wrapper d f /\ silent me e
    | inr _ => w' = w /\ e = []
    end).
Proof.
  intros Hf. apply wp_let. eapply wp_filter_of; [done|]. apply wp_let.
  destruct (stream_call _ c (data_ f)) as [[[a dat] e]|what|?|]; [|by apply wp_throw|done|done].
  unfold wp at 1. cbn [lift]. apply wp_let. apply wp_modify. apply wp_let. apply wp_call. apply wp_ret. cbn [fst snd].
  rewrite !app_nil_l, app_nil_r. assert (He : silent me [(me, FfiReached me e)]) by by apply silent_one.
  exists (set_data dat f). split_and!; [|by destruct d|done]. apply moved_put; [done|by destruct d|apply He].
Qed.

Lemma luaFfi_wp me d v h c w f :
  filters w !! me = Some f -> (v = v2 -> global_ctx w = Some me) ->
  wp (luaFfi me v h c) w (fun w' e r =>
    match r with
    | inl _ => exists f', moved me d w f w' f' e /\ wrapper d f' = wrapper d f /\ silent me e
    | inr _ => w' = w /\ e = []
    end).
Proof.
  intros Hf Hctx. destruct v; cbn [luaFfi]; [by apply reach_wp|].
  apply wp_let. unfold wp at 1. cbn [mget]. rewrite Hctx by done.
  eapply wp_mono; [by apply (reach_wp me d)|]. intros w' e r Hr. exact Hr.
Qed.

(** A script leaves its wrapper in a state it may rest in, whatever it does. *)
Definition ran me d w f wr (w' : World) (e : list (nat * HostCall)) (r : Stop + string) : Prop :=
  exists wr', worked me d w f wr w' wr' e /\ (r ≠ inl StopYielded -> idle wr').

Definition runs_well v me d h s : Prop := forall w f wr,
  proper v d s -> filters w !! me = Some f -> wrapper d f = Some wr -> idle wr -> (v = v2 -> global_ctx w = Some me) ->
  wp (run me d h s) w (ran me d w f wr).

Lemma runs_after v me d h s w f wr w1 f1 e1 :
  runs_well v me d h s -> proper v d s -> idle wr -> (v = v2 -> global_ctx w = Some me) ->
  moved me d w f w1 f1 e1 -> wrapper d f1 = Some wr -> silent me e1 ->
  wp (run me d h s) w1 (fun w' e2 r => ran me d w f wr w' (e1 ++ e2) r).
Proof.
  intros Hs Hp Hi Hctx Hm Hw1 (F & A & C). eapply wp_mono.
  - apply (Hs w1 f1 wr); [done|by destruct Hm|done|done|by intros Hv; apply Hm, Hctx].
  - intros w' e2 r (wr' & Hwk & Hr). exists wr'. split; [by eapply worked_after|done].
Qed.

Lemma ran_yielded me d w f wr w' e :
  (exists wr', worked me d w f wr w' wr' e) -> ran me d w f wr w' (e ++ []) (inl StopYielded).
Proof. rewrite app_nil_r. intros (wr' & Hwk). by exists wr'. Qed.

Lemma run_wp v me d h s : runs_well v me d h s.
Proof.
  unfold runs_well. induction s as [|what| |args k IH|args k IH|d' k IH|v' c k IH];
    intros w f wr Hp Hf Hw Hi Hctx; cbn [run].
  1-3: apply wp_ret; exists wr; split; [by apply worked_idle|done].
  all: apply wp_let; eapply wp_mono; [first [by apply luaRespond_wp | by apply luaHttpCall_wp | idtac]|].
  - intros w1 e1 [[what|]|?] Hr; [|by apply wp_ret, ran_yielded|done].
    destruct Hr as (f1 & Hm & Hw1 & Hs1). by eapply (runs_after v); [exact (IH what)|..].
  - intros w1 e1 [[a|]|?] Hr; [|by apply wp_ret, ran_yielded|done].
    destruct Hr as (f1 & Hm & Hw1 & Hs1). by eapply (runs_after v); [exact (IH a)|..].
  - destruct Hp as [-> Hp]. by eapply luaBody_wp.
  - destruct Hp as [-> Hp]. intros w1 e1 [[a|]|?] Hr; [|by apply wp_ret, ran_yielded|done].
    destruct Hr as [-> ->]. by eapply (runs_after v); [exact (IH a)|..].
  - destruct Hp as [Hv Hp]. apply (luaFfi_wp me d); [done|]. intros ->. apply Hctx. destruct v; [by specialize (Hv eq_refl)|done].
  - destruct Hp as [Hv Hp]. intros w1 e1 [a|?] Hr.
    + destruct Hr as (f1 & Hm & Hw1 & Hs1). eapply (runs_after v); [exact (IH a)|..]; try done. by rewrite Hw1.
    + destruct Hr as [-> ->]. exists wr. split; [by apply worked_idle|done].
Qed.

(** ** Coroutines *)

(** Two wrappers that rest in the same way. *)
Definition alike (wr wr' : StreamWrapper) : Prop :=
  state_ wr' = state_ wr /\ http_request_ wr' = http_request_ wr /\ end_stream_ wr' = end_stream_ wr.

Lemma worked_at me d w f wr w' wr' e :
  worked me d w f wr w' wr' e -> exists f', filters w' !! me = Some f' /\ wrapper d f' = Some wr' /\ moved me d w f w' f' e.
Proof. intros [(f' & Hm & Hw) _ _ _]. exists f'. split_and!; [by destruct Hm|done..]. Qed.

Lemma worked_set me d w f wr w1 f1 wr1 wr2 e :
  worked me d w f wr w1 wr1 e -> moved me d w f w1 f1 e -> alike wr1 wr2 ->
  worked me d w f wr (put me (set_wrapper d (Some wr2) f1) w1) wr2 e.
Proof.
  intros [_ He Hr Hc] Hm (Hs & Hh & Hd). split; [|congruence| |done].
  - eexists. split; [by apply moved_set|apply wrapper_set].
  - by rewrite Hs, Hh.
Qed.

Lemma worked_change me d g w f wr w1 wr1 e (Q : World -> list (nat * HostCall) -> unit + string -> Prop) :
  worked me d w f wr w1 wr1 e -> alike wr1 (g wr1) ->
  (forall w2, worked me d w f wr w2 (g wr1) e -> Q w2 [] (inl tt)) ->
  wp (change_wrapper me d g) w1 Q.
Proof.
  intros Hwk Hg HQ. destruct (worked_at _ _ _ _ _ _ _ _ Hwk) as (f1 & Hf1 & Hw1 & Hm).
  eapply wp_change_wrapper; [done..|]. apply HQ. by eapply worked_set.
Qed.

Lemma worked_wrapper me d w f wr w1 wr1 e (Q : World -> list (nat * HostCall) -> StreamWrapper + string -> Prop) :
  worked me d w f wr w1 wr1 e -> Q w1 [] (inl wr1) -> wp (wrapper_of me d) w1 Q.
Proof.
  intros Hwk HQ. destruct (worked_at _ _ _ _ _ _ _ _ Hwk) as (f1 & Hf1 & Hw1 & Hm). by eapply wp_wrapper_of.
Qed.

(** After a coroutine has run: an exception leaves the wrapper idle. *)
Definition resumed {A} me d w f wr (w' : World) (e : list (nat * HostCall)) (r : A + string) : Prop :=
  exists wr', worked me d w f wr w' wr' e /\ (forall what, r = inr what -> idle wr').

Lemma resume_wp v me d h start_function arguments w f wr :
  proper_host v d h -> filters w !! me = Some f -> wrapper d f = Some wr -> idle wr -> (v = v2 -> global_ctx w = Some me) ->
  wp (resume me d h start_function arguments) w (resumed me d w f wr).
Proof.
  intros [Hstart Hresume] Hf Hw Hi Hctx. apply wp_let. eapply wp_wrapper_of; [done..|]. apply wp_let.
  eapply wp_mono with (Q := ran me d w f wr).
  { destruct (thread_ wr), start_function as [ref|];
      first [done | by eapply run_wp; eauto | apply wp_ret; exists wr; split; [by apply worked_idle|done]]. }
  intros w1 e1 [stop|what] (wr1 & Hwk & Hidle); [|by exists wr1; split; [|auto]].
  destruct stop as [| |what].
  - eapply worked_change; [done|done|]. intros w2 Hwk2. rewrite app_nil_r. eexists. by split.
  - apply wp_let. eapply worked_change; [done|done|]. intros w2 Hwk2. apply wp_let. eapply worked_wrapper; [done|].
    cbn [set_coroutine state_].
    destruct (decide (state_ wr1 = Running)) as [Hs|Hs]; [apply wp_throw|apply wp_ret]; rewrite ?app_nil_l, ?app_nil_r;
      (eexists; split; [exact Hwk2|]); [|done].
    intros what _. split; [done|]. destruct Hwk as [_ _ Hr _]. rewrite Hs in Hr. by inversion Hr.
  - apply wp_let. eapply worked_change; [done|done|]. intros w2 Hwk2. apply wp_throw. rewrite ?app_nil_l, ?app_nil_r.
    eexists. split; [done|]. intros what' _. by apply Hidle.
Qed.

Lemma coroutine_start_wp v me d h ref w f wr :
  proper_host v d h -> filters w !! me = Some f -> wrapper d f = Some wr -> idle wr -> (v = v2 -> global_ctx w = Some me) ->
  wp (coroutine_start me d h ref) w (resumed me d w f wr).
Proof.
  intros Hh Hf Hw Hi Hctx. unfold coroutine_start. destruct (is_function h ref).
  2: { apply wp_throw. exists wr. by split; [apply worked_idle|]. }
  apply wp_let. eapply wp_change_wrapper; [done..|]. set (f1 := set_wrapper _ _ _). set (wr1 := set_coroutine _ _ wr) in f1.
  eapply wp_mono; [eapply (resume_wp v me d h _ _ (put me f1 w) f1 wr1); try done; [apply put_at|apply wrapper_set]|].
  intros w2 e2 r (wr2 & Hwk & Hr). exists wr2. split; [|done]. apply (worked_after me d w f wr (put me f1 w) f1 wr1 []); try done.
  by apply moved_wrapper.
Qed.

Lemma moved_ctx me d w f : filters w !! me = Some f ->
  moved me d w f {| filters := filters w; global_ctx := Some me |} f [].
Proof. by split. Qed.

Lemma startBody_wp v me d h ref w f wr :
  proper_host v d h -> filters w !! me = Some f -> wrapper d f = Some wr -> idle wr ->
  wp (startBody me d h ref) w (resumed me d w f wr).
Proof.
  intros Hh Hf Hw Hi. apply wp_let. apply wp_modify.
  eapply wp_mono; [by eapply (coroutine_start_wp v)|]. intros w2 e2 r (wr2 & Hwk & Hr). exists wr2. split; [|done].
  by apply (worked_after me d w f wr {| filters := filters w; global_ctx := Some me |} f wr []).
Qed.

(** ** The handlers *)

(** What is left of a direction after a handler. *)
Record handled (me : nat) (d : StreamDirection) (end_stream : bool) (w : World) (f : Filter) (w' : World)
    (wr' : StreamWrapper) (e : list (nat * HostCall)) : Prop := {
  hd_moved : exists f', moved me d w f w' f' e /\ wrapper d f' = Some wr';
  hd_end : end_stream_ wr' = end_stream;
  hd_rests : rests d false (state_ wr') (http_request_ wr') (answers e);
}.

Lemma rests_weaken d b st http n : rests d b st http n -> rests d false st http n.
Proof. intros []; by constructor. Qed.

Lemma worked_handled me d w f wr w' wr' e : worked me d w f wr w' wr' e -> handled me d (end_stream_ wr) w f w' wr' e.
Proof. intros [Hm He Hr _]. split; [done|done|by eapply rests_weaken]. Qed.

(** Errors of scripts are recorded and go no further. *)
Lemma scriptError_wp me d what w f wr w1 wr1 e (Q : World -> list (nat * HostCall) -> unit + string -> Prop) :
  worked me d w f wr w1 wr1 e ->
  (forall w2 e2, worked me d w f wr w2 wr1 (e ++ e2) -> continued e2 = false -> Q w2 e2 (inl tt)) ->
  wp (scriptError me what) w1 Q.
Proof.
  intros Hwk HQ. destruct (worked_at _ _ _ _ _ _ _ _ Hwk) as (f1 & Hf1 & Hw1 & Hm).
  apply wp_let. eapply wp_change; [done|]. apply wp_call. rewrite app_nil_l. apply HQ; [|done].
  destruct Hwk as [_ He Hr Hc]. set (f2 := set_flags _ _ _ _).
  assert (Hm2 : moved me d w1 f1 (put me f2 w1) f2 [(me, errorLog what)]).
  { apply moved_put; [done|by destruct d|by repeat constructor]. }
  split; [|done| |by rewrite continued_app, Hc].
  - exists f2. split; [by eapply moved_trans|by destruct d].
  - rewrite answers_app. by rewrite Nat.add_0_r.
Qed.

(** [worked] with the calls that follow it. *)
Lemma worked_catch me d w f wr (m : prog unit) (w1 : World) :
  wp m w1 (resumed me d w f wr) ->
  wp (mcatch m (scriptError me)) w1 (fun w' e r => r = inl tt /\ exists wr', worked me d w f wr w' wr' e).
Proof.
  intros Hm. apply wp_catch. eapply wp_mono; [exact Hm|]. intros w2 e [[]|what] (wr' & Hwk & Hr); [eauto|].
  eapply scriptError_wp; [done|]. intros w3 e2 Hwk2 _. eauto.
Qed.

Lemma start_wp v me d h ref w f wr :
  proper_host v d h -> filters w !! me = Some f -> wrapper d f = Some wr -> idle wr -> (v = v2 -> global_ctx w = Some me) ->
  wp (start me d h ref) w (fun w' e r => exists wr', worked me d w f wr w' wr' e /\
    match r with
    | inl s => s = Http.Continue /\ state_ wr' = Running \/ s = StopIteration /\ state_ wr' ≠ Running
    | inr _ => state_ wr' = Running
    end).
Proof.
  intros Hh Hf Hw Hi Hctx. apply wp_let. eapply wp_mono; [by eapply coroutine_start_wp|].
  intros w1 e1 [[]|what] (wr1 & Hwk & Hr).
  2: { exists wr1. split; [done|]. by destruct (Hr what eq_refl). }
  apply wp_let. eapply worked_wrapper; [done|]. destruct (stops_headers (state_ wr1)) eqn:Hs.
  - apply wp_ret. exists wr1. rewrite ?app_nil_r. split; [done|]. right. split; [done|]. intros E. by rewrite E in Hs.
  - apply wp_let. eapply worked_change; [done|done|]. intros w2 Hwk2. apply wp_ret. exists (set_continued wr1).
    rewrite app_nil_l, !app_nil_r. split; [done|]. left. split; [done|]. cbn. destruct Hwk as [_ _ Hrest _].
    revert Hs. by inversion Hrest.
Qed.

Definition fresh_worked me d end_stream w f (w' : World) (wr' : StreamWrapper) e : Prop :=
  worked me d w f (new_StreamWrapper end_stream) w' wr' e.

Lemma new_wrapper_wp me d end_stream w f (Q : World -> list (nat * HostCall) -> unit + string -> Prop) :
  filters w !! me = Some f ->
  (let f1 := set_wrapper d (Some (new_StreamWrapper end_stream)) f in Q (put me f1 w) [] (inl tt)) ->
  wp (new_wrapper me d end_stream) w Q.
Proof. intros Hf HQ. by eapply wp_change. Qed.

Lemma fresh_after me d end_stream w f w' wr' e :
  let f1 := set_wrapper d (Some (new_StreamWrapper end_stream)) f in
  worked me d (put me f1 w) f1 (new_StreamWrapper end_stream) w' wr' e ->
  worked me d w f (new_StreamWrapper end_stream) w' wr' e.
Proof.
  intros f1 Hwk. apply (worked_after me d w f (new_StreamWrapper end_stream) (put me f1 w) f1 (new_StreamWrapper end_stream) []); try done.
  by apply moved_wrapper.
Qed.

(** Version 1 stops the headers exactly when the script waits or has answered. *)
Definition headers_v1 (me : nat) d (end_stream : bool) w f w' e (r : FilterHeadersStatus + string) : Prop :=
  (r = inl Http.Continue /\ w' = w /\ e = []) \/
  exists wr', worked me d w f (new_StreamWrapper end_stream) w' wr' e /\
    (r = inl Http.Continue /\ state_ wr' = Running \/ r = inl StopIteration /\ state_ wr' ≠ Running).

Lemma doHeaders_wp me d h ref end_stream w f :
  proper_host v1 d h -> filters w !! me = Some f ->
  wp (doHeaders me d h ref end_stream) w (headers_v1 me d end_stream w f).
Proof.
  intros Hh Hf. apply wp_let. eapply wp_filter_of; [done|].
  destruct (error_ f), ref as [ref|]; try by (apply wp_ret; left).
  apply wp_let. eapply new_wrapper_wp; [done|]. set (f1 := set_wrapper _ _ f). cbn zeta. apply wp_catch.
  eapply wp_mono; [by eapply (start_wp v1 me d h ref (put me f1 w) f1); [|apply put_at|apply wrapper_set|..]|].
  intros w1 e1 [s|what] (wr1 & Hwk & Hr).
  - right. exists wr1. split; [by apply fresh_after|]. destruct Hr as [[-> ?]|[-> ?]]; auto.
  - apply wp_let. eapply scriptError_wp; [done|]. intros w2 e2 Hwk2 _. apply wp_ret. right. exists wr1.
    rewrite ?app_nil_l, ?app_nil_r. split; [by apply fresh_after|]. by left.
Qed.

(** A function that starts on an idle wrapper, after what was done before. *)
Lemma worked_running me d w f wr w1 wr1 e1 :
  worked me d w f wr w1 wr1 e1 -> state_ wr1 = Running -> idle wr1 /\ answers e1 = 0%nat.
Proof. intros [_ _ Hr _] Hs. rewrite Hs in Hr. by inversion Hr. Qed.

Lemma body_after v me d h ref w f wr w1 wr1 e1 :
  proper_host v d h -> worked me d w f wr w1 wr1 e1 -> state_ wr1 = Running ->
  wp (mcatch (startBody me d h ref) (scriptError me)) w1 (fun w2 e2 r =>
    r = inl tt /\ exists wr2, worked me d w f wr w2 wr2 (e1 ++ e2)).
Proof.
  intros Hh Hwk Hs. destruct (worked_running _ _ _ _ _ _ _ _ Hwk Hs) as [Hi Ha].
  destruct (worked_at _ _ _ _ _ _ _ _ Hwk) as (f1 & Hf1 & Hw1 & Hm1).
  eapply wp_mono; [eapply worked_catch; by eapply (startBody_wp v)|].
  intros w2 e2 r (-> & wr2 & Hwk2). split; [done|]. exists wr2. eapply worked_after; [done|done|by destruct Hwk|by destruct Hwk|done].
Qed.

Lemma start_v2_wp me d h ref ref_body w f wr :
  proper_host v2 d h -> filters w !! me = Some f -> wrapper d f = Some wr -> idle wr ->
  wp (start_v2 me d h ref ref_body) w (fun w' e r => exists wr', worked me d w f wr w' wr' e /\
    match r with
    | inl s => state_ wr' = Running -> s = Http.Continue \/ end_stream_ wr = false
    | inr _ => True
    end).
Proof.
  intros Hh Hf Hw Hi. apply wp_let. apply wp_modify. apply wp_let.
  eapply wp_mono; [by eapply (coroutine_start_wp v2)|].
  intros w1 e1 r (wr1 & Hwk0 & Hr).
  assert (Hwk : worked me d w f wr w1 wr1 e1).
  { by apply (worked_after me d w f wr {| filters := filters w; global_ctx := Some me |} f wr []); [apply moved_ctx|..]. }
  rewrite ?app_nil_l. destruct r as [[]|what]; [|by exists wr1].
  assert (Hdone : forall s e2, e2 = [] -> (state_ wr1 = Running -> s = Http.Continue \/ end_stream_ wr = false) ->
    exists wr', worked me d w f wr w1 wr' (e1 ++ e2) /\ (state_ wr' = Running -> s = Http.Continue \/ end_stream_ wr = false)).
  { intros s e2 -> Hs. exists wr1. by rewrite app_nil_r. }
  apply wp_let. eapply worked_wrapper; [done|]. pose proof (wk_end _ _ _ _ _ _ _ _ Hwk) as He.
  pose proof (wk_rests _ _ _ _ _ _ _ _ Hwk) as Hrest.
  destruct (state_ wr1) eqn:Hs; try by inversion Hrest.
  - destruct (end_stream_ wr1) eqn:Hend; [destruct ref_body as [rb|]|].
    + apply wp_let. eapply wp_mono; [by eapply body_after|]. intros w2 e2 r (-> & wr2 & Hwk2).
      apply wp_let. eapply worked_wrapper; [done|]. apply wp_ret. exists wr2. rewrite ?app_nil_l, ?app_nil_r.
      split; [done|]. intros ->. by left.
    + apply wp_ret. apply Hdone; [done|]. by left.
    + apply wp_ret. apply Hdone; [done|]. intros _. right. congruence.
  - assert (Hno : end_stream_ wr1 = false).
    { inversion Hrest. congruence. }
    rewrite Hno. apply wp_ret. by apply Hdone.
  - destruct ref_body as [rb|]; [destruct (end_stream_ wr1)|]; [|by apply wp_ret, Hdone..].
    apply wp_let. eapply worked_change; [done|done|]. intros w2 Hwk2. apply wp_ret. rewrite ?app_nil_l, ?app_nil_r.
    eexists. split; [exact Hwk2|]. cbn. by rewrite Hs.
  - by apply wp_ret, Hdone.
Qed.

(** Version 2 passes the headers on, or waits for a call, for the rest of the message or for ever
    because there is an answer. *)
Definition headers_v2 (me : nat) d (end_stream : bool) w f w' e (r : FilterHeadersStatus + string) : Prop :=
  (exists f', moved me d w f w' f' e /\ silent me e /\ (forall d, wrapper d f' = wrapper d f) /\
     (r = inl Http.Continue \/ r = inl StopIteration /\ responded f = true)) \/
  exists wr' s, worked me d w f (new_StreamWrapper end_stream) w' wr' e /\ r = inl s /\
    (state_ wr' = Running -> s = Http.Continue \/ end_stream = false).

Lemma doHeaders_v2_wp me d h ref ref_body end_stream w f :
  proper_host v2 d h -> filters w !! me = Some f ->
  wp (doHeaders_v2 me d h ref ref_body end_stream) w (headers_v2 me d end_stream w f).
Proof.
  intros Hh Hf. apply wp_let. eapply wp_filter_of; [done|].
  assert (Hstay : headers_v2 me d end_stream w f w [] (inl Http.Continue)).
  { left. exists f. split_and!; [by apply moved_refl|apply silent_nil|done|by left]. }
  destruct ref as [ref|].
  - destruct (error_ f); [by apply wp_ret|]. apply wp_let. eapply new_wrapper_wp; [done|].
    set (f1 := set_wrapper _ _ f). cbn zeta. apply wp_catch.
    eapply wp_mono; [by eapply (start_v2_wp me d h ref ref_body (put me f1 w) f1); [|apply put_at|apply wrapper_set|..]|].
    intros w1 e1 [s|what] (wr1 & Hwk & Hr).
    + right. exists wr1, s. split_and!; [by apply fresh_after|done|exact Hr].
    + apply wp_let. eapply scriptError_wp; [done|]. intros w2 e2 Hwk2 _. apply wp_ret. right. exists wr1, Http.Continue.
      rewrite ?app_nil_l, ?app_nil_r. split_and!; [by apply fresh_after|done|by left].
  - destruct (responded f) eqn:Hresp; [|by apply wp_ret]. apply wp_let. eapply wp_change; [done|]. apply wp_ret.
    left. exists (set_flags (destroyed_ f) (error_ f) false f). split_and!; [|by apply silent_nil|by intros []|by right].
    apply moved_put; [done|by destruct d|done].
Qed.

(** *** Data *)

(** A direction that waits or has passed, and has not answered. *)
Definition open (d : StreamDirection) (wr : StreamWrapper) : Prop := rests d false (state_ wr) (http_request_ wr) 0.

Lemma open_worked me d w f wr wr0 :
  filters w !! me = Some f -> open d wr ->
  state_ wr0 = state_ wr -> http_request_ wr0 = http_request_ wr ->
  (state_ wr = WaitForBody -> end_stream_ wr0 = false) ->
  worked me d w f wr0 (put me (set_wrapper d (Some wr0) f) w) wr0 [].
Proof.
  intros Hf Ho Hs Hh Hb. split; [|done| |done].
  - eexists. split; [by apply moved_wrapper|apply wrapper_set].
  - rewrite Hs, Hh. unfold open in Ho. inversion Ho as [E1 E2|E E1 E2|E1 E2|]; constructor. rewrite <- E1 in Hb. by apply Hb.
Qed.

Lemma put_put me f f' w : put me f' (put me f w) = put me f' w.
Proof. unfold put. cbn. by rewrite insert_insert_eq. Qed.

(** The data goes to the buffer and an idle wrapper goes on. *)
Definition buffered (d : StreamDirection) (data : string) (f : Filter) : Filter :=
  set_buffer d (Some (default "" (buffer d f) +:+ data)) f.

Lemma moved_buffered me d w f w1 f1 e data :
  moved me d w f w1 f1 e -> moved me d w f (put me (buffered d data f1) w1) (buffered d data f1) (e ++ [(me, addData d data)]).
Proof.
  intros Hm. eapply moved_trans; [done|]. apply moved_put; [by destruct d|by destruct d|by repeat constructor].
Qed.

Definition data_v1 (me : nat) d (end_stream : bool) w f wr w' e (r : (DataStatus * string) + string) : Prop :=
  exists wr', worked me d w f (set_seen end_stream wr) w' wr' e /\ (state_ wr = Running -> state_ wr' = Running) /\
    match r with
    | inl s => s.1 = Continue /\ state_ wr' = Running \/ s.1 ≠ Continue /\ state_ wr' ≠ Running
    | inr _ => state_ wr' = Running
    end.

(** The part of [onData] that resumes a script with the whole body. *)
Lemma resume_body_wp me d h data w f wr :
  proper_host v1 d h -> filters w !! me = Some f -> wrapper d f = Some wr -> state_ wr = WaitForBody ->
  http_request_ wr = false ->
  wp (call me (addData d data) ;;
      change me (fun f => set_buffer d (Some (default "" (buffer d f) +:+ data)) f) ;;
      change_wrapper me d (set_state Running) ;;
      do a <- luaBody me d;
      match a with
      | Some (Returned l) => resume me d h None l ;; mret ""
      | Some (Raised what) => lift (Undefined "an error is raised outside of a script")
      | None => lift (Undefined "a yield outside of a script")
      end) w (resumed me d w f wr).
Proof.
  intros Hh Hf Hw Hs Hreq. apply wp_let, wp_call. apply wp_let. eapply wp_change; [done|]. fold (buffered d data f).
  apply wp_let. eapply wp_change_wrapper; [apply put_at|by destruct d|]. rewrite put_put.
  set (wr1 := set_state Running wr). set (f1 := set_wrapper d (Some wr1) (buffered d data f)).
  assert (Hm : moved me d w f (put me f1 w) f1 [(me, addData d data)]).
  { rewrite <- (put_put me (buffered d data f)). apply moved_set. apply (moved_buffered me d w f w f []). by apply moved_refl. }
  apply wp_let. eapply wp_mono; [by eapply (luaBody_wp me d (put me f1 w) f1 wr1); [apply put_at|apply wrapper_set|]|].
  intros w2 e2 [[[what|l]|]|?]; [by intros; apply wp_undefined| |by intros; apply wp_undefined|done]. intros [-> ->].
  apply wp_let. eapply wp_mono; [by eapply (resume_wp v1 me d h None l (put me f1 w) f1 wr1); [|apply put_at|apply wrapper_set|..]|].
  intros w3 e3 [[]|what] (wr3 & Hwk & Hr); rewrite ?app_nil_l.
  - apply wp_ret. exists wr3. rewrite ?app_nil_l, ?app_nil_r. split; [|done].
    by apply (worked_after me d w f wr (put me f1 w) f1 wr1 [(me, addData d data)]).
  - exists wr3. split; [|intros _ _; by apply (Hr what)].
    by apply (worked_after me d w f wr (put me f1 w) f1 wr1 [(me, addData d data)]).
Qed.

Lemma data_status_v1 me d end_stream w f wr w1 wr1 e (data : string) :
  worked me d w f (set_seen end_stream wr) w1 wr1 e -> (state_ wr = Running -> state_ wr1 = Running) ->
  wp (match state_ wr1 with
      | HttpCall | WaitForBody => mret (StopIterationAndBuffer, data)
      | Responded => mret (StopIterationNoBuffer, data)
      | _ => change_wrapper me d set_continued ;; mret (Continue, data)
      end) w1 (fun w2 e2 r => data_v1 me d end_stream w f wr w2 (e ++ e2) r).
Proof.
  intros Hwk Hrun.
  assert (Hstop : forall s, s ≠ Continue -> state_ wr1 ≠ Running ->
    data_v1 me d end_stream w f wr w1 (e ++ []) (inl (s, data))).
  { intros s Hs Hst. exists wr1. rewrite app_nil_r. split_and!; [done|done|]. by right. }
  pose proof (wk_rests _ _ _ _ _ _ _ _ Hwk) as Hrest.
  destruct (state_ wr1) eqn:Hs; try by inversion Hrest.
  - apply wp_let. eapply worked_change; [done|done|]. intros w2 Hwk2. apply wp_ret. rewrite ?app_nil_l, ?app_nil_r.
    eexists. split_and!; [exact Hwk2|done|]. by left.
  - apply wp_ret. by apply Hstop.
  - apply wp_ret. by apply Hstop.
  - apply wp_ret. by apply Hstop.
Qed.

Lemma onData_wp me d h data end_stream w f wr :
  proper_host v1 d h -> filters w !! me = Some f -> wrapper d f = Some wr -> open d wr ->
  wp (onData me d h data end_stream) w (data_v1 me d end_stream w f wr).
Proof.
  intros Hh Hf Hw Ho. apply wp_let. eapply wp_change_wrapper; [done..|]. set (wr0 := set_seen end_stream wr).
  set (f0 := set_wrapper d (Some wr0) f). set (w0 := put me f0 w).
  assert (Hm0 : moved me d w f w0 f0 []) by by apply moved_wrapper.
  apply wp_let. eapply wp_wrapper_of; [apply put_at|apply wrapper_set|]. apply wp_let.
  change (bool_decide (state_ wr0 = WaitForBody) && end_stream_ wr0) with (bool_decide (state_ wr = WaitForBody) && end_stream).
  destruct (bool_decide (state_ wr = WaitForBody) && end_stream) eqn:Hb.
  - apply andb_true_iff in Hb as [Hs ->]. apply bool_decide_eq_true in Hs.
    assert (Hr : http_request_ wr = false) by (unfold open in Ho; rewrite Hs in Ho; by inversion Ho).
    eapply wp_mono; [by eapply (resume_body_wp me d h data w0 f0 wr0); [|apply put_at|apply wrapper_set|..]|].
    intros w1 e1 r (wr1 & Hwk & Hex).
    assert (Hwk1 : worked me d w f wr0 w1 wr1 e1) by by apply (worked_after me d w f wr0 w0 f0 wr0 []).
    destruct r as [left|what]; [|exists wr1; split_and!; [done|by rewrite Hs|]; by destruct (Hex what eq_refl)].
    apply wp_let. eapply worked_wrapper; [done|]. apply data_status_v1; [done|by rewrite Hs].
  - apply wp_ret. apply wp_let. eapply wp_wrapper_of; [apply put_at|apply wrapper_set|].
    rewrite ?app_nil_l. assert (Hwk : worked me d w f wr0 w0 wr0 []).
    { apply (open_worked me d w f wr wr0); try done. intros Hs. rewrite Hs, bool_decide_true in Hb by done. exact Hb. }
    exact (data_status_v1 me d end_stream w f wr w0 wr0 [] data Hwk (fun Hs => Hs)).
Qed.

(** Version 2 keeps the data until the message ends, then runs the body function. *)
Definition data_v2 (me : nat) d (end_stream : bool) w f w' e (r : (DataStatus * string) + string) : Prop :=
  exists wr' s, r = inl s /\ handled me d end_stream w f w' wr' e /\ continued e = false /\
    (state_ wr' = Running \/ state_ wr' = WaitForBody -> end_stream = false \/ s.1 = Continue).

Lemma data_status_v2 me d end_stream w f w1 wr1 e (data : string) :
  handled me d end_stream w f w1 wr1 e -> continued e = false ->
  wp (do wr <- wrapper_of me d;
      match state_ wr with
      | HttpCall => mret (StopIterationAndBuffer, data)
      | Responded => mret (StopIterationNoBuffer, data)
      | _ => if negb (end_stream_ wr) then mret (StopIterationAndBuffer, data) else mret (Continue, data)
      end) w1 (fun w2 e2 r => data_v2 me d end_stream w f w2 (e ++ e2) r).
Proof.
  intros Hhd Hc. destruct (hd_moved _ _ _ _ _ _ _ _ Hhd) as (f1 & Hm & Hw1).
  apply wp_let. eapply wp_wrapper_of; [by destruct Hm|done|]. pose proof (hd_end _ _ _ _ _ _ _ _ Hhd) as He. rewrite He.
  assert (Hdone : forall s, (state_ wr1 = Running \/ state_ wr1 = WaitForBody -> end_stream = false \/ s.1 = Continue) ->
    data_v2 me d end_stream w f w1 (e ++ []) (inl s)).
  { intros s Hs. exists wr1, s. by rewrite app_nil_r. }
  destruct (state_ wr1) eqn:Hs; try (apply wp_ret; apply Hdone; by intros [?|?]);
    destruct end_stream; cbn [negb]; apply wp_ret; apply Hdone; auto.
Qed.

Lemma onData_v2_wp me d h ref data end_stream w f wr :
  proper_host v2 d h -> filters w !! me = Some f -> wrapper d f = Some wr -> open d wr ->
  wp (onData_v2 me d h ref data end_stream) w (data_v2 me d end_stream w f).
Proof.
  intros Hh Hf Hw Ho. apply wp_let. eapply wp_change_wrapper; [done..|]. set (wr0 := set_seen end_stream wr).
  set (f0 := set_wrapper d (Some wr0) f). set (w0 := put me f0 w).
  assert (Hm0 : moved me d w f w0 f0 []) by by apply moved_wrapper.
  apply wp_let. eapply wp_wrapper_of; [apply put_at|apply wrapper_set|]. apply wp_let.
  change (end_stream_ wr0 && bool_decide (state_ wr0 = Running)) with (end_stream && bool_decide (state_ wr = Running)).
  destruct (end_stream && bool_decide (state_ wr = Running)) eqn:Hb.
  - apply andb_true_iff in Hb as [-> Hs]. apply bool_decide_eq_true in Hs.
    assert (Hi : idle wr0) by (unfold open in Ho; rewrite Hs in Ho; split; [done|by inversion Ho]).
    apply wp_let, wp_call. apply wp_let. eapply wp_change; [apply put_at|]. fold (buffered d data f0).
    set (f1 := buffered d data f0). set (w1 := put me f1 w0).
    assert (Hm1 : moved me d w f w1 f1 [(me, addData d data)]) by by apply (moved_buffered me d w f w0 f0 []).
    apply wp_let. eapply wp_mono; [eapply (worked_catch me d w1 f1 wr0); eapply (startBody_wp v2)|]; try done;
      [apply put_at|apply wrapper_set|].
    intros w2 e2 r (-> & wr2 & Hwk). apply wp_ret. rewrite ?app_nil_l, ?app_nil_r.
    assert (Hwk2 : worked me d w f wr0 w2 wr2 ([(me, addData d data)] ++ e2))
      by by apply (worked_after me d w f wr0 w1 f1 wr0 [(me, addData d data)]).
    apply (data_status_v2 me d true w f w2 wr2 ([(me, addData d data)] ++ e2) "").
    + by apply worked_handled in Hwk2.
    + by destruct Hwk2.
  - apply wp_ret. refine (data_status_v2 me d end_stream w f w0 wr0 [] data _ eq_refl). split; [|done|exact Ho].
    exists f0. split; [done|apply wrapper_set].
Qed.

(** *** The end of an HTTP call *)

Definition call_ended (me : nat) d w f wr w' e (r : unit + string) : Prop :=
  exists wr', r = inl tt /\ handled me d (end_stream_ wr) w f w' wr' e /\
    (state_ wr' = WaitForBody -> end_stream_ wr = false) /\
    continued e = bool_decide (d = DownstreamToUpstream) && bool_decide (state_ wr' = Running).

Lemma ended_worked me d w f wr w1 wr1 e1 :
  worked me d w f wr w1 wr1 e1 -> state_ wr1 ≠ Running -> call_ended me d w f wr w1 e1 (inl tt).
Proof.
  intros Hwk Hs. exists wr1. split; [done|]. split; [by apply worked_handled|]. destruct Hwk as [_ _ Hr Hc]. split.
  - intros E. rewrite E in Hr. by inversion Hr.
  - rewrite Hc, (bool_decide_false (state_ wr1 = Running)) by done. by rewrite andb_false_r.
Qed.

Lemma continue_wp me d w f wr w1 wr1 e1 :
  worked me d w f wr w1 wr1 e1 -> state_ wr1 = Running ->
  wp (call me (continueIteration d)) w1 (fun w2 e2 r => call_ended me d w f wr w2 (e1 ++ e2) r).
Proof.
  intros Hwk Hs. apply wp_call. exists wr1. split; [done|]. destruct Hwk as [(f1 & Hm & Hw) He Hr Hc]. split_and!.
  - split; [|done|].
    + exists f1. split; [|done]. eapply moved_with; [done|]. apply Forall_app. split; [by destruct Hm|by repeat constructor].
    + replace (answers (e1 ++ [(me, continueIteration d)])) with (answers e1); [by eapply rests_weaken|].
      rewrite answers_app. by rewrite Nat.add_0_r.
  - by rewrite Hs.
  - rewrite continued_app, Hc, Hs. rewrite (bool_decide_true (Running = Running)) by done. by destruct d.
Qed.

(** What follows a script that has come to its end. *)
Lemma after_call_wp v me d h w f wr w1 wr1 e1 :
  proper_host v d h -> worked me d w f wr w1 wr1 e1 ->
  wp (continue_after_call me d h) w1 (fun w2 e2 r => call_ended me d w f wr w2 (e1 ++ e2) r).
Proof.
  intros Hh Hwk. apply wp_let. eapply worked_wrapper; [done|].
  destruct (decide (state_ wr1 = Running)) as [Hs|Hs]; [|apply wp_ret; rewrite app_nil_r; by eapply ended_worked].
  destruct (start_body_ wr1); [|by eapply wp_mono; [eapply continue_wp; [exact Hwk|done]|]; intros w2 e2 r Hr; rewrite ?app_nil_l].
  destruct (function_ref_body_ wr1) as [ref|]; [|by apply wp_undefined].
  apply wp_let. eapply worked_change; [done|done|]. intros w2 Hwk2. apply wp_let.
  eapply wp_mono; [by eapply (body_after v)|]. intros w3 e3 r (-> & wr3 & Hwk3).
  apply wp_let. eapply worked_wrapper; [done|]. destruct (decide (state_ wr3 = Running)) as [Hs3|Hs3].
  - eapply wp_mono; [by eapply continue_wp|]. intros w4 e4 r Hr. cbn beta in Hr. rewrite ?app_nil_l, <- ?app_assoc in *. exact Hr.
  - apply wp_ret. rewrite ?app_nil_l, ?app_nil_r. by eapply ended_worked.
Qed.

Lemma onSuccess_wp v me d h headers body w f wr :
  proper_host v d h -> filters w !! me = Some f -> wrapper d f = Some wr -> http_request_ wr = true -> open d wr ->
  wp (onSuccess me d h headers body) w (call_ended me d w f wr).
Proof.
  intros Hh Hf Hw Hreq Ho. assert (Hs : state_ wr = HttpCall) by (unfold open in Ho; rewrite Hreq in Ho; by inversion Ho).
  apply wp_let. eapply wp_change_wrapper; [done..|]. apply wp_let. eapply wp_wrapper_of; [apply put_at|apply wrapper_set|].
  cbn [set_request state_]. rewrite decide_True by done. apply wp_let.
  eapply wp_change_wrapper; [apply put_at|apply wrapper_set|]. rewrite put_put.
  set (wr1 := set_state Running (set_request false wr)). set (f1 := set_wrapper d (Some wr1) _). set (w1 := put me f1 w).
  assert (Hm1 : moved me d w f w1 f1 []).
  { apply moved_put; [by destruct d|unfold f1; by rewrite !wrapper_set_opposite|done]. }
  apply wp_let. apply wp_catch. apply wp_let. apply wp_modify.
  eapply wp_mono; [by eapply (resume_wp v me d h None (pushed_response headers body) {| filters := filters w1; global_ctx := Some me |} f1 wr1);
    [|apply put_at|apply wrapper_set|..]|].
  intros w2 e2 r (wr2 & Hwk & Hex). rewrite ?app_nil_l.
  assert (Hwk2 : worked me d w f wr w2 wr2 e2).
  { apply (worked_after me d w f wr {| filters := filters w1; global_ctx := Some me |} f1 wr1 []); try done.
    apply (moved_trans me d w f w1 f1 _ f1 [] []); [done|]. apply moved_ctx, put_at. }
  destruct r as [[]|what].
  - eapply wp_mono; [by eapply (after_call_wp v)|]. intros w3 e3 r Hr. by rewrite ?app_nil_l.
  - apply wp_let. eapply scriptError_wp; [done|]. intros w3 e3 Hwk3 _.
    destruct (Hex what eq_refl) as [Hrun _].
    eapply worked_change; [done|by split_and!|]. intros w4 Hwk4. rewrite ?app_nil_r.
    eapply wp_mono; [by eapply (after_call_wp v)|]. intros w5 e5 r Hr. cbn beta in Hr. rewrite ?app_nil_l, <- ?app_assoc in *. exact Hr.
Qed.

(** ** Errors

    Running scripts records no error and starts no body function: only the handlers do. *)

Definition starts_body (d : StreamDirection) (f : Filter) : bool :=
  match wrapper d f with Some w => start_body_ w | None => false end.
Definition flags (i : nat) (w : World) : option (bool * bool * bool) :=
  (fun f => (error_ f, starts_body DownstreamToUpstream f, starts_body UpstreamToDownstream f)) <$> filters w !! i.
Definition same_flags (w : World) (_ : list (nat * HostCall)) (w' : World) : Prop := forall i, flags i w' = flags i w.

#[local] Instance same_flags_trans : Transitive_effects same_flags.
Proof. split; [done|]. intros ? ? ? ? ? H1 H2 i. by rewrite H2, H1. Qed.

Lemma same_flags_put me f f' w :
  filters w !! me = Some f -> error_ f' = error_ f -> (forall d, starts_body d f' = starts_body d f) ->
  same_flags w [] (put me f' w).
Proof.
  intros Hf He Hs i. unfold flags. cbn. destruct (decide (me = i)) as [<-|Hi]; [|by rewrite lookup_insert_ne].
  rewrite lookup_insert_eq, Hf. cbn. by rewrite He, !Hs.
Qed.

Lemma holds_filter_of me : holds same_flags (filter_of me).
Proof. intros w. unfold filter_of. by destruct (filters w !! me). Qed.
Lemma holds_wrapper_of me d : holds same_flags (wrapper_of me d).
Proof.
  apply holds_let; [apply _|apply holds_filter_of|]. intros f.
  destruct (wrapper d f); [apply holds_ret|apply holds_lift]; apply _.
Qed.
Lemma holds_call me c : holds same_flags (call me c).
Proof. by intros w. Qed.

Lemma holds_change me g :
  (forall f, error_ (g f) = error_ f) -> (forall f d, starts_body d (g f) = starts_body d f) ->
  holds same_flags (change me g).
Proof.
  intros He Hs w. unfold change, mlet, filter_of. destruct (filters w !! me) as [f|] eqn:E; [|done]. cbn.
  apply (same_flags_put me f); auto.
Qed.

Lemma holds_change_wrapper me d g :
  (forall wr, start_body_ (g wr) = start_body_ wr) -> holds same_flags (change_wrapper me d g).
Proof.
  intros Hg w. unfold change_wrapper, wrapper_of, change, mlet, filter_of, mret, lift.
  destruct (filters w !! me) as [f|] eqn:E; [|done]. destruct (wrapper d f) as [wr|] eqn:Ew; [|done]. rewrite E. cbn.
  apply (same_flags_put me f); [done|done|]. intros d'. unfold starts_body.
  destruct (decide (d' = d)) as [->|Hne]; [by rewrite wrapper_set, Ew|].
  replace d' with (opposite d) by by destruct d, d'. by rewrite wrapper_set_opposite.
Qed.

Ltac flags_walk known :=
  walk ltac:(first
    [ known | apply holds_filter_of | apply holds_wrapper_of | apply holds_call
    | apply holds_change_wrapper; by intros []
    | apply holds_change; [by intros []|by intros [] []] ]).

Lemma holds_onDestroy me : holds same_flags (onDestroy me).
Proof. unfold onDestroy, resetInternalState, onReset. flags_walk fail. Qed.

Lemma holds_luaBody me d : holds same_flags (luaBody me d).
Proof. unfold luaBody. flags_walk fail. Qed.

Lemma holds_luaRespond me d h args : holds same_flags (luaRespond me d h args).
Proof. unfold luaRespond, callbacks_respond. flags_walk ltac:(apply holds_onDestroy). Qed.

Lemma holds_luaHttpCall me d h args : holds same_flags (luaHttpCall me d h args).
Proof. unfold luaHttpCall. flags_walk fail. Qed.

Lemma holds_luaFfi me v h c : holds same_flags (luaFfi me v h c).
Proof.
  assert (Hreach : forall target, holds same_flags (reach me target h c)).
  { intros target w. unfold reach, mlet, filter_of, lift, put_filter, modify, call, emit, mret.
    destruct (filters w !! target) as [f|] eqn:E; [|done].
    destruct (stream_call _ c (data_ f)) as [[[a dat] e]|?|?|]; try done.
    apply (same_flags_put target f); [done|done|by intros []]. }
  destruct v; cbn [luaFfi]; [apply Hreach|].
  apply holds_let; [apply _|apply holds_get; apply _|]. intros w. destruct (global_ctx w); [apply Hreach|apply holds_lift; apply _].
Qed.

Lemma holds_run me d h s : holds same_flags (run me d h s).
Proof.
  induction s as [|what| |args k IH|args k IH|d' k IH|v' c k IH]; cbn [run].
  1-3: apply holds_ret; apply _.
  all: apply holds_let; [apply _|first [apply holds_luaRespond|apply holds_luaHttpCall|apply holds_luaBody|apply holds_luaFfi]|].
  1-3: intros [a|]; [apply IH|apply holds_ret; apply _].
  intros a. apply IH.
Qed.

Lemma holds_resume me d h start_function l : holds same_flags (resume me d h start_function l).
Proof. unfold resume. flags_walk ltac:(apply holds_run). Qed.

Lemma holds_start me d h ref : holds same_flags (start me d h ref).
Proof. unfold start, coroutine_start. flags_walk ltac:(apply holds_resume). Qed.

Lemma holds_onData me d h data end_stream : holds same_flags (onData me d h data end_stream).
Proof. unfold onData. flags_walk ltac:(first [apply holds_resume | apply holds_luaBody]). Qed.

(** In version 1 an error is recorded only by a handler that lets the message pass, and no body
    function ever waits for a call. *)
Definition errs_open (me : nat) (d : StreamDirection) (w : World) (f : Filter) (w' : World) (pass : Prop) : Prop :=
  forall f', filters w' !! me = Some f' ->
    (error_ f' = true -> error_ f = true \/ pass) /\ (starts_body d f' = true -> starts_body d f = true).

Lemma same_flags_errs me d w f w1 f1 e w' pass :
  filters w1 !! me = Some f1 -> error_ f1 = error_ f -> (starts_body d f1 = true -> starts_body d f = true) ->
  same_flags w1 e w' -> errs_open me d w f w' pass.
Proof.
  intros Hf1 He Hs Hsame f' Hf'. specialize (Hsame me). unfold flags in Hsame. rewrite Hf1, Hf' in Hsame.
  injection Hsame as E1 E2 E3. rewrite E1, He. split; [auto|]. intros H'. apply Hs. destruct d; congruence.
Qed.

Lemma scriptError_flags me what d w0 f0 w (Q : World -> list (nat * HostCall) -> unit + string -> Prop) (pass : Prop) :
  (forall f, filters w !! me = Some f -> starts_body d f = true -> starts_body d f0 = true) -> pass ->
  (forall w' e, errs_open me d w0 f0 w' pass -> Q w' e (inl tt)) ->
  wp (scriptError me what) w Q.
Proof.
  intros Hs Hp HQ. unfold scriptError, wp, change, mlet, filter_of, put_filter, modify, call, emit.
  destruct (filters w !! me) as [f|] eqn:E; [|done]. apply HQ. intros f'. cbn. rewrite lookup_insert_eq.
  intros [= <-]. split; [auto|]. intros Hst. apply (Hs f eq_refl). by destruct d.
Qed.

Lemma same_flags_starts me d w1 f1 f e w2 :
  filters w1 !! me = Some f1 -> (starts_body d f1 = true -> starts_body d f = true) -> same_flags w1 e w2 ->
  forall f2, filters w2 !! me = Some f2 -> starts_body d f2 = true -> starts_body d f = true.
Proof.
  intros Hf1 Hs Hsame f2 Hf2 H2. specialize (Hsame me). unfold flags in Hsame. rewrite Hf1, Hf2 in Hsame.
  injection Hsame as E1 E2 E3. apply Hs. destruct d; congruence.
Qed.

Lemma doHeaders_errors me d h ref end_stream w f :
  filters w !! me = Some f ->
  wp (doHeaders me d h ref end_stream) w (fun w' e r => errs_open me d w f w' (r = inl Http.Continue)).
Proof.
  intros Hf. apply wp_let. eapply wp_filter_of; [done|].
  assert (Hstay : errs_open me d w f w (inl (B := string) Http.Continue = inl Http.Continue)) by (intros f' ?; simplify_eq; auto).
  destruct (error_ f), ref as [ref|]; try by apply wp_ret.
  apply wp_let. eapply wp_change; [done|]. set (f1 := set_wrapper _ _ f).
  assert (Hs1 : starts_body d f1 = true -> starts_body d f = true) by (unfold starts_body, f1; by rewrite wrapper_set).
  assert (He1 : error_ f1 = error_ f) by by destruct d.
  apply wp_catch. eapply wp_holds; [apply holds_start|]. intros w1 e1 [s|what] Hsame.
  - eapply (same_flags_errs me d w f _ f1); [apply put_at|done|done|exact Hsame].
  - apply wp_let. apply (scriptError_flags me what d w f _ _ True); [|done|].
    { by eapply (same_flags_starts me d (put me f1 w) f1 f e1 w1); [apply put_at|..]. }
    intros w2 e2 Ho. apply wp_ret. intros f' Hf'. destruct (Ho f' Hf'). auto.
Qed.

Lemma onStreamData_errors me d h data end_stream w f :
  version (handle config_ me) = v1 -> filters w !! me = Some f ->
  wp (onStreamData config_ me d h data end_stream) w (fun w' e r => errs_open me d w f w' (exists data, r = inl (Continue, data))).
Proof.
  intros Hv Hf. apply wp_let. eapply wp_filter_of; [done|]. cbn zeta. rewrite Hv.
  assert (Hstay : errs_open me d w f w (exists data', inl (B := string) (Continue, data) = inl (Continue, data'))) by (intros f' ?; simplify_eq; eauto).
  destruct (error_ f), (wrapper d f); try by apply wp_ret.
  apply wp_catch. eapply wp_holds; [apply holds_onData|]. intros w1 e1 [s'|what] Hsame.
  - by eapply (same_flags_errs me d w f w f).
  - assert (Hst : forall f2, filters w1 !! me = Some f2 -> starts_body d f2 = true -> starts_body d f = true)
      by by eapply (same_flags_starts me d w f f).
    unfold wp, change, mlet, filter_of, put_filter, modify, call, emit, mret.
    destruct (filters w1 !! me) as [f1|] eqn:E; cbn; [|done]. intros f'. cbn. rewrite lookup_insert_eq. intros [= <-].
    split; [eauto|]. intros H1. apply (Hst f1 eq_refl). by destruct d.
Qed.

Lemma continue_after_call_plain me d h w f wr :
  filters w !! me = Some f -> wrapper d f = Some wr -> start_body_ wr = false ->
  continue_after_call me d h w = (w, if decide (state_ wr = Running) then [(me, continueIteration d)] else [], Ok tt).
Proof.
  intros Hf Hw Hs. unfold continue_after_call, wrapper_of, mlet, filter_of. rewrite Hf, Hw. cbn. rewrite Hs.
  by destruct (decide (state_ wr = Running)).
Qed.

Lemma wp_flags_wrapper me d w0 f0 w e :
  filters w0 !! me = Some f0 -> starts_body d f0 = false -> same_flags w0 e w ->
  forall f wr, filters w !! me = Some f -> wrapper d f = Some wr -> start_body_ wr = false.
Proof.
  intros Hf0 Hs0 Hsame f wr Hf Hw. destruct (start_body_ wr) eqn:E; [|done].
  pose proof (same_flags_starts me d w0 f0 f0 e w Hf0 (fun x => x) Hsame f Hf) as H'. unfold starts_body in H' at 1.
  rewrite Hw in H'. rewrite H' in Hs0; done.
Qed.

Lemma change_wrapper_run me d g w f wr :
  filters w !! me = Some f -> wrapper d f = Some wr ->
  change_wrapper me d g w = (put me (set_wrapper d (Some (g wr)) f) w, [], Ok tt).
Proof. intros Hf Hw. unfold change_wrapper, wrapper_of, change, mlet, filter_of, put_filter, modify. by rewrite Hf, Hw; cbn; rewrite Hf. Qed.

Lemma onSuccess_errors me d h headers body w f :
  filters w !! me = Some f -> starts_body d f = false ->
  wp (onSuccess me d h headers body) w (fun w' e r =>
    errs_open me d w f w' (d = DownstreamToUpstream -> continued e = true)).
Proof.
  intros Hf Hs. apply wp_let. eapply wp_holds; [by apply holds_change_wrapper; intros []|].
  intros w1 e1 [[]|what] H1; [|by eapply (same_flags_errs me d w f w f)].
  apply wp_let. eapply wp_holds; [apply holds_wrapper_of|]. intros w2 e2 [wr|what] H2;
    [|by eapply (same_flags_errs me d w f w f); [..|eapply (te_trans (R := same_flags))]].
  pose proof (te_trans (R := same_flags) _ _ _ _ _ H1 H2) as H12.
  destruct (decide (state_ wr = HttpCall)); [|apply wp_ret; by eapply (same_flags_errs me d w f w f)].
  apply wp_let. eapply wp_holds; [by apply holds_change_wrapper; intros []|].
  intros w3 e3 [[]|what] H3; pose proof (te_trans (R := same_flags) _ _ _ _ _ H12 H3) as H13;
    [|by eapply (same_flags_errs me d w f w f)].
  apply wp_let, wp_catch. eapply wp_holds with (R := same_flags).
  { apply holds_let; [apply _| |intros _; apply holds_resume]. by intros w'. }
  intros w4 e4 [[]|what] H4; pose proof (te_trans (R := same_flags) _ _ _ _ _ H13 H4) as H14.
  - unfold wp. destruct (filters w4 !! me) as [f4|] eqn:E4.
    2: { unfold continue_after_call, wrapper_of, mlet, filter_of. by rewrite E4. }
    destruct (wrapper d f4) as [wr4|] eqn:W4.
    2: { unfold continue_after_call, wrapper_of, mlet, filter_of, lift. by rewrite E4, W4. }
    rewrite (continue_after_call_plain me d h w4 f4 wr4); [|done|done|by eapply (wp_flags_wrapper me d w f w4)].
    by eapply (same_flags_errs me d w f w f).
  - apply wp_let. unfold scriptError, wp, change, mlet, filter_of, put_filter, modify, call, emit.
    destruct (filters w4 !! me) as [f4|] eqn:E4; [|done]. cbn [fst snd].
    set (w5 := {| filters := _; global_ctx := _ |}). set (f5 := set_flags _ _ _ f4) in w5.
    assert (Hf5 : filters w5 !! me = Some f5) by apply lookup_insert_eq.
    destruct (wrapper d f4) as [wr4|] eqn:W4.
    2: { unfold change_wrapper, wrapper_of, mlet, filter_of, lift. rewrite Hf5.
      assert (wrapper d f5 = None) as -> by by destruct d. done. }
    pose proof (wp_flags_wrapper me d w f w4 _ Hf Hs H14 f4 wr4 E4 W4) as Hs4.
    assert (W5 : wrapper d f5 = Some wr4) by by destruct d.
    rewrite (change_wrapper_run me d _ w5 f5 wr4) by done. set (w6 := put me _ w5).
    rewrite (continue_after_call_plain me d h w6 (set_wrapper d (Some (set_state Running wr4)) f5) (set_state Running wr4));
      [|apply put_at|apply wrapper_set|done]. cbn [set_state state_]. rewrite decide_True by done.
    intros f'. cbn. rewrite lookup_insert_eq. intros [= <-]. split.
    + intros _. right. intros ->. unfold continued. rewrite !existsb_app. cbn. by rewrite !orb_true_r.
    + unfold starts_body at 1. rewrite wrapper_set. cbn. by rewrite Hs4.
Qed.

(** ** The invariant of a stream *)

Definition strict (v : Version) (p : Progress) : bool :=
  match v with v1 => ended p && negb (trailers p) | v2 => false end.

(** The request as an event is through with it: trailers pass it on. *)
Definition request_event (e : Event) : Prop :=
  match e with RequestHeaders _ _ _ _ | RequestData _ _ _ | RequestTrailers _ => True | _ => False end.
Definition trailers_pass (e : Event) (reply : option StreamDirection) : Prop :=
  match e with RequestTrailers _ => reply = Some DownstreamToUpstream | _ => True end.

(** A request that has not passed is answered, waits for a call or for data that will still come. *)
Record fine (v : Version) (p : Progress) (f : Filter) : Prop := {
  fn_fresh : started p = false -> request_stream_wrapper_ f = None /\ response_stream_wrapper_ f = None /\
    responded f = false /\ error_ f = false /\ ended p = false /\ passed p = false /\ answered p = 0%nat;
  fn_none : request_stream_wrapper_ f = None -> answered p = 0%nat /\ (started p = true -> passed p = true);
  fn_some : forall wr, request_stream_wrapper_ f = Some wr ->
    rests DownstreamToUpstream (strict v p) (state_ wr) (http_request_ wr) (answered p) /\
    (passed p = false -> end_stream_ wr = ended p) /\
    match v with
    | v1 => passed p = trailers p || bool_decide (state_ wr = Running)
    | v2 => passed p = true \/ state_ wr = HttpCall \/ state_ wr = Responded \/ ended p = false
    end;
  fn_response : forall wr, response_stream_wrapper_ f = Some wr ->
    open UpstreamToDownstream wr /\ (passed p = true \/ answered p ≠ 0%nat);
  fn_v1 : v = v1 -> starts_body DownstreamToUpstream f = false /\
    (error_ f = true -> passed p = true \/ answered p ≠ 0%nat);
  fn_trailers : trailers p = true -> ended p = true /\ passed p = true;
}.

(** At most one answer; in version 1, none to a request that has passed, but for one that trailers have passed. *)
Definition exclusive (v : Version) (p : Progress) : Prop :=
  (answered p <= 1)%nat /\ (v = v1 -> passed p = true -> trailers p = false -> answered p = 0%nat).

Lemma fine_exclusive v p f : fine v p f -> exclusive v p.
Proof.
  intros [_ Hn Hs _ _ _]. destruct (request_stream_wrapper_ f) as [wr|].
  - destruct (Hs wr eq_refl) as (Hr & _ & Hv). split; [inversion Hr; lia|]. intros -> Hp Ht. rewrite Hp, Ht in Hv. symmetry in Hv.
    apply bool_decide_eq_true in Hv. rewrite Hv in Hr. by inversion Hr.
  - destruct (Hn eq_refl) as [E _]. split; [lia|done].
Qed.

Definition kept (v : Version) (p : Progress) (f : Filter) : Prop :=
  exclusive v p /\ (destroyed_ f = false -> fine v p f).

Lemma fine_kept v p f : fine v p f -> kept v p f.
Proof. intros Hf. split; [by eapply fine_exclusive|done]. Qed.

Lemma kept_control v p f f' : control f' = control f -> kept v p f -> kept v p f'.
Proof.
  unfold control. intros E [He Hf]. injection E as E1 E2 E3 E4 E5. split; [done|]. rewrite E3. intros Hd.
  destruct (Hf Hd) as [H1 H2 H3 H4 H5 H6]. split; rewrite ?E1, ?E2, ?E4, ?E5; auto.
  unfold starts_body, wrapper in *. by rewrite E1.
Qed.

(** What one event does to the filter it is for, and to the others. *)
Record happened (v : Version) (me : nat) (e : Event) (p : Progress) (w w' : World) (cs : list (nat * HostCall))
    (reply : option StreamDirection) : Prop := {
  hp_kept : exists f', filters w' !! me = Some f' /\ kept v (advance e reply cs p) f';
  hp_else : forall i, i ≠ me -> control <$> filters w' !! i = control <$> filters w !! i;
  hp_own : Forall (fun c => c.1 = me /\ own c) cs;
}.

Lemma moved_happened v me d (e : Event) p w f w' f' cs reply :
  moved me d w f w' f' cs -> kept v (advance e reply cs p) f' -> happened v me e p w w' cs reply.
Proof. intros [Ha _ _ He _ Ho] Hk. split; [eauto|done|done]. Qed.

(** A later change of the host's buffers. *)
Lemma keep_data_wp me d r w f (Q : World -> list (nat * HostCall) -> unit + string -> Prop) :
  filters w !! me = Some f ->
  (forall b, Q (put me (set_buffer d b f) w) [] (inl tt)) -> Q w [] (inl tt) -> wp (keep_data me d r) w Q.
Proof.
  intros Hf Hb Hn. unfold keep_data. destruct r.1; [|eapply wp_change; [done|apply Hb]|by apply wp_ret].
  eapply wp_change; [done|]. apply Hb.
Qed.

Lemma control_buffer d b f : control (set_buffer d b f) = control f.
Proof. done. Qed.

Lemma moved_keep v me d d' b (e : Event) p w f w' f' cs reply :
  moved me d w f w' f' cs -> kept v (advance e reply cs p) f' ->
  happened v me e p w (put me (set_buffer d' b f') w') cs reply.
Proof.
  intros Hm Hk. eapply (moved_happened v me d e p w f _ (set_buffer d' b f')); [|by apply (kept_control _ _ f')].
  rewrite <- (app_nil_r cs). eapply moved_trans; [done|]. apply moved_put; [done|by destruct d|done].
Qed.

(** Progress after an event of the request, and after any other event. *)
Lemma fine_up v (e : Event) p f f' cs reply :
  fine v p f -> started p = true ->
  ~ request_event e ->
  reply ≠ Some DownstreamToUpstream -> answers cs = 0%nat -> continued cs = false ->
  request_stream_wrapper_ f' = request_stream_wrapper_ f -> passed p = true \/ answered p ≠ 0%nat ->
  (forall wr, response_stream_wrapper_ f' = Some wr -> open UpstreamToDownstream wr) ->
  fine v (advance e reply cs p) f'.
Proof.
  intros [H1 H2 H3 H4 H5 H6] Hst He Hr Ha Hc Hw Hp Ho.
  assert (Hadv : advance e reply cs p = p).
  { unfold advance, continued in *. rewrite Ha, Hc, (bool_decide_false (reply = _)) by done. destruct p; cbn.
    rewrite Nat.add_0_r, !orb_false_r. destruct e; try (by destruct He); by rewrite ?orb_false_r. }
  rewrite Hadv. split; rewrite ?Hw; try done; [rewrite Hst; done|auto|].
  intros Hv. destruct (H5 Hv) as [Hs _]. split; [|auto]. unfold starts_body, wrapper in *. by rewrite Hw.
Qed.

Lemma open_rests wr b n : rests UpstreamToDownstream b (state_ wr) (http_request_ wr) n -> open UpstreamToDownstream wr /\ n = 0%nat.
Proof. unfold open. intros Hr. inversion Hr as [| | |Hd]; try (split; [by constructor|done]). done. Qed.

Lemma handled_up me es w f w' wr' cs :
  handled me UpstreamToDownstream es w f w' wr' cs ->
  exists f', moved me UpstreamToDownstream w f w' f' cs /\ answers cs = 0%nat /\
    (forall wr, response_stream_wrapper_ f' = Some wr -> open UpstreamToDownstream wr).
Proof.
  intros [(f' & Hm & Hw) _ Hr]. destruct (open_rests _ _ _ Hr) as [Ho Ha]. exists f'. split_and!; [done|done|].
  intros wr Hwr. cbn in Hw. congruence.
Qed.

(** Work on the response leaves the request as it is. *)
Lemma kept_up v me (e : Event) p w f w' f' cs reply :
  kept v p f -> destroyed_ f = false -> started p = true ->
  ~ request_event e ->
  moved me UpstreamToDownstream w f w' f' cs -> reply ≠ Some DownstreamToUpstream ->
  answers cs = 0%nat -> continued cs = false -> passed p = true \/ answered p ≠ 0%nat ->
  (forall wr, response_stream_wrapper_ f' = Some wr -> open UpstreamToDownstream wr) ->
  kept v (advance e reply cs p) f'.
Proof.
  intros [Hex Hf] Hd Hst He Hm Hr Ha Hc Hp Ho. split.
  - destruct Hex as [H1 H2]. unfold exclusive, advance. unfold continued in Hc. cbn [answered passed].
    rewrite Ha, Hc, (bool_decide_false (reply = _)), Nat.add_0_r, !orb_false_r by done. split; [done|].
    intros Hv Hp' [Ht _]%orb_false_iff. auto.
  - intros Hd'. eapply fine_up; eauto. by apply Hm.
Qed.

(** Progress of the request. *)
Lemma fine_down v (e : Event) p f f' cs reply :
  let p' := advance e reply cs p in
  fine v p f -> trailers_pass e reply -> started p' = true -> response_stream_wrapper_ f' = response_stream_wrapper_ f ->
  (request_stream_wrapper_ f' = None -> answered p' = 0%nat /\ passed p' = true) ->
  (forall wr, request_stream_wrapper_ f' = Some wr ->
    rests DownstreamToUpstream (strict v p') (state_ wr) (http_request_ wr) (answered p') /\
    (passed p' = false -> end_stream_ wr = ended p') /\
    match v with
    | v1 => passed p' = trailers p' || bool_decide (state_ wr = Running)
    | v2 => passed p' = true \/ state_ wr = HttpCall \/ state_ wr = Responded \/ ended p' = false
    end) ->
  (v = v1 -> starts_body DownstreamToUpstream f' = false /\ (error_ f' = true -> passed p' = true \/ answered p' ≠ 0%nat)) ->
  fine v p' f'.
Proof.
  intros p' [H1 H2 H3 H4 H5 H6] Ht Hst Hresp Hnone Hsome Hv1. split; try done.
  - by rewrite Hst.
  - intros Hn. destruct (Hnone Hn). auto.
  - intros wr. rewrite Hresp. intros Hwr. destruct (H4 wr Hwr) as [Ho Hp]. split; [done|].
    unfold p', advance. cbn [passed answered]. destruct Hp as [->|Hp]; [by left|right; lia].
  - unfold p', advance. cbn [passed ended trailers]. intros [Hx|Hx]%orb_true_iff; [by destruct (H6 Hx) as [-> ->]|].
    destruct e; try done. cbn in Ht. rewrite Ht, bool_decide_true by done. by rewrite !orb_true_r.
Qed.
End filter.
