(* ===== verification/RiderSafety.v ===== *)
(** * Lua scripts and their streams: every event, and what holds of every run

    The rules of RiderProofs.v are put together: one lemma for each event the host delivers, the
    invariant of a thread, and the properties of all runs. *)

From S2P Require Import Prelude Decimal Json Http TrafficMark MetadataHub RiderContext.
From stdpp Require Import base gmap strings numbers list.
From S2P Require Import Effects RiderFilter RiderProofs.
#[local] Open Scope Z_scope.
#[local] Open Scope proxy_scope.

Import Context Rider.

Section filter.
Context {H V : Type} `{!HeaderMap H, !LuaValues V}.
#[local] Abbreviation Filter := (@Filter H).
#[local] Abbreviation World := (@World H).
#[local] Abbreviation HostCall := (@HostCall H).
#[local] Abbreviation Host := (@Host H V).
#[local] Abbreviation Event := (@Event H).
#[local] Abbreviation System := (@System H).
#[local] Abbreviation prog := (M World (nat * HostCall)).
Context (config_ : nat -> Config).
Implicit Types (h : Host) (ev : Event) (cs : list (nat * HostCall)) (w : World) (f : Filter) (s : System).

(** ** Events *)

(** The goal for one event: it returns, and keeps the invariant. *)
Definition event_fine (v : Version) ev p w (w' : World) cs (r : option StreamDirection + string) : Prop :=
  exists reply, r = inl reply /\ happened v (id_of ev) ev p w w' cs reply.

Lemma version_cases (v : Version) : v = v1 \/ v = v2.
Proof. destruct v; auto. Qed.

Lemma kept_down v me ev p w f w' f' cs reply :
  let p' := advance ev reply cs p in
  fine v p f -> trailers_pass ev reply -> moved me DownstreamToUpstream w f w' f' cs -> started p' = true ->
  (request_stream_wrapper_ f' = None -> answered p' = 0%nat /\ passed p' = true) ->
  (forall wr, request_stream_wrapper_ f' = Some wr ->
    rests DownstreamToUpstream (strict v p') (state_ wr) (http_request_ wr) (answered p') /\
    (passed p' = false -> end_stream_ wr = ended p') /\
    match v with
    | v1 => passed p' = trailers p' || bool_decide (state_ wr = Running)
    | v2 => passed p' = true \/ state_ wr = HttpCall \/ state_ wr = Responded \/ ended p' = false
    end) ->
  (v = v1 -> starts_body DownstreamToUpstream f' = false /\ (error_ f' = true -> passed p' = true \/ answered p' ≠ 0%nat)) ->
  kept v p' f'.
Proof.
  intros p' Hfine Ht Hm Hst Hnone Hsome Hv1. split.
  - clearbody p'. destruct (request_stream_wrapper_ f') as [wr|].
    + destruct (Hsome wr eq_refl) as (Hr & _ & Hv). split; [inversion Hr; lia|]. intros -> Hp Htr. rewrite Hp, Htr in Hv.
      symmetry in Hv. apply bool_decide_eq_true in Hv. rewrite Hv in Hr. by inversion Hr.
    + destruct (Hnone eq_refl) as [E _]. split; [lia|done].
  - intros Hd. eapply fine_down; try done. by apply (mv_other _ _ _ _ _ _ _ Hm).
Qed.

(** Other events leave the end of the request as it is. *)
Lemma advance_other ev reply cs p :
  ~ request_event ev -> ended (advance ev reply cs p) = ended p /\ trailers (advance ev reply cs p) = trailers p.
Proof. intros He. destruct ev; cbn in *; by rewrite ?orb_false_r. Qed.
Lemma other_trailers_pass ev reply : ~ request_event ev -> trailers_pass ev reply.
Proof. by destruct ev. Qed.

(** A request that goes on has had no trailers. *)
Lemma no_trailers v p f : fine v p f -> ended p = false -> trailers p = false.
Proof. intros Hf He. destruct (trailers p) eqn:E; [|done]. destruct (fn_trailers _ _ _ Hf E). congruence. Qed.

(** The rest of a step that is not about progress. *)
Lemma advance_answered ev reply cs p : answered (advance ev reply cs p) = (answered p + answers cs)%nat.
Proof. done. Qed.
Lemma advance_passed ev reply cs p :
  passed (advance ev reply cs p) = passed p || bool_decide (reply = Some DownstreamToUpstream) || continued cs.
Proof. done. Qed.

Lemma destroy_event v me h p w f :
  filters w !! me = Some f -> kept v p f ->
  wp (handle_event config_ (Destroy me) h) w (event_fine v (Destroy me) p w).
Proof.
  intros Hf [Hex _]. apply wp_let. eapply wp_mono; [by eapply (onDestroy_wp me DownstreamToUpstream)|].
  intros w' cs r (-> & (_ & Ha & Hc) & f' & Hm & Hd & _). apply wp_ret. rewrite app_nil_r. exists None. split; [done|].
  eapply moved_happened; [exact Hm|]. split; [|congruence]. unfold exclusive.
  rewrite advance_answered, advance_passed, Ha, Hc, bool_decide_false, Nat.add_0_r, !orb_false_r by done.
  destruct Hex as [H1 H2]. split; [done|]. intros Hv Hp [Ht _]%orb_false_iff. auto.
Qed.

Lemma create_event me h w :
  filters w !! me = None ->
  wp (handle_event config_ (Create me) h) w (event_fine (version (handle config_ me)) (Create me) fresh w).
Proof.
  intros Hf. apply wp_let, wp_modify, wp_let, wp_modify, wp_ret. exists None. split; [done|]. split; cbn.
  - exists new_Filter. split; [apply lookup_insert_eq|]. apply fine_kept. by split.
  - intros i Hi. by rewrite lookup_insert_ne.
  - done.
Qed.

(** *** The headers of the request *)

Definition headers_reply (d : StreamDirection) (st : FilterHeadersStatus) : option StreamDirection :=
  match st with Http.Continue => Some d | _ => None end.

Definition direction_fine (v : Version) me d ev p w f w' cs (r : FilterHeadersStatus + string) : Prop :=
  exists st f', r = inl st /\ moved me d w f w' f' cs /\ kept v (advance ev (headers_reply d st) cs p) f'.

(** A wrapper made for the request. *)
Lemma request_started v me route headers end_stream p w f w' wr' cs st :
  let ev := RequestHeaders me route headers end_stream in
  fine v p f -> started p = false ->
  worked me DownstreamToUpstream w f (new_StreamWrapper end_stream) w' wr' cs ->
  match v with
  | v1 => st = Http.Continue /\ state_ wr' = Running \/ st ≠ Http.Continue /\ state_ wr' ≠ Running
  | v2 => state_ wr' = Running -> st = Http.Continue \/ end_stream = false
  end ->
  (v = v1 -> errs_open me DownstreamToUpstream w f w' (st = Http.Continue)) ->
  direction_fine v me DownstreamToUpstream ev p w f w' cs (inl st).
Proof.
  intros ev Hfine Hst Hwk Hs Herr. destruct (fn_fresh _ _ _ Hfine Hst) as (Hw & _ & _ & He & Hend & Hp & Ha).
  destruct Hwk as [(f' & Hm & Hw') Hwe Hr Hc]. exists st, f'. split_and!; [done|done|].
  assert (Hp' : passed (advance ev (headers_reply DownstreamToUpstream st) cs p) = bool_decide (st = Http.Continue)).
  { rewrite advance_passed, Hp, Hc, orb_false_r. cbn. by destruct st. }
  assert (Hend' : ended (advance ev (headers_reply DownstreamToUpstream st) cs p) = end_stream) by (cbn; by rewrite Hend).
  assert (Htr : trailers (advance ev (headers_reply DownstreamToUpstream st) cs p) = false)
    by (cbn; by rewrite (no_trailers _ _ _ Hfine)).
  eapply kept_down; [done|done|done| | | |].
  - cbn. apply orb_true_r.
  - cbn in Hw'. rewrite Hw'. done.
  - intros wr. cbn in Hw'. rewrite Hw'. intros [= <-]. rewrite advance_answered, Ha, Hp', Hend'. cbn [Nat.add]. cbn in Hr.
    split_and!; [destruct v; unfold strict; rewrite ?Hend', ?Htr, ?andb_true_r; [done|by eapply rests_weaken]|done|]. rewrite Htr.
    destruct v; [destruct Hs as [[-> ->]|[Hs1 Hs2]]; [by rewrite !bool_decide_true|by rewrite !bool_decide_false]|].
    inversion Hr as [E|E1 E|E|E1 E]; auto. symmetry in E. destruct (Hs E) as [->|]; auto.
  - intros Hv. destruct (Herr Hv f' (mv_at _ _ _ _ _ _ _ Hm)) as [He' Hs']. destruct (fn_v1 _ _ _ Hfine Hv) as [Hs0 _]. split.
    + destruct (starts_body DownstreamToUpstream f'); [|done]. by rewrite Hs' in Hs0.
    + rewrite Hp'. intros Hx. destruct (He' Hx) as [E| ->]; [congruence|]. by left.
Qed.

(** A request that passes without a wrapper. *)
Lemma request_skipped v me route headers end_stream p w f w' f' cs :
  let ev := RequestHeaders me route headers end_stream in
  fine v p f -> started p = false -> moved me DownstreamToUpstream w f w' f' cs -> answers cs = 0%nat ->
  request_stream_wrapper_ f' = None ->
  direction_fine v me DownstreamToUpstream ev p w f w' cs (inl Http.Continue).
Proof.
  intros ev Hfine Hst Hm Hcs Hw'. destruct (fn_fresh _ _ _ Hfine Hst) as (_ & _ & _ & _ & _ & Hp & Ha).
  exists Http.Continue, f'. split_and!; [done|done|]. assert (Hp' : forall p0, passed (advance ev (Some DownstreamToUpstream) cs p0) = true).
  { intros p0. rewrite advance_passed. cbn. by rewrite orb_true_r. }
  eapply kept_down; [done|done|done| | | |].
  - cbn. apply orb_true_r.
  - intros _. split; [|apply Hp']. rewrite advance_answered. lia.
  - by rewrite Hw'.
  - intros _. split; [|by left; apply Hp']. unfold starts_body. cbn. by rewrite Hw'.
Qed.

Lemma doDirection_down me h route headers end_stream p w f :
  let v := version (handle config_ me) in
  filters w !! me = Some f -> fine v p f -> started p = false -> proper_host v DownstreamToUpstream h ->
  wp (doDirection config_ me DownstreamToUpstream h end_stream) w
    (direction_fine v me DownstreamToUpstream (RequestHeaders me route headers end_stream) p w f).
Proof.
  intros v Hf Hfine Hst Hh. destruct (fn_fresh _ _ _ Hfine Hst) as (Hw & _ & Hresp & _).
  unfold doDirection. cbn zeta. fold v. destruct v.
  - eapply wp_mono; [eapply wp_and; [by eapply doHeaders_wp|by eapply doHeaders_errors]|].
    intros w' cs r [[(-> & -> & ->)|(wr' & Hwk & Hr)] Herr].
    + by eapply (request_skipped v1 me route headers end_stream p w f w f).
    + destruct Hr as [[-> Hs]|[-> Hs]]; (eapply request_started; [done|done|exact Hwk| |intros _ f' Hf']).
      * by left.
      * destruct (Herr f' Hf') as [E1 E2]. split; [|done]. intros Hx. destruct (E1 Hx); [by left|by right].
      * by right.
      * destruct (Herr f' Hf') as [E1 E2]. split; [|done]. intros Hx. destruct (E1 Hx); [by left|done].
  - eapply wp_mono; [by eapply doHeaders_v2_wp|].
    intros w' cs r [(f' & Hm & Hsil & Hws & Hr)|(wr' & st & Hwk & -> & Hs)].
    + destruct Hr as [->|[_ Hr]]; [|congruence]. eapply request_skipped; [done|done|exact Hm|by destruct Hsil as (_ & ? & _)|].
      specialize (Hws DownstreamToUpstream). cbn in Hws. congruence.
    + by eapply (request_started v2).
Qed.

Lemma moved_data me d w f x : filters w !! me = Some f -> moved me d w f (put me (set_data x f) w) (set_data x f) [].
Proof. intros Hf. apply moved_put; [done|by destruct d|done]. Qed.

Lemma fine_control v p f f' : control f' = control f -> fine v p f -> fine v p f'.
Proof.
  unfold control. intros E. injection E as E1 E2 E3 E4 E5. intros [H1 H2 H3 H4 H5 H6].
  split; rewrite ?E1, ?E2, ?E4, ?E5; auto. unfold starts_body, wrapper in *. by rewrite E1.
Qed.

Lemma direction_after v me d ev p w f w1 f1 w' cs r :
  moved me d w f w1 f1 [] -> direction_fine v me d ev p w1 f1 w' cs r -> direction_fine v me d ev p w f w' cs r.
Proof.
  intros Hm (st & f' & -> & Hm' & Hk). exists st, f'. split_and!; [done| |done].
  by apply (moved_trans me d w f w1 f1 w' f' [] cs).
Qed.

Lemma decodeHeaders_wp me h route headers end_stream p w f :
  let v := version (handle config_ me) in
  filters w !! me = Some f -> fine v p f -> started p = false -> proper_host v DownstreamToUpstream h ->
  wp (decodeHeaders config_ me h route headers end_stream) w
    (direction_fine v me DownstreamToUpstream (RequestHeaders me route headers end_stream) p w f).
Proof.
  intros v Hf Hfine Hst Hh.
  assert (Hgo : forall w0 f0, filters w0 !! me = Some f0 -> fine v p f0 ->
    wp (change me (fun f => set_data (set_request_headers (Some headers) (data_ f)) f) ;;
        doDirection config_ me DownstreamToUpstream h end_stream) w0
      (direction_fine v me DownstreamToUpstream (RequestHeaders me route headers end_stream) p w0 f0)).
  { intros w0 f0 Hf0 Hfine0. apply wp_let. eapply wp_change; [done|]. set (x := set_request_headers _ _).
    eapply wp_mono; [by eapply (doDirection_down me h route headers end_stream p _ (set_data x f0));
      [apply put_at|by apply (fine_control v p f0)|..]|].
    intros w' cs r Hr. cbn [app]. eapply direction_after; [by apply moved_data|exact Hr]. }
  unfold decodeHeaders. destruct route as [r|].
  - apply wp_let. eapply wp_change; [done|]. cbv beta zeta. match goal with |- context [set_data ?y f] => set (x := y) end.
    eapply wp_mono; [apply (Hgo _ (set_data x f)); [apply put_at|by apply (fine_control v p f)]|].
    intros w' cs r' Hr. cbn [app]. eapply direction_after; [by apply moved_data|exact Hr].
  - destruct (allowNoRoute (config_ me)); [by apply Hgo|]. apply wp_ret.
    eapply request_skipped; [done|done|by apply moved_refl|done|]. by destruct (fn_fresh _ _ _ Hfine Hst).
Qed.

Lemma direction_event v d ev p w f w' cs r :
  direction_fine v (id_of ev) d ev p w f w' cs r ->
  exists st, r = inl st /\ event_fine v ev p w w' cs (inl (headers_reply d st)).
Proof.
  intros (st & f' & -> & Hm & Hk). exists st. split; [done|]. eexists. split; [done|].
  by eapply moved_happened.
Qed.

Lemma request_headers_event me h route headers end_stream p w f :
  let v := version (handle config_ me) in let ev := RequestHeaders me route headers end_stream in
  filters w !! me = Some f -> fine v p f -> started p = false -> proper_host v DownstreamToUpstream h ->
  wp (handle_event config_ ev h) w (event_fine v ev p w).
Proof.
  intros v ev Hf Hfine Hst Hh. apply wp_let. eapply wp_mono; [by eapply (decodeHeaders_wp me h route headers end_stream p)|].
  intros w' cs r Hr. destruct (direction_event v DownstreamToUpstream ev p w f w' cs r Hr) as (st & -> & Hev).
  apply wp_ret. rewrite app_nil_r. exact Hev.
Qed.

(** *** The data of the request *)

Definition data_reply (d : StreamDirection) (r : DataStatus * string) : option StreamDirection :=
  match r.1 with Continue => Some d | _ => None end.

Definition data_fine (v : Version) me d ev p w f w' cs (r : (DataStatus * string) + string) : Prop :=
  exists st f', r = inl st /\ moved me d w f w' f' cs /\ kept v (advance ev (data_reply d st) cs p) f'.

Lemma data_event v d ev p w f (m : prog (DataStatus * string)) :
  wp m w (data_fine v (id_of ev) d ev p w f) ->
  wp (do r <- m; keep_data (id_of ev) d r ;; mret (data_reply d r)) w (event_fine v ev p w).
Proof.
  intros Hm. apply wp_let. eapply wp_mono; [exact Hm|]. intros w1 cs r (st & f1 & -> & Hmoved & Hk). apply wp_let.
  eapply keep_data_wp; [by destruct Hmoved| |].
  - intros b. apply wp_ret. rewrite !app_nil_r. eexists. split; [done|]. by eapply moved_keep.
  - apply wp_ret. rewrite !app_nil_r. eexists. split; [done|]. by eapply moved_happened.
Qed.

(** Version 1, with its errors caught. *)
Definition streamed_v1 me d end_stream w f wr w' cs (r : (DataStatus * string) + string) : Prop :=
  exists st wr', r = inl st /\ worked me d w f (set_seen end_stream wr) w' wr' cs /\
    (state_ wr = Running -> state_ wr' = Running) /\ bool_decide (st.1 = Continue) = bool_decide (state_ wr' = Running).

Lemma onStreamData_v1 me d h data end_stream w f wr :
  version (handle config_ me) = v1 -> proper_host v1 d h -> filters w !! me = Some f -> error_ f = false ->
  wrapper d f = Some wr -> open d wr ->
  wp (onStreamData config_ me d h data end_stream) w (streamed_v1 me d end_stream w f wr).
Proof.
  intros Hv Hh Hf He Hw Ho. apply wp_let. eapply wp_filter_of; [done|]. cbn zeta. rewrite Hv, He, Hw. apply wp_catch.
  eapply wp_mono; [by apply (onData_wp me d h data end_stream w f wr)|].
  intros w1 cs [st|what] (wr1 & Hwk & Hrun & Hr).
  - exists st, wr1. split_and!; [done|done|done|]. destruct Hr as [[-> ->]|[Hs1 Hs2]]; [by rewrite !bool_decide_true|].
    by rewrite !bool_decide_false.
  - unfold wp. rewrite <- (mlet_assoc (change me _)). fold (scriptError (H := H) me what).
    change (wp (scriptError me what ;; mret (Continue, "")) w1 (fun w2 e2 r2 => streamed_v1 me d end_stream w f wr w2 (cs ++ e2) r2)).
    apply wp_let. eapply scriptError_wp; [exact Hwk|]. intros w2 e2 Hwk2 _. apply wp_ret. rewrite app_nil_r.
    exists (Continue, ""), wr1. split_and!; [done|done|done|]. by rewrite Hr, !bool_decide_true.
Qed.

(** Data that passes without a change of the wrapper. *)
Lemma data_passes v me data end_stream p w f :
  let ev := RequestData me data end_stream in
  filters w !! me = Some f -> fine v p f -> started p = true -> ended p = false ->
  answered p = 0%nat -> (v = v1 -> passed p = true) ->
  data_fine v me DownstreamToUpstream ev p w f w [] (inl (Continue, data)).
Proof.
  intros ev Hf Hfine Hst Hend Ha Hp1. pose proof (no_trailers _ _ _ Hfine Hend) as Htr. exists (Continue, data), f. split_and!; [done|by apply moved_refl|].
  set (p' := advance _ _ _ _). assert (Hp' : passed p' = true).
  { unfold p'. rewrite advance_passed. cbn. by rewrite orb_true_r. }
  assert (Ha' : answered p' = 0%nat) by (unfold p'; rewrite advance_answered, Ha; done).
  eapply kept_down; [done|done|by apply moved_refl| |done| |]; fold p'.
  - cbn. by rewrite Hst.
  - intros wr Hwr. destruct (fn_some _ _ _ Hfine wr Hwr) as (Hr & _ & Hv). rewrite Ha in Hr. rewrite Ha', Hp'.
    split_and!; [|done|].
    + destruct v; [|done]. rewrite Hp1, Htr in Hv by done. symmetry in Hv. apply bool_decide_eq_true in Hv.
      rewrite Hv in *. inversion Hr. apply rests_running.
    + destruct v; [|by left]. cbn [trailers p']. rewrite Hp1, Htr in Hv by done. unfold p'. cbn. by rewrite Htr.
  - intros Hv. split; [by apply (fn_v1 _ _ _ Hfine)|by left].
Qed.

Lemma fine_open v p f wr :
  fine v p f -> request_stream_wrapper_ f = Some wr -> answered p = 0%nat -> open DownstreamToUpstream wr.
Proof. intros Hf Hw Ha. destruct (fn_some _ _ _ Hf wr Hw) as (Hr & _). rewrite Ha in Hr. by eapply rests_weaken. Qed.

Section request_data.
Context (v : Version) (me : nat) (data : string) (end_stream : bool) (p : Progress) (w : World) (f : Filter).
#[local] Abbreviation ev := (RequestData me data end_stream).
Context (Hfine : fine v p f) (Hst : started p = true) (Hend : ended p = false) (Ha : answered p = 0%nat).
Context (Hf : filters w !! me = Some f).

Lemma streamed_fine wr w' cs r :
  v = v1 -> request_stream_wrapper_ f = Some wr ->
  streamed_v1 me DownstreamToUpstream end_stream w f wr w' cs r ->
  errs_open me DownstreamToUpstream w f w' (exists data, r = inl (Continue, data)) ->
  error_ f = false -> data_fine v me DownstreamToUpstream ev p w f w' cs r.
Proof.
  intros Hv Hw (st & wr1 & -> & Hwk & Hrun & Hs) Herr He. destruct Hwk as [(f' & Hm & Hw') Hwe Hr Hc].
  exists st, f'. split_and!; [done|done|]. destruct (fn_some _ _ _ Hfine wr Hw) as (_ & _ & Hp). rewrite Hv, (no_trailers _ _ _ Hfine Hend) in Hp.
  set (reply := data_reply _ st). cbn in Hw'.
  assert (Hp' : passed (advance ev reply cs p) = bool_decide (state_ wr1 = Running)).
  { assert (Hreply : bool_decide (reply = Some DownstreamToUpstream) = bool_decide (st.1 = Continue)) by by destruct st as [[] ?].
    rewrite advance_passed, Hc, Hp, orb_false_r, Hreply, Hs. destruct (decide (state_ wr = Running)) as [E|E].
    - by rewrite !bool_decide_true by auto.
    - by rewrite (bool_decide_false (state_ wr = _)). }
  assert (Hend' : ended (advance ev reply cs p) = end_stream) by (cbn; by rewrite Hend).
  assert (Htr : trailers (advance ev reply cs p) = false) by (cbn; by rewrite (no_trailers _ _ _ Hfine Hend)).
  eapply kept_down; [done|done|done| | | |].
  - cbn. by rewrite Hst.
  - by rewrite Hw'.
  - intros wr'. rewrite Hw'. intros [= <-]. rewrite advance_answered, Ha, Hp', Hend', Htr. rewrite Hv.
    split_and!; [unfold strict; by rewrite Hend', Htr, andb_true_r|done|done].
  - intros _. destruct (Herr f' (mv_at _ _ _ _ _ _ _ Hm)) as [He' Hs']. destruct (fn_v1 _ _ _ Hfine Hv) as [Hs0 _]. split.
    + destruct (starts_body DownstreamToUpstream f'); [|done]. by rewrite Hs' in Hs0.
    + rewrite Hp'. intros Hx. destruct (He' Hx) as [E|(d' & [= ->])]; [congruence|]. left. rewrite <- Hs. by apply bool_decide_true.
Qed.

Lemma streamed_v2_fine w' cs r :
  v = v2 -> data_v2 me DownstreamToUpstream end_stream w f w' cs r ->
  data_fine v me DownstreamToUpstream ev p w f w' cs r.
Proof.
  intros Hv (wr1 & st & -> & [(f' & Hm & Hw') Hwe Hr] & Hc & Hs). exists st, f'. split_and!; [done|done|].
  set (reply := data_reply _ st). cbn in Hw'.
  assert (Hend' : ended (advance ev reply cs p) = end_stream) by (cbn; by rewrite Hend).
  eapply kept_down; [done|done|done| | | |].
  - cbn. by rewrite Hst.
  - by rewrite Hw'.
  - intros wr'. rewrite Hw'. intros [= <-]. rewrite advance_answered, Ha, Hend', Hv. split_and!; [done|done|].
    assert (Hgo : state_ wr1 = Running \/ state_ wr1 = WaitForBody ->
      passed (advance ev reply cs p) = true \/ state_ wr1 = HttpCall \/ state_ wr1 = Responded \/ end_stream = false).
    { intros E. destruct (Hs E) as [->|E2]; [auto|]. left. rewrite advance_passed. unfold reply, data_reply. rewrite E2.
      rewrite bool_decide_true by done. by rewrite orb_true_r. }
    destruct (state_ wr1); auto; by inversion Hr.
  - by rewrite Hv.
Qed.

Lemma onStreamData_down h :
  version (handle config_ me) = v -> proper_host v DownstreamToUpstream h ->
  wp (onStreamData config_ me DownstreamToUpstream h data end_stream) w (data_fine v me DownstreamToUpstream ev p w f).
Proof.
  intros Hv Hh. destruct (version_cases v) as [Ev|Ev].
  - destruct (error_ f) eqn:He; [|destruct (request_stream_wrapper_ f) as [wr|] eqn:Hw].
    3: { apply wp_let. eapply wp_filter_of; [done|]. cbn zeta. rewrite Hv, Ev, He. cbn [wrapper]. rewrite Hw. apply wp_ret.
      rewrite <- Ev. apply data_passes; try done. intros _. by apply (fn_none _ _ _ Hfine). }
    { apply wp_let. eapply wp_filter_of; [done|]. cbn zeta. rewrite Hv, Ev, He. apply wp_ret. rewrite <- Ev. apply data_passes; try done.
      intros _. by destruct (proj2 (fn_v1 _ _ _ Hfine Ev) He). }
    rewrite Ev in Hv, Hh. eapply wp_mono; [eapply wp_and; [by apply (onStreamData_v1 me _ h data end_stream w f wr); [..|eapply fine_open]|by apply onStreamData_errors]|].
    intros w' cs r [H1 H2]. by eapply streamed_fine.
  - apply wp_let. eapply wp_filter_of; [done|]. cbn zeta. rewrite Hv, Ev.
    assert (Hpass : data_fine v me DownstreamToUpstream ev p w f w [] (inl (Continue, data))).
    { apply data_passes; try done. by rewrite Ev. }
    rewrite Ev in Hpass.
    destruct (error_ f); [by apply wp_ret|]. destruct (onRequestBodyRef (handle config_ me)) as [ref|]; [|by apply wp_ret].
    rewrite Ev in Hh. apply wp_let. cbn [wrapper]. destruct (request_stream_wrapper_ f) as [wr|] eqn:Hw.
    + apply wp_ret. eapply wp_mono; [by eapply (onData_v2_wp me _ h ref data end_stream w f wr); [..|eapply fine_open]|].
      intros w' cs r Hr. cbn [app]. rewrite <- Ev. by apply streamed_v2_fine.
    + eapply new_wrapper_wp; [done|]. cbn zeta. set (f1 := set_wrapper _ _ f).
      eapply wp_mono; [by eapply (onData_v2_wp me _ h ref data end_stream _ f1); [|apply put_at|apply wrapper_set|apply rests_running]|].
      intros w' cs r (wr1 & st & -> & [(f' & Hm & Hw') Hwe Hr] & Hc & Hs). cbn [app]. rewrite <- Ev. apply streamed_v2_fine; [done|].
      exists wr1, st. split_and!; [done| |done|done]. split; [|done|done]. exists f'. split; [|done].
      apply (moved_trans me _ w f (put me f1 w) f1 w' f' [] cs); [by apply moved_wrapper|done].
Qed.
End request_data.

Lemma request_data_event me h data end_stream p w f :
  let v := version (handle config_ me) in let ev := RequestData me data end_stream in
  filters w !! me = Some f -> fine v p f -> started p = true -> ended p = false -> answered p = 0%nat ->
  proper_host v DownstreamToUpstream h ->
  wp (handle_event config_ ev h) w (event_fine v ev p w).
Proof. intros v ev Hf Hfine Hst Hend Ha Hh. apply (data_event v DownstreamToUpstream ev p w f). by apply onStreamData_down. Qed.

(** *** The trailers of the request *)

Lemma request_trailers_event me h p w f :
  let v := version (handle config_ me) in let ev := RequestTrailers me in
  filters w !! me = Some f -> fine v p f -> started p = true -> answered p = 0%nat ->
  wp (handle_event config_ ev h) w (event_fine v ev p w).
Proof.
  intros v ev Hf Hfine Hst Ha. apply (data_event v DownstreamToUpstream ev p w f), wp_ret. exists (Continue, ""), f.
  split_and!; [done|by apply moved_refl|]. cbn [data_reply fst]. set (p' := advance _ _ _ _).
  assert (Hp' : passed p' = true) by (unfold p'; rewrite advance_passed, bool_decide_true by done; by rewrite orb_true_r).
  assert (Ht' : trailers p' = true) by apply orb_true_r.
  assert (Ha' : answered p' = 0%nat) by (unfold p'; rewrite advance_answered, Ha; done).
  eapply kept_down; [done|done|by apply moved_refl| |done| |]; fold p'.
  - cbn. by rewrite Hst.
  - intros wr Hwr. destruct (fn_some _ _ _ Hfine wr Hwr) as (Hr & _ & _). rewrite Ha in Hr. rewrite Ha', Hp', Ht'.
    split_and!; [|done|destruct v; auto]. eapply rests_weaken in Hr. unfold strict. rewrite Ht', andb_false_r. by destruct v.
  - intros Hv. split; [by apply (fn_v1 _ _ _ Hfine)|by left].
Qed.

(** *** The response *)

Section response.
Context (me : nat) (p : Progress) (f : Filter).
#[local] Abbreviation v := (version (handle config_ me)).
Context (Hfine : fine v p f) (Hd : destroyed_ f = false) (Hst : started p = true).
Context (Hp : passed p = true \/ answered p ≠ 0%nat).

(** Work on the response that leaves an open wrapper, without an answer. *)
Definition up_fine w w' cs : Prop :=
  exists f', moved me UpstreamToDownstream w f w' f' cs /\ answers cs = 0%nat /\ continued cs = false /\
    (forall wr, response_stream_wrapper_ f' = Some wr -> open UpstreamToDownstream wr).

Lemma up_kept ev w w' cs reply :
  ~ request_event ev ->
  reply ≠ Some DownstreamToUpstream -> up_fine w w' cs ->
  exists f', moved me UpstreamToDownstream w f w' f' cs /\ kept v (advance ev reply cs p) f'.
Proof.
  intros He Hr (f' & Hm & Ha & Hc & Ho). exists f'. split; [done|]. eapply kept_up; try done. by apply fine_kept.
Qed.

Lemma up_event ev w w' cs reply :
  id_of ev = me -> ~ request_event ev ->
  reply ≠ Some DownstreamToUpstream -> up_fine w w' cs -> event_fine v ev p w w' cs (inl reply).
Proof.
  intros Hid He Hr Hup. destruct (up_kept ev w w' cs reply He Hr Hup) as (f' & Hm & Hk). eexists. split; [done|].
  rewrite Hid. by eapply moved_happened.
Qed.

Lemma up_worked w wr w' wr' cs : worked me UpstreamToDownstream w f wr w' wr' cs -> up_fine w w' cs.
Proof.
  intros Hwk. pose proof (wk_calm _ _ _ _ _ _ _ _ Hwk) as Hc. apply worked_handled in Hwk.
  destruct (handled_up _ _ _ _ _ _ _ Hwk) as (f' & Hm & Ha & Ho). by exists f'.
Qed.

Lemma response_open wr : response_stream_wrapper_ f = Some wr -> open UpstreamToDownstream wr.
Proof. intros Hw. by destruct (fn_response _ _ _ Hfine wr Hw). Qed.

Lemma up_same w w' f' cs :
  moved me UpstreamToDownstream w f w' f' cs -> silent me cs -> wrapper UpstreamToDownstream f' = wrapper UpstreamToDownstream f ->
  up_fine w w' cs.
Proof.
  intros Hm (_ & Ha & Hc) Hw. exists f'. split_and!; [done..|]. intros wr Hwr. apply response_open. cbn in Hw. congruence.
Qed.

Lemma up_stays w : filters w !! me = Some f -> up_fine w w [].
Proof. intros Hf. apply (up_same w w f []); [by apply moved_refl|apply silent_nil|done]. Qed.

Lemma doDirection_up h end_stream w :
  filters w !! me = Some f -> proper_host v UpstreamToDownstream h ->
  wp (doDirection config_ me UpstreamToDownstream h end_stream) w (fun w' cs r => exists st, r = inl st /\ up_fine w w' cs).
Proof.
  intros Hf Hh. unfold doDirection. cbn zeta. destruct (version_cases (version (handle config_ me))) as [Hv|Hv]; rewrite Hv in Hh |- *.
  - eapply wp_mono; [by eapply doHeaders_wp|]. intros w' cs r [(-> & -> & ->)|(wr' & Hwk & Hr)].
    + eexists. split; [done|]. by apply up_stays.
    + destruct Hr as [[-> _]|[-> _]]; (eexists; split; [done|by eapply up_worked]).
  - eapply wp_mono; [by eapply doHeaders_v2_wp|].
    intros w' cs r [(f' & Hm & Hsil & Hws & Hr)|(wr' & st & Hwk & -> & Hs)].
    + destruct Hr as [->|[-> _]]; (eexists; split; [done|by eapply up_same]).
    + eexists. split; [done|by eapply up_worked].
Qed.

Lemma streamed_up h data end_stream w :
  filters w !! me = Some f -> proper_host v UpstreamToDownstream h ->
  wp (onStreamData config_ me UpstreamToDownstream h data end_stream) w (fun w' cs r => exists st, r = inl st /\ up_fine w w' cs).
Proof.
  intros Hf Hh. destruct (version_cases (version (handle config_ me))) as [Hv|Hv]; rewrite Hv in Hh.
  - destruct (error_ f) eqn:He; [|destruct (response_stream_wrapper_ f) as [wr|] eqn:Hw].
    2: { eapply wp_mono; [by apply (onStreamData_v1 me _ h data end_stream w f wr); [..|apply response_open]|].
      intros w' cs r (st & wr' & -> & Hwk & _). eexists. split; [done|by eapply up_worked]. }
    all: apply wp_let; (eapply wp_filter_of; [done|]); cbn zeta; rewrite Hv, He; cbn [wrapper]; rewrite ?Hw; apply wp_ret;
      (eexists; split; [done|by apply up_stays]).
  - apply wp_let. eapply wp_filter_of; [done|]. cbn zeta. rewrite Hv.
    assert (Hpass : exists st, @inl _ string (Continue, data) = inl st /\ up_fine w w []) by (eexists; split; [done|by apply up_stays]).
    destruct (error_ f); [by apply wp_ret|]. destruct (onResponseBodyRef (handle config_ me)) as [ref|]; [|by apply wp_ret].
    assert (Hdone : forall w' cs r, data_v2 me UpstreamToDownstream end_stream w f w' cs r -> exists st, r = inl st /\ up_fine w w' cs).
    { intros w' cs r (wr1 & st & -> & Hhd & Hc & _). eexists. split; [done|].
      destruct (handled_up _ _ _ _ _ _ _ Hhd) as (f' & Hm & Ha & Ho). by exists f'. }
    apply wp_let. cbn [wrapper]. destruct (response_stream_wrapper_ f) as [wr|] eqn:Hw.
    + apply wp_ret. eapply wp_mono; [by eapply (onData_v2_wp me _ h ref data end_stream w f wr); [..|eapply response_open]|].
      intros w' cs r Hr. cbn [app]. by apply Hdone.
    + eapply new_wrapper_wp; [done|]. cbn zeta. set (f1 := set_wrapper _ _ f).
      eapply wp_mono; [by eapply (onData_v2_wp me _ h ref data end_stream _ f1); [|apply put_at|apply wrapper_set|apply rests_running]|].
      intros w' cs r (wr1 & st & -> & [(f' & Hm & Hw') Hwe Hr] & Hc & Hs). cbn [app]. apply Hdone.
      exists wr1, st. split_and!; [done| |done|done]. split; [|done|done]. exists f'. split; [|done].
      apply (moved_trans me _ w f (put me f1 w) f1 w' f' [] cs); [by apply moved_wrapper|done].
Qed.

Lemma response_call_event h headers body w wr :
  let ev := CallSucceeded me UpstreamToDownstream headers body in
  filters w !! me = Some f -> proper_host v UpstreamToDownstream h ->
  response_stream_wrapper_ f = Some wr -> http_request_ wr = true ->
  wp (onSuccess me UpstreamToDownstream h headers body) w (fun w' cs r => r = inl tt /\ up_fine w w' cs).
Proof.
  intros ev Hf Hh Hw Hreq. eapply wp_mono; [by apply (onSuccess_wp v me _ h headers body w f wr); [..|apply response_open]|].
  intros w' cs r (wr' & -> & Hhd & _ & Hc). split; [done|]. destruct (handled_up _ _ _ _ _ _ _ Hhd) as (f' & Hm & Ha & Ho).
  by exists f'.
Qed.
End response.

(** The response's handlers start from a filter with the new headers in it. *)
Lemma up_fine_after me w f w1 f1 w' cs : moved me UpstreamToDownstream w f w1 f1 [] -> up_fine me f1 w1 w' cs -> up_fine me f w w' cs.
Proof.
  intros Hm (f' & Hm' & Hr). exists f'. split; [|done]. by apply (moved_trans me _ w f w1 f1 w' f' [] cs).
Qed.

Section response_events.
Context (me : nat) (p : Progress) (f : Filter) (w : World) (h : Host).
#[local] Abbreviation v := (version (handle config_ me)).
Context (Hf : filters w !! me = Some f) (Hfine : fine v p f) (Hd : destroyed_ f = false) (Hst : started p = true).
Context (Hp : passed p = true \/ answered p ≠ 0%nat) (Hh : proper_host v UpstreamToDownstream h).

Lemma response_headers_event headers end_stream :
  wp (handle_event config_ (ResponseHeaders me headers end_stream) h) w (event_fine v (ResponseHeaders me headers end_stream) p w).
Proof.
  apply wp_let. eapply wp_mono with (Q := fun w' cs r => exists st, r = inl st /\ up_fine me f w w' cs).
  - apply wp_let. eapply wp_filter_of; [done|]. destruct (_ && _).
    { apply wp_ret. eexists. split; [done|by eapply up_stays]. }
    apply wp_let. eapply wp_change; [done|]. set (x := set_response_headers _ _).
    eapply wp_mono; [by apply (doDirection_up me p (set_data x f)); [by apply (fine_control v p f)|apply put_at|]|].
    intros w' cs r (st & -> & Hup). eexists. split; [done|]. cbn [app]. eapply up_fine_after; [by apply moved_data|done].
  - intros w' cs r (st & -> & Hup). apply wp_ret. rewrite app_nil_r. eapply up_event; try done; [by intros []|by destruct st].
Qed.

Lemma response_data_event data end_stream :
  wp (handle_event config_ (ResponseData me data end_stream) h) w (event_fine v (ResponseData me data end_stream) p w).
Proof.
  apply (data_event v UpstreamToDownstream (ResponseData me data end_stream) p w f).
  eapply wp_mono; [by eapply streamed_up|]. intros w' cs r (st & -> & Hup).
  destruct (up_kept me p f Hfine Hd Hst Hp (ResponseData me data end_stream) w w' cs (data_reply UpstreamToDownstream st)) as (f' & Hm & Hk).
  - by intros [].
  - unfold data_reply. by destruct st.1.
  - done.
  - by exists st, f'.
Qed.

Lemma response_trailers_event :
  wp (handle_event config_ (ResponseTrailers me) h) w (event_fine v (ResponseTrailers me) p w).
Proof.
  apply (data_event v UpstreamToDownstream (ResponseTrailers me) p w f), wp_ret.
  destruct (up_kept me p f Hfine Hd Hst Hp (ResponseTrailers me) w w [] (Some UpstreamToDownstream)) as (f' & Hm & Hk).
  - by intros [].
  - done.
  - by eapply up_stays.
  - by exists (Continue, ""), f'.
Qed.

End response_events.

(** *** The end of an HTTP call *)

Lemma onSuccess_flags me d h headers body w f :
  filters w !! me = Some f ->
  wp (onSuccess me d h headers body) w (fun w' cs _ => starts_body d f = false ->
    errs_open me d w f w' (d = DownstreamToUpstream -> continued cs = true)).
Proof.
  intros Hf. destruct (starts_body d f) eqn:E; [by unfold wp; repeat case_match|].
  eapply wp_mono; [by apply onSuccess_errors|]. by intros ??? Hx _.
Qed.

Section call_events.
Context (me : nat) (p : Progress) (f : Filter) (w : World) (h : Host) (headers : H) (body : string).
#[local] Abbreviation v := (version (handle config_ me)).
Context (Hf : filters w !! me = Some f) (Hfine : fine v p f) (Hd : destroyed_ f = false).

(** The request goes on when its script has come to its end. *)
Lemma request_call ev wr :
  id_of ev = me -> ~ request_event ev ->
  request_stream_wrapper_ f = Some wr -> http_request_ wr = true -> proper_host v DownstreamToUpstream h ->
  wp (onSuccess me DownstreamToUpstream h headers body) w (fun w' cs r => r = inl tt /\
    event_fine v ev p w w' cs (inl None)).
Proof.
  intros Hid Hev Hw Hreq Hh. destruct (fn_some _ _ _ Hfine wr Hw) as (Hr0 & Hend0 & Hv0).
  assert (Hwait : state_ wr = HttpCall /\ answered p = 0%nat) by (rewrite Hreq in Hr0; inversion Hr0; auto).
  destruct Hwait as [Hwait Ha]. assert (Hst : started p = true).
  { destruct (started p) eqn:E; [done|]. destruct (fn_fresh _ _ _ Hfine E) as (Hno & _). congruence. }
  eapply wp_mono.
  { apply wp_and; [by apply (onSuccess_wp v me _ h headers body w f wr); [..|eapply fine_open]|by apply onSuccess_flags]. }
  intros w' cs r [(wr1 & -> & [(f' & Hm & Hw') Hwe Hr] & Hwb & Hc) Herr]. split; [done|].
  eexists. split; [done|]. rewrite Hid. eapply moved_happened; [exact Hm|].
  rewrite bool_decide_true in Hc by done. rewrite andb_true_l in Hc. cbn in Hw'.
  set (p' := advance ev None cs p).
  assert (Hp' : passed p' = passed p || bool_decide (state_ wr1 = Running)).
  { unfold p'. rewrite advance_passed, Hc, (bool_decide_false (None = _)), orb_false_r by done. done. }
  destruct (advance_other ev None cs p Hev) as [Hend' Htr']. fold p' in Hend', Htr'.
  assert (Ha' : answered p' = answers cs) by (unfold p'; rewrite advance_answered, Ha; done).
  assert (Hbody : state_ wr1 = WaitForBody -> passed p = true \/ ended p = false).
  { intros E. destruct (passed p); [by left|]. right. rewrite <- Hend0 by done. by apply Hwb. }
  eapply kept_down; [done|by apply other_trailers_pass|done| | | |]; fold p'.
  - cbn. by rewrite Hst.
  - by rewrite Hw'.
  - intros wr'. rewrite Hw'. intros [= <-]. rewrite Ha', Hp', Hend', Htr'. split_and!.
    + inversion Hr as [E|E0 E|E|E0 E]; constructor; try done. unfold strict. destruct (version_cases v) as [Hv|Hv]; rewrite Hv; [|done].
      rewrite Hend', Htr'. destruct (Hbody (eq_sym E)) as [Hx| ->]; [|done].
      rewrite Hv, Hx, bool_decide_false, orb_false_r in Hv0 by (by rewrite Hwait). rewrite <- Hv0. apply andb_false_r.
    + intros Hx. apply orb_false_iff in Hx as [Hx _]. rewrite Hwe. by apply Hend0.
    + destruct (version_cases v) as [Hv|Hv]; rewrite Hv in Hv0 |- *.
      * by rewrite Hv0, (bool_decide_false (state_ wr = _)), orb_false_r by (by rewrite Hwait).
      * destruct (state_ wr1) eqn:E; auto; try by inversion Hr.
        -- left. rewrite bool_decide_true by done. apply orb_true_r.
        -- destruct (Hbody eq_refl) as [->|]; auto.
  - intros Hv. destruct (fn_v1 _ _ _ Hfine Hv) as [Hs0 He0].
    destruct (Herr Hs0 f' (mv_at _ _ _ _ _ _ _ Hm)) as [He' Hs']. split.
    + destruct (starts_body DownstreamToUpstream f'); [|done]. by rewrite Hs' in Hs0.
    + intros Hx. destruct (He' Hx) as [E|E].
      * destruct (He0 E) as [E1|E1]; [left|done]. by rewrite Hp', E1.
      * left. rewrite Hp', <- Hc, E by done. apply orb_true_r.
Qed.

Lemma call_event ev d wr :
  id_of ev = me -> match ev with CallSucceeded _ _ _ _ | CallFailed _ _ => True | _ => False end ->
  wrapper d f = Some wr -> http_request_ wr = true -> proper_host v d h ->
  wp (onSuccess me d h headers body ;; mret None) w (event_fine v ev p w).
Proof.
  intros Hid Hev Hw Hreq Hh. apply wp_let. destruct d.
  - eapply wp_mono; [apply (request_call ev wr Hid); [by intros Hr; destruct ev|done..]|].
    intros w' cs r [-> Hr]. apply wp_ret. by rewrite app_nil_r.
  - destruct (fn_response _ _ _ Hfine wr Hw) as [Ho Hp].
    assert (Hst : started p = true).
    { destruct (started p) eqn:E; [done|]. destruct (fn_fresh _ _ _ Hfine E) as (_ & Hno & _). cbn in Hw. congruence. }
    eapply wp_mono; [by eapply response_call_event|]. intros w' cs r [-> Hup]. apply wp_ret. rewrite app_nil_r.
    eapply up_event; try done; by intros Hr; destruct ev.
Qed.
End call_events.

(** *** Any event *)

Lemma event_wp s ev h f p :
  allowed s ev = true -> filters (world s) !! id_of ev = Some f -> progress s !! id_of ev = Some p ->
  kept (version (handle config_ (id_of ev))) p f -> proper_event config_ (ev, h) ->
  wp (handle_event config_ ev h) (world s) (event_fine (version (handle config_ (id_of ev))) ev p (world s)).
Proof.
  intros Hall Hf Hp Hk Hh. unfold allowed in Hall. rewrite Hf, Hp in Hall. apply andb_true_iff in Hall as [Hd Hall].
  apply negb_true_iff in Hd. pose proof (proj2 Hk Hd) as Hfine. unfold proper_event in Hh. cbn [fst snd] in Hh.
  destruct ev as [me|me route headers es|me data es|me|me headers es|me data es|me|me d headers body|me d|me];
    cbn [id_of direction_of] in *; [done| | | | | | | | |].
  - apply (request_headers_event me h route headers es p _ f); try done. by apply negb_true_iff.
  - apply andb_true_iff in Hall as [Hall Ha]. apply andb_true_iff in Hall as [Hst Hend].
    apply (request_data_event me h data es p _ f); try done; [by apply negb_true_iff|by apply Nat.eqb_eq].
  - apply andb_true_iff in Hall as [Hall Ha]. apply andb_true_iff in Hall as [Hst Hend].
    apply (request_trailers_event me h p _ f); try done. by apply Nat.eqb_eq.
  - apply andb_true_iff in Hall as [Hst Hpa]. apply (response_headers_event me p f); try done.
    apply orb_true_iff in Hpa as [?|Hpa]; [by left|right]. by apply negb_true_iff, Nat.eqb_neq in Hpa.
  - apply andb_true_iff in Hall as [Hst Hpa]. apply (response_data_event me p f); try done.
    apply orb_true_iff in Hpa as [?|Hpa]; [by left|right]. by apply negb_true_iff, Nat.eqb_neq in Hpa.
  - apply andb_true_iff in Hall as [Hst Hpa]. apply (response_trailers_event me p f); try done.
    apply orb_true_iff in Hpa as [?|Hpa]; [by left|right]. by apply negb_true_iff, Nat.eqb_neq in Hpa.
  - destruct (wrapper d f) as [wr|] eqn:Hw; [|done]. by apply (call_event me p f (world s) h headers body Hf Hfine Hd _ d wr).
  - destruct (wrapper d f) as [wr|] eqn:Hw; [|done].
    by apply (call_event me p f (world s) h failure_headers failure_body Hf Hfine Hd _ d wr).
  - by apply (destroy_event _ me h p _ f).
Qed.


(** ** Runs *)

Definition invariant (s : System) : Prop := forall i,
  match filters (world s) !! i, progress s !! i with
  | Some f, Some p => kept (version (handle config_ i)) p f
  | None, None => True
  | _, _ => False
  end.

(** The answers of one stream, in its progress and among the calls. *)
Definition answers_of (i : nat) (cs : list (nat * HostCall)) : nat := answers (filter (fun c => c.1 = i) cs).
Definition answered_by (s : System) (i : nat) : nat := answered (default fresh (progress s !! i)).

Lemma answers_of_app i cs cs' : answers_of i (cs ++ cs') = (answers_of i cs + answers_of i cs')%nat.
Proof. unfold answers_of. by rewrite filter_app, answers_app. Qed.

Lemma answers_of_own me i cs :
  Forall (fun c => c.1 = me /\ own c) cs -> answers_of i cs = if decide (i = me) then answers cs else 0%nat.
Proof.
  unfold answers_of. induction 1 as [|[j c] cs [E _] _ IH]; [by case_decide|]. cbn in E. subst j. rewrite filter_cons. cbn [fst].
  destruct (decide (me = i)) as [<-|Hne].
  - rewrite decide_True in IH |- * by done. change ((me, c) :: ?l) with ([(me, c)] ++ l) at 1.
    rewrite (answers_app [_] (filter _ cs)), IH. symmetry. apply (answers_app [_] cs).
  - by rewrite decide_False in IH |- * by done.
Qed.

Lemma control_kept v i w w' p :
  control <$> filters w' !! i = control <$> filters w !! i ->
  match filters w !! i, p with Some f, Some p => kept (v i) p f | None, None => True | _, _ => False end ->
  match filters w' !! i, p with Some f, Some p => kept (v i) p f | None, None => True | _, _ => False end.
Proof.
  destruct (filters w !! i) as [f|], (filters w' !! i) as [f'|], p as [p|]; cbn; try done.
  intros [= E1 E2 E3 E4 E5]. apply kept_control. unfold control. by rewrite E1, E2, E3, E4, E5.
Qed.

Record stepped (s s' : System) (cs : list (nat * HostCall)) : Prop := {
  st_invariant : invariant s';
  st_own : Forall own cs;
  st_count : forall i, answered_by s' i = (answered_by s i + answers_of i cs)%nat;
}.

Lemma stepped_refl s : invariant s -> stepped s s [].
Proof. intros Hs. split; [done|done|]. intros i. unfold answers_of. by rewrite Nat.add_0_r. Qed.

Lemma stepped_trans s1 s2 s3 cs cs' : stepped s1 s2 cs -> stepped s2 s3 cs' -> stepped s1 s3 (cs ++ cs').
Proof.
  intros [_ O1 C1] [I2 O2 C2]. split; [done|by apply Forall_app|]. intros i. rewrite C2, C1, answers_of_app. lia.
Qed.

(** The event found its stream, or makes it. *)
Lemma step_event s ev h :
  invariant s -> allowed s ev = true -> proper_event config_ (ev, h) ->
  wp (handle_event config_ ev h) (world s)
    (event_fine (version (handle config_ (id_of ev))) ev (default fresh (progress s !! id_of ev)) (world s)).
Proof.
  intros Hs Hall Hh. pose proof (Hs (id_of ev)) as Hi.
  destruct (filters (world s) !! id_of ev) as [f|] eqn:Hf, (progress s !! id_of ev) as [p|] eqn:Hp; try done.
  - by eapply event_wp.
  - unfold allowed in Hall. rewrite Hf in Hall. destruct ev as [me| | | | | | | | |]; try done. by apply create_event.
Qed.

Lemma happened_stepped s ev cs reply w' :
  invariant s -> happened (version (handle config_ (id_of ev))) (id_of ev) ev (default fresh (progress s !! id_of ev))
    (world s) w' cs reply ->
  let p := advance ev reply cs (default fresh (progress s !! id_of ev)) in
  stepped s {| world := w'; progress := <[id_of ev := p]> (progress s) |} cs.
Proof.
  intros Hs [(f' & Hf' & Hk) Helse Hown] p. split.
  - intros i. cbn. destruct (decide (i = id_of ev)) as [->|Hi]; [by rewrite Hf', lookup_insert_eq|].
    rewrite lookup_insert_ne by done. apply (control_kept (fun i => version (handle config_ i)) i (world s)); [by apply Helse|apply Hs].
  - eapply Forall_impl; [exact Hown|]. by intros c [_ ?].
  - intros i. rewrite (answers_of_own _ _ _ Hown). unfold answered_by. cbn. case_decide as Hi; [subst i|].
    + by rewrite lookup_insert_eq.
    + rewrite lookup_insert_ne by done. lia.
Qed.

Lemma step_stepped s ev h :
  invariant s -> proper_event config_ (ev, h) ->
  match step config_ s ev h with Ok (s', cs) => stepped s s' cs | Throw _ => False | _ => True end.
Proof.
  intros Hs Hh. unfold step. destruct (allowed s ev) eqn:Hall; [|by apply stepped_refl].
  pose proof (step_event s ev h Hs Hall Hh) as Hw. unfold wp in Hw.
  destruct (handle_event config_ ev h (world s)) as [[w' cs] [r|what|?|]]; cbn; try done.
  - destruct Hw as (reply & [= ->] & Hh'). by apply happened_stepped.
  - by destruct Hw as (reply & ? & _).
Qed.

Lemma steps_stepped s es :
  invariant s -> Forall (proper_event config_) es ->
  match steps config_ s es with Ok (s', cs) => stepped s s' cs | Throw _ => False | _ => True end.
Proof.
  intros Hs Hes. revert s Hs. induction Hes as [|[ev h] es Hh _ IH]; intros s Hs; cbn [steps]; [by apply stepped_refl|].
  pose proof (step_stepped s ev h Hs Hh) as H1. destruct (step config_ s ev h) as [[s1 cs]|?|?|]; cbn; try done.
  specialize (IH s1 (st_invariant _ _ _ H1)). destruct (steps config_ s1 es) as [[s2 cs']|?|?|]; cbn; try done.
  by eapply stepped_trans.
Qed.

Lemma empty_invariant : invariant empty_system.
Proof. intros i. cbn. by rewrite !lookup_empty. Qed.

Lemma reached_stepped es s cs :
  Forall (proper_event config_) es -> steps config_ empty_system es = Ok (s, cs) -> stepped empty_system s cs.
Proof.
  intros Hes Hs. pose proof (steps_stepped empty_system es empty_invariant Hes) as Hst. by rewrite Hs in Hst.
Qed.

(** ** Properties of all runs *)

(** C2. Scripts answer a request at most once, in every order of the events of many streams with
    trailers among them.  In version 1 a request that has been passed on is not answered at
    all, unless it is its trailers that have passed it on: those go through the filter
    while a script still waits for an HTTP call, and the script may answer after that.
    The scripts may do what they like, but ask for the body of the direction they run
    in only, and in a plugin of version 1 do not use the functions of version 2. *)
Theorem rider_answers_once es s cs id :
  Forall (proper_event config_) es -> steps config_ empty_system es = Ok (s, cs) ->
  let p := default fresh (progress s !! id) in
  (answers_of id cs <= 1)%nat /\
  (version (handle config_ id) = v1 -> passed p = true -> trailers p = false -> answers_of id cs = 0%nat).
Proof.
  intros Hes Hs p. destruct (reached_stepped es s cs Hes Hs) as [Hinv _ Hc]. specialize (Hinv id). specialize (Hc id).
  unfold answered_by in Hc. cbn in Hc. rewrite lookup_empty in Hc. cbn in Hc. rewrite <- Hc. unfold p.
  destruct (filters (world s) !! id) as [f|], (progress s !! id) as [p0|]; cbn; try done; [|split; [lia|done]].
  destruct Hinv as [[H1 H2] _]. by split.
Qed.

(** C5. A request is never left behind: once all of it has come it has been passed on or answered, or
    its script waits for an HTTP call whose end the host may deliver. *)
Theorem rider_never_stuck es s cs id f :
  Forall (proper_event config_) es -> steps config_ empty_system es = Ok (s, cs) ->
  filters (world s) !! id = Some f -> destroyed_ f = false ->
  let p := default fresh (progress s !! id) in
  ended p = true -> passed p = true \/ answers_of id cs = 1%nat \/ allowed s (CallFailed id DownstreamToUpstream) = true.
Proof.
  intros Hes Hs Hf Hd p Hend. destruct (reached_stepped es s cs Hes Hs) as [Hinv _ Hc]. specialize (Hinv id). specialize (Hc id).
  unfold answered_by in Hc. cbn in Hc. rewrite lookup_empty in Hc. cbn in Hc. rewrite <- Hc. fold p.
  unfold allowed. cbn [id_of]. rewrite Hf in Hinv |- *. destruct (progress s !! id) as [p0|]; [|done]. cbn in p. subst p.
  destruct Hinv as [_ Hfine]. specialize (Hfine Hd). rewrite Hd. cbn [negb andb wrapper].
  assert (Hst : started p0 = true).
  { destruct (started p0) eqn:E; [done|]. destruct (fn_fresh _ _ _ Hfine E) as (_ & _ & _ & _ & ? & _). congruence. }
  destruct (request_stream_wrapper_ f) as [wr|] eqn:Hw; [|left; by apply (fn_none _ _ _ Hfine)].
  destruct (fn_some _ _ _ Hfine wr Hw) as (Hr & _ & Hv).
  destruct (version_cases (version (handle config_ id))) as [E|E]; rewrite E in Hr, Hv; cbn [strict] in Hr.
  - inversion Hr as [E1 E2 E3|E0 E1 E2 E3|E1 E2 E3|E0 E1 E2 E3]; auto.
    + left. rewrite Hv, bool_decide_true by done. apply orb_true_r.
    + left. rewrite Hend in E0. apply negb_false_iff in E0. by apply (fn_trailers _ _ _ Hfine).
  - destruct Hv as [?|[Hx|[Hx|?]]]; [by left| | |congruence]; rewrite Hx in Hr; inversion Hr; auto.
Qed.

(** C19. No run ends with an exception that leaves the filter, and the functions of a script reach the
    data of its own stream only, although those of version 2 find it in a variable of the thread. *)
Theorem rider_contained es :
  Forall (proper_event config_) es ->
  match steps config_ empty_system es with
  | Ok (_, cs) => Forall own cs
  | Throw _ => False
  | Undefined _ | OutOfFuel => True
  end.
Proof.
  intros Hes. pose proof (steps_stepped empty_system es empty_invariant Hes) as Hst.
  destruct (steps config_ empty_system es) as [[s cs]|?|?|]; try done. by destruct Hst.
Qed.
End filter.

(** ** Examples *)

Inductive ExampleValue := VNone | VUserdata | VString (s : string) | VInteger (z : Z) | VTable (l : list (string * string)).

#[export] Instance ExampleValue_LuaValues : LuaValues ExampleValue := {
  lua_none := VNone;
  lua_userdata := VUserdata;
  lua_integer := VInteger;
  lua_table v := match v with VTable l => Some ((fun p => (VString p.1, VString p.2)) <$> l) | _ => None end;
  luaL_checkstring v := match v with VString s => inr s | _ => inl "string expected" end;
  luaL_optlstring v :=
    match v with VString s => inr (Some s) | VNone => inr None | _ => inl "string expected" end;
  luaL_checkint v := match v with VInteger z => inr z | _ => inl "number expected" end;
}.

Definition example_plugin (v : Version) : PluginHandle :=
  {| version := v; onRequestRef := Some 1%nat; onResponseRef := None; onRequestHeaderRef := Some 1%nat;
     onRequestBodyRef := Some 2%nat; onResponseHeaderRef := None; onResponseBodyRef := None |}.
Definition example_config (v : Version) (_ : nat) : Config :=
  {| pluginHandle := example_plugin v; pluginName := "auth"; allowNoRoute := true |}.

(** Asks another service; [after] runs with its answer, [body] when the request has come. *)
Definition ask_auth : @Script ExampleValue :=
  CallHttp [VString "auth"; VTable [(":path", "/"); (":method", "GET"); (":authority", "auth")]; VNone; VInteger 100]
    (fun _ => Return).
Definition refuse : @Script ExampleValue := CallRespond [VTable [(":status", "403")]; VString "no"] (fun _ => Return).
Definition example_host (after : @Script ExampleValue) : @Host alist ExampleValue :=
  {| info := fun _ => example_info; simple_atoi := fun s => if String.eqb s "403" then Some 403 else None;
     cluster_exists := fun _ => true; send_result := fun _ _ _ _ => SendPending; is_function := fun _ => true;
     on_start := fun ref => if (ref =? 1)%nat then ask_auth else refuse; on_resume := fun _ => after;
     destroyed_by_answer := false |}.

Definition example_headers : alist := [(":path", "/a")].
Definition asking : list (Event * @Host alist ExampleValue) :=
  [(Create 1, example_host Return); (RequestHeaders 1 None example_headers true, example_host Return)].
Definition refused : list (Event * @Host alist ExampleValue) :=
  asking ++ [(CallSucceeded 1 DownstreamToUpstream [] "", example_host refuse)].

Definition reached (v : Version) (es : list (Event * @Host alist ExampleValue)) : System * list (nat * HostCall) :=
  match steps (example_config v) empty_system es with Ok r => r | _ => (empty_system, []) end.

Lemma example_host_proper v d after : proper v d after -> proper_host v d (example_host after).
Proof.
  intros Ha. split; [|by intros l]. intros ref. cbn. destruct (ref =? 1)%nat; cbn; auto.
Qed.

Lemma refused_proper v : Forall (proper_event (example_config v)) refused.
Proof.
  unfold refused, asking. cbn [app]. rewrite !Forall_cons. split_and!; try apply Forall_nil_2; unfold proper_event; cbn;
    by apply example_host_proper.
Qed.

Definition passed_on : list (Event * @Host alist ExampleValue) :=
  asking ++ [(CallSucceeded 1 DownstreamToUpstream [] "", example_host Return)].
Lemma passed_on_proper v : Forall (proper_event (example_config v)) passed_on.
Proof.
  unfold passed_on, asking. cbn [app]. rewrite !Forall_cons. split_and!; try apply Forall_nil_2; unfold proper_event; cbn;
    by apply example_host_proper.
Qed.

(** The first request is refused by its script; the second is passed on. *)
Lemma rider_answers_once_witness :
  (answers_of 1 (reached v1 refused).2 = 1%nat /\ (answers_of 1 (reached v1 refused).2 <= 1)%nat) /\
  (passed (default fresh (progress (reached v1 passed_on).1 !! 1%nat)) = true /\
   answers_of 1 (reached v1 passed_on).2 = 0%nat).
Proof.
  split; (split; [vm_compute; reflexivity|]).
  - apply (rider_answers_once (example_config v1) refused (reached v1 refused).1); [apply refused_proper|vm_compute; reflexivity].
  - apply (rider_answers_once (example_config v1) passed_on (reached v1 passed_on).1 _ 1);
      [apply passed_on_proper|vm_compute; reflexivity..].
Defined.

Lemma rider_never_stuck_witness :
  passed (default fresh (progress (reached v1 asking).1 !! 1%nat)) = true \/ answers_of 1 (reached v1 asking).2 = 1%nat \/
  allowed (reached v1 asking).1 (CallFailed 1 DownstreamToUpstream) = true.
Proof.
  eapply (rider_never_stuck (example_config v1) asking (reached v1 asking).1 (reached v1 asking).2 1).
  - pose proof (refused_proper v1) as Hp. by apply Forall_app in Hp as [Hp _].
  - vm_compute; reflexivity.
  - vm_compute; reflexivity.
  - reflexivity.
  - vm_compute; reflexivity.
Defined.

Lemma rider_contained_witness :
  match steps (example_config v1) empty_system refused with
  | Ok (_, cs) => Forall own cs /\ cs <> []
  | _ => False
  end.
Proof.
  pose proof (rider_contained (example_config v1) refused (refused_proper v1)) as Hc.
  destruct (steps (example_config v1) empty_system refused) as [[s cs]| | |] eqn:E; vm_compute in E; try discriminate E.
  split; [exact Hc|]. injection E as _ <-. discriminate.
Defined.

(** Version 2 never records that the headers have been passed on: a body function still answers the
    request after that. *)
Definition answered_late : list (Event * @Host alist ExampleValue) :=
  [(Create 1, example_host Return); (RequestHeaders 1 None example_headers false, example_host Return);
   (CallSucceeded 1 DownstreamToUpstream [] "", example_host Return); (RequestData 1 "x" true, example_host Return)].

Lemma v2_answers_after_passing :
  exists s cs, steps (example_config v2) empty_system answered_late = Ok (s, cs) /\
    passed (default fresh (progress s !! 1%nat)) = true /\ answers_of 1 cs = 1%nat.
Proof.
  exists (reached v2 answered_late).1, (reached v2 answered_late).2. split_and!; vm_compute; reflexivity.
Qed.

(** Trailers pass a request of version 1 on while its script waits for an HTTP call; the script
    answers it all the same. *)
Definition answered_after_trailers : list (Event * @Host alist ExampleValue) :=
  [(Create 1, example_host Return); (RequestHeaders 1 None example_headers false, example_host Return);
   (RequestTrailers 1, example_host Return); (CallSucceeded 1 DownstreamToUpstream [] "", example_host refuse)].

Lemma v1_answers_after_trailers :
  exists s cs, steps (example_config v1) empty_system answered_after_trailers = Ok (s, cs) /\
    passed (default fresh (progress s !! 1%nat)) = true /\ answers_of 1 cs = 1%nat.
Proof.
  exists (reached v1 answered_after_trailers).1, (reached v1 answered_after_trailers).2. split_and!; vm_compute; reflexivity.
Qed.
