(* ===== verification/RiderVm.v ===== *)
(** * Loading Lua plugins (source/filters/http/rider: vm.cc, context.cc, ConfigImpl of filter.cc)

    A plugin is a script that returns a table; the functions in it are kept by reference in the
    registry of a virtual machine, and virtual machines are shared by the plugins of a thread that
    ask for the same id.  LuaJIT is not part of this code: what a script returns and what its
    on_configure does are arguments. *)

From S2P Require Import Prelude Json Http TrafficMark RiderContext.
From Stdlib Require Import Ascii.
From stdpp Require Import base gmap strings numbers list fin_maps.
From S2P Require Import Effects RiderFilter.
#[local] Open Scope proxy_scope.

Module Vm.
Import Rider.

(** ** The registry *)

(** [luaL_ref] chooses a reference that is not in use. *)
Class LuaRegistry := {
  new_ref : gmap nat nat -> nat;
  new_ref_fresh : forall r, r !! new_ref r = None;
}.

(** A field of the table; numbers convert to strings. *)
Inductive Field := FFunction (f : nat) | FNil | FString (s : string) | FNumber (text : string) | FOther.
Inductive Loaded := LoadError (rc : string) | LoadedTable (field : string -> Field) | LoadedOther.

(** All references of a plugin. *)
Record Handle := { functions : PluginHandle; onConfigureRef : option nat }.

Section vm.
Context `{LR : !LuaRegistry}.

Definition luaL_ref (f : nat) (registry : gmap nat nat) : nat * gmap nat nat :=
  (new_ref registry, <[new_ref registry := f]> registry).

(** A field that is no function leaves [LUA_NOREF]. *)
Definition get_ref (v : Field) (registry : gmap nat nat) : option nat * gmap nat nat :=
  match v with
  | FFunction f => let '(r, registry') := luaL_ref f registry in (Some r, registry')
  | _ => (None, registry)
  end.

(** [luaL_optlstring]; its error is raised outside of a protected call. *)
Definition raw_version (v : Field) : outcome (option string) :=
  match v with
  | FString s | FNumber s => Ok (Some s)
  | FNil => Ok None
  | FFunction _ | FOther => Undefined "an error is raised outside of a protected call"
  end.
Definition version_of (raw : option string) : Version :=
  match raw with Some s => if String.eqb s "v2" then v2 else v1 | None => v1 end.

Definition startPluginHandle (l : Loaded) (registry : gmap nat nat) : outcome (Handle * gmap nat nat) :=
  match l with
  | LoadError rc => Throw ("load lua script error: " +:+ rc)
  | LoadedOther => Throw "expect lua script to return a table"
  | LoadedTable field =>
      let* raw := raw_version (field "version") in
      let '(configure, g0) := get_ref (field "on_configure") registry in
      match raw with
      | Some _ =>
          let '(request_header, g1) := get_ref (field "on_request_header") g0 in
          let '(request_body, g2) := get_ref (field "on_request_body") g1 in
          let '(response_header, g3) := get_ref (field "on_response_header") g2 in
          let '(response_body, g4) := get_ref (field "on_response_body") g3 in
          Ok ({| functions := {| version := version_of raw; onRequestRef := None; onResponseRef := None;
                                 onRequestHeaderRef := request_header; onRequestBodyRef := request_body;
                                 onResponseHeaderRef := response_header; onResponseBodyRef := response_body |};
                 onConfigureRef := configure |}, g4)
      | None =>
          let '(request, g1) := get_ref (field "on_request") g0 in
          let '(response, g2) := get_ref (field "on_response") g1 in
          Ok ({| functions := {| version := v1; onRequestRef := request; onResponseRef := response;
                                 onRequestHeaderRef := None; onRequestBodyRef := None;
                                 onResponseHeaderRef := None; onResponseBodyRef := None |};
                 onConfigureRef := configure |}, g2)
      end
  end.

(** [PluginHandle::~PluginHandle] *)
Definition unref (r : option nat) (registry : gmap nat nat) : gmap nat nat :=
  match r with Some r => delete r registry | None => registry end.
Definition delete_PluginHandle (h : Handle) (registry : gmap nat nat) : gmap nat nat :=
  unref (onResponseRef (functions h)) (unref (onRequestRef (functions h)) (unref (onConfigureRef h) registry)).

(** [ContextBase::onConfigure]; the call gives an error code or none. *)
Definition onConfigure (call : nat -> option string) (h : Handle) (registry : gmap nat nat) : outcome unit :=
  match onConfigureRef h with
  | None => Ok tt
  | Some r =>
      match registry !! r with
      | Some f => match call f with Some rc => Throw ("lua pcall error: " +:+ rc) | None => Ok tt end
      | None => Undefined "the reference is not in the registry"
      end
  end.

(** [LuaVirtualMachine::startPlugin] *)
Definition startPlugin (l : Loaded) (call : nat -> option string) (registry : gmap nat nat) :
    outcome (Handle * gmap nat nat) :=
  let* r := startPluginHandle l registry in
  let* _ := onConfigure call r.1 r.2 in Ok r.

(** ** Virtual machines of a thread *)

Record LuaVirtualMachine := { vm_id : string; package_path : string; registry : gmap nat nat }.

(** The machines that live, and the table of the thread, whose pointers are weak. *)
Record Machines := { alive : gmap nat LuaVirtualMachine; local_lua_virtual_machines : gmap string nat; next : nat }.

(** [add_path]: whether the path can be added to the package table. *)
Definition new_LuaVirtualMachine (add_path : string -> bool) (id path : string) : outcome LuaVirtualMachine :=
  if negb (String.eqb path "") && negb (add_path path) then Throw ("failed to add package path " +:+ path)
  else Ok {| vm_id := id; package_path := path; registry := ∅ |}.

(** The table without its dead entry, and what is returned. *)
Definition getOrCreateThreadLocalLuaVM (add_path : string -> bool) (id path : string) (m : Machines) :
    Machines * outcome nat :=
  let live := local_lua_virtual_machines m !! id ≫= fun n => if decide (is_Some (alive m !! n)) then Some n else None in
  match live with
  | Some n => (m, Ok n)
  | None =>
      let table := delete id (local_lua_virtual_machines m) in
      match new_LuaVirtualMachine add_path id path with
      | Ok vm =>
          ({| alive := <[next m := vm]> (alive m); local_lua_virtual_machines := <[id := next m]> table; next := S (next m) |},
           Ok (next m))
      | Throw w => ({| alive := alive m; local_lua_virtual_machines := table; next := next m |}, Throw w)
      | Undefined w => (m, Undefined w)
      | OutOfFuel => (m, OutOfFuel)
      end
  end.

(** The last handle of a machine is gone. *)
Definition release (n : nat) (m : Machines) : Machines :=
  {| alive := delete n (alive m); local_lua_virtual_machines := local_lua_virtual_machines m; next := next m |}.

(** ** The configuration *)

Inductive DataSource := Remote | Local (code : string).
Record ConfigProto := { name : string; source : DataSource; config_json : string; path : string; id : string;
                        log_path : option string; allow_no_route : bool }.
Record Plugin := { plugin_name : string; code_ : string; configuration_ : string }.
Record ConfigImpl := { plugin_ : Plugin; vm_id_ : string; package_path_ : string; log_file_ : option string;
                       allow_no_route_ : bool }.

Definition ends_with_semicolon (s : string) : bool :=
  match rev (String.list_ascii_of_string s) with a :: _ => Ascii.eqb a (Ascii.ascii_of_nat 59) | [] => false end.

Section config.
(** Whether a path can be added, what a script returns, and the calls of its functions. *)
Context (add_path : string -> bool) (load : string -> Loaded) (call : nat -> option string).

(** [read] gives the text of a local source; the script is tried in a machine of its own first. *)
Definition new_ConfigImpl (read : string -> outcome string) (proto : ConfigProto) : outcome ConfigImpl :=
  match source proto with
  | Remote => Throw "remote code not supported"
  | Local text =>
      let* code := read text in
      let plugin := {| plugin_name := name proto; code_ := code; configuration_ := config_json proto |} in
      let package := if negb (String.eqb (path proto) "") && negb (ends_with_semicolon (path proto))
                     then path proto +:+ ";" else path proto in
      let* vm := new_LuaVirtualMachine add_path (id proto) package in
      let* _ := startPlugin (load code) call (registry vm) in
      Ok {| plugin_ := plugin; vm_id_ := id proto; package_path_ := package;
            log_file_ := match log_path proto with Some p => if String.eqb p "" then None else Some p | None => None end;
            allow_no_route_ := allow_no_route proto |}
  end.

(** What a thread runs to get its handle; an exception there is not caught. *)
Definition thread_plugin_handle (c : ConfigImpl) (m : Machines) : outcome (Machines * (nat * Handle)) :=
  let '(m1, r) := getOrCreateThreadLocalLuaVM add_path (vm_id_ c) (package_path_ c) m in
  let* n := r in
  match alive m1 !! n with
  | Some vm =>
      let* started := startPlugin (load (code_ (plugin_ c))) call (registry vm) in
      Ok ({| alive := <[n := {| vm_id := vm_id vm; package_path := package_path vm; registry := started.2 |}]> (alive m1);
             local_lua_virtual_machines := local_lua_virtual_machines m1; next := next m1 |}, (n, started.1))
  | None => Undefined "no machine"
  end.
End config.

(** ** What is registered *)

(** A reference stands for a function, and was not in use before. *)
Definition stands_for (before after : gmap nat nat) (v : Field) (r : option nat) : Prop :=
  match v with
  | FFunction f => exists n, r = Some n /\ after !! n = Some f /\ before !! n = None
  | _ => r = None
  end.

Lemma get_ref_spec v g :
  let '(r, g') := get_ref v g in stands_for g g' v r /\ g ⊆ g' /\ unref r g' = g.
Proof.
  destruct v as [f| | | |]; cbn; try done. split; [|split].
  - eexists. split; [done|]. split; [apply lookup_insert_eq|apply new_ref_fresh].
  - apply insert_subseteq, new_ref_fresh.
  - apply delete_insert_id, new_ref_fresh.
Qed.

Lemma unref_comm r1 r2 g : unref r1 (unref r2 g) = unref r2 (unref r1 g).
Proof. destruct r1, r2; cbn; [apply delete_delete|done..]. Qed.

Lemma stands_for_later before before' after after' v r :
  stands_for before' after v r -> before ⊆ before' -> after ⊆ after' -> stands_for before after' v r.
Proof.
  destruct v as [f| | | |]; cbn; try done. intros (n & -> & Ha & Hb) H1 H2. exists n. split_and!; [done| |].
  - by eapply lookup_weaken.
  - by eapply lookup_weaken_None.
Qed.

(** Takes the next field, with what its reference stands for. *)
Ltac register name r g' H :=
  match goal with |- context [get_ref (?fd name) ?g] =>
    let Hs := fresh "Hs" in let Hu := fresh "Hu" in
    pose proof (get_ref_spec (fd name) g) as H; destruct (get_ref (fd name) g) as [r g']; destruct H as (H & Hs & Hu)
  end.
Ltac grows := first [reflexivity | eassumption | etrans; [eassumption|grows]].
Ltac placed := first [done | eapply stands_for_later; [eassumption|grows..]].

(** The references of a loaded plugin are those of the functions of its table, and nothing else in the
    registry changes.  Which functions are looked up depends on whether the table has a version at all.
    Deleting the handle gives the registry back when it has none ... *)
Theorem plugin_registered field g h g' :
  startPluginHandle (LoadedTable field) g = Ok (h, g') ->
  g ⊆ g' /\ stands_for g g' (field "on_configure") (onConfigureRef h) /\
  match field "version" with
  | FNil =>
      stands_for g g' (field "on_request") (onRequestRef (functions h)) /\
      stands_for g g' (field "on_response") (onResponseRef (functions h)) /\
      delete_PluginHandle h g' = g
  | _ =>
      stands_for g g' (field "on_request_header") (onRequestHeaderRef (functions h)) /\
      stands_for g g' (field "on_request_body") (onRequestBodyRef (functions h)) /\
      stands_for g g' (field "on_response_header") (onResponseHeaderRef (functions h)) /\
      stands_for g g' (field "on_response_body") (onResponseBodyRef (functions h)) /\
      onRequestRef (functions h) = None /\ onResponseRef (functions h) = None
  end.
Proof.
  unfold startPluginHandle. destruct (raw_version (field "version")) as [raw| | |] eqn:Ev; [|discriminate..]. cbn [obind].
  register "on_configure" c g0 Hc. destruct raw as [v|].
  - register "on_request_header" r1 g1 Hr1. register "on_request_body" r2 g2 Hr2.
    register "on_response_header" r3 g3 Hr3. register "on_response_body" r4 g4 Hr4.
    intros [= <- <-]. cbn. split; [grows|].
    split; [placed|]. destruct (field "version"); try discriminate; split_and!; placed.
  - register "on_request" r1 g1 Hr1. register "on_response" r2 g2 Hr2.
    intros [= <- <-]. cbn. split; [grows|].
    split; [placed|]. destruct (field "version"); try discriminate. split_and!; [placed..|].
    unfold delete_PluginHandle. cbn. rewrite (unref_comm r2 r1), (unref_comm r2 c), (unref_comm r1 c). congruence.
Qed.

(** ... and leaves the functions of the streams behind when it has one. *)
Theorem versioned_plugin_leaks field g h g' f :
  startPluginHandle (LoadedTable field) g = Ok (h, g') ->
  field "version" <> FNil -> field "on_request_header" = FFunction f ->
  exists r, g !! r = None /\ delete_PluginHandle h g' !! r = Some f.
Proof.
  intros Hl Hv Hf. unfold startPluginHandle in Hl.
  destruct (raw_version (field "version")) as [[v|]| | |] eqn:Ev; try discriminate; cbn [obind] in Hl;
    [|by destruct (field "version")].
  revert Hl. register "on_configure" c g0 Hc.
  register "on_request_header" r1 g1 Hr1. register "on_request_body" r2 g2 Hr2.
  register "on_response_header" r3 g3 Hr3. register "on_response_body" r4 g4 Hr4.
  intros [= <- <-]. unfold delete_PluginHandle. cbn.
  rewrite Hf in Hr1. destruct Hr1 as (r & -> & Hin & Hout).
  exists r. split; [eapply lookup_weaken_None; [exact Hout|grows]|].
  assert (Hg : g4 !! r = Some f) by (eapply lookup_weaken; [exact Hin|grows]).
  destruct (field "on_configure") as [k| | | |]; cbn in Hc; [|by subst..].
  destruct Hc as (m & -> & Hm & _). cbn. rewrite lookup_delete_ne; [done|]. intros ->. congruence.
Qed.

(** A plugin without functions to call still loads; any other script is rejected. *)
Theorem startPluginHandle_errors l g :
  match l with
  | LoadedTable field =>
      is_Some (match field "version" with FFunction _ | FOther => None | v => Some v end) <->
      exists r, startPluginHandle l g = Ok r
  | _ => exists w, startPluginHandle l g = Throw w
  end.
Proof.
  destruct l as [rc|field|]; cbn; [eauto| |eauto].
  destruct (field "version"); cbn; repeat case_match; naive_solver.
Qed.

(** ** Sharing *)

(** An entry whose machine lives has the id it is filed under. *)
Definition machines_ok (m : Machines) : Prop :=
  (forall n vm, alive m !! n = Some vm -> n < next m) /\
  (forall i n vm, local_lua_virtual_machines m !! i = Some n -> n < next m /\ (alive m !! n = Some vm -> vm_id vm = i)).

Lemma machines_ok_empty : machines_ok {| alive := ∅; local_lua_virtual_machines := ∅; next := 0 |}.
Proof. split; cbn; intros *; by rewrite lookup_empty. Qed.

Lemma machines_ok_release n m : machines_ok m -> machines_ok (release n m).
Proof.
  intros [Ha Ht]. split; cbn.
  - intros k vm H%lookup_delete_Some. naive_solver.
  - intros i k vm H. destruct (Ht i k vm H) as [Hn Hid]. split; [done|]. intros [_ Hk]%lookup_delete_Some. auto.
Qed.

(** The machine returned lives and has the id asked for; one that lives already is returned as it is.  A machine
    is never replaced while it lives. *)
Theorem machine_of_id add_path i path m m' n :
  machines_ok m -> getOrCreateThreadLocalLuaVM add_path i path m = (m', Ok n) ->
  machines_ok m' /\ (exists vm, alive m' !! n = Some vm /\ vm_id vm = i) /\ alive m ⊆ alive m' /\
  (is_Some (alive m !! n) -> m' = m).
Proof.
  intros [Ha Ht] Hget. unfold getOrCreateThreadLocalLuaVM in Hget.
  destruct (local_lua_virtual_machines m !! i ≫= _) as [k|] eqn:E.
  - injection Hget as <- <-. apply bind_Some in E as (k' & Hk & E). case_decide as Hl; [|done]. injection E as ->.
    destruct Hl as [vm Hvm]. split_and!; [by split| |done|done]. exists vm. split; [done|]. by eapply Ht.
  - unfold new_LuaVirtualMachine in Hget. destruct (negb _ && negb _); [by injection Hget|].
    injection Hget as <- <-. cbn.
    assert (Hfresh : alive m !! next m = None).
    { destruct (alive m !! next m) eqn:En; [|done]. apply Ha in En. lia. }
    split_and!; [| |by apply insert_subseteq|].
    + split; cbn.
      * intros k vm [[<- _]|[_ Hk]]%lookup_insert_Some; [lia|]. apply Ha in Hk. lia.
      * intros j k vm [[<- <-]|[Hj Hk]]%lookup_insert_Some.
        -- split; [lia|]. rewrite lookup_insert_eq. by intros [= <-].
        -- rewrite lookup_delete_ne in Hk by done. destruct (Ht j k vm Hk) as [Hlt Hid]. split; [lia|].
           rewrite lookup_insert_ne by lia. done.
    + eexists. by rewrite lookup_insert_eq.
    + rewrite Hfresh. by intros [].
Qed.

(** While it lives, every request for the id gives the same machine, whatever path it names. *)
Theorem machine_shared add_path add_path' i path path' m m' n :
  getOrCreateThreadLocalLuaVM add_path i path m = (m', Ok n) ->
  getOrCreateThreadLocalLuaVM add_path' i path' m' = (m', Ok n).
Proof.
  unfold getOrCreateThreadLocalLuaVM at 1.
  destruct (local_lua_virtual_machines m !! i ≫= _) as [k|] eqn:E.
  - intros [= <- <-]. unfold getOrCreateThreadLocalLuaVM. by rewrite E.
  - unfold new_LuaVirtualMachine. destruct (negb _ && negb _); [by intros [=]|]. intros [= <- <-].
    unfold getOrCreateThreadLocalLuaVM. cbn. rewrite lookup_insert_eq. cbn. by rewrite lookup_insert_eq.
Qed.

(** A package path that cannot be added leaves no entry behind. *)
Theorem machine_not_created add_path i path m m' w :
  getOrCreateThreadLocalLuaVM add_path i path m = (m', Throw w) ->
  alive m' = alive m /\ local_lua_virtual_machines m' !! i = None.
Proof.
  unfold getOrCreateThreadLocalLuaVM. destruct (local_lua_virtual_machines m !! i ≫= _); [done|].
  unfold new_LuaVirtualMachine. destruct (negb _ && negb _); [|done]. intros [= <- _]. cbn.
  by rewrite lookup_delete_eq.
Qed.
(** ** The handle of a thread *)

(** Every function a handle refers to is in the registry of its machine, under that reference. *)
Definition refers (g : gmap nat nat) (r : option nat) (v : Field) : Prop :=
  match v with FFunction f => exists n, r = Some n /\ g !! n = Some f | _ => r = None end.

Lemma stands_for_refers g g' r v : stands_for g g' v r -> refers g' r v.
Proof. destruct v; cbn; naive_solver. Qed.

(** A thread's handle belongs to a live machine of the configured id and finds its functions in it; the handles
    that other plugins have on the machines of the thread keep finding theirs. *)
Theorem thread_handle_ready add_path load call c m m' n h field :
  machines_ok m -> load (code_ (plugin_ c)) = LoadedTable field ->
  thread_plugin_handle add_path load call c m = Ok (m', (n, h)) ->
  machines_ok m' /\
  (exists vm, alive m' !! n = Some vm /\ vm_id vm = vm_id_ c /\ refers (registry vm) (onConfigureRef h) (field "on_configure") /\
     match field "version" with
     | FNil => refers (registry vm) (onRequestRef (functions h)) (field "on_request") /\
               refers (registry vm) (onResponseRef (functions h)) (field "on_response")
     | _ => refers (registry vm) (onRequestHeaderRef (functions h)) (field "on_request_header") /\
            refers (registry vm) (onRequestBodyRef (functions h)) (field "on_request_body") /\
            refers (registry vm) (onResponseHeaderRef (functions h)) (field "on_response_header") /\
            refers (registry vm) (onResponseBodyRef (functions h)) (field "on_response_body")
     end) /\
  (forall k vm r f, alive m !! k = Some vm -> registry vm !! r = Some f ->
     exists vm', alive m' !! k = Some vm' /\ vm_id vm' = vm_id vm /\ registry vm' !! r = Some f).
Proof.
  intros Hm Hload Hrun. unfold thread_plugin_handle in Hrun.
  destruct (getOrCreateThreadLocalLuaVM _ _ _ m) as [m1 res] eqn:Eg. invert_bind Hrun.
  destruct (machine_of_id _ _ _ _ _ _ Hm Eg) as ([Ha Ht] & (vm & Hvm & Hid) & Hsub & _). rewrite Hvm in Hrun.
  rewrite Hload in Hrun. invert_bind Hrun. destruct r0 as [h0 g0]. injection Hrun as <- <- <-. cbn.
  unfold startPlugin in E0. invert_bind E0. invert_bind E0. injection E0 as ->.
  destruct (plugin_registered _ _ _ _ E1) as (Hgrow & Hconf & Hfns). split_and!.
  - split; cbn.
    + intros k v [[<- _]|[_ Hk]]%lookup_insert_Some; eauto.
    + intros j k v Hk. destruct (Ht j k vm Hk) as [Hlt _]. split; [done|].
      intros [[<- <-]|[_ Hv]]%lookup_insert_Some; cbn; [exact (proj2 (Ht j r vm Hk) Hvm)|by eapply Ht].
  - eexists. rewrite lookup_insert_eq. split; [done|]. cbn. split; [done|]. split; [by eapply stands_for_refers|].
    destruct (field "version"); naive_solver eauto using stands_for_refers.
  - intros k v q f Hk Hr. pose proof (lookup_weaken _ _ _ _ Hk Hsub) as Hk1.
    destruct (decide (k = r)) as [->|Hne].
    + rewrite Hvm in Hk1. injection Hk1 as ->. eexists. rewrite lookup_insert_eq. split; [done|]. cbn. split; [done|].
      by eapply lookup_weaken.
    + exists v. by rewrite lookup_insert_ne.
Qed.
End vm.
End Vm.
