(* ===== verification/LuaState.v ===== *)
(** * Lua states (source/filters/http/rider: [LuaUtils] of common.h, vm.cc, the contexts of context.cc)

    LuaJIT is used through its C API: the class [LuaApi] gives the calls this code makes, and the class
    [LuaLaws] what the manual of Lua 5.1 says of them on a view of the state: the stack and the table of globals
    of each thread, and the tables.  On top are the utilities of the code, its virtual machines, threads and
    coroutines, and the sandbox that keeps the context of each coroutine apart. *)

From S2P Require Import Prelude.
From Stdlib Require Import Ascii.
From stdpp Require Import base gmap strings numbers list fin_maps.
#[local] Open Scope Z_scope.

(** ** What can be seen of a state *)

(** Values; tables and threads by their identity. *)
Inductive Val := VNil | VLight (p : nat) | VInt (z : Z) | VStr (s : string) | VCFunction (f : string) | VTable (a : nat) |
  VThread (t : nat).
#[global] Instance Val_eq_dec : EqDecision Val.
Proof. solve_decision. Defined.

Record Table := { fields : gmap string Val; metatable : option nat }.

(** Stacks have their top first. *)
Record LuaView := { stacks : gmap nat (list Val); globals : gmap nat nat; tables : gmap nat Table }.

Definition LUA_GLOBALSINDEX : Z := -10002.

(** Indices relative to the top, and the pseudo-index of the globals. *)
Definition at_index (t : nat) (i : Z) (v : LuaView) : option Val :=
  if i =? LUA_GLOBALSINDEX then VTable <$> globals v !! t
  else s ← stacks v !! t; s !! Z.to_nat (- i - 1).

Definition set_stack (t : nat) (s : list Val) (v : LuaView) : LuaView :=
  {| stacks := <[t := s]> (stacks v); globals := globals v; tables := tables v |}.
Definition set_globals (t a : nat) (v : LuaView) : LuaView :=
  {| stacks := stacks v; globals := <[t := a]> (globals v); tables := tables v |}.
Definition put_table (a : nat) (T : Table) (v : LuaView) : LuaView :=
  {| stacks := stacks v; globals := globals v; tables := <[a := T]> (tables v) |}.

(** A field that is set to nil is gone. *)
Definition assign (k : string) (x : Val) (f : gmap string Val) : gmap string Val :=
  match x with VNil => delete k f | _ => <[k := x]> f end.
Definition set_field (k : string) (x : Val) (T : Table) : Table :=
  {| fields := assign k x (fields T); metatable := metatable T |}.

(** No metamethod sees an assignment. *)
Definition raw (T : Table) (v : LuaView) : Prop :=
  match metatable T with
  | None => True
  | Some m => exists M, tables v !! m = Some M /\ fields M !! "__newindex" = None
  end.

(** Reading a field, along at most [n] metatables whose "__index" is a table. *)
Fixpoint read_field (n : nat) (v : LuaView) (a : nat) (k : string) : option Val :=
  T ← tables v !! a;
  match fields T !! k, metatable T with
  | Some x, _ => Some x
  | None, None => Some VNil
  | None, Some m =>
      M ← tables v !! m;
      match fields M !! "__index", n with
      | None, _ => Some VNil
      | Some (VTable b), S n' => read_field n' v b k
      | Some _, _ => None
      end
  end.

(** The limit of such chains in Lua. *)
Definition MAXTAGLOOP : nat := 100.

(** ** The C API *)

Class LuaApi (L : Type) := {
  (** a new thread below a thread, or a null pointer *)
  lua_newthread : nat -> L -> option nat * L;
  (** lua_pushlightuserdata, lua_pushinteger, lua_pushlstring, lua_pushcfunction *)
  lua_push : nat -> Val -> L -> L;
  lua_pushvalue : nat -> Z -> L -> L;
  lua_createtable : nat -> L -> L;
  lua_setfield : nat -> Z -> string -> L -> L;
  lua_getfield : nat -> Z -> string -> L -> L;
  lua_setmetatable : nat -> Z -> L -> L;
  lua_replace : nat -> Z -> L -> L;
  lua_setglobal : nat -> string -> L -> L;
  lua_getglobal : nat -> string -> L -> L;
  lua_concat : nat -> nat -> L -> L;
  lua_pop : nat -> nat -> L -> L;
  (** [luaL_ref] in the registry, the reference being kept by an owner *)
  luaL_ref : nat -> L -> L;
  lua_touserdata : nat -> Z -> L -> option nat;
  lua_istable : nat -> Z -> L -> bool;
  luaL_checkinteger : nat -> Z -> L -> option Z;
}.

Class LuaLaws (L : Type) `{LuaApi L} := {
  view : L -> LuaView;
  newthread_law : forall p s g l t l', stacks (view l) !! p = Some s -> globals (view l) !! p = Some g ->
    lua_newthread p l = (Some t, l') ->
    stacks (view l) !! t = None /\ globals (view l) !! t = None /\
    view l' = set_globals t g (set_stack t [] (set_stack p (VThread t :: s) (view l)));
  push_law : forall t s x l, stacks (view l) !! t = Some s -> view (lua_push t x l) = set_stack t (x :: s) (view l);
  pushvalue_law : forall t i s x l, stacks (view l) !! t = Some s -> at_index t i (view l) = Some x ->
    view (lua_pushvalue t i l) = set_stack t (x :: s) (view l);
  createtable_law : forall t s l, stacks (view l) !! t = Some s ->
    exists a, tables (view l) !! a = None /\
      view (lua_createtable t l) = put_table a {| fields := ∅; metatable := None |} (set_stack t (VTable a :: s) (view l));
  setfield_law : forall t i k s x a T l, stacks (view l) !! t = Some (x :: s) -> at_index t i (view l) = Some (VTable a) ->
    tables (view l) !! a = Some T -> raw T (view l) ->
    view (lua_setfield t i k l) = put_table a (set_field k x T) (set_stack t s (view l));
  getfield_law : forall t i k s x a l, stacks (view l) !! t = Some s -> at_index t i (view l) = Some (VTable a) ->
    read_field MAXTAGLOOP (view l) a k = Some x -> view (lua_getfield t i k l) = set_stack t (x :: s) (view l);
  setmetatable_law : forall t i s m a T l, stacks (view l) !! t = Some (VTable m :: s) ->
    at_index t i (view l) = Some (VTable a) -> tables (view l) !! a = Some T ->
    view (lua_setmetatable t i l) = put_table a {| fields := fields T; metatable := Some m |} (set_stack t s (view l));
  replace_law : forall t s a l, stacks (view l) !! t = Some (VTable a :: s) ->
    view (lua_replace t LUA_GLOBALSINDEX l) = set_globals t a (set_stack t s (view l));
  setglobal_law : forall t k s x a T l, stacks (view l) !! t = Some (x :: s) -> globals (view l) !! t = Some a ->
    tables (view l) !! a = Some T -> raw T (view l) ->
    view (lua_setglobal t k l) = put_table a (set_field k x T) (set_stack t s (view l));
  getglobal_law : forall t k s x a l, stacks (view l) !! t = Some s -> globals (view l) !! t = Some a ->
    read_field MAXTAGLOOP (view l) a k = Some x -> view (lua_getglobal t k l) = set_stack t (x :: s) (view l);
  concat_law : forall t s x y l, stacks (view l) !! t = Some (VStr y :: VStr x :: s) ->
    view (lua_concat t 2 l) = set_stack t (VStr (x +:+ y) :: s) (view l);
  pop_law : forall t n s l, stacks (view l) !! t = Some s -> (n <= length s)%nat ->
    view (lua_pop t n l) = set_stack t (drop n s) (view l);
  ref_law : forall t s x l, stacks (view l) !! t = Some (x :: s) -> view (luaL_ref t l) = set_stack t s (view l);
  touserdata_law : forall t i l x, at_index t i (view l) = Some x ->
    lua_touserdata t i l = match x with VLight p => Some p | _ => None end;
  istable_law : forall t i l x, at_index t i (view l) = Some x ->
    lua_istable t i l = match x with VTable _ => true | _ => false end;
  checkinteger_law : forall t i l z, at_index t i (view l) = Some (VInt z) -> luaL_checkinteger t i l = Some z;
}.

(** ** The code *)

Section Code.
Context {L : Type} `{LA : LuaApi L}.

Definition lua_global_context_key : string := "_envoy_context".
Definition lua_global_stream_direction : string := "_envoy_stream_direction".

Definition setContext (t r : nat) (l : L) : L := lua_setglobal t lua_global_context_key (lua_push t (VLight r) l).

(** What is read stays on the stack. *)
Definition getContext (t : nat) (l : L) : option nat * L :=
  let l := lua_getglobal t lua_global_context_key l in (lua_touserdata t (-1) l, l).

Definition getUserData (t : nat) (key : string) (l : L) : option nat * L :=
  let l := lua_getglobal t key l in
  let data := lua_touserdata t (-1) l in
  (data, lua_pop t 1 l).

Definition setLightuserdata (t : nat) (key : string) (data : nat) (l : L) : L :=
  lua_setglobal t key (lua_push t (VLight data) l).

Definition createNewGlobalsTable (t : nat) (l : L) : L :=
  let l := lua_createtable t l in
  let l := lua_pushvalue t (-1) l in
  lua_setfield t (-2) "_G" l.

Definition setGlobalsTable (t : nat) (l : L) : L := lua_replace t LUA_GLOBALSINDEX l.
Definition getGlobalsTable (t : nat) (l : L) : L := lua_pushvalue t LUA_GLOBALSINDEX l.

Definition setupSandbox (t : nat) (l : L) : L :=
  let l := createNewGlobalsTable t l in
  let l := lua_createtable t l in
  let l := getGlobalsTable t l in
  let l := lua_setfield t (-2) "__index" l in
  let l := lua_setmetatable t (-2) l in
  setGlobalsTable t l.

Definition addLuaPackagePath (t : nat) (path : string) (l : L) : bool * L :=
  let l := lua_getglobal t "package" l in
  if negb (lua_istable t (-1) l) then (false, l)
  else
    let l := lua_push t (VStr path) l in
    let l := lua_getfield t (-2) "path" l in
    let l := lua_concat t 2 l in
    let l := lua_setfield t (-2) "path" l in
    (true, lua_pop t 1 l).

(** A table of the call-in functions, below the table on top of the stack. *)
Definition api_table (t : nat) (name : string) (functions : list (string * string)) (l : L) : L :=
  let l := lua_createtable t l in
  let l := fold_left (fun l f => lua_setfield t (-2) f.1 (lua_push t (VCFunction f.2) l)) functions l in
  lua_setfield t (-2) name l.

Definition initializeCallInAPIs (t : nat) (l : L) : L :=
  let l := lua_createtable t l in
  let l := api_table t "req" [("get_body", "static_lua_get_request_body")] l in
  let l := api_table t "resp" [("get_body", "static_lua_get_response_body")] l in
  let l := api_table t "runtime" [] l in
  let l := api_table t "streaminfo" [] l in
  let l := api_table t "stream" [] l in
  let l := lua_setfield t (-2) "respond" (lua_push t (VCFunction "static_lua_respond") l) in
  let l := lua_setfield t (-2) "httpCall" (lua_push t (VCFunction "static_lua_http_call") l) in
  let l := lua_getglobal t "package" l in
  let l := lua_getfield t (-1) "loaded" l in
  let l := lua_pushvalue t (-3) l in
  let l := lua_setfield t (-2) "envoy" l in
  let l := lua_pop t 2 l in
  lua_setglobal t "envoy" l.

(** [LuaVirtualMachine], from an opened state with the standard libraries; [registerType] makes the metatable of
    the buffers. *)
Definition new_LuaVirtualMachine (registerType : L -> L) (main : nat) (package_path : string) (l : L) : outcome L :=
  let r := if bool_decide (package_path = "") then (true, l) else addLuaPackagePath main package_path l in
  if negb r.1 then Throw ("failed to add package path " +:+ package_path)
  else Ok (initializeCallInAPIs main (registerType r.2)).

(** [LuaThread]: a thread of its own for a plugin; [LuaRef] takes it off the stack of its parent. *)
Definition new_LuaThread (parent : nat) (l : L) : outcome (nat * L) :=
  let r := lua_newthread parent l in
  match r.1 with
  | None => Throw "lua_newthread error"
  | Some new_state => Ok (new_state, setupSandbox new_state (luaL_ref parent r.2))
  end.

Definition createCoroutine (state : nat) (l : L) : outcome (nat * L) :=
  let r := lua_newthread state l in
  match r.1 with
  | None => Throw "lua_newthread failed"
  | Some coroutine_state => Ok (coroutine_state, setupSandbox coroutine_state (luaL_ref state r.2))
  end.

(** [Coroutine::initialize], with the code of the direction *)
Definition initialize (t context : nat) (direction : Z) (l : L) : L :=
  let l := setContext t context l in
  lua_setglobal t lua_global_stream_direction (lua_push t (VInt direction) l).

(** The constructors of [ContextBase] *)
Definition new_ContextBase (vm this : nat) (l : L) : L := setContext vm this l.

(** ** Coroutines of the streams and what scripts assign *)

(** A coroutine for a stream; a global that a function of the plugin assigns (its environment are the globals of the
    thread that loaded it); a global that is assigned in the globals of the n-th coroutine itself. *)
Inductive lua_event :=
| NewStream (context : nat) (direction : Z)
| ScriptGlobal (k : string) (x : Val)
| CoroutineGlobal (n : nat) (k : string) (x : Val).

Definition lua_step (th : nat) (ts : list nat) (e : lua_event) (l : L) : outcome (list nat * L) :=
  match e with
  | NewStream context direction =>
      obind (createCoroutine th l) (fun r => Ok (ts ++ [r.1], initialize r.1 context direction r.2))
  | ScriptGlobal k x => Ok (ts, lua_setglobal th k (lua_push th x l))
  | CoroutineGlobal n k x =>
      match ts !! n with Some t => Ok (ts, lua_setglobal t k (lua_push t x l)) | None => Ok (ts, l) end
  end.

Fixpoint lua_run (th : nat) (ts : list nat) (es : list lua_event) (l : L) : outcome (list nat * L) :=
  match es with
  | [] => Ok (ts, l)
  | e :: es' => obind (lua_step th ts e l) (fun r => lua_run th r.1 es' r.2)
  end.

(** What "envoy.respond" and "envoy.httpCall" find out about their caller. *)
Definition caller_of (t : nat) (l : L) : option nat * option Z * L :=
  let r := getContext t l in
  let l := lua_getglobal t lua_global_stream_direction r.2 in
  (r.1, luaL_checkinteger t (-1) l, l).
End Code.

(** ** What the utilities do to the view *)

Section View.
Context {L : Type} `{LL : LuaLaws L}.

Lemma set_stack_twice t s s' v : set_stack t s (set_stack t s' v) = set_stack t s v.
Proof. unfold set_stack. cbn. by rewrite insert_insert_eq. Qed.
Lemma put_table_twice a T T' v : put_table a T (put_table a T' v) = put_table a T v.
Proof. unfold put_table. cbn. by rewrite insert_insert_eq. Qed.
Lemma set_stack_put t s a T v : set_stack t s (put_table a T v) = put_table a T (set_stack t s v).
Proof. done. Qed.
Lemma set_stack_globals t s t' a v : set_stack t s (set_globals t' a v) = set_globals t' a (set_stack t s v).
Proof. done. Qed.
Lemma set_globals_put t a b T v : set_globals t a (put_table b T v) = put_table b T (set_globals t a v).
Proof. done. Qed.
Lemma set_stack_same t s v : stacks v !! t = Some s -> set_stack t s v = v.
Proof. intros Hs. unfold set_stack. rewrite insert_id by done. by destruct v. Qed.

Lemma top_index t s x v : stacks v !! t = Some (x :: s) -> at_index t (-1) v = Some x.
Proof. intros Hs. unfold at_index. cbn. by rewrite Hs. Qed.
Lemma second_index t s x y v : stacks v !! t = Some (y :: x :: s) -> at_index t (-2) v = Some x.
Proof. intros Hs. unfold at_index. cbn. by rewrite Hs. Qed.
Lemma third_index t s x y z v : stacks v !! t = Some (z :: y :: x :: s) -> at_index t (-3) v = Some x.
Proof. intros Hs. unfold at_index. cbn. by rewrite Hs. Qed.

Lemma stack_at t s v : stacks (set_stack t s v) !! t = Some s.
Proof. apply lookup_insert_eq. Qed.

(** Reading does not depend on stacks. *)
Lemma read_field_stack n t s v a k : read_field n (set_stack t s v) a k = read_field n v a k.
Proof.
  revert a. induction n as [|n IH]; intros a; cbn [read_field]; [done|]. cbn [tables set_stack].
  destruct (tables v !! a) as [T|]; [|done]. cbn [mbind option_bind]. destruct (fields T !! k), (metatable T) as [m|]; try done.
  destruct (tables v !! m) as [M|]; [|done]. cbn [mbind option_bind]. destruct (fields M !! "__index") as [[]|]; try done.
Qed.

(** A sandbox: new globals whose metatable leads to the old ones; the stack is as before. *)
Definition index_to (b : nat) : Table := {| fields := {["__index" := VTable b]}; metatable := None |}.
Definition sandbox_table (a m : nat) : Table := {| fields := {["_G" := VTable a]}; metatable := Some m |}.

Lemma newGlobals_view t s l :
  stacks (view l) !! t = Some s ->
  exists a, tables (view l) !! a = None /\
    view (createNewGlobalsTable t l) =
      put_table a {| fields := {["_G" := VTable a]}; metatable := None |} (set_stack t (VTable a :: s) (view l)).
Proof.
  intros Hs. unfold createNewGlobalsTable. destruct (createtable_law t s l Hs) as (a & Ha & E1).
  exists a. split; [done|]. set (l1 := lua_createtable t l) in *.
  assert (E2 : view (lua_pushvalue t (-1) l1) = set_stack t (VTable a :: VTable a :: s) (view l1)).
  { apply pushvalue_law; [by rewrite E1; apply stack_at|apply (top_index t s); by rewrite E1; apply stack_at]. }
  set (l2 := lua_pushvalue t (-1) l1) in *.
  rewrite (setfield_law t (-2) "_G" (VTable a :: s) (VTable a) a {| fields := ∅; metatable := None |} l2).
  - rewrite E2, E1. unfold set_field; cbn [assign fields metatable]. rewrite !set_stack_put, put_table_twice, !set_stack_twice. done.
  - by rewrite E2; apply stack_at.
  - apply (second_index t s _ (VTable a)). by rewrite E2; apply stack_at.
  - rewrite E2, E1. cbn. apply lookup_insert_eq.
  - done.
Qed.

Lemma setupSandbox_view t s g l :
  stacks (view l) !! t = Some s -> globals (view l) !! t = Some g ->
  exists a m, tables (view l) !! a = None /\ tables (view l) !! m = None /\ a <> m /\
    view (setupSandbox t l) = put_table m (index_to g) (put_table a (sandbox_table a m) (set_globals t a (view l))).
Proof.
  intros Hs Hg. unfold setupSandbox. destruct (newGlobals_view t s l Hs) as (a & Ha & E1).
  set (l1 := createNewGlobalsTable t l) in *.
  destruct (createtable_law t (VTable a :: s) l1) as (m & Hm & E2); [by rewrite E1; apply stack_at|].
  set (l2 := lua_createtable t l1) in *.
  assert (Ham : a <> m /\ tables (view l) !! m = None).
  { rewrite E1 in Hm. cbn in Hm. destruct (decide (a = m)) as [->|Hne]; [by rewrite lookup_insert_eq in Hm|].
    by rewrite lookup_insert_ne in Hm. }
  destruct Ham as [Hne Hm']. exists a, m. split_and!; [done..|].
  assert (E3 : view (getGlobalsTable t l2) = set_stack t (VTable g :: VTable m :: VTable a :: s) (view l2)).
  { apply pushvalue_law; [by rewrite E2; apply stack_at|]. unfold at_index. cbn. rewrite E2, E1. cbn. by rewrite Hg. }
  set (l3 := getGlobalsTable t l2) in *.
  assert (E4 : view (lua_setfield t (-2) "__index" l3) =
    put_table m (index_to g) (set_stack t (VTable m :: VTable a :: s) (view l1))).
  { rewrite (setfield_law t (-2) "__index" (VTable m :: VTable a :: s) (VTable g) m {| fields := ∅; metatable := None |} l3);
      [|by rewrite E3; apply stack_at|apply (second_index t (VTable a :: s) _ (VTable g)); by rewrite E3; apply stack_at
       |rewrite E3, E2; cbn; apply lookup_insert_eq|done].
    rewrite E3, E2. unfold set_field; cbn [assign fields metatable]. by rewrite !set_stack_put, put_table_twice, !set_stack_twice. }
  set (l4 := lua_setfield t (-2) "__index" l3) in *.
  assert (E5 : view (lua_setmetatable t (-2) l4) =
    put_table m (index_to g) (put_table a (sandbox_table a m) (set_stack t (VTable a :: s) (view l)))).
  { rewrite (setmetatable_law t (-2) (VTable a :: s) m a {| fields := {["_G" := VTable a]}; metatable := None |} l4);
      [|by rewrite E4; apply stack_at|apply (second_index t s _ (VTable m)); by rewrite E4; apply stack_at
       |rewrite E4, E1; cbn; rewrite lookup_insert_ne by done; apply lookup_insert_eq].
    rewrite E4, E1. rewrite !set_stack_put, !set_stack_twice. unfold put_table. cbn. f_equal.
    rewrite insert_insert_ne by done. by rewrite insert_insert_eq. }
  set (l5 := lua_setmetatable t (-2) l4) in *. unfold setGlobalsTable.
  rewrite (replace_law t s a l5) by (by rewrite E5; apply stack_at).
  rewrite E5, !set_stack_put, !set_globals_put, set_stack_twice. by rewrite set_stack_same.
Qed.

Lemma push_setglobal_view t k s x a T l :
  stacks (view l) !! t = Some s -> globals (view l) !! t = Some a -> tables (view l) !! a = Some T -> raw T (view l) ->
  view (lua_setglobal t k (lua_push t x l)) = put_table a (set_field k x T) (view l).
Proof.
  intros Hs Hg Ht Hr. pose proof (push_law t s x l Hs) as E1. set (l1 := lua_push t x l) in *.
  rewrite (setglobal_law t k s x a T l1); [|by rewrite E1; apply stack_at|by rewrite E1|by rewrite E1|by rewrite E1].
  rewrite E1, set_stack_twice. by rewrite set_stack_same.
Qed.
End View.

(** ** Environments *)

(** The specification: the names of the machine, of the plugin, and of each coroutine. *)
Record Envs := { lib : gmap string Val; shared : gmap string Val; own : list (gmap string Val) }.

Definition spec_read (e : Envs) (n : nat) (k : string) : Val :=
  match own e !! n ≫= lookup k with
  | Some x => x
  | None => match shared e !! k with Some x => x | None => default VNil (lib e !! k) end
  end.

Definition stream_env (context : nat) (direction : Z) : gmap string Val :=
  {[lua_global_context_key := VLight context; lua_global_stream_direction := VInt direction]}.

Definition spec_step (ev : lua_event) (e : Envs) : Envs :=
  match ev with
  | NewStream context direction =>
      {| lib := lib e; shared := shared e; own := own e ++ [stream_env context direction] |}
  | ScriptGlobal k x => {| lib := lib e; shared := assign k x (shared e); own := own e |}
  | CoroutineGlobal n k x => {| lib := lib e; shared := shared e; own := alter (assign k x) n (own e) |}
  end.

Section Envs.
Context {L : Type} `{LL : LuaLaws L}.

(** The parts the tables play, each table one. *)
Inductive Role := RMachine | RPlugin | RPluginMeta | ROwn (n : nat) | RMeta (n : nat).

(** The field "_G" of a sandbox leads to itself. *)
Definition agree (f f' : gmap string Val) : Prop := forall k, k <> "_G" -> f !! k = f' !! k.

Definition coroutine_at (role : nat -> option Role) (base n t : nat) (f : gmap string Val) (v : LuaView) : Prop :=
  stacks v !! t = Some [] /\ exists a m f',
    globals v !! t = Some a /\ role a = Some (ROwn n) /\ tables v !! a = Some {| fields := f'; metatable := Some m |} /\
    role m = Some (RMeta n) /\ tables v !! m = Some (index_to base) /\ agree f' f.

Definition represents (th : nat) (ts : list nat) (e : Envs) (v : LuaView) : Prop :=
  exists (role : nat -> option Role) main base mb f s,
    (forall a, is_Some (role a) -> is_Some (tables v !! a)) /\
    role main = Some RMachine /\ tables v !! main = Some {| fields := lib e; metatable := None |} /\
    role base = Some RPlugin /\ tables v !! base = Some {| fields := f; metatable := Some mb |} /\ agree f (shared e) /\
    role mb = Some RPluginMeta /\ tables v !! mb = Some (index_to main) /\
    stacks v !! th = Some s /\ globals v !! th = Some base /\ NoDup (th :: ts) /\
    length (own e) = length ts /\
    forall n t f, ts !! n = Some t -> own e !! n = Some f -> coroutine_at role base n t f v.

Lemma agree_assign k x f f' : agree f f' -> agree (assign k x f) (assign k x f').
Proof.
  intros Hf k' Hk. specialize (Hf k' Hk). unfold assign.
  destruct x; destruct (decide (k' = k)) as [->|]; by rewrite ?lookup_insert_eq, ?lookup_delete_eq, ?lookup_insert_ne, ?lookup_delete_ne.
Qed.

(** Reading through the sandboxes. *)
Lemma represents_read th ts e v n t k :
  represents th ts e v -> ts !! n = Some t -> k <> "_G" ->
  exists a, globals v !! t = Some a /\ read_field MAXTAGLOOP v a k = Some (spec_read e n k).
Proof.
  intros (role & main & base & mb & f & s & _ & _ & Hmain & _ & Hbase & Hf & _ & Hmb & _ & _ & _ & Hlen & Hts) Ht Hk.
  destruct (lookup_lt_is_Some_2 (own e) n) as [fn Hn]; [rewrite Hlen; by eapply lookup_lt_Some|].
  destruct (Hts n t fn Ht Hn) as (_ & a & m & f' & Ha & _ & Hta & _ & Hm & Hf'). exists a. split; [done|].
  unfold spec_read. rewrite Hn. cbn [mbind option_bind]. unfold MAXTAGLOOP.
  cbn [read_field]. rewrite Hta. cbn [mbind option_bind fields metatable]. rewrite (Hf' k Hk).
  destruct (fn !! k) as [x|]; [done|]. rewrite Hm. cbn [mbind option_bind index_to fields]. rewrite lookup_singleton_eq.
  rewrite Hbase. cbn [mbind option_bind fields metatable]. rewrite (Hf k Hk).
  destruct (shared e !! k) as [x|]; [done|]. rewrite Hmb. cbn [mbind option_bind index_to fields]. rewrite lookup_singleton_eq.
  rewrite Hmain. cbn [mbind option_bind fields metatable]. by destruct (lib e !! k).
Qed.

Lemma represents_length th ts e v : represents th ts e v -> length (own e) = length ts.
Proof. by intros (role & main & base & mb & f & s & _ & _ & _ & _ & _ & _ & _ & _ & _ & _ & _ & Hlen & _). Qed.

Lemma represents_stack th ts e v n t : represents th ts e v -> ts !! n = Some t -> stacks v !! t = Some [].
Proof.
  intros (role & main & base & mb & f & s & _ & _ & _ & _ & _ & _ & _ & _ & _ & _ & _ & Hlen & Hts) Ht.
  destruct (lookup_lt_is_Some_2 (own e) n) as [fn Hn]; [rewrite Hlen; by eapply lookup_lt_Some|].
  by destruct (Hts n t fn Ht Hn) as [Hs _].
Qed.

Lemma index_to_raw f m b v : tables v !! m = Some (index_to b) -> raw {| fields := f; metatable := Some m |} v.
Proof. intros Hm. exists (index_to b). split; [done|]. unfold index_to. cbn. by rewrite lookup_singleton_ne. Qed.

Lemma put_other (role : nat -> option Role) a b r r' T v :
  role a = Some r -> role b = Some r' -> r <> r' -> tables (put_table a T v) !! b = tables v !! b.
Proof. intros Ha Hb Hne. apply lookup_insert_ne. intros ->. congruence. Qed.

Lemma put_roles (role : nat -> option Role) a r T v :
  role a = Some r -> (forall a, is_Some (role a) -> is_Some (tables v !! a)) ->
  forall b, is_Some (role b) -> is_Some (tables (put_table a T v) !! b).
Proof.
  intros Ha Hall b Hb. cbn. destruct (decide (a = b)) as [->|]; [rewrite lookup_insert_eq; by eexists|].
  rewrite lookup_insert_ne by done. by apply Hall.
Qed.

(** A coroutine does not see what happens to tables that are not its own. *)
Lemma coroutine_other (role : nat -> option Role) base n t f a r T v :
  role a = Some r -> r <> ROwn n -> r <> RMeta n -> coroutine_at role base n t f v -> coroutine_at role base n t f (put_table a T v).
Proof.
  intros Ha Hr1 Hr2 (Hs & b & m & f' & Hg & Hb & Htb & Hm & Htm & Hf). split; [done|]. exists b, m, f'.
  split_and!; [done|done| |done| |done].
  - by rewrite (put_other role a b r (ROwn n)).
  - by rewrite (put_other role a m r (RMeta n)).
Qed.

Lemma script_global_ok th ts e k x l :
  represents th ts e (view l) -> represents th ts (spec_step (ScriptGlobal k x) e) (view (lua_setglobal th k (lua_push th x l))).
Proof.
  intros (role & main & base & mb & f & s & Hall & Hr1 & Ht1 & Hr2 & Ht2 & Hf & Hr3 & Ht3 & Hs & Hg & Hnd & Hlen & Hts).
  rewrite (push_setglobal_view th k s x base _ l Hs Hg Ht2) by (by apply (index_to_raw _ _ main)).
  exists role, main, base, mb, (assign k x f), s.
  split_and!; try done; [by eapply put_roles|..].
  - by rewrite (put_other role base main RPlugin RMachine).
  - apply lookup_insert_eq.
  - by apply agree_assign.
  - by rewrite (put_other role base mb RPlugin RPluginMeta).
  - intros n t fn Ht Hn. eapply coroutine_other; [done..|]. by apply Hts.
Qed.

Lemma coroutine_global_ok th ts e n k x t l :
  represents th ts e (view l) -> ts !! n = Some t ->
  represents th ts (spec_step (CoroutineGlobal n k x) e) (view (lua_setglobal t k (lua_push t x l))).
Proof.
  intros (role & main & base & mb & f & s & Hall & Hr1 & Ht1 & Hr2 & Ht2 & Hf & Hr3 & Ht3 & Hs & Hg & Hnd & Hlen & Hts) Ht.
  destruct (lookup_lt_is_Some_2 (own e) n) as [fn Hn]; [rewrite Hlen; by eapply lookup_lt_Some|].
  destruct (Hts n t fn Ht Hn) as (Hst & a & m & f' & Hga & Hra & Hta & Hrm & Htm & Hf').
  rewrite (push_setglobal_view t k [] x a _ l Hst Hga Hta) by (by apply (index_to_raw _ _ base)).
  exists role, main, base, mb, f, s.
  split_and!; try done; [by eapply put_roles|..].
  - by rewrite (put_other role a main (ROwn n) RMachine).
  - by rewrite (put_other role a base (ROwn n) RPlugin).
  - by rewrite (put_other role a mb (ROwn n) RPluginMeta).
  - cbn. by rewrite length_alter.
  - intros n' t' fn' Ht' Hn'. cbn in Hn'. destruct (decide (n' = n)) as [->|Hne].
    + rewrite list_lookup_alter_eq, Hn in Hn'. injection Hn' as <-. assert (t' = t) as -> by congruence.
      split; [done|]. exists a, m, (assign k x f'). split_and!; [done|done|apply lookup_insert_eq|done| |by apply agree_assign].
      by rewrite (put_other role a m (ROwn n) (RMeta n)).
    + rewrite list_lookup_alter_ne in Hn' by done. apply (coroutine_other role base n' t' fn' a (ROwn n)); [done|congruence|done|]. by apply Hts.
Qed.

(** A thread with a sandbox over the globals of its parent. *)
Lemma sandboxed_thread p s g l t l' :
  stacks (view l) !! p = Some s -> globals (view l) !! p = Some g -> lua_newthread p l = (Some t, l') ->
  exists a m, tables (view l) !! a = None /\ tables (view l) !! m = None /\ a <> m /\
    stacks (view l) !! t = None /\ globals (view l) !! t = None /\
    view (setupSandbox t (luaL_ref p l')) =
      put_table m (index_to g) (put_table a (sandbox_table a m) (set_globals t a (set_stack t [] (view l)))).
Proof.
  intros Hs Hg Hnew. destruct (newthread_law p s g l t l' Hs Hg Hnew) as (Hst & Hgt & E1).
  assert (Hne : t <> p) by congruence.
  assert (E2 : view (luaL_ref p l') = set_globals t g (set_stack t [] (view l))).
  { rewrite (ref_law p s (VThread t)); rewrite E1.
    - unfold set_stack, set_globals. cbn. f_equal. rewrite insert_insert_ne by done. rewrite insert_insert_eq.
      f_equal. by apply insert_id.
    - cbn. rewrite lookup_insert_ne by done. apply lookup_insert_eq. }
  destruct (setupSandbox_view t [] g (luaL_ref p l')) as (a & m & Ha & Hm & Ham & ->).
  { rewrite E2. cbn. apply lookup_insert_eq. }
  { rewrite E2. cbn. apply lookup_insert_eq. }
  rewrite E2 in *. exists a, m. split_and!; try done. unfold set_globals. cbn. by rewrite insert_insert_eq.
Qed.

Lemma initialize_view t context direction a m g l v :
  view l = put_table m (index_to g) (put_table a (sandbox_table a m) v) -> a <> m ->
  stacks v !! t = Some [] -> globals v !! t = Some a ->
  exists f, agree f (stream_env context direction) /\
    view (initialize t context direction l) = put_table m (index_to g) (put_table a {| fields := f; metatable := Some m |} v).
Proof.
  intros E Ham Hs Hg. unfold initialize, setContext.
  assert (Hm : tables (put_table m (index_to g) (put_table a (sandbox_table a m) v)) !! m = Some (index_to g)) by apply lookup_insert_eq.
  assert (Hswap : forall T T', put_table a T (put_table m (index_to g) (put_table a T' v)) = put_table m (index_to g) (put_table a T v)).
  { intros T T'. unfold put_table. cbn. f_equal. rewrite insert_insert_ne by done. by rewrite insert_insert_eq. }
  pose proof (push_setglobal_view t lua_global_context_key [] (VLight context) a (sandbox_table a m) l) as E1.
  rewrite E in E1. rewrite Hswap in E1.
  set (l1 := lua_setglobal t lua_global_context_key _) in *.
  set (T1 := set_field lua_global_context_key (VLight context) (sandbox_table a m)) in *.
  assert (E1' : view l1 = put_table m (index_to g) (put_table a T1 v)).
  { apply E1; [done|done| |by apply (index_to_raw _ m g)]. cbn. rewrite lookup_insert_ne by done. apply lookup_insert_eq. }
  rewrite (push_setglobal_view t lua_global_stream_direction [] (VInt direction) a T1 l1);
    rewrite ?E1'; [|done|done|cbn; rewrite lookup_insert_ne by done; apply lookup_insert_eq|].
  - rewrite Hswap. eexists. split; [|done]. intros k Hk. unfold T1, set_field, stream_env, sandbox_table. cbn [fields assign metatable].
    destruct (decide (k = lua_global_stream_direction)) as [->|H1]; [rewrite lookup_insert_eq; by rewrite lookup_insert_ne, lookup_singleton_eq|].
    rewrite lookup_insert_ne by done. destruct (decide (k = lua_global_context_key)) as [->|H2]; [by rewrite !lookup_insert_eq|].
    by rewrite !lookup_insert_ne, !lookup_singleton_ne by done.
  - apply (index_to_raw _ m g). apply lookup_insert_eq.
Qed.

Lemma role_fresh (role : nat -> option Role) v a b r :
  (forall a, is_Some (role a) -> is_Some (tables v !! a)) -> tables v !! a = None -> role b = Some r -> b <> a.
Proof. intros Hall Ha Hb ->. destruct (Hall a) as [T HT]; [by eexists|]. congruence. Qed.

Lemma represents_threads th ts e v t : represents th ts e v -> t ∈ th :: ts -> is_Some (stacks v !! t).
Proof.
  intros Hrep Hin. apply elem_of_cons in Hin as [->|Hin].
  - destruct Hrep as (role & main & base & mb & f & s & Hall & Hr1 & Ht1 & Hr2 & Ht2 & Hf & Hr3 & Ht3 & Hs & _). by eexists.
  - apply list_elem_of_lookup in Hin as [i Hi]. eexists. by eapply represents_stack.
Qed.

Lemma new_stream_ok th ts e context direction l :
  represents th ts e (view l) -> (lua_newthread th l).1 <> None ->
  exists t l', lua_step th ts (NewStream context direction) l = Ok (ts ++ [t], l') /\
    represents th (ts ++ [t]) (spec_step (NewStream context direction) e) (view l').
Proof.
  intros Hrep Hnew. pose proof Hrep as (role & main & base & mb & f & s & Hall & Hr1 & Ht1 & Hr2 & Ht2 & Hf & Hr3 & Ht3 & Hs & Hg & Hnd & Hlen & Hts).
  cbn [lua_step]. unfold createCoroutine. destruct (lua_newthread th l) as [[t|] l'] eqn:Heq; [|done]. cbn [fst snd obind].
  destruct (sandboxed_thread th s base l t l' Hs Hg Heq) as (a & m & Ha & Hm & Ham & Hst & Hgt & E).
  set (v1 := set_globals t a (set_stack t [] (view l))) in *.
  destruct (initialize_view t context direction a m base _ v1 E Ham) as (fn & Hfn & E'); [apply lookup_insert_eq..|].
  eexists t, _. split; [done|]. rewrite E'.
  set (n := length ts).
  assert (Hother : forall b r, role b = Some r -> b <> a /\ b <> m) by (intros b r Hb; split; by eapply (role_fresh role (view l))).
  assert (Htab : forall b r, role b = Some r ->
    tables (put_table m (index_to base) (put_table a {| fields := fn; metatable := Some m |} v1)) !! b = tables (view l) !! b).
  { intros b r Hb. destruct (Hother b r Hb). cbn. by rewrite !lookup_insert_ne by done. }
  assert (Hfresh : t ∉ th :: ts) by (intros Hin; destruct (represents_threads _ _ _ _ t Hrep Hin); congruence).
  exists (fun b => if decide (b = a) then Some (ROwn n) else if decide (b = m) then Some (RMeta n) else role b), main, base, mb, f, s.
  assert (Hrole : forall b r, role b = Some r ->
    (if decide (b = a) then Some (ROwn n) else if decide (b = m) then Some (RMeta n) else role b) = Some r).
  { intros b r Hb. destruct (Hother b r Hb). by rewrite !decide_False. }
  split_and!; try (by apply Hrole); try done.
  - intros b. cbn. destruct (decide (b = a)) as [->|Hba]; [rewrite lookup_insert_ne, lookup_insert_eq by done; by eexists|].
    destruct (decide (b = m)) as [->|Hbm]; [rewrite lookup_insert_eq; by eexists|].
    rewrite !lookup_insert_ne by done. apply Hall.
  - by rewrite (Htab main RMachine).
  - by rewrite (Htab base RPlugin).
  - by rewrite (Htab mb RPluginMeta).
  - cbn. rewrite lookup_insert_ne; [done|]. intros ->. apply Hfresh. by left.
  - cbn. rewrite lookup_insert_ne; [done|]. intros ->. apply Hfresh. by left.
  - rewrite app_comm_cons. apply NoDup_app. split_and!; [done| |apply NoDup_singleton].
    intros t' Hin Ht'. apply list_elem_of_singleton in Ht'. by subst t'.
  - cbn. by rewrite !length_app, Hlen.
  - intros i t' fi Ht' Hfi. cbn [spec_step own] in Hfi. apply lookup_app_Some in Ht' as [Ht'|[Hi Ht']].
    + rewrite lookup_app_l in Hfi by (rewrite Hlen; by eapply lookup_lt_Some).
      destruct (Hts i t' fi Ht' Hfi) as (Hsi & b & mi & f' & Hgi & Hrb & Htb & Hrm & Htm & Hfi').
      assert (t' <> t) by (intros ->; apply Hfresh; right; by eapply list_elem_of_lookup_2).
      split; [cbn; by rewrite lookup_insert_ne|]. exists b, mi, f'.
      split_and!; [cbn; by rewrite lookup_insert_ne|by apply Hrole|by rewrite (Htab b (ROwn i))|by apply Hrole|by rewrite (Htab mi (RMeta i))|done].
    + apply list_lookup_singleton_Some in Ht' as [Hi0 <-]. assert (i = n) as -> by (unfold n; lia).
      rewrite lookup_app_r in Hfi by (unfold n; lia). rewrite Hlen in Hfi. unfold n in Hfi. rewrite Nat.sub_diag in Hfi. injection Hfi as <-.
      split; [apply lookup_insert_eq|]. exists a, m, fn.
      split_and!; [apply lookup_insert_eq|by rewrite decide_True| |by rewrite decide_False, decide_True|apply lookup_insert_eq|done].
      cbn. rewrite lookup_insert_ne by done. apply lookup_insert_eq.
Qed.

(** The thread of a plugin. *)
Lemma plugin_thread_ok parent s main lib0 l :
  stacks (view l) !! parent = Some s -> globals (view l) !! parent = Some main ->
  tables (view l) !! main = Some {| fields := lib0; metatable := None |} -> (lua_newthread parent l).1 <> None ->
  exists th l', new_LuaThread parent l = Ok (th, l') /\ represents th [] {| lib := lib0; shared := ∅; own := [] |} (view l').
Proof.
  intros Hs Hg Ht Hnew. unfold new_LuaThread. destruct (lua_newthread parent l) as [[th|] l'] eqn:Heq; [|done]. cbn [fst snd].
  destruct (sandboxed_thread parent s main l th l' Hs Hg Heq) as (a & m & Ha & Hm & Ham & Hst & Hgt & E).
  eexists th, _. split; [done|]. rewrite E.
  assert (Hma : main <> a /\ main <> m) by (split; congruence). destruct Hma.
  exists (fun b => if decide (b = main) then Some RMachine else if decide (b = a) then Some RPlugin else if decide (b = m) then Some RPluginMeta else None),
    main, a, m, {["_G" := VTable a]}, [].
  split_and!; try done.
  - intros b. cbn. destruct (decide (b = m)) as [->|]; [rewrite lookup_insert_eq; by eexists|]. rewrite lookup_insert_ne by done.
    destruct (decide (b = a)) as [->|]; [rewrite lookup_insert_eq; by eexists|]. rewrite lookup_insert_ne by done.
    destruct (decide (b = main)) as [->|]; [rewrite Ht; by eexists|]. by intros [? ?].
  - by rewrite decide_True.
  - cbn. by rewrite !lookup_insert_ne.
  - by rewrite decide_False, decide_True.
  - cbn. rewrite lookup_insert_ne by done. apply lookup_insert_eq.
  - intros k Hk. by rewrite lookup_singleton_ne.
  - destruct (decide (m = main)); [congruence|]. destruct (decide (m = a)); [congruence|]. by rewrite decide_True.
  - apply lookup_insert_eq.
  - apply lookup_insert_eq.
  - apply lookup_insert_eq.
  - apply NoDup_singleton.
Qed.

Definition spec_run (es : list lua_event) (e : Envs) : Envs := fold_left (fun e ev => spec_step ev e) es e.

Lemma lua_run_ok th es ts e l :
  represents th ts e (view l) -> (forall p l, (lua_newthread p l).1 <> None) ->
  exists ts' l', lua_run th ts es l = Ok (ts', l') /\ represents th ts' (spec_run es e) (view l').
Proof.
  intros Hrep Hnew. revert ts e l Hrep. induction es as [|ev es IH]; intros ts e l Hrep; cbn [lua_run]; [by eexists _, _|].
  change (spec_run (ev :: es) e) with (spec_run es (spec_step ev e)).
  assert (Hstep : exists ts1 l1, lua_step th ts ev l = Ok (ts1, l1) /\ represents th ts1 (spec_step ev e) (view l1)).
  { destruct ev as [context direction|k x|n k x].
    - destruct (new_stream_ok th ts e context direction l Hrep (Hnew th l)) as (t & l1 & H1 & H2). by eexists _, _.
    - eexists _, _. split; [done|]. by apply script_global_ok.
    - cbn [lua_step]. destruct (ts !! n) as [t|] eqn:Ht.
      + eexists _, _. split; [done|]. by apply coroutine_global_ok.
      + eexists _, _. split; [done|]. cbn [spec_step]. pose proof (represents_length _ _ _ _ Hrep) as Hlen.
        replace (alter (assign k x) n (own e)) with (own e); [by destruct e|]. apply list_eq. intros i.
        destruct (decide (i = n)) as [->|]; [|by rewrite list_lookup_alter_ne].
        rewrite list_lookup_alter_eq. apply lookup_ge_None in Ht. by rewrite (lookup_ge_None_2 (own e)) by lia. }
  destruct Hstep as (ts1 & l1 & -> & Hrep1). cbn [obind fst snd]. by apply IH.
Qed.

(** ** Contexts *)

(** The streams of a run, in order. *)
Definition streams_of (es : list lua_event) : list (nat * Z) :=
  omap (fun ev => match ev with NewStream c d => Some (c, d) | _ => None end) es.

(** A coroutine overwrites what the code keeps in its globals. *)
Definition overwrites (n : nat) (ev : lua_event) : bool :=
  match ev with
  | CoroutineGlobal n' k _ => bool_decide (n' = n /\ (k = lua_global_context_key \/ k = lua_global_stream_direction))
  | _ => false
  end.

(** The context and the direction of a stream stay in its environment. *)
Definition remembers (e : Envs) (n : nat) (stream : nat * Z) : Prop :=
  exists f, own e !! n = Some f /\ f !! lua_global_context_key = Some (VLight stream.1) /\
    f !! lua_global_stream_direction = Some (VInt stream.2).

Lemma assign_other k k' x f : k' <> k -> assign k x f !! k' = f !! k'.
Proof. intros Hk. unfold assign. destruct x; by rewrite ?lookup_insert_ne, ?lookup_delete_ne. Qed.

Lemma remembers_step ev e n stream :
  remembers e n stream -> overwrites n ev = false -> remembers (spec_step ev e) n stream.
Proof.
  intros (f & Hf & Hc & Hd) Ho. destruct ev as [c d|k x|n' k x]; cbn [spec_step].
  - exists f. split_and!; [|done|done]. cbn. by apply lookup_app_l_Some.
  - by exists f.
  - destruct (decide (n' = n)) as [->|Hne].
    + exists (assign k x f). cbn. rewrite list_lookup_alter_eq, Hf. apply bool_decide_eq_false in Ho.
      split_and!; [done|rewrite assign_other; [done|]..]; intros <-; apply Ho; auto.
    + exists f. cbn. by rewrite list_lookup_alter_ne.
Qed.

Lemma remembers_run es e n stream :
  remembers e n stream -> existsb (overwrites n) es = false -> remembers (spec_run es e) n stream.
Proof.
  revert e. induction es as [|ev es IH]; intros e He; [done|]. cbn [existsb]. intros [H1 H2]%orb_false_iff.
  apply IH; [by apply remembers_step|done].
Qed.

Lemma own_step ev e : length (own (spec_step ev e)) = (length (own e) + match ev with NewStream _ _ => 1 | _ => 0 end)%nat.
Proof. destruct ev; cbn; [by rewrite length_app|lia|rewrite length_alter; lia]. Qed.

Lemma streams_cons ev es :
  streams_of (ev :: es) = match ev with NewStream c d => (c, d) :: streams_of es | _ => streams_of es end.
Proof. by destruct ev. Qed.

Lemma run_streams es e n :
  length (own (spec_run es e)) = (length (own e) + length (streams_of es))%nat /\
  forall stream, streams_of es !! n = Some stream -> existsb (overwrites (length (own e) + n)) es = false ->
    remembers (spec_run es e) (length (own e) + n) stream.
Proof.
  revert e n. induction es as [|ev es IH]; intros e n; [split; [cbn; lia|done]|].
  change (spec_run (ev :: es) e) with (spec_run es (spec_step ev e)). pose proof (own_step ev e) as Hlen.
  split.
  - destruct (IH (spec_step ev e) n) as [-> _]. rewrite Hlen, streams_cons. destruct ev; cbn [length]; lia.
  - intros stream. rewrite streams_cons. intros Hs. cbn [existsb]. intros [H1 H2]%orb_false_iff.
    assert (Hlater : forall n', (length (own (spec_step ev e)) + n' = length (own e) + n)%nat -> streams_of es !! n' = Some stream ->
      remembers (spec_run es (spec_step ev e)) (length (own e) + n) stream).
    { intros n' Heq Hs'. rewrite <- Heq in H2 |- *. by apply IH. }
    destruct ev as [c d|k x|m k x].
    + destruct n as [|n]; [|apply (Hlater n); [lia|done]]. injection Hs as <-.
      apply remembers_run; [|done]. exists (stream_env c d). cbn [spec_step own]. split_and!; [|done|done].
      rewrite lookup_app_r by lia. by rewrite Nat.add_0_r, Nat.sub_diag.
    + apply (Hlater n); [lia|done].
    + apply (Hlater n); [lia|done].
Qed.

(** What the C functions find out from the globals of the coroutine that calls them. *)
Lemma caller_view t s a l c d :
  stacks (view l) !! t = Some s -> globals (view l) !! t = Some a ->
  read_field MAXTAGLOOP (view l) a lua_global_context_key = Some (VLight c) ->
  read_field MAXTAGLOOP (view l) a lua_global_stream_direction = Some (VInt d) ->
  exists l', caller_of t l = (Some c, Some d, l') /\ view l' = set_stack t (VInt d :: VLight c :: s) (view l).
Proof.
  intros Hs Hg Hc Hd. unfold caller_of, getContext. cbn [fst snd].
  pose proof (getglobal_law t _ s _ a l Hs Hg Hc) as E1. set (l1 := lua_getglobal t lua_global_context_key l) in *.
  assert (E2 : view (lua_getglobal t lua_global_stream_direction l1) = set_stack t (VInt d :: VLight c :: s) (view l)).
  { rewrite (getglobal_law t _ (VLight c :: s) (VInt d) a l1).
    - by rewrite E1, set_stack_twice.
    - by rewrite E1; apply stack_at.
    - by rewrite E1.
    - rewrite E1. by rewrite read_field_stack. }
  eexists. split; [|exact E2].
  rewrite (touserdata_law t (-1) l1 (VLight c)) by (apply (top_index t s); by rewrite E1; apply stack_at).
  by rewrite (checkinteger_law t (-1) _ d) by (apply (top_index t (VLight c :: s)); by rewrite E2; apply stack_at).
Qed.

(** ** The package path *)

Lemma addLuaPackagePath_table t s a p P old path l :
  stacks (view l) !! t = Some s -> globals (view l) !! t = Some a ->
  read_field MAXTAGLOOP (view l) a "package" = Some (VTable p) -> tables (view l) !! p = Some P -> raw P (view l) ->
  read_field MAXTAGLOOP (view l) p "path" = Some (VStr old) ->
  exists l', addLuaPackagePath t path l = (true, l') /\
    view l' = put_table p (set_field "path" (VStr (path +:+ old)) P) (view l).
Proof.
  intros Hs Hg Hpk Hp Hraw Hold. unfold addLuaPackagePath.
  pose proof (getglobal_law t _ s _ a l Hs Hg Hpk) as E1. set (l1 := lua_getglobal t "package" l) in *.
  rewrite (istable_law t (-1) l1 (VTable p)) by (apply (top_index t s); by rewrite E1; apply stack_at). cbn [negb].
  assert (E2 : view (lua_push t (VStr path) l1) = set_stack t (VStr path :: VTable p :: s) (view l)).
  { rewrite (push_law t (VTable p :: s)) by (by rewrite E1; apply stack_at). by rewrite E1, set_stack_twice. }
  set (l2 := lua_push t (VStr path) l1) in *.
  assert (E3 : view (lua_getfield t (-2) "path" l2) = set_stack t (VStr old :: VStr path :: VTable p :: s) (view l)).
  { rewrite (getfield_law t (-2) "path" (VStr path :: VTable p :: s) (VStr old) p l2).
    - by rewrite E2, set_stack_twice.
    - by rewrite E2; apply stack_at.
    - apply (second_index t s _ (VStr path)). by rewrite E2; apply stack_at.
    - by rewrite E2, read_field_stack. }
  set (l3 := lua_getfield t (-2) "path" l2) in *.
  assert (E4 : view (lua_concat t 2 l3) = set_stack t (VStr (path +:+ old) :: VTable p :: s) (view l)).
  { rewrite (concat_law t (VTable p :: s) path old l3) by (by rewrite E3; apply stack_at). by rewrite E3, set_stack_twice. }
  set (l4 := lua_concat t 2 l3) in *.
  assert (E5 : view (lua_setfield t (-2) "path" l4) =
    put_table p (set_field "path" (VStr (path +:+ old)) P) (set_stack t (VTable p :: s) (view l))).
  { rewrite (setfield_law t (-2) "path" (VTable p :: s) (VStr (path +:+ old)) p P l4).
    - rewrite E4. by rewrite set_stack_twice.
    - by rewrite E4; apply stack_at.
    - apply (second_index t s _ (VStr (path +:+ old))). by rewrite E4; apply stack_at.
    - by rewrite E4.
    - by rewrite E4. }
  set (l5 := lua_setfield t (-2) "path" l4) in *. eexists. split; [done|].
  rewrite (pop_law t 1 (VTable p :: s) l5); [|by rewrite E5; apply stack_at|cbn; lia].
  rewrite E5, set_stack_put, set_stack_twice. cbn [drop]. by rewrite set_stack_same.
Qed.

(** Without a package table the value that was found stays on the stack. *)
Lemma addLuaPackagePath_none t s a x path l :
  stacks (view l) !! t = Some s -> globals (view l) !! t = Some a ->
  read_field MAXTAGLOOP (view l) a "package" = Some x -> (forall p, x <> VTable p) ->
  exists l', addLuaPackagePath t path l = (false, l') /\ view l' = set_stack t (x :: s) (view l).
Proof.
  intros Hs Hg Hpk Hx. unfold addLuaPackagePath.
  pose proof (getglobal_law t _ s _ a l Hs Hg Hpk) as E1. set (l1 := lua_getglobal t "package" l) in *.
  rewrite (istable_law t (-1) l1 x) by (apply (top_index t s); by rewrite E1; apply stack_at).
  destruct x; try (by eexists). by destruct (Hx a0).
Qed.

(** Context pointers that are kept under a name are read back, with the stack as before. *)
Lemma userdata_roundtrip t s a T key data l :
  stacks (view l) !! t = Some s -> globals (view l) !! t = Some a -> tables (view l) !! a = Some T -> raw T (view l) ->
  exists l', getUserData t key (setLightuserdata t key data l) = (Some data, l') /\
    view l' = put_table a (set_field key (VLight data) T) (view l).
Proof.
  intros Hs Hg Ht Hr. unfold setLightuserdata, getUserData.
  pose proof (push_setglobal_view t key s (VLight data) a T l Hs Hg Ht Hr) as E1. set (l1 := lua_setglobal t key _) in *.
  assert (E2 : view (lua_getglobal t key l1) = set_stack t (VLight data :: s) (view l1)).
  { apply (getglobal_law t key s (VLight data) a l1); [by rewrite E1|by rewrite E1|]. rewrite E1. unfold MAXTAGLOOP.
    cbn [read_field tables put_table]. rewrite lookup_insert_eq. cbn [mbind option_bind set_field fields assign].
    by rewrite lookup_insert_eq. }
  set (l2 := lua_getglobal t key l1) in *. eexists. split.
  - rewrite (touserdata_law t (-1) l2 (VLight data)); [done|]. apply (top_index t s). by rewrite E2; apply stack_at.
  - rewrite (pop_law t 1 (VLight data :: s) l2); [|by rewrite E2; apply stack_at|cbn; lia].
    rewrite E2, set_stack_twice, E1. cbn [drop]. by rewrite set_stack_same.
Qed.

(** ** The call-in functions *)

(** The table that is built on top of the stack, over a state [l0]. *)
Record building (t : nat) (s : list Val) (l0 : L) (e : nat) (F : gmap string Val) (l : L) : Prop := {
  b_stack : stacks (view l) !! t = Some (VTable e :: s);
  b_globals : globals (view l) = globals (view l0);
  b_fresh : tables (view l0) !! e = None;
  b_table : tables (view l) !! e = Some {| fields := F; metatable := None |};
  b_old : forall b T, tables (view l0) !! b = Some T -> tables (view l) !! b = Some T;
}.

(** A table of functions in the table on top of the stack. *)
Definition holds_api (l0 : L) (e : nat) (F : gmap string Val) (l : L) (name : string) (functions : list (string * string)) : Prop :=
  exists q, F !! name = Some (VTable q) /\ q <> e /\ tables (view l0) !! q = None /\
    tables (view l) !! q = Some {| fields := foldr (fun f => <[f.1 := VCFunction f.2]>) ∅ functions; metatable := None |}.

Lemma create_building t s l : stacks (view l) !! t = Some s -> exists e, building t s l e ∅ (lua_createtable t l).
Proof.
  intros Hs. destruct (createtable_law t s l Hs) as (e & He & E). exists e. constructor; rewrite ?E; try done.
  - apply stack_at.
  - apply lookup_insert_eq.
  - intros b T Hb. cbn. rewrite lookup_insert_ne; [done|]. intros ->. congruence.
Qed.

Lemma field_building t s l0 e F k f l :
  building t s l0 e F l ->
  building t s l0 e (<[k := VCFunction f]> F) (lua_setfield t (-2) k (lua_push t (VCFunction f) l)) /\
  forall b, b <> e -> tables (view (lua_setfield t (-2) k (lua_push t (VCFunction f) l))) !! b = tables (view l) !! b.
Proof.
  intros [Hs Hg He Ht Ho]. pose proof (push_law t _ (VCFunction f) l Hs) as E1. set (l1 := lua_push t _ l) in *.
  assert (E2 : view (lua_setfield t (-2) k l1) =
    put_table e {| fields := <[k := VCFunction f]> F; metatable := None |} (set_stack t (VTable e :: s) (view l))).
  { rewrite (setfield_law t (-2) k (VTable e :: s) (VCFunction f) e {| fields := F; metatable := None |} l1); rewrite ?E1.
    - by rewrite set_stack_twice.
    - apply stack_at.
    - apply (second_index t s _ (VCFunction f)). apply stack_at.
    - done.
    - done. }
  rewrite E2. split.
  - constructor; rewrite ?E2; [apply stack_at|done|done|apply lookup_insert_eq|].
    intros b T Hb. cbn. rewrite lookup_insert_ne; [by apply Ho|]. intros ->. congruence.
  - intros b Hb. cbn. by rewrite lookup_insert_ne.
Qed.

(** The fields of one table. *)
Lemma functions_building t s l0 e F functions l :
  building t s l0 e F l -> NoDup functions.*1 ->
  let l' := fold_left (fun l f => lua_setfield t (-2) f.1 (lua_push t (VCFunction f.2) l)) functions l in
  building t s l0 e (foldr (fun f => <[f.1 := VCFunction f.2]>) F functions) l' /\
  forall b, b <> e -> tables (view l') !! b = tables (view l) !! b.
Proof.
  revert F l. induction functions as [|[k f] functions IH]; intros F l Hb Hnd; [done|]. cbn zeta. cbn [fold_left foldr fst snd].
  rewrite fmap_cons in Hnd. apply NoDup_cons in Hnd as [Hk Hnd]. cbn [fst] in Hk.
  destruct (field_building t s l0 e F k f l Hb) as [Hb' Hother]. destruct (IH _ _ Hb' Hnd) as [Hb'' Hother'].
  split; [|intros b Hne; rewrite Hother' by done; by apply Hother].
  replace (<[k := VCFunction f]> (foldr (fun f => <[f.1 := VCFunction f.2]>) F functions))
    with (foldr (fun f => <[f.1 := VCFunction f.2]>) (<[k := VCFunction f]> F) functions); [done|].
  clear - Hk. induction functions as [|[k' f'] functions IH]; [done|]. cbn [foldr fst snd].
  rewrite fmap_cons, not_elem_of_cons in Hk. destruct Hk as [Hne Hk]. rewrite IH by done. by apply insert_insert_ne.
Qed.

Lemma api_building t s l0 e F name functions l :
  building t s l0 e F l -> NoDup functions.*1 ->
  exists q, building t s l0 e (<[name := VTable q]> F) (api_table t name functions l) /\
    holds_api l0 e (<[name := VTable q]> F) (api_table t name functions l) name functions /\
    forall b T, b <> e -> tables (view l) !! b = Some T -> tables (view (api_table t name functions l)) !! b = Some T.
Proof.
  intros Hb Hnd. pose proof Hb as [Hs Hg He Ht Ho]. unfold api_table.
  destruct (create_building t (VTable e :: s) l Hs) as [q Hq]. set (l1 := lua_createtable t l) in *.
  destruct (functions_building t (VTable e :: s) l q ∅ functions l1 Hq Hnd) as [Hq' Hother].
  set (l2 := fold_left _ functions l1) in *. pose proof Hq' as [Hs2 Hg2 He2 Ht2 Ho2].
  assert (Hqe : q <> e) by congruence.
  assert (E : view (lua_setfield t (-2) name l2) =
    put_table e {| fields := <[name := VTable q]> F; metatable := None |} (set_stack t (VTable e :: s) (view l2))).
  { apply (setfield_law t (-2) name (VTable e :: s) (VTable q) e {| fields := F; metatable := None |} l2);
      [done|by apply (second_index t s _ (VTable q))|by apply Ho2|done]. }
  assert (Hq0 : tables (view l0) !! q = None).
  { destruct (tables (view l0) !! q) as [T|] eqn:Hq0; [|done]. apply Ho in Hq0. congruence. }
  exists q. split; [|split].
  - constructor; rewrite ?E; [apply stack_at|cbn; congruence|done|apply lookup_insert_eq|].
    intros b T Hb0. cbn. rewrite lookup_insert_ne by (intros ->; congruence). by apply Ho2, Ho.
  - exists q. split; [apply lookup_insert_eq|]. split; [done|]. split; [done|]. rewrite E. cbn. by rewrite lookup_insert_ne.
  - intros b T Hne HT. rewrite E. cbn. rewrite lookup_insert_ne by done. by apply Ho2.
Qed.

Lemma holds_later l0 e F l l' name name' x functions :
  holds_api l0 e F l name functions -> name' <> name ->
  (forall b T, b <> e -> tables (view l) !! b = Some T -> tables (view l') !! b = Some T) ->
  holds_api l0 e (<[name' := x]> F) l' name functions.
Proof.
  intros (q & HF & Hqe & Hq0 & Hq) Hne Hkeep. exists q. rewrite lookup_insert_ne by done. by split_and!; [..|apply Hkeep].
Qed.

(** The parts and the functions of "envoy". *)
Definition envoy_apis : list (string * list (string * string)) :=
  [("req", [("get_body", "static_lua_get_request_body")]); ("resp", [("get_body", "static_lua_get_response_body")]);
   ("runtime", []); ("streaminfo", []); ("stream", [])].
Definition envoy_functions : list (string * string) :=
  [("respond", "static_lua_respond"); ("httpCall", "static_lua_http_call")].

Lemma apis_building t s l0 e F l apis :
  building t s l0 e F l -> Forall (fun api => NoDup api.2.*1) apis -> NoDup apis.*1 ->
  exists F', let l' := fold_left (fun l api => api_table t api.1 api.2 l) apis l in
    building t s l0 e F' l' /\ (forall api, api ∈ apis -> holds_api l0 e F' l' api.1 api.2) /\
    (forall k, k ∉ apis.*1 -> F' !! k = F !! k) /\
    forall b T, b <> e -> tables (view l) !! b = Some T -> tables (view l') !! b = Some T.
Proof.
  revert F l. induction apis as [|[name fs] apis IH]; intros F l Hb Hfs Hnd.
  { exists F. cbn. split_and!; [done| |done|done]. intros api Hin. by apply not_elem_of_nil in Hin. }
  apply Forall_cons in Hfs as [Hfs Hfs']. rewrite fmap_cons in Hnd. apply NoDup_cons in Hnd as [Hname Hnd]. cbn [fst snd] in Hname, Hfs.
  destruct (api_building t s l0 e F name fs l Hb Hfs) as (q & Hb' & Hh & Hkeep).
  destruct (IH _ _ Hb' Hfs' Hnd) as (F' & Hb'' & Hall & HF & Hkeep'). exists F'. cbn [fold_left fst snd]. cbn zeta in *.
  split_and!; [done| | |].
  - intros api Hin. apply elem_of_cons in Hin as [->|Hin]; [|by apply Hall]. cbn [fst snd].
    destruct Hh as (q' & HFq & Hqe & Hq0 & Hq). exists q'. rewrite HF by done. by split_and!; [..|apply Hkeep'].
  - intros k Hk. rewrite fmap_cons, not_elem_of_cons in Hk. destruct Hk as [Hne Hk]. rewrite HF by done. by apply lookup_insert_ne.
  - intros b T Hne HT. by apply Hkeep', Hkeep.
Qed.

(** The end of it: the table goes into the globals and the loaded packages. *)
Lemma loaded_building t s a G p P ld Ld l e F l2 :
  stacks (view l) !! t = Some s -> globals (view l) !! t = Some a ->
  tables (view l) !! a = Some {| fields := G; metatable := None |} -> G !! "package" = Some (VTable p) ->
  tables (view l) !! p = Some {| fields := P; metatable := None |} -> P !! "loaded" = Some (VTable ld) ->
  tables (view l) !! ld = Some {| fields := Ld; metatable := None |} -> a <> ld -> building t s l e F l2 ->
  exists l', l' = lua_setglobal t "envoy" (lua_pop t 2 (lua_setfield t (-2) "envoy" (lua_pushvalue t (-3)
      (lua_getfield t (-1) "loaded" (lua_getglobal t "package" l2))))) /\
    view l' = put_table a {| fields := <["envoy" := VTable e]> G; metatable := None |}
      (put_table ld {| fields := <["envoy" := VTable e]> Ld; metatable := None |} (set_stack t s (view l2))).
Proof.
  intros Hs Hg Ha Hpk Hp Hload Hld Hne [Hs2 Hg2 He Ht2 Ho]. eexists. split; [done|].
  assert (E3 : view (lua_getglobal t "package" l2) = set_stack t (VTable p :: VTable e :: s) (view l2)).
  { apply (getglobal_law t "package" (VTable e :: s) (VTable p) a l2); [done|congruence|]. unfold MAXTAGLOOP. cbn [read_field].
    rewrite (Ho _ _ Ha). cbn [mbind option_bind fields]. by rewrite Hpk. }
  set (l3 := lua_getglobal t "package" l2) in *.
  assert (E4 : view (lua_getfield t (-1) "loaded" l3) = set_stack t (VTable ld :: VTable p :: VTable e :: s) (view l2)).
  { rewrite (getfield_law t (-1) "loaded" (VTable p :: VTable e :: s) (VTable ld) p l3); rewrite ?E3; [by rewrite set_stack_twice|..].
    - apply stack_at.
    - apply (top_index t (VTable e :: s)). apply stack_at.
    - rewrite read_field_stack. unfold MAXTAGLOOP. cbn [read_field]. rewrite (Ho _ _ Hp). cbn [mbind option_bind fields]. by rewrite Hload. }
  set (l4 := lua_getfield t (-1) "loaded" l3) in *.
  assert (E5 : view (lua_pushvalue t (-3) l4) = set_stack t (VTable e :: VTable ld :: VTable p :: VTable e :: s) (view l2)).
  { rewrite (pushvalue_law t (-3) (VTable ld :: VTable p :: VTable e :: s) (VTable e) l4); rewrite ?E4; [by rewrite set_stack_twice|..].
    - apply stack_at.
    - apply (third_index t s _ (VTable p) (VTable ld)). apply stack_at. }
  set (l5 := lua_pushvalue t (-3) l4) in *.
  assert (E6 : view (lua_setfield t (-2) "envoy" l5) = put_table ld {| fields := <["envoy" := VTable e]> Ld; metatable := None |}
    (set_stack t (VTable ld :: VTable p :: VTable e :: s) (view l2))).
  { rewrite (setfield_law t (-2) "envoy" (VTable ld :: VTable p :: VTable e :: s) (VTable e) ld {| fields := Ld; metatable := None |} l5);
      rewrite ?E5; [by rewrite set_stack_twice|apply stack_at| |by apply Ho|done].
    apply (second_index t (VTable p :: VTable e :: s) _ (VTable e)). apply stack_at. }
  set (l6 := lua_setfield t (-2) "envoy" l5) in *.
  assert (E7 : view (lua_pop t 2 l6) = put_table ld {| fields := <["envoy" := VTable e]> Ld; metatable := None |}
    (set_stack t (VTable e :: s) (view l2))).
  { rewrite (pop_law t 2 (VTable ld :: VTable p :: VTable e :: s) l6); [|by rewrite E6; apply stack_at|cbn; lia].
    by rewrite E6, set_stack_put, set_stack_twice. }
  set (l7 := lua_pop t 2 l6) in *.
  rewrite (setglobal_law t "envoy" s (VTable e) a {| fields := G; metatable := None |} l7); rewrite ?E7.
  - by rewrite set_stack_put, set_stack_twice.
  - apply stack_at.
  - cbn. congruence.
  - cbn. rewrite lookup_insert_ne by done. by apply Ho.
  - done.
Qed.

(** The table is made, it is global and it is loaded as a package; the stack is as before. *)
Lemma initializeCallInAPIs_view t s a G p P ld Ld l :
  stacks (view l) !! t = Some s -> globals (view l) !! t = Some a ->
  tables (view l) !! a = Some {| fields := G; metatable := None |} -> G !! "package" = Some (VTable p) ->
  tables (view l) !! p = Some {| fields := P; metatable := None |} -> P !! "loaded" = Some (VTable ld) ->
  tables (view l) !! ld = Some {| fields := Ld; metatable := None |} -> a <> ld ->
  exists e F, let l' := initializeCallInAPIs t l in
    stacks (view l') !! t = Some s /\ globals (view l') = globals (view l) /\
    tables (view l') !! a = Some {| fields := <["envoy" := VTable e]> G; metatable := None |} /\
    tables (view l') !! ld = Some {| fields := <["envoy" := VTable e]> Ld; metatable := None |} /\
    tables (view l') !! e = Some {| fields := F; metatable := None |} /\
    (forall api, api ∈ envoy_apis -> holds_api l e F l' api.1 api.2) /\
    (forall f, f ∈ envoy_functions -> F !! f.1 = Some (VCFunction f.2)).
Proof.
  intros Hs Hg Ha Hpk Hp Hload Hld Hne. destruct (create_building t s l Hs) as [e He].
  destruct (apis_building t s l e ∅ (lua_createtable t l) envoy_apis He) as (F0 & Hb0 & Hall0 & HF0 & _).
  { repeat constructor; set_solver. } { apply (bool_decide_unpack _). vm_compute. exact I. }
  cbn zeta in *. set (l1 := fold_left (fun l api => api_table t api.1 api.2 l) envoy_apis _) in *.
  destruct (functions_building t s l e F0 envoy_functions l1 Hb0) as [Hb Hother].
  { apply (bool_decide_unpack _). vm_compute. exact I. }
  cbn zeta in *. set (l2 := fold_left _ envoy_functions l1) in *. set (F := foldr _ F0 envoy_functions) in *.
  destruct (loaded_building t s a G p P ld Ld l e F l2) as (l' & Hl' & E); [done..|].
  exists e, F. change (initializeCallInAPIs t l) with (lua_setglobal t "envoy" (lua_pop t 2 (lua_setfield t (-2) "envoy"
    (lua_pushvalue t (-3) (lua_getfield t (-1) "loaded" (lua_getglobal t "package" l2)))))). cbn zeta. rewrite <- Hl'.
  assert (Hea : forall b, is_Some (tables (view l) !! b) -> b <> e).
  { intros b [T HT] ->. pose proof (b_fresh _ _ _ _ _ _ Hb). congruence. }
  assert (He2 : e <> a /\ e <> ld) by (split; apply not_eq_sym, Hea; by eexists). destruct He2 as [Hea' Held].
  split_and!.
  - rewrite E. cbn. apply lookup_insert_eq.
  - rewrite E. cbn. apply (b_globals _ _ _ _ _ _ Hb).
  - rewrite E. cbn. apply lookup_insert_eq.
  - rewrite E. cbn. rewrite lookup_insert_ne by done. apply lookup_insert_eq.
  - rewrite E. cbn. rewrite !lookup_insert_ne by done. apply (b_table _ _ _ _ _ _ Hb).
  - intros [name fs] Hin. destruct (Hall0 _ Hin) as (q & HFq & Hqe & Hq0 & Hq). exists q. cbn [fst snd] in *.
    assert (Hqal : q <> a /\ q <> ld) by (split; congruence). destruct Hqal.
    split_and!; [|done|done|].
    + assert (Hn : name <> "respond" /\ name <> "httpCall").
      { clear - Hin. unfold envoy_apis in Hin. set_solver. }
      destruct Hn. unfold F. cbn. by rewrite !lookup_insert_ne.
    + rewrite E. cbn. rewrite !lookup_insert_ne by done. by rewrite Hother.
  - intros f Hin. unfold F. unfold envoy_functions in Hin |- *. cbn [foldr fst snd].
    apply elem_of_cons in Hin as [->|Hin]; [apply lookup_insert_eq|]. apply list_elem_of_singleton in Hin as ->.
    rewrite lookup_insert_ne by done. apply lookup_insert_eq.
Qed.
End Envs.

(** ** A state that has these laws: the view itself *)

Definition on_stack (t : nat) (f : list Val -> list Val) (v : LuaView) : LuaView :=
  match stacks v !! t with Some s => set_stack t (f s) v | None => v end.
Definition push_read (t : nat) (a : option nat) (k : string) (v : LuaView) : LuaView :=
  match a ≫= fun a => read_field MAXTAGLOOP v a k with Some x => on_stack t (cons x) v | None => v end.
Definition table_of (x : option Val) : option nat := match x with Some (VTable a) => Some a | _ => None end.
Definition write_top (t : nat) (a : option nat) (k : string) (v : LuaView) : LuaView :=
  match stacks v !! t, a with
  | Some (x :: s), Some a =>
      match tables v !! a with Some T => put_table a (set_field k x T) (set_stack t s v) | None => v end
  | _, _ => v
  end.

#[global] Instance LuaView_LuaApi : LuaApi LuaView := {|
  lua_newthread p v :=
    let t := fresh (dom (stacks v) ∪ dom (globals v)) in
    (Some t, match globals v !! p with
             | Some g => set_globals t g (set_stack t [] (on_stack p (cons (VThread t)) v)) | None => v end);
  lua_push t x v := on_stack t (cons x) v;
  lua_pushvalue t i v := match at_index t i v with Some x => on_stack t (cons x) v | None => v end;
  lua_createtable t v :=
    let a := fresh (dom (tables v)) in
    put_table a {| fields := ∅; metatable := None |} (on_stack t (cons (VTable a)) v);
  lua_setfield t i k v := write_top t (table_of (at_index t i v)) k v;
  lua_getfield t i k v := push_read t (table_of (at_index t i v)) k v;
  lua_setmetatable t i v :=
    match stacks v !! t, table_of (at_index t i v) with
    | Some (VTable m :: s), Some a =>
        match tables v !! a with
        | Some T => put_table a {| fields := fields T; metatable := Some m |} (set_stack t s v) | None => v end
    | _, _ => v
    end;
  lua_replace t i v :=
    match stacks v !! t with Some (VTable a :: s) => set_globals t a (set_stack t s v) | _ => v end;
  lua_setglobal t k v := write_top t (globals v !! t) k v;
  lua_getglobal t k v := push_read t (globals v !! t) k v;
  lua_concat t n v := on_stack t (fun s => match s with VStr y :: VStr x :: s => VStr (x +:+ y) :: s | _ => s end) v;
  lua_pop t n v := on_stack t (drop n) v;
  luaL_ref t v := on_stack t tail v;
  lua_touserdata t i v := match at_index t i v with Some (VLight p) => Some p | _ => None end;
  lua_istable t i v := match at_index t i v with Some (VTable _) => true | _ => false end;
  luaL_checkinteger t i v := match at_index t i v with Some (VInt z) => Some z | _ => None end;
|}.

Lemma on_stack_at t f s v : stacks v !! t = Some s -> on_stack t f v = set_stack t (f s) v.
Proof. unfold on_stack. by intros ->. Qed.

#[global] Instance LuaView_LuaLaws : LuaLaws LuaView.
Proof.
  refine {| view := fun v => v |}; intros; cbn [lua_newthread lua_push lua_pushvalue lua_createtable lua_setfield lua_getfield
    lua_setmetatable lua_replace lua_setglobal lua_getglobal lua_concat lua_pop luaL_ref lua_touserdata lua_istable
    luaL_checkinteger LuaView_LuaApi] in *.
  - pose proof (is_fresh (dom (stacks l) ∪ dom (globals l))) as Hf. rewrite not_elem_of_union, !not_elem_of_dom in Hf.
    rewrite H0 in H1. rewrite (on_stack_at _ _ s) in H1 by done. injection H1 as <- <-. by destruct Hf.
  - by apply on_stack_at.
  - rewrite H0. by apply on_stack_at.
  - eexists. split; [apply not_elem_of_dom, is_fresh|]. by rewrite (on_stack_at _ _ s).
  - unfold write_top. rewrite H, H0. cbn [table_of]. by rewrite H1.
  - unfold push_read. rewrite H0. cbn [table_of mbind option_bind]. rewrite H1. by apply on_stack_at.
  - rewrite H, H0. cbn [table_of]. by rewrite H1.
  - by rewrite H.
  - unfold write_top. by rewrite H, H0, H1.
  - unfold push_read. rewrite H0. cbn [mbind option_bind]. rewrite H1. by apply on_stack_at.
  - by rewrite (on_stack_at _ _ _ _ H).
  - by apply on_stack_at.
  - by rewrite (on_stack_at _ _ _ _ H).
  - by rewrite H.
  - by rewrite H.
  - by rewrite H.
Defined.

(** An opened state: one thread, its globals with the package table. *)
Definition opened : LuaView :=
  {| stacks := {[0%nat := []]}; globals := {[0%nat := 0%nat]};
     tables := list_to_map
       [(0%nat, {| fields := {["package" := VTable 1]}; metatable := None |});
        (1%nat, {| fields := list_to_map [("path", VStr "./?.lua"); ("loaded", VTable 2)]; metatable := None |});
        (2%nat, {| fields := ∅; metatable := None |})] |}.

Section Properties.
Context {L : Type} `{LL : LuaLaws L}.

(** C20. The sandboxes keep streams apart.  On a plugin's thread, whatever streams come and whatever scripts assign,
    each coroutine reads every name as the specification has it: its own value, else the plugin's, else the machine's;
    and when a function of the host is called from a coroutine it finds the context and the direction that coroutine
    was created with, even if a script assigns these names in the plugin or in other coroutines. *)
Theorem coroutines_isolated (parent : nat) (s : list Val) (main : nat) (lib0 : gmap string Val) (es : list lua_event) (l : L) :
  stacks (view l) !! parent = Some s -> globals (view l) !! parent = Some main ->
  tables (view l) !! main = Some {| fields := lib0; metatable := None |} ->
  (forall p l, (lua_newthread p l).1 <> None) ->
  exists th l1 ts l2, new_LuaThread parent l = Ok (th, l1) /\ lua_run th [] es l1 = Ok (ts, l2) /\
    length ts = length (streams_of es) /\
    forall n t, ts !! n = Some t ->
      (forall k, k <> "_G" -> exists a, globals (view l2) !! t = Some a /\
         read_field MAXTAGLOOP (view l2) a k = Some (spec_read (spec_run es {| lib := lib0; shared := ∅; own := [] |}) n k)) /\
      (forall context direction, streams_of es !! n = Some (context, direction) -> existsb (overwrites n) es = false ->
         exists l3, caller_of t l2 = (Some context, Some direction, l3)).
Proof.
  intros Hs Hg Ht Hnew. destruct (plugin_thread_ok parent s main lib0 l Hs Hg Ht (Hnew _ _)) as (th & l1 & Hth & Hrep).
  destruct (lua_run_ok th es [] _ l1 Hrep Hnew) as (ts & l2 & Hrun & Hrep2). exists th, l1, ts, l2. split; [done|]. split; [done|].
  set (e0 := {| lib := lib0; shared := ∅; own := [] |}) in *.
  split; [rewrite <- (represents_length _ _ _ _ Hrep2); by destruct (run_streams es e0 0) as [-> _]|].
  intros n t Hn. split; [intros k Hk; by eapply represents_read|]. intros context direction Hc Ho.
  destruct (run_streams es e0 n) as [_ Hrem]. destruct (Hrem _ Hc Ho) as (f & Hf & Hctx & Hdir).
  destruct (represents_read th ts _ _ n t lua_global_context_key Hrep2 Hn) as (a & Ha & Hr1); [done|].
  destruct (represents_read th ts _ _ n t lua_global_stream_direction Hrep2 Hn) as (a' & Ha' & Hr2); [done|].
  assert (a' = a) as -> by congruence. cbn [length own e0 Nat.add] in Hf.
  unfold spec_read in Hr1, Hr2. rewrite Hf in Hr1, Hr2. cbn [mbind option_bind fst snd] in *. rewrite Hctx in Hr1. rewrite Hdir in Hr2.
  destruct (caller_view t [] a l2 context direction) as (l3 & Hl3 & _); [by eapply represents_stack|done..|]. by exists l3.
Qed.
End Properties.

(** Two streams; scripts assign the reserved name in the plugin, and names in the first coroutine. *)
Definition example_events : list lua_event :=
  [NewStream 7 0; ScriptGlobal "_envoy_context" (VLight 9); NewStream 8 1; ScriptGlobal "count" (VInt 1);
   CoroutineGlobal 0 "count" (VInt 5)].

Lemma coroutines_isolated_witness :
  exists th l1 ts l2, new_LuaThread 0 opened = Ok (th, l1) /\ lua_run th [] example_events l1 = Ok (ts, l2) /\
    length ts = length (streams_of example_events) /\
    forall n t, ts !! n = Some t ->
      (forall k, k <> "_G" -> exists a, globals (view l2) !! t = Some a /\
         read_field MAXTAGLOOP (view l2) a k =
           Some (spec_read (spec_run example_events {| lib := {["package" := VTable 1]}; shared := ∅; own := [] |}) n k)) /\
      (forall context direction, streams_of example_events !! n = Some (context, direction) ->
         existsb (overwrites n) example_events = false -> exists l3, caller_of t l2 = (Some context, Some direction, l3)).
Proof.
  apply (coroutines_isolated 0 [] 0 {["package" := VTable 1]} example_events opened); [reflexivity|reflexivity|vm_compute; reflexivity|done].
Defined.

(** ... evaluated: the callers, and what the coroutines read. *)
Example example_callers :
  match new_LuaThread 0 opened with
  | Ok (th, l1) =>
      match lua_run th [] example_events l1 with
      | Ok (ts, l2) =>
          map (fun t => ((caller_of t l2).1, read_field MAXTAGLOOP l2 (default 0%nat (globals l2 !! t)) "count")) ts
      | _ => []
      end
  | _ => []
  end = [((Some 7%nat, Some 0), Some (VInt 5)); ((Some 8%nat, Some 1), Some (VInt 1))].
Proof. vm_compute. reflexivity. Qed.

(** The path is put before the old one, and the stack is as before; without a package table it is not. *)
Example example_path :
  (let r := addLuaPackagePath 0 "/lib/?.lua;" opened in
   (r.1, stacks r.2 !! 0%nat, (tables r.2 !! 1%nat) ≫= fun T => fields T !! "path"))
    = (true, Some [], Some (VStr "/lib/?.lua;./?.lua")) /\
  (let r := addLuaPackagePath 0 "/lib/?.lua;" (put_table 0 {| fields := ∅; metatable := None |} opened) in
   (r.1, stacks r.2 !! 0%nat)) = (false, Some [VNil]).
Proof. vm_compute. by split. Qed.
