(* ===== verification/Clients.v ===== *)
(** * Clients of other services (source/common/kafka, source/common/redis/client)

    The Kafka producer creates its handles again until it has both; the blocking Redis client
    connects to the first valid node of its configuration.  librdkafka and redis++ are not part of
    this code: what they answer is an argument of each call. *)

From S2P Require Import Prelude.
From Stdlib Require Import Ascii.
From stdpp Require Import base gmap strings numbers list.
#[local] Open Scope proxy_scope.

(** ** The Kafka producer *)

Module Kafka.

(** Handles of librdkafka are numbered as they are created; a topic handle uses the producer it was made with. *)
Record Topic := { made_with : nat; topic_name : string }.
Record KafkaProducer := {
  brokers_string_ : string;
  topic_string_ : string;
  producer_ : option nat;
  conf_ : bool;
  topicConf_ : bool;
  topic_ : option Topic;
  next : nat;
}.

(** What the library answers while handles are created. *)
Record Answers := { conf_created : bool; topicConf_created : bool; servers_set : bool;
                    producer_created : bool; topic_created : bool }.

Definition createProducer (a : Answers) (k : KafkaProducer) : KafkaProducer :=
  if String.eqb (brokers_string_ k) "" || String.eqb (topic_string_ k) "" then k
  else
    let with_handles p t n :=
      {| brokers_string_ := brokers_string_ k; topic_string_ := topic_string_ k; producer_ := p;
         conf_ := conf_created a; topicConf_ := topicConf_created a; topic_ := t; next := n |} in
    if negb (conf_created a && topicConf_created a) then with_handles (producer_ k) (topic_ k) (next k)
    else if negb (servers_set a) then with_handles (producer_ k) (topic_ k) (next k)
    else if negb (producer_created a) then with_handles None (topic_ k) (next k)
    else
      let t := if topic_created a then Some {| made_with := next k; topic_name := topic_string_ k |} else None in
      with_handles (Some (next k)) t (S (next k)).

Definition new_KafkaProducer (brokers topic : string) (a : Answers) : KafkaProducer :=
  createProducer a {| brokers_string_ := brokers; topic_string_ := topic; producer_ := None; conf_ := false;
                      topicConf_ := false; topic_ := None; next := 0 |}.

(** Calls of the producer handle. *)
Inductive effect := Produce (producer : nat) (t : Topic) (message : string) | Flush (producer : nat).

Definition handles (k : KafkaProducer) : option (nat * Topic) :=
  match topic_ k, producer_ k with Some t, Some p => Some (p, t) | _, _ => None end.

(** Whether the message is accepted is only logged. *)
Definition produce (message : string) (a : Answers) (k : KafkaProducer) : KafkaProducer * list effect :=
  let k' := match handles k with Some _ => k | None => createProducer a k end in
  match handles k' with
  | Some (p, t) => (k', [Produce p t message])
  | None => (k', [])
  end.

(** [KafkaProducer::~KafkaProducer] *)
Definition delete_KafkaProducer (k : KafkaProducer) : list effect :=
  match handles k with Some (p, _) => [Flush p] | None => [] end.

Fixpoint produce_all (l : list (string * Answers)) (k : KafkaProducer) : KafkaProducer * list effect :=
  match l with
  | [] => (k, [])
  | (m, a) :: l' =>
      let '(k1, e1) := produce m a k in
      let '(k2, e2) := produce_all l' k1 in (k2, e1 ++ e2)
  end.

(** ** Handles *)

(** A topic handle uses the producer handle that is kept, and names the configured topic. *)
Definition producer_ok (k : KafkaProducer) : Prop :=
  forall t, topic_ k = Some t -> producer_ k = Some (made_with t) /\ topic_name t = topic_string_ k.

Lemma createProducer_strings a k :
  brokers_string_ (createProducer a k) = brokers_string_ k /\ topic_string_ (createProducer a k) = topic_string_ k.
Proof. unfold createProducer. by repeat case_match. Qed.

(** Handles are created while one is missing, so the old topic handle, which would outlive its producer, is null. *)
Lemma createProducer_ok a k : producer_ok k -> handles k = None -> producer_ok (createProducer a k).
Proof.
  intros Hk Hnone. assert (Ht : topic_ k = None).
  { destruct (topic_ k) as [t|] eqn:Et; [|done]. unfold handles in Hnone. rewrite Et in Hnone.
    by rewrite (proj1 (Hk t Et)) in Hnone. }
  unfold createProducer. destruct (_ || _); [done|].
  destruct (negb (conf_created a && topicConf_created a)), (negb (servers_set a)), (negb (producer_created a));
    intros t; cbn; rewrite ?Ht; try done. destruct (topic_created a); [|done]. by intros [= <-].
Qed.

Lemma new_KafkaProducer_ok brokers topic a : producer_ok (new_KafkaProducer brokers topic a).
Proof. apply createProducer_ok; [|done]. by intros t. Qed.

Lemma produce_ok m a k : producer_ok k -> producer_ok (produce m a k).1.
Proof.
  intros Hk. unfold produce. destruct (handles k) as [[p t]|] eqn:E; [by rewrite E|]. 
  pose proof (createProducer_ok a k Hk E). destruct (handles (createProducer a k)) as [[??]|]; done.
Qed.

Lemma handles_stay m a k h : handles k = Some h -> produce m a k = (k, [Produce h.1 h.2 m]).
Proof. intros E. unfold produce. rewrite E. cbn. rewrite E. by destruct h. Qed.

(** ** Messages *)

(** Once there are handles every message is given to them, in order, and exactly once. *)
Theorem kafka_ready l k p t :
  handles k = Some (p, t) -> produce_all l k = (k, (fun ma => Produce p t ma.1) <$> l).
Proof.
  intros E. induction l as [|[m a] l IH]; cbn [produce_all]; [done|].
  by rewrite (handles_stay m a k _ E), IH.
Qed.

(** On every run, what is sent is what was given from some message on: messages are lost only before the
    handles were first created, and all go to the same topic handle, of the configured name. *)
Theorem kafka_loses_only_the_first l k :
  producer_ok k ->
  exists lost sent, l = lost ++ sent /\
    match sent with
    | [] => (produce_all l k).2 = []
    | _ => exists t, topic_name t = topic_string_ k /\
             (produce_all l k).2 = (fun ma => Produce (made_with t) t ma.1) <$> sent
    end.
Proof.
  revert k. induction l as [|[m a] l IH]; intros k Hk; [by exists [], []|].
  set (k' := match handles k with Some _ => k | None => createProducer a k end).
  assert (Hk' : producer_ok k') by (subst k'; destruct (handles k) eqn:E; [done|by apply createProducer_ok]).
  assert (Hs : topic_string_ k' = topic_string_ k)
    by (subst k'; destruct (handles k); [done|apply createProducer_strings]).
  assert (Hm : produce m a k = match handles k' with Some (p, t) => (k', [Produce p t m]) | None => (k', []) end) by done.
  cbn [produce_all]. rewrite Hm. clearbody k'. clear Hm.
  destruct (handles k') as [[p t]|] eqn:E; cbn.
  - exists [], ((m, a) :: l). split; [done|]. rewrite (kafka_ready l k' p t E). cbn.
    unfold handles in E. destruct (topic_ k') as [t'|] eqn:Et; [|done].
    destruct (Hk' t' Et) as [Hp Hn]. rewrite Hp in E. injection E as <- <-. exists t'. split; [congruence|done].
  - destruct (IH k' Hk') as (lost & sent & -> & Hrest). rewrite Hs in Hrest.
    exists ((m, a) :: lost), sent. split; [done|].
    by destruct (produce_all _ k') as [k2 e2].
Qed.

(** Without brokers or a topic nothing is ever sent. *)
Theorem kafka_unconfigured brokers topic a l :
  brokers = "" \/ topic = "" -> (produce_all l (new_KafkaProducer brokers topic a)).2 = [].
Proof.
  intros Hempty. set (k := {| brokers_string_ := brokers; topic_string_ := topic; producer_ := None; conf_ := false;
                              topicConf_ := false; topic_ := None; next := 0 |}).
  assert (Hc : forall a, createProducer a k = k) by (intros b; unfold createProducer; by destruct Hempty as [->| ->]; rewrite ?orb_true_r).
  unfold new_KafkaProducer. fold k. rewrite Hc. induction l as [|[m b] l IH]; [done|]. cbn [produce_all].
  unfold produce. change (handles k) with (@None (nat * Topic)). cbn. rewrite Hc. cbn.
  by destruct (produce_all l k).
Qed.

End Kafka.

(** ** The blocking Redis client *)

Module Blocking.

Record ClientOptions := { hosts_ : string; password_ : string; connect_timeout_ : Z; socket_timeout_ : Z;
                          pool_size_ : Z; keep_alive_ : bool }.
(** Options of redis++ that are set; [None] keeps the default of the library. *)
Record ConnectionOptions := { host : string; port : Z; password : string; connect_timeout : option Z;
                              socket_timeout : option Z; keep_alive : bool; size : option Z }.

Section client.
(** Splitting at a delimiter without empty parts, and the numbers of type [int] in a text. *)
Context (splitToken : string -> string -> list string) (SimpleAtoi : string -> option Z).

Definition parseRedisNode (i : string) : option (string * Z) :=
  match splitToken i ":" with
  | [h; p] => match SimpleAtoi p with Some port => Some (h, port) | None => None end
  | _ => None
  end.
Definition parseRedisNodes (src : string) : list (string * Z) :=
  if (String.length src =? 0)%nat then [] else omap parseRedisNode (splitToken src ",").

(** The socket timeout is written where the connect timeout is. *)
Definition connectToGeneral (options : ClientOptions) : outcome ConnectionOptions :=
  match parseRedisNodes (hosts_ options) with
  | [] => Throw "no valid redis host"
  | (h, p) :: _ =>
      let connect := if negb (connect_timeout_ options =? 0)%Z then Some (connect_timeout_ options) else None in
      let connect := if negb (socket_timeout_ options =? 0)%Z then Some (socket_timeout_ options) else connect in
      Ok {| host := h; port := p; password := password_ options; connect_timeout := connect;
            socket_timeout := None; keep_alive := keep_alive_ options;
            size := if (0 <? pool_size_ options)%Z then Some (pool_size_ options) else None |}
  end.

(** [RedisClient::RedisClient]; [connect] is the constructor of [sw::redis::Redis], with the text of its error. *)
Definition new_RedisClient {R} (connect : ConnectionOptions -> outcome R) (options : ClientOptions) : outcome R :=
  let* opts := connectToGeneral options in connect opts.

Context (split_spec : forall c s, splitToken s (String c "") = split_skip_empty c s).

(** A node of the text, whole and well formed. *)
Definition node_text (h port : string) : string := h +:+ ":" +:+ port.
Definition plain (s : string) : bool :=
  negb (String.eqb s "") && string_forallb (fun a => bool_decide (a <> ":"%char) && bool_decide (a <> ","%char)) s.

Fixpoint hosts_text (l : list string) : string :=
  match l with [] => "" | [x] => x | x :: l' => x +:+ "," +:+ hosts_text l' end.

Lemma split_from_plain c acc s t :
  string_forallb (fun a => bool_decide (a <> c)) s = true ->
  split_from c acc (s +:+ t) = split_from c (acc +:+ s) t.
Proof.
  revert acc. induction s as [|a s IH]; intros acc; cbn [string_forallb].
  - intros _. by rewrite string_app_nil.
  - intros [Ha Hs]%andb_prop. apply bool_decide_eq_true in Ha.
    change (String a s +:+ t) with (String a (s +:+ t)). cbn [split_from]. rewrite decide_False by done.
    rewrite IH by done. by rewrite string_app_assoc.
Qed.

Lemma split_plain c s t :
  string_forallb (fun a => bool_decide (a <> c)) s = true -> s <> "" ->
  split_skip_empty c (s +:+ String c t) = s :: split_skip_empty c t /\ split_skip_empty c s = [s].
Proof.
  intros Hs Hne. unfold split_skip_empty, Prelude.split. split.
  - rewrite split_from_plain by done. cbn [split_from]. rewrite decide_True by done.
    change ("" +:+ s) with s. by rewrite filter_cons, decide_True.
  - pose proof (split_from_plain c "" s "" Hs) as E. rewrite string_app_nil in E. rewrite E. cbn [split_from].
    change ("" +:+ s) with s. by rewrite filter_cons, decide_True.
Qed.

Lemma plain_without c s :
  plain s = true -> c = ":"%char \/ c = ","%char -> string_forallb (fun a => bool_decide (a <> c)) s = true /\ s <> "".
Proof.
  unfold plain. intros [Hne Hs]%andb_prop Hc. split; [|by intros ->].
  clear Hne. induction s as [|a s IH]; [done|]. cbn in *. apply andb_prop in Hs as [Ha Hs].
  apply andb_prop in Ha as [H1 H2]. rewrite IH by done. by destruct Hc as [-> | ->]; rewrite ?H1, ?H2.
Qed.

(** The nodes of a configuration are found again, in order, whenever their ports can be read. *)
Theorem redis_nodes_found (l : list (string * string * Z)) :
  Forall (fun e => plain e.1.1 = true /\ plain e.1.2 = true /\ SimpleAtoi e.1.2 = Some e.2) l ->
  parseRedisNodes (hosts_text ((fun e => node_text e.1.1 e.1.2) <$> l)) = (fun e => (e.1.1, e.2)) <$> l.
Proof.
  intros Hl. unfold parseRedisNodes. destruct l as [|e0 l0]; [done|].
  assert (Hlen : (String.length (hosts_text ((fun e => node_text e.1.1 e.1.2) <$> e0 :: l0)) =? 0)%nat = false).
  { apply Nat.eqb_neq. apply Forall_cons in Hl as [[H0 _] _]. destruct (plain_without ":"%char _ H0) as [_ Hne]; [by left|].
    destruct e0 as [[h p] n], l0; destruct h; done. }
  rewrite Hlen. clear Hlen. rewrite split_spec. revert Hl. generalize (e0 :: l0). clear e0 l0. intros l.
  induction 1 as [|e l (Hh & Hp & Hn) Hl IH]; [done|].
  assert (Hnode : parseRedisNode (node_text e.1.1 e.1.2) = Some (e.1.1, e.2)).
  { destruct (plain_without ":"%char _ Hh) as [H1 H2]; [by left|].
    destruct (plain_without ":"%char _ Hp) as [H3 H4]; [by left|].
    unfold parseRedisNode, node_text. rewrite split_spec.
    change (":" +:+ e.1.2) with (String ":" e.1.2).
    rewrite (proj1 (split_plain _ _ _ H1 H2)), (proj2 (split_plain _ _ "" H3 H4)). by rewrite Hn. }
  assert (Htext : string_forallb (fun a => bool_decide (a <> ","%char)) (node_text e.1.1 e.1.2) = true /\
                  node_text e.1.1 e.1.2 <> "").
  { destruct (plain_without ","%char _ Hh) as [H1 H2]; [by right|].
    destruct (plain_without ","%char _ Hp) as [H3 H4]; [by right|].
    split; [unfold node_text|by destruct e as [[[] ?] ?]]. by rewrite !string_forallb_app, H1, H3. }
  destruct Htext as [H1 H2]. destruct l as [|e' l].
  - cbn [fmap list_fmap hosts_text]. rewrite (proj2 (split_plain _ _ "" H1 H2)). cbn. by rewrite Hnode.
  - change (hosts_text _) with (node_text e.1.1 e.1.2 +:+ String "," (hosts_text ((fun e => node_text e.1.1 e.1.2) <$> e' :: l))).
    rewrite (proj1 (split_plain _ _ _ H1 H2)). cbn [omap list_omap]. rewrite Hnode. exact (f_equal (cons _) IH).
Qed.
End client.
End Blocking.
